(* ===== verification/_CoqProject ===== *)
-Q . S2P
Prelude.v
GoStrings.v
GoNet.v
StrUtil.v
GoOS.v
Exits.v
FileUtil.v
Paths.v
GoErrors.v
GoCodec.v
GoCrypto.v
ToyCrypto.v
GoJSON.v
JsonDecode.v
CertUtil.v
Samples.v
GoHTTP.v
Authorities.v
KsState.v
Token.v
Operation.v
WorldConfig.v
KeyApi.v
Api.v
ClientServer.v
GoTime.v
GoTemp.v
KeyClient.v
KeyActions.v
Converge.v
Settled.v
KeyGateway.v
Keygen.v
Tools.v
Kube.v
UserGrant.v
LocalCerts.v
Prom.v
DnsMonitor.v
Flannel.v
FlannelMonitor.v
EtcdExporter.v
PullMonitor.v
AuthMonitor.v
