(* ===== verification/Prelude.v ===== *)
(** * Homeworld: the programs of the platform

    Homeworld (src/platform) sets up clusters of machines. Its key system gives every
    machine and administrator the keys and certificates that they need: a key server
    holds the authorities and signs; a key client on each node makes the private keys,
    bootstraps with a one-time token, and keeps certificates and configuration files up to
    date. Around it are the programs that start kubernetes on a node, deploy what runs in the
    cluster, give users their credentials, and monitor all of that. This development models
    these programs, which are all of the Go code, and proves what makes them correct.

    ** How the program is modelled

    Go code is a computation [M (World X)] of a state monad over [World X]: a machine
    ([os]: clock, random source, file tree, injected failures of system calls, replies of
    external commands, log) and the memory of the component ([comp]). A computation returns,
    panics or exits the process ([outcome]); [(T, error)] is [result T]. What the machine
    answers (ticks of the clock, random bytes, failures, replies) is a part of the state that
    the operations consume, so a theorem for all states covers every clock, every random
    source and every failure. Objects that the code shares by pointer (accounts, groups,
    contexts, registries, tokens, the server) are in a heap ([KsState]), and privileges, which
    are closures in Go, are data with the call as an interpreter ([Operation]).

    What is not in the repository is a parameter with its documented laws: github.com/pkg/errors
    ([GoErrors.PkgErrors]), the cryptographic packages ([GoCrypto.Crypto], of which [ToyCrypto]
    is a concrete one), the parser of YAML ([WorldConfig]), the network ([Api.Network]), the
    clients of kubernetes ([Kube.ClientCmd], [UserGrant.KubeAPI], [Flannel.KubeReader]), of
    Prometheus ([Prom.Prometheus], of which [Prom.ToyProm] is a concrete one), of SSH and of
    Kerberos ([AuthMonitor]). The
    standard library is modelled where the code uses it: strings and paths ([GoStrings]),
    addresses ([GoNet]), files and commands ([GoOS]), base64 and SHA-256 ([GoCodec]),
    encoding/json ([GoJSON], [JsonDecode]), net/http ([GoHTTP]), durations ([GoTime]),
    temporary files and [defer] ([GoTemp]), the ends of programs ([Exits]).

    ** The files

    - [Prelude]: outcomes, errors, the monad and its frames ([keeps], [returns], [safe]).
    - [GoStrings], [GoNet], [GoOS], [GoErrors], [GoCodec], [GoCrypto], [GoJSON], [JsonDecode],
      [GoHTTP], [GoTime], [GoTemp], [Exits]: the libraries under the program. [ToyCrypto],
      [Samples]: concrete inputs.
    - [StrUtil], [FileUtil], [CertUtil]: src/platform/util (strutil, netutil, osutil; fileutil;
      wraputil, certutil, csrutil).
    - [Authorities]: keyserver/authorities (tls.go, ssh.go): loading, verifying, signing.
    - [KsState], [Token]: the server's heap; keyserver/token, token/scoped and verifier, sequentially
      and as interleaved critical sections ([Token.step]).
    - [Operation]: keyserver/account (account.go, privileges.go) and keyserver/operation.
    - [WorldConfig]: worldconfig (apis.go, spiresetup.go, keyserver.go), keyserver/config.
    - [KeyApi]: keyserver/keyapi: authentication, handlers, the served certificate, [Run].
    - [Paths]: worldconfig/paths. [Api]: api/endpoint, api/reqtarget, api/server, api/knc,
      api/config.go.
    - [ClientServer]: the client of [Api] over the server of [KeyApi].
    - [KeyClient], [KeyActions], [Converge]: keyclient/state, actions and actloop;
      worldconfig/keyclient.go; setup/load.go and the main function. [Settled]: the daemon on a
      node that has all that it is granted.
    - [KeyGateway]: keygateway. [Keygen]: keygen. [Tools]: the programs keyserver, keyinitadmit
      and keyreq. [LocalCerts]: keylocalcert and keygenupstream.
    - [Kube]: kubernetes (launch.go, wrapper), kube-state-metrics, setup-queue.
    - [UserGrant]: user-grant: its arguments, its server, its page.
    - [Prom]: the client of Prometheus, the loop that every monitor runs, the types of metrics.
      [DnsMonitor]: dns-monitor. [Flannel]: flannel-monitor/common and reflector;
      [FlannelMonitor]: its monitor and its collector. [EtcdExporter]: etcd-metrics-exporter.
      [PullMonitor]: pull-monitor. [AuthMonitor]: auth-monitor.

    ** What is proved

    - Authorisation: an API answer is 200 only when the request was authenticated and every
      operation was performed within what the account may become
      ([KeyApi.apiToHTTP_authorized], [Operation.InvokeAPIOperationSet_confined]); which accounts
      may become which ([WorldConfig.GenerateAccounts_impersonation]); what a request without
      credentials or outside of the API gets.
    - Tokens: in every interleaving a token is claimed once ([Token.single_use]).
      A set of operations that is refused keeps what it did before
      ([Operation.InvokeAPIOperationSet_refused]).
    - Configuration: exactly which setups load ([WorldConfig.validate_setup_spec]), what each node
      is granted ([WorldConfig.GrantsForNodeAccount_spec]), and the context that the server makes
      of the files on its disk ([WorldConfig.GenerateConfig_spec]). A null node of the setup, which
      YAML allows, makes it panic.
    - Certificates: what is signed, for whom and for how long.
    - Client and server: a remote call is a local one ([ClientServer.remote_operations]).
    - The key client: on every network and machine a cycle does not panic, never changes a
      private key and touches no other files than its own ([Converge.ConvergeState_spec],
      [Converge.keyclient_main_spec]); on a node that has all that it is granted it only goes on
      asking for the rest ([Settled.settled_daemon]); the token is used up only by an accepted request
      ([KeyClient.Bootstrap_spec]); refusals are remembered by downloads and, by a mistake in
      the code, not by certificate requests ([KeyActions]).
    - The other programs: the gateway only acts for the authenticated principal
      ([KeyGateway.keygateway_impersonates]); the generated authorities load
      ([Keygen.GenerateKeys_loadable]); how keyreq and keylocalcert end
      ([Tools.keyreq_main_spec], [LocalCerts.keylocalcert_main_spec]).
    - Kubernetes: a launch runs one command of the service asked for, with the settings of the
      node and without anonymous access, or none, which for two settings of the kubelet is not even
      reported ([Kube.LaunchService_spec]); the deployment queue loses nothing ([Kube.DeployAll_spec]).
    - Users: user-grant asks the cluster only for what belongs to a user whose certificate
      proves the name ([UserGrant.grant_mux_confined]), and answers with a matching key and
      certificate ([UserGrant.HandleRequest_issues]); the certificates of keygenupstream are
      such ([LocalCerts.Generate_for_grant]).
    - Monitors: what the metrics say after a cycle is what was found in that cycle
      ([DnsMonitor.dns_cycle_spec], [DnsMonitor.dns_main_typed], [FlannelMonitor.collector_cycle_spec],
      [AuthMonitor.auth_cycle_spec], [EtcdExporter.getVersionPeriodically_spec]), labelled and of
      the kind that was declared ([Prom.typed]); where names are not valid UTF-8 the cycle panics,
      as the client of Prometheus has no label for them. A pod that pull-monitor runs is taken down
      when there is no error ([PullMonitor.runPod_spec]), and comes to an end only if crictl says so:
      there is no timeout ([PullMonitor.runPod_ends]).
    - The utilities: address parsing, templates, file creation and its three ends.

    ** Bounds and fuel

    Integers that the code keeps at a width are reduced where it matters ([CertUtil.uint64],
    [CertUtil.int64], serial numbers, [KeyActions.time_Sub]); times and durations are integers
    of nanoseconds otherwise. Fuel is used by the scanner of JSON texts ([GoJSON]: twice the
    length of the text, and each step drops a byte), by SHA-256 ([GoCodec]: the length of the
    message), by [GoTime.FormatOct] (22 octal digits hold 64 bits), by [GoTime.ParseDuration] (the
    length of the text) and by [EtcdExporter.append_certs] (the length of the text). The names
    that [GoTemp.TempFile] tries are ten thousand, as in Go. The wait for a container, which may
    never end, is run for a number of questions, and says so when they are used up
    ([PullMonitor.wait_exit]); the replies of commands are an infinite sequence ([GoOS.replies]). The
    loop of the key client runs over the list of
    what the calls of Cancel make of its rounds; the loops of the monitors, which do not end,
    run over a list of their first rounds, and every theorem is for every such list.

    ** Not modelled

    The serving goroutine and the shutdown of net/http; the modification times of directories
    (taken as the epoch); the details of texts of errors made by the standard library; that a
    scrape may run between two steps of a cycle of a monitor. The other Go code of src/platform
    are the helpers of its tests (testutil, testkeyutil), which no program uses. Left aside: the
    Python and Bazel parts. *)

From stdpp Require Export base tactics list strings gmap option numbers pretty.
From Stdlib Require Export Ascii.

#[global] Open Scope Z_scope.
#[export] Set Default Goal Selector "!".

(** ** Outcomes, errors and results of Go calls *)

(** What a call may do besides mutating state: return, panic (nil dereference,
    slice bounds, explicit [panic]) or end the process ([os.Exit],
    [log.Fatal]). *)
Inductive outcome (A : Type) : Type :=
| Return (a : A)
| Panic (why : string)
| Exit (code : Z).
Arguments Return {_} _.
Arguments Panic {_} _.
Arguments Exit {_} _.

(** The non-nil values of Go's [error] interface that the program tells
    apart: by type assertion ([OperationForbiddenError],
    [OperationForbidden]), by [os.IsNotExist] ([PathError]) or only by their
    text. [ForeignError] and [ForeignWrapper] are values of types declared
    outside the repository: their text, and for a wrapper the error that its
    [Cause] method returns. *)
Inductive error : Type :=
| ErrorString (msg : string)
| StdError (what : string)
| PathError (op path : string) (not_exist : bool)
| OperationForbiddenError (Principal API : string)
| OperationForbidden
| ForeignError (msg : string)
| ForeignWrapper (msg : string) (cause : error).

(** The text of an error, its [Error] method. Of the errors that the standard
    library makes, only the operation that failed is kept. *)
Definition Error (e : error) : string :=
  match e with
  | ErrorString msg => msg
  | StdError what => what
  | PathError op path not_exist =>
      op +:+ " " +:+ path +:+ ": " +:+
      (if not_exist then "no such file or directory" else "operation failed")
  | OperationForbiddenError principal api =>
      "account " +:+ principal +:+ " does not have access to API call " +:+ api
  | OperationForbidden => "operation forbidden by server"
  | ForeignError msg => msg
  | ForeignWrapper msg _ => msg
  end.

(** [(T, error)] as Go functions return it: the value when the error is nil. *)
Inductive result (A : Type) : Type :=
| Ok (a : A)
| Err (e : error).
Arguments Ok {_} _.
Arguments Err {_} _.

Definition is_ok {A} (r : result A) : bool :=
  match r with Ok _ => true | Err _ => false end.

Definition result_value {A} (r : result A) : option A :=
  match r with Ok a => Some a | Err _ => None end.

#[export] Instance result_ret : MRet result := @Ok.
#[export] Instance result_bind : MBind result := λ A B f r,
  match r with Ok a => f a | Err e => Err e end.

#[export] Instance result_fmap : FMap result := λ A B f r,
  match r with Ok a => Ok (f a) | Err e => Err e end.

#[export] Instance outcome_ret : MRet outcome := @Return.
#[export] Instance outcome_bind : MBind outcome := λ A B f o,
  match o with
  | Return a => f a
  | Panic w => Panic w
  | Exit c => Exit c
  end.

(** ** The state monad of effectful Go code *)

Definition M (S A : Type) : Type := S → outcome A * S.

#[export] Instance M_ret {S} : MRet (M S) := λ A a s, (Return a, s).
#[export] Instance M_bind {S} : MBind (M S) := λ A B f m s,
  match m s with
  | (Return a, s') => f a s'
  | (Panic w, s') => (Panic w, s')
  | (Exit c, s') => (Exit c, s')
  end.

Definition get {S} : M S S := λ s, (Return s, s).
Definition gets {S A} (f : S → A) : M S A := λ s, (Return (f s), s).
Definition modify {S} (f : S → S) : M S unit := λ s, (Return tt, f s).
Definition panic {S A} (why : string) : M S A := λ s, (Panic why, s).
Definition exit {S A} (code : Z) : M S A := λ s, (Exit code, s).
Definition liftO {S A} (o : outcome A) : M S A := λ s, (o, s).

(** [x, err := m; if err != nil { return zero, err }; k] *)
Definition try_bind {N : Type → Type} `{!MRet N, !MBind N} {A B}
    (f : A → N (result B)) (m : N (result A)) : N (result B) :=
  m ≫= λ r, match r with Ok a => f a | Err e => mret (Err e) end.

(** [x, err := m; if err != nil { return zero, wrap(err) }; k] *)
Definition try_bind_with {N : Type → Type} `{!MRet N, !MBind N} {A B}
    (w : error → error) (f : A → N (result B)) (m : N (result A)) : N (result B) :=
  m ≫= λ r, match r with Ok a => f a | Err e => mret (Err (w e)) end.

Notation "x ←? m ; k" := (try_bind (λ x : _, k) m)
  (at level 20, m at level 100, k at level 200, only parsing) : stdpp_scope.
Notation "' x ←? m ; k" := (try_bind (λ x : _, k) m)
  (at level 20, x pattern, m at level 100, k at level 200, only parsing) : stdpp_scope.
Notation "x ←[ w ] m ; k" := (try_bind_with w (λ x : _, k) m)
  (at level 20, w at level 200, m at level 100, k at level 200, only parsing) : stdpp_scope.
Notation "m ;? k" := (try_bind (λ _ : unit, k) m)
  (at level 100, k at level 200, right associativity, only parsing) : stdpp_scope.
Abbreviation ok a := (mret (Ok a)) (only parsing).
Abbreviation fail e := (mret (Err e)) (only parsing).

(** A loop over a slice whose body may return an error early. *)
Fixpoint for_each {N : Type → Type} `{!MRet N, !MBind N} {A}
    (f : A → N (result unit)) (l : list A) : N (result unit) :=
  match l with
  | [] => mret (Ok tt)
  | a :: l => f a ;? for_each f l
  end.

(** The same with an accumulator. *)
Fixpoint fold_each {N : Type → Type} `{!MRet N, !MBind N} {A B}
    (f : B → A → N (result B)) (b : B) (l : list A) : N (result B) :=
  match l with
  | [] => mret (Ok b)
  | a :: l => b' ←? f b a; fold_each f b' l
  end.

(** The same for a loop without effects. *)
Fixpoint fold_result {A B} (f : B → A → result B) (b : B) (l : list A) : result B :=
  match l with
  | [] => Ok b
  | a :: l => b' ← f b a; fold_result f b' l
  end.

(** A loop whose body never stops it. *)
Fixpoint for_all {N : Type → Type} `{!MRet N, !MBind N} {A}
    (f : A → N unit) (l : list A) : N unit :=
  match l with
  | [] => mret tt
  | a :: l => _ ← f a; for_all f l
  end.

(** The same with an accumulator. *)
Fixpoint fold_all {N : Type → Type} `{!MRet N, !MBind N} {A B}
    (f : B → A → N B) (b : B) (l : list A) : N B :=
  match l with
  | [] => mret b
  | a :: l => b' ← f b a; fold_all f b' l
  end.

(** ** Equations and inversions of the monad *)

Section monad_lemmas.
Context {S : Type}.
Implicit Types s : S.

Lemma bind_Return {A B} (m : M S A) (f : A → M S B) s a s' :
  m s = (Return a, s') → (m ≫= f) s = f a s'.
Proof. unfold mbind, M_bind. by intros ->. Qed.

Lemma bind_inv {A B} (m : M S A) (f : A → M S B) s b s' :
  (m ≫= f) s = (Return b, s') →
  ∃ a s1, m s = (Return a, s1) ∧ f a s1 = (Return b, s').
Proof. unfold mbind, M_bind. destruct (m s) as [[] ?]; naive_solver. Qed.

Lemma try_bind_Ok {A B} (m : M S (result A)) (f : A → M S (result B)) s a s' :
  m s = (Return (Ok a), s') → try_bind f m s = f a s'.
Proof. intros H. unfold try_bind. by erewrite bind_Return by done. Qed.

Lemma try_bind_Err {A B} (m : M S (result A)) (f : A → M S (result B)) s e s' :
  m s = (Return (Err e), s') → try_bind f m s = (Return (Err e), s').
Proof. intros H. unfold try_bind. by erewrite bind_Return by done. Qed.

Lemma try_bind_with_Ok {A B} x (m : M S (result A)) (f : A → M S (result B)) s a s' :
  m s = (Return (Ok a), s') → try_bind_with x f m s = f a s'.
Proof. intros H. unfold try_bind_with. by erewrite bind_Return by done. Qed.

Lemma try_bind_with_Err {A B} x (m : M S (result A)) (f : A → M S (result B)) s e s' :
  m s = (Return (Err e), s') → try_bind_with x f m s = (Return (Err (x e)), s').
Proof. intros H. unfold try_bind_with. by erewrite bind_Return by done. Qed.

Lemma try_bind_Ok_inv {A B} (m : M S (result A)) (f : A → M S (result B)) s b s' :
  try_bind f m s = (Return (Ok b), s') →
  ∃ a s1, m s = (Return (Ok a), s1) ∧ f a s1 = (Return (Ok b), s').
Proof.
  unfold try_bind. intros ([a|e] & s1 & Hm & Hf)%bind_inv; [by eauto|].
  discriminate Hf.
Qed.

Lemma try_bind_Err_inv {A B} (m : M S (result A)) (f : A → M S (result B)) s e s' :
  try_bind f m s = (Return (Err e), s') →
  (∃ a s1, m s = (Return (Ok a), s1) ∧ f a s1 = (Return (Err e), s')) ∨ m s = (Return (Err e), s').
Proof.
  unfold try_bind. intros ([a|e'] & s1 & Hm & Hf)%bind_inv; [by eauto|].
  injection Hf as -> ->. by right.
Qed.

Lemma try_bind_with_Ok_inv {A B} w (m : M S (result A)) (f : A → M S (result B)) s b s' :
  try_bind_with w f m s = (Return (Ok b), s') →
  ∃ a s1, m s = (Return (Ok a), s1) ∧ f a s1 = (Return (Ok b), s').
Proof.
  unfold try_bind_with. intros ([a|e] & s1 & Hm & Hf)%bind_inv; [by eauto|].
  discriminate Hf.
Qed.
End monad_lemmas.

(** ** Frames: what a computation may do to the state *)

(** [keeps R m]: whatever [m] does, the final state is [R]-related to the
    initial one. With [R := λ s s', f s = f s'] it says that [m] does not
    touch the component [f]; with an order it says that the component only
    grows. *)
Definition keeps {S A} (R : relation S) (m : M S A) : Prop :=
  ∀ s, R s (m s).2.

(** [m] always returns: it neither panics nor exits. *)
Definition returns {S A} (m : M S A) : Prop :=
  ∀ s, ∃ a, (m s).1 = Return a.

(** Partial-correctness triples, used for invariants. *)
Definition hoare {S A} (P : S → Prop) (m : M S A) (Q : outcome A → S → Prop) : Prop :=
  ∀ s, P s → Q (m s).1 (m s).2.

(** Agreement on one component of the state, an equivalence. *)
Definition same {S T} (f : S → T) : relation S := λ s s', f s = f s'.

#[export] Instance same_equiv {S T} (f : S → T) : Equivalence (same f).
Proof.
  split.
  - by intros s.
  - intros s s' H. unfold same in *. congruence.
  - intros s1 s2 s3 H1 H2. unfold same in *. congruence.
Qed.

Create HintDb go discriminated.

Section frames.
Context {S : Type} (R : relation S) `{!PreOrder R}.

Lemma keeps_ret {A} (a : A) : keeps R (mret (M:=M S) a).
Proof. intros s. reflexivity. Qed.

Lemma keeps_bind {A B} (m : M S A) (f : A → M S B) :
  keeps R m → (∀ a, keeps R (f a)) → keeps R (m ≫= f).
Proof.
  intros Hm Hf s. unfold mbind, M_bind. specialize (Hm s).
  destruct (m s) as [[a|w|c] s'] eqn:E; simpl in *; [|done..].
  etrans; [exact Hm|apply Hf].
Qed.

(** A frame goes through a bind with what is known of the value. *)
Lemma keeps_bind_val {A B} (m : M S A) (f : A → M S B) :
  keeps R m → (∀ a s s', m s = (Return a, s') → keeps R (f a)) → keeps R (m ≫= f).
Proof.
  intros Hm Hf s. unfold mbind, M_bind. specialize (Hm s). destruct (m s) as [[a|w|c] s'] eqn:E; simpl in *; [|done..].
  etrans; [exact Hm|]. eapply Hf, E.
Qed.

Lemma keeps_try {A B} (m : M S (result A)) (f : A → M S (result B)) :
  keeps R m → (∀ a, keeps R (f a)) → keeps R (try_bind f m).
Proof.
  intros Hm Hf. unfold try_bind. apply keeps_bind; [done|].
  intros [a|e]; [apply Hf|apply keeps_ret].
Qed.

Lemma keeps_try_with {A B} w (m : M S (result A)) (f : A → M S (result B)) :
  keeps R m → (∀ a, keeps R (f a)) → keeps R (try_bind_with w f m).
Proof.
  intros Hm Hf. unfold try_bind_with. apply keeps_bind; [done|].
  intros [a|e]; [apply Hf|apply keeps_ret].
Qed.

Lemma keeps_gets {A} (f : S → A) : keeps R (gets f).
Proof. intros s. reflexivity. Qed.
Lemma keeps_get : keeps R get.
Proof. intros s. reflexivity. Qed.
Lemma keeps_panic {A} w : keeps R (panic (A:=A) w).
Proof. intros s. reflexivity. Qed.
Lemma keeps_exit {A} c : keeps R (exit (A:=A) c).
Proof. intros s. reflexivity. Qed.
Lemma keeps_liftO {A} (o : outcome A) : keeps R (liftO o).
Proof. intros s. reflexivity. Qed.
Lemma keeps_modify (f : S → S) : (∀ s, R s (f s)) → keeps R (modify f).
Proof. intros H s. apply H. Qed.

Lemma keeps_for_each {A} (f : A → M S (result unit)) l :
  (∀ a, keeps R (f a)) → keeps R (for_each f l).
Proof.
  intros Hf. induction l as [|a l IH]; simpl; [apply keeps_ret|].
  apply keeps_try; [apply Hf|done].
Qed.

Lemma keeps_for_all {A} (f : A → M S unit) l :
  (∀ a, keeps R (f a)) → keeps R (for_all f l).
Proof.
  intros Hf. induction l as [|a l IH]; simpl; [apply keeps_ret|].
  apply keeps_bind; [apply Hf|done].
Qed.

Lemma keeps_fold_each {A B} (f : B → A → M S (result B)) b l :
  (∀ b a, keeps R (f b a)) → keeps R (fold_each f b l).
Proof.
  intros Hf. revert b. induction l as [|a l IH]; intros b; simpl; [apply keeps_ret|].
  apply keeps_try; [apply Hf|]. intros b'. apply IH.
Qed.
End frames.

Section total.
Context {S : Type}.

Lemma returns_ret {A} (a : A) : returns (mret (M:=M S) a).
Proof. intros s. by exists a. Qed.
Lemma returns_bind {A B} (m : M S A) (f : A → M S B) :
  returns m → (∀ a, returns (f a)) → returns (m ≫= f).
Proof.
  intros Hm Hf s. destruct (Hm s) as [a Ha]. unfold mbind, M_bind.
  destruct (m s) as [o s']; simpl in *; subst. apply Hf.
Qed.
Lemma returns_try {A B} (m : M S (result A)) (f : A → M S (result B)) :
  returns m → (∀ a, returns (f a)) → returns (try_bind f m).
Proof.
  intros Hm Hf. apply returns_bind; [done|]. intros [a|e]; [done|apply returns_ret].
Qed.
Lemma returns_try_with {A B} w (m : M S (result A)) (f : A → M S (result B)) :
  returns m → (∀ a, returns (f a)) → returns (try_bind_with w f m).
Proof.
  intros Hm Hf. apply returns_bind; [done|]. intros [a|e]; [done|apply returns_ret].
Qed.
Lemma returns_gets {A} (f : S → A) : returns (gets f).
Proof. intros s. by eexists. Qed.
Lemma returns_get : returns (@get S).
Proof. intros s. by eexists. Qed.
Lemma returns_modify (f : S → S) : returns (modify f).
Proof. intros s. by eexists. Qed.
Lemma returns_for_each {A} (f : A → M S (result unit)) l :
  (∀ a, returns (f a)) → returns (for_each f l).
Proof.
  intros Hf. induction l as [|a l IH]; simpl; [apply returns_ret|].
  apply returns_try; [apply Hf|done].
Qed.
Lemma returns_for_all {A} (f : A → M S unit) l :
  (∀ a, returns (f a)) → returns (for_all f l).
Proof.
  intros Hf. induction l as [|a l IH]; simpl; [apply returns_ret|].
  apply returns_bind; [apply Hf|done].
Qed.
Lemma returns_fold_each {A B} (f : B → A → M S (result B)) b l :
  (∀ b a, returns (f b a)) → returns (fold_each f b l).
Proof.
  intros Hf. revert b. induction l as [|a l IH]; intros b; simpl; [apply returns_ret|].
  apply returns_try; [apply Hf|]. intros b'. apply IH.
Qed.
End total.

#[export] Hint Resolve keeps_ret keeps_bind keeps_try keeps_try_with keeps_gets keeps_get
  keeps_panic keeps_exit keeps_liftO keeps_for_each keeps_for_all keeps_fold_each : go.
#[export] Hint Resolve returns_ret returns_bind returns_try returns_try_with returns_gets
  returns_get returns_modify returns_for_each returns_for_all returns_fold_each : go.

(** [m] returns from the states of [P], and ends in one of them. *)
Definition safe {S A} (P : S → Prop) (m : M S A) : Prop :=
  ∀ s, P s → ∃ a s', m s = (Return a, s') ∧ P s'.

Section safety.
Context {S : Type} (P : S → Prop).

Lemma safe_keeps {A} (R : relation S) (m : M S A) :
  (∀ s s', R s s' → P s → P s') → keeps R m → returns m → safe P m.
Proof.
  intros HR Hk Hr s Hs. destruct (Hr s) as [a Ha]. specialize (Hk s).
  destruct (m s) as [o s']; simpl in *; subst. eauto.
Qed.
Lemma safe_ret {A} (a : A) : safe P (mret (M:=M S) a).
Proof. intros s Hs. by do 2 eexists. Qed.
Lemma safe_bind {A B} (m : M S A) (f : A → M S B) :
  safe P m → (∀ a, safe P (f a)) → safe P (m ≫= f).
Proof.
  intros Hm Hf s Hs. destruct (Hm s Hs) as (a & s' & E & Hs').
  rewrite (bind_Return _ _ _ _ _ E). by apply Hf.
Qed.
(** What is read satisfies what the state does. *)
Lemma safe_gets {A B} (f : S → A) (g : A → M S B) :
  (∀ s, P s → safe P (g (f s))) → safe P (gets f ≫= g).
Proof. intros Hg s Hs. by apply (Hg s Hs). Qed.
Lemma safe_weaken {A} (Q : S → Prop) (m : M S A) s :
  safe Q m → Q s → (∀ s', Q s' → P s') → ∃ a s', m s = (Return a, s') ∧ P s'.
Proof. intros Hm Hs HQ. destruct (Hm s Hs) as (a & s' & E & Hs'). exists a, s'. auto. Qed.
Lemma safe_try {A B} (m : M S (result A)) (f : A → M S (result B)) :
  safe P m → (∀ a, safe P (f a)) → safe P (try_bind f m).
Proof. intros Hm Hf. apply safe_bind; [done|]. intros [a|e]; [done|apply safe_ret]. Qed.
Lemma safe_try_with {A B} x (m : M S (result A)) (f : A → M S (result B)) :
  safe P m → (∀ a, safe P (f a)) → safe P (try_bind_with x f m).
Proof. intros Hm Hf. apply safe_bind; [done|]. intros [a|e]; [done|apply safe_ret]. Qed.
End safety.

(** [m] returns from [s], and what it returns and where it ends satisfy [Q]. *)
Definition panics {S A} (m : M S A) (s : S) : Prop := ∃ why s', m s = (Panic why, s').
Definition runs {S A} (m : M S A) (s : S) (Q : A → S → Prop) : Prop :=
  ∃ a s', m s = (Return a, s') ∧ Q a s'.

Section runs.
Context {S : Type}.

Lemma runs_ret {A} (a : A) (s : S) (Q : A → S → Prop) : Q a s → runs (mret (M:=M S) a) s Q.
Proof. intros H. by exists a, s. Qed.
Lemma runs_bind {A B} (m : M S A) (f : A → M S B) s Q :
  runs m s (λ a s', runs (f a) s' Q) → runs (m ≫= f) s Q.
Proof.
  intros (a & s' & E & b & s'' & E' & HQ). exists b, s''. by rewrite (bind_Return _ _ _ _ _ E), E'.
Qed.
Lemma runs_mono {A} (m : M S A) s (P Q : A → S → Prop) : runs m s P → (∀ a s', P a s' → Q a s') → runs m s Q.
Proof. intros (a & s' & E & HP) HPQ. exists a, s'. auto. Qed.
(** A run that returns, where nothing more is known than what it keeps. *)
Lemma runs_keeps {A} (R : relation S) (m : M S A) s (Q : A → S → Prop) :
  returns m → keeps R m → (∀ a s', m s = (Return a, s') → R s s' → Q a s') → runs m s Q.
Proof.
  intros Hr Hk HQ. destruct (Hr s) as [a Ha]. specialize (Hk s). destruct (m s) as [o s'] eqn:E. simpl in *.
  subst o. exists a, s'. auto.
Qed.
Lemma runs_and_keeps {A} (R : relation S) (m : M S A) s (Q : A → S → Prop) :
  runs m s Q → keeps R m → runs m s (λ a s', Q a s' ∧ R s s').
Proof. intros (a & s' & E & HQ) Hk. specialize (Hk s). rewrite E in Hk. by exists a, s'. Qed.
Lemma runs_gets {A B} (f : S → A) (g : A → M S B) s Q : runs (g (f s)) s Q → runs (gets f ≫= g) s Q.
Proof. intros H. by apply runs_bind; exists (f s), s. Qed.
(** An invariant over the elements done and those to come. *)
Lemma runs_fold_all {A B} (f : B → A → M S B) (l : list A) (I : list A → B → S → Prop) b s :
  I [] b s →
  (∀ pre a post b s, l = pre ++ a :: post → I pre b s → runs (f b a) s (λ b' s', I (pre ++ [a]) b' s')) →
  runs (fold_all f b l) s (λ b' s', I l b' s').
Proof.
  intros H0 Hstep.
  assert (Hgen : ∀ post pre b s, l = pre ++ post → I pre b s → runs (fold_all f b post) s (λ b' s', I l b' s')).
  { intros post. induction post as [|a post IH]; simpl; intros pre b1 s1 Hl HI.
    - apply runs_ret. by rewrite app_nil_r in Hl; subst.
    - apply runs_bind. eapply runs_mono; [by apply (Hstep pre a post)|]. intros b2 s2 HI2. apply (IH (pre ++ [a])); [|done].
      by rewrite <- app_assoc. }
  by apply (Hgen l []).
Qed.
(** What a run ends in is known to be where it ends. *)
Lemma runs_recall {A} (m : M S A) s (Q : A → S → Prop) :
  runs m s Q → runs m s (λ a s', Q a s' ∧ m s = (Return a, s')).
Proof. intros (a & s' & E & HQ). by exists a, s'. Qed.
Lemma fold_all_snoc {A B} (f : B → A → M S B) pre a : ∀ b s b1 s1 b2 s2,
  fold_all f b pre s = (Return b1, s1) → f b1 a s1 = (Return b2, s2) → fold_all f b (pre ++ [a]) s = (Return b2, s2).
Proof.
  induction pre as [|c pre IH]; intros b s b1 s1 b2 s2; simpl.
  - intros [= -> ->] E. by rewrite (bind_Return _ _ _ _ _ E).
  - intros (b3 & s3 & E3 & H)%bind_inv E. rewrite (bind_Return _ _ _ _ _ E3). by eapply IH.
Qed.
(** The same invariants, for steps that are taken where the run has come to. *)
Lemma runs_fold_all_from {A B} (f : B → A → M S B) (l : list A) (I : list A → B → S → Prop) b0 s0 :
  I [] b0 s0 →
  (∀ pre a post b s, l = pre ++ a :: post → fold_all f b0 pre s0 = (Return b, s) → I pre b s →
     runs (f b a) s (λ b' s', I (pre ++ [a]) b' s')) →
  runs (fold_all f b0 l) s0 (λ b' s', I l b' s').
Proof.
  intros H0 Hstep. eapply runs_mono.
  - apply (runs_fold_all f l (λ pre b s, I pre b s ∧ fold_all f b0 pre s0 = (Return b, s))); [by split|].
    intros pre a post b s Hl [HI E]. eapply runs_mono; [by apply runs_recall; apply (Hstep pre a post b s)|].
    intros b' s' [HI' E']. split; [done|]. by eapply fold_all_snoc.
  - by intros b s [HI _].
Qed.
Lemma for_all_fold {A} (f : A → M S unit) (l : list A) s : for_all f l s = fold_all (λ _ a, f a) tt l s.
Proof.
  revert s. induction l as [|a l IH]; intros s; [done|]. simpl. unfold mbind, M_bind.
  destruct (f a s) as [[[]|?|?] s']; [apply IH|done|done].
Qed.
Lemma runs_for_all {A} (f : A → M S unit) (l : list A) (I : list A → S → Prop) s :
  I [] s →
  (∀ pre a post s, l = pre ++ a :: post → I pre s → runs (f a) s (λ _ s', I (pre ++ [a]) s')) →
  runs (for_all f l) s (λ _ s', I l s').
Proof.
  intros H0 Hstep. unfold runs. rewrite for_all_fold. apply (runs_fold_all (λ _ a, f a) l (λ pre _ s, I pre s)); [done|].
  intros pre a post _ s1. apply Hstep.
Qed.
Lemma runs_for_all_from {A} (f : A → M S unit) (l : list A) (I : list A → S → Prop) s0 :
  I [] s0 →
  (∀ pre a post s, l = pre ++ a :: post → for_all f pre s0 = (Return tt, s) → I pre s →
     runs (f a) s (λ _ s', I (pre ++ [a]) s')) →
  runs (for_all f l) s0 (λ _ s', I l s').
Proof.
  intros H0 Hstep. unfold runs. rewrite for_all_fold.
  apply (runs_fold_all_from (λ _ a, f a) l (λ pre _ s, I pre s)); [done|].
  intros pre a post [] s1 Hl E. rewrite <- for_all_fold in E. by apply (Hstep pre a post).
Qed.

(** Runs that end in a panic. *)
Lemma panics_first {A B} (m : M S A) (f : A → M S B) s : panics m s → panics (m ≫= f) s.
Proof. intros (why & s' & E). exists why, s'. unfold mbind, M_bind. by rewrite E. Qed.
Lemma panics_then {A B} (m : M S A) (f : A → M S B) s Q :
  runs m s Q → (∀ a s', Q a s' → panics (f a) s') → panics (m ≫= f) s.
Proof.
  intros (a & s1 & E & HQ) Hf. destruct (Hf a s1 HQ) as (why & s' & Ef). exists why, s'.
  by rewrite (bind_Return _ _ _ _ _ E).
Qed.
(** A loop reaches the first element that it cannot do. *)
Lemma panics_for_all {A} (f : A → M S unit) (I : S → Prop) (bad : A → Prop) `{!∀ a, Decision (bad a)} l s :
  (∀ a s, ¬ bad a → a ∈ l → I s → runs (f a) s (λ _ s', I s')) → (∀ a s, bad a → a ∈ l → I s → panics (f a) s) →
  I s → Exists bad l → panics (for_all f l) s.
Proof.
  revert s. induction l as [|a l IH]; intros s Hg Hb Hs Hx; [by apply Exists_nil in Hx|]. cbn [for_all].
  destruct (decide (bad a)) as [Ha|Ha]; [apply panics_first, Hb; [done|by left|done]|].
  apply Exists_cons in Hx as [Hx|Hx]; [done|]. apply (panics_then _ _ _ (λ _ s1, I s1)); [apply Hg; [done|by left|done]|].
  intros _ s1 Hs1. apply IH; [| |done|done]; intros b s2 Hbb Hin; [apply Hg|apply Hb]; try done; by right.
Qed.
End runs.

Lemma and_iff_l (A B C : Prop) : (A → (B ↔ C)) → (A ∧ B ↔ A ∧ C).
Proof. tauto. Qed.

(** ** Automation *)

(** Splits a frame or totality goal along the structure of the code. *)
Ltac go_frame_step :=
  match goal with
  | |- ∀ _, _ => intros ?
  | |- keeps _ (match ?x with _ => _ end) => destruct x eqn:?
  | |- returns (match ?x with _ => _ end) => destruct x eqn:?
  | |- keeps _ (let '_ := ?x in _) => destruct x eqn:?
  | |- returns (let '_ := ?x in _) => destruct x eqn:?
  | |- keeps _ (mret _) => apply keeps_ret; exact _
  | |- keeps _ (_ ≫= _) => apply keeps_bind; [exact _|..]
  | |- keeps _ (try_bind _ _) => apply keeps_try; [exact _|..]
  | |- keeps _ (try_bind_with _ _ _) => apply keeps_try_with; [exact _|..]
  | |- keeps _ (for_each _ _) => apply keeps_for_each; [exact _|..]
  | |- keeps _ (for_all _ _) => apply keeps_for_all; [exact _|..]
  | |- keeps _ (fold_each _ _ _) => apply keeps_fold_each; [exact _|..]
  | |- returns (_ ≫= _) => apply returns_bind
  | |- returns (try_bind _ _) => apply returns_try
  | |- returns (try_bind_with _ _ _) => apply returns_try_with
  | |- _ => solve [eauto with go typeclass_instances]
  end.
Ltac go_frame := repeat (cbv beta zeta; go_frame_step).

(** Splits a safety goal in the same way. *)
Ltac safe_step :=
  match goal with
  | |- ∀ _, _ => intros ?
  | |- safe _ (match ?x with _ => _ end) => destruct x eqn:?
  | |- safe _ (let '_ := ?x in _) => destruct x eqn:?
  | |- safe _ (mret _) => apply safe_ret
  | |- safe _ (gets _ ≫= _) => apply safe_gets
  | |- safe _ (_ ≫= _) => apply safe_bind
  | |- safe _ (try_bind _ _) => apply safe_try
  | |- safe _ (try_bind_with _ _ _) => apply safe_try_with
  | |- _ => solve [eauto with go]
  end.
Ltac safe := repeat (cbv beta zeta; safe_step).

(** Inverts every bind of a run that returned. *)
Ltac run_inv :=
  repeat match goal with
  | H : (_ ≫= _) _ = (Return _, _) |- _ =>
      apply bind_inv in H as (? & ? & ? & H)
  | H : try_bind _ _ _ = (Return (Ok _), _) |- _ =>
      apply try_bind_Ok_inv in H as (? & ? & ? & H)
  | H : try_bind_with _ _ _ _ = (Return (Ok _), _) |- _ =>
      apply try_bind_with_Ok_inv in H as (? & ? & ? & H)
  | H : mret _ _ = (Return _, _) |- _ => injection H as H; subst
  | H : mret _ _ = (Return _, _) |- _ => injection H as H ?; subst
  | H : (Return _, _) = (Return _, _) |- _ => injection H as ? ?; subst
  end; simplify_eq.

(** Destructs the scrutinee of a match in the goal or in a hypothesis. *)
Ltac case_all :=
  repeat match goal with
  | |- context [match ?x with _ => _ end] => destruct x eqn:?; simpl in *
  end.

(** ** Generic lemmas *)

Lemma app_cons_s c (s t : string) : String c s +:+ t = String c (s +:+ t).
Proof. reflexivity. Qed.
Lemma app_empty_s (t : string) : "" +:+ t = t.
Proof. reflexivity. Qed.
Lemma app_nil_s (s : string) : s +:+ "" = s.
Proof. induction s as [|c s IH]; [done|]. by rewrite app_cons_s, IH. Qed.
Lemma app_assoc_s (s t u : string) : s +:+ (t +:+ u) = (s +:+ t) +:+ u.
Proof. induction s as [|c s IH]; [done|]. by rewrite !app_cons_s, IH. Qed.
Lemma length_app_s (s t : string) :
  String.length (s +:+ t) = (String.length s + String.length t)%nat.
Proof. induction s as [|c s IH]; [done|]. rewrite app_cons_s. simpl. by rewrite IH. Qed.
Lemma app_inj_s (s t u : string) : s +:+ t = s +:+ u → t = u.
Proof.
  induction s as [|c s IH]; [done|]. rewrite !app_cons_s.
  intros H. injection H. done.
Qed.
Lemma app_inj_r_s (s t u : string) : s +:+ u = t +:+ u → s = t.
Proof.
  revert t. induction s as [|c s IH]; intros [|d t]; rewrite ?app_cons_s, ?app_empty_s; try done.
  - intros H. apply (f_equal String.length) in H. simpl in H. rewrite length_app_s in H. lia.
  - intros H. apply (f_equal String.length) in H. simpl in H. rewrite length_app_s in H. lia.
  - intros H. injection H as -> H. f_equal. by apply IH.
Qed.
Create Rewrite HintDb str.
#[export] Hint Rewrite app_cons_s app_empty_s app_nil_s : str.
