(* ===== verification/GoStrings.v ===== *)
(** * Go's strings, strconv and path functions

    The functions of the Go standard library (release 1.14) on byte strings
    that the program calls, as executable definitions, with the lemmas the
    components use. [string] is the type of Go's [string] and of [[]byte]. *)

From S2P Require Import Prelude.
#[export] Set Default Goal Selector "!".

(** ** Indexing and slicing *)

Definition len (s : string) : Z := Z.of_nat (String.length s).

Fixpoint take_s (n : nat) (s : string) : string :=
  match n, s with
  | S n, String c s => String c (take_s n s)
  | _, _ => ""
  end.
Fixpoint drop_s (n : nat) (s : string) : string :=
  match n, s with
  | S n, String _ s => drop_s n s
  | _, _ => s
  end.

(** [s[i:j]]: panics when the bounds are out of range. *)
Definition slice (s : string) (i j : Z) : outcome string :=
  if bool_decide (0 ≤ i ∧ i ≤ j ∧ j ≤ len s)
  then Return (take_s (Z.to_nat (j - i)) (drop_s (Z.to_nat i) s))
  else Panic "slice bounds out of range".

(** [s[i]] *)
Definition byte_at (s : string) (i : Z) : outcome ascii :=
  if bool_decide (0 ≤ i)
  then match String.get (Z.to_nat i) s with
       | Some c => Return c
       | None => Panic "index out of range"
       end
  else Panic "index out of range".

Fixpoint has_char (c : ascii) (s : string) : bool :=
  match s with
  | "" => false
  | String d s => bool_decide (d = c) || has_char c s
  end.

Fixpoint all_chars (p : ascii → bool) (s : string) : bool :=
  match s with
  | "" => true
  | String d s => p d && all_chars p s
  end.

(** ** Package strings *)

Fixpoint HasPrefix (s prefix : string) {struct prefix} : bool :=
  match prefix, s with
  | "", _ => true
  | String c p, String d s => bool_decide (c = d) && HasPrefix s p
  | String _ _, "" => false
  end.

Definition HasSuffix (s suffix : string) : bool :=
  bool_decide (drop_s (String.length s - String.length suffix) s = suffix).

Fixpoint Contains (s substr : string) : bool :=
  HasPrefix s substr ||
  match s with "" => false | String _ s => Contains s substr end.

(** Occurrences of a non-empty substring that do not overlap, from the left. *)
Fixpoint count_from (skip : nat) (s substr : string) : Z :=
  match s with
  | "" => 0
  | String _ s' =>
      match skip with
      | S k => count_from k s' substr
      | O => if HasPrefix s substr
             then 1 + count_from (String.length substr - 1) s' substr
             else count_from 0 s' substr
      end
  end.
Definition Count (s substr : string) : Z := count_from 0 s substr.

(** [strings.LastIndexByte]: -1 when the byte does not occur. *)
Fixpoint LastIndexByte (s : string) (c : ascii) : Z :=
  match s with
  | "" => -1
  | String d s =>
      let i := LastIndexByte s c in
      if bool_decide (i = -1) then (if bool_decide (d = c) then 0 else -1) else i + 1
  end.

(** [strings.Split] with a separator of one byte. *)
Fixpoint Split (s : string) (sep : ascii) : list string :=
  match s with
  | "" => [""]
  | String c s =>
      if bool_decide (c = sep) then "" :: Split s sep
      else match Split s sep with
           | p :: ps => String c p :: ps
           | [] => [String c ""]
           end
  end.

(** [strings.SplitN] with a separator of one byte and [n > 0]. *)
Fixpoint SplitN (s : string) (sep : ascii) (n : nat) : list string :=
  match s with
  | "" => [""]
  | String c s' =>
      match n with
      | 0%nat | 1%nat => [s]
      | S n' =>
          if bool_decide (c = sep) then "" :: SplitN s' sep n'
          else match SplitN s' sep n with
               | p :: ps => String c p :: ps
               | [] => [String c ""]
               end
      end
  end.

Fixpoint Join (l : list string) (sep : string) : string :=
  match l with
  | [] => ""
  | [s] => s
  | s :: l => s +:+ sep +:+ Join l sep
  end.

Definition ch (n : nat) : ascii := ascii_of_nat n.
Definition chs (l : list nat) : string :=
  foldr (λ n s, String (ch n) s) "" l.
Definition newline : string := String (ascii_of_nat 10) "".

(** The UTF-8 encodings of the runes for which [unicode.IsSpace] holds. *)
Definition space_encodings : list string :=
  chs <$> ([[9]; [10]; [11]; [12]; [13]; [32]; [194; 133]; [194; 160];
    [225; 154; 128]; [226; 128; 168]; [226; 128; 169]; [226; 128; 175];
    [226; 129; 159]; [227; 128; 128]]%nat ++
    ((λ n, [226; 128; n]%nat) <$> seq 128 11)).

(** Drops every leading encoding in [encs]. A step drops at least one byte, so
    the length of the string is fuel enough. *)
Fixpoint trim_left_fuel (fuel : nat) (encs : list string) (s : string) : string :=
  match fuel with
  | O => s
  | S fuel =>
      match List.find (HasPrefix s) encs with
      | Some e => trim_left_fuel fuel encs (drop_s (String.length e) s)
      | None => s
      end
  end.
Definition trim_left (encs : list string) (s : string) : string :=
  trim_left_fuel (String.length s) encs s.
Definition trim_right (encs : list string) (s : string) : string :=
  String.rev (trim_left (String.rev <$> encs) (String.rev s)).

(** [strings.TrimSpace] *)
Definition TrimSpace (s : string) : string :=
  trim_right space_encodings (trim_left space_encodings s).

(** [strings.Trim] with a cutset of ASCII bytes. *)
Definition Trim (s cutset : string) : string :=
  let encs := (λ c, String c "") <$> String.list_ascii_of_string cutset in
  trim_right encs (trim_left encs s).

(** ** Package strconv *)

Definition digit_value (c : ascii) : option Z :=
  let n := Z.of_nat (nat_of_ascii c) in
  if bool_decide (48 ≤ n ∧ n ≤ 57) then Some (n - 48) else None.

(** The loop of [strconv.ParseUint] in base 10 for a result of [bits] bits. *)
Fixpoint parse_uint_loop (bits n : Z) (s : string) : result Z :=
  match s with
  | "" => Ok n
  | String c s =>
      match digit_value c with
      | None => Err (StdError "strconv.ParseUint: invalid syntax")
      | Some d =>
          let n' := n * 10 + d in
          if bool_decide (n' ≤ 2 ^ bits - 1) then parse_uint_loop bits n' s
          else Err (StdError "strconv.ParseUint: value out of range")
      end
  end.
Definition ParseUint (s : string) (bits : Z) : result Z :=
  match s with
  | "" => Err (StdError "strconv.ParseUint: invalid syntax")
  | _ => parse_uint_loop bits 0 s
  end.

Definition ParseBool (s : string) : result bool :=
  if bool_decide (s ∈ ["1"; "t"; "T"; "true"; "TRUE"; "True"]) then Ok true
  else if bool_decide (s ∈ ["0"; "f"; "F"; "false"; "FALSE"; "False"]) then Ok false
  else Err (StdError "strconv.ParseBool: invalid syntax").
Definition FormatBool (b : bool) : string := if b then "true" else "false".

(** Decimal formatting of integers. *)
Definition FormatInt (n : Z) : string := pretty n.

(** ** Packages path and path/filepath *)

(** One element of a path against the elements kept so far, last first. *)
Definition clean_step (rooted : bool) (out : list string) (e : string) : list string :=
  if bool_decide (e = "" ∨ e = ".") then out
  else if bool_decide (e = "..") then
    match out with
    | [] => if rooted then [] else [".."]
    | o :: out' => if bool_decide (o = "..") then ".." :: out else out'
    end
  else e :: out.

(** [path.Clean] *)
Definition path_Clean (p : string) : string :=
  match p with
  | "" => "."
  | String c _ =>
      let rooted := bool_decide (c = "/"%char) in
      let out := Join (reverse (foldl (clean_step rooted) [] (Split p "/"))) "/" in
      if rooted then "/" +:+ out else if bool_decide (out = "") then "." else out
  end.

(** [path.Join]: the elements from the first non-empty one on. *)
Fixpoint path_Join (elems : list string) : string :=
  match elems with
  | [] => ""
  | "" :: elems' => path_Join elems'
  | _ => path_Clean (Join elems "/")
  end.

(** [path.Dir]: everything up to the last slash, cleaned. *)
Definition path_Dir (p : string) : string :=
  path_Clean (take_s (Z.to_nat (LastIndexByte p "/" + 1)) p).

(** [filepath.Abs], given the current directory. *)
Definition filepath_Abs (cwd p : string) : string :=
  if HasPrefix p "/" then path_Clean p else path_Join [cwd; p].

Example split_ex : Split "a=b=" "=" = ["a"; "b"; ""].
Proof. reflexivity. Qed.
Example splitn_ex : SplitN "a=b=c" "=" 2 = ["a"; "b=c"].
Proof. reflexivity. Qed.
Example trim_ex : TrimSpace (" ab c" +:+ chs [226;128;168;10]%nat) = "ab c".
Proof. vm_compute. reflexivity. Qed.
Example clean_ex : path_Clean "/a//b/../../../c/." = "/c".
Proof. reflexivity. Qed.
Example clean_rel_ex : path_Clean "a/../../b/" = "../b".
Proof. reflexivity. Qed.
Example dir_ex : path_Dir "/etc/ssh/key" = "/etc/ssh".
Proof. reflexivity. Qed.
Example lastindex_ex : LastIndexByte "a:b:c" ":" = 3.
Proof. reflexivity. Qed.
Example count_ex : Count "a://b://" "://" = 2.
Proof. reflexivity. Qed.
Example parseuint_ex : ParseUint "65535" 16 = Ok 65535.
Proof. reflexivity. Qed.

(** ** Lemmas *)

Lemma len_nonneg s : 0 ≤ len s.
Proof. unfold len. lia. Qed.
Lemma len_app s t : len (s +:+ t) = len s + len t.
Proof. unfold len. rewrite length_app_s. lia. Qed.
Lemma len_cons c s : len (String c s) = 1 + len s.
Proof. unfold len. simpl. lia. Qed.
Lemma len_empty : len "" = 0.
Proof. reflexivity. Qed.
Lemma len_zero s : len s = 0 ↔ s = "".
Proof. unfold len. destruct s; simpl; split; intros H; try done; lia. Qed.

Lemma take_drop_s n s : take_s n s +:+ drop_s n s = s.
Proof.
  revert s. induction n as [|n IH]; intros [|c s]; try done.
  simpl. by rewrite app_cons_s, IH.
Qed.
Lemma take_app_s s t : take_s (String.length s) (s +:+ t) = s.
Proof. induction s as [|c s IH]; [by destruct t|]. rewrite app_cons_s. simpl. by rewrite IH. Qed.
Lemma drop_app_s s t : drop_s (String.length s) (s +:+ t) = t.
Proof. induction s as [|c s IH]; [by destruct t|]. rewrite app_cons_s. simpl. done. Qed.
Lemma take_all_s s : take_s (String.length s) s = s.
Proof. rewrite <- (app_nil_s s) at 2. apply take_app_s. Qed.
Lemma length_take_s n s : String.length (take_s n s) = Nat.min n (String.length s).
Proof. revert s. induction n as [|n IH]; intros [|c s]; simpl; try done. by rewrite IH. Qed.
Lemma length_drop_s n s : String.length (drop_s n s) = (String.length s - n)%nat.
Proof. revert s. induction n as [|n IH]; intros [|c s]; simpl; try done. Qed.

Lemma slice_Return s i j :
  0 ≤ i → i ≤ j → j ≤ len s →
  slice s i j = Return (take_s (Z.to_nat (j - i)) (drop_s (Z.to_nat i) s)).
Proof. intros. unfold slice. rewrite bool_decide_true by lia. done. Qed.

Lemma get_app_r s t n :
  String.get (String.length s + n) (s +:+ t) = String.get n t.
Proof. induction s as [|c s IH]; [done|]. rewrite app_cons_s. simpl. done. Qed.
Lemma get_app_l s t n :
  (n < String.length s)%nat → String.get n (s +:+ t) = String.get n s.
Proof.
  revert n. induction s as [|c s IH]; intros n Hn; simpl in Hn; [lia|].
  rewrite app_cons_s. destruct n; simpl; [done|]. apply IH. lia.
Qed.
Lemma get_lt s n : (n < String.length s)%nat → ∃ c, String.get n s = Some c.
Proof.
  revert n. induction s as [|c s IH]; intros n Hn; simpl in Hn; [lia|].
  destruct n; simpl; [by eexists|]. apply IH. lia.
Qed.

Lemma HasPrefix_spec s p : HasPrefix s p = true ↔ ∃ t, s = p +:+ t.
Proof.
  revert s. induction p as [|c p IH]; intros s; simpl.
  - split; [|by destruct s]. intros _. by exists s.
  - destruct s as [|d s]; simpl.
    + split; [done|]. intros [t H]. discriminate H.
    + rewrite andb_true_iff, bool_decide_eq_true, IH. split.
      * intros [-> [t ->]]. by exists t.
      * intros [t H]. rewrite app_cons_s in H. injection H as -> ->. eauto.
Qed.
Lemma HasPrefix_app p t : HasPrefix (p +:+ t) p = true.
Proof. apply HasPrefix_spec. by exists t. Qed.

Lemma HasSuffix_spec s p : HasSuffix s p = true ↔ ∃ t, s = t +:+ p.
Proof.
  unfold HasSuffix. rewrite bool_decide_eq_true. split.
  - intros H. exists (take_s (String.length s - String.length p) s).
    rewrite <- H at 2. by rewrite take_drop_s.
  - intros [t ->]. rewrite length_app_s.
    replace (String.length t + String.length p - String.length p)%nat
      with (String.length t) by lia.
    apply drop_app_s.
Qed.

Lemma has_char_app c s t : has_char c (s +:+ t) = has_char c s || has_char c t.
Proof.
  induction s as [|d s IH]; [done|]. rewrite app_cons_s. simpl.
  by rewrite IH, orb_assoc.
Qed.

Lemma all_chars_app p s t : all_chars p (s +:+ t) = all_chars p s && all_chars p t.
Proof. induction s as [|c s IH]; [done|]. rewrite app_cons_s. cbn [all_chars]. by rewrite IH, andb_assoc. Qed.
Lemma all_chars_mono (p q : ascii → bool) s :
  (∀ c, p c = true → q c = true) → all_chars p s = true → all_chars q s = true.
Proof.
  intros Hpq. induction s as [|c s IH]; [done|]. cbn [all_chars]. intros [Hc Hs]%andb_true_iff.
  by rewrite Hpq, IH.
Qed.
Lemma Contains_char s c : Contains s (String c "") = has_char c s.
Proof.
  induction s as [|d s IH]; [done|]. cbn [Contains has_char HasPrefix].
  rewrite andb_true_r, IH. f_equal. apply bool_decide_ext. done.
Qed.

Lemma LastIndexByte_none s c : LastIndexByte s c = -1 ↔ has_char c s = false.
Proof.
  induction s as [|d s IH]; simpl; [done|].
  assert (-1 ≤ LastIndexByte s c).
  { clear IH. induction s as [|e s IH]; simpl; [lia|]. repeat case_bool_decide; lia. }
  rewrite orb_false_iff, <- IH, bool_decide_eq_false. clear IH.
  repeat case_bool_decide; (split; [intros H3|intros [H3 H4]]); try split; try done; lia.
Qed.

(** The split of a string at the last occurrence of a byte. *)
Lemma LastIndexByte_split s c :
  has_char c s = true →
  ∃ l r, s = l +:+ String c r ∧ has_char c r = false ∧ LastIndexByte s c = len l.
Proof.
  induction s as [|d s IH]; simpl; [done|]. intros H.
  destruct (has_char c s) eqn:Hs.
  - destruct IH as (l & r & Hlr & Hr & Hi); [done|].
    exists (String d l), r. rewrite Hlr at 1. split_and!; [done|done|].
    rewrite Hi. pose proof (len_nonneg l). rewrite bool_decide_false by lia.
    rewrite len_cons. lia.
  - rewrite orb_false_r, bool_decide_eq_true in H. subst d.
    apply LastIndexByte_none in Hs as Hi. rewrite Hi.
    exists "", s. rewrite !bool_decide_true by done. done.
Qed.

Lemma LastIndexByte_app l c r :
  has_char c r = false → LastIndexByte (l +:+ String c r) c = len l.
Proof.
  intros Hr. induction l as [|d l IH].
  - rewrite app_empty_s. simpl. apply LastIndexByte_none in Hr as ->.
    by rewrite !bool_decide_true.
  - rewrite app_cons_s. simpl. rewrite IH. pose proof (len_nonneg l).
    rewrite bool_decide_false by lia. rewrite len_cons. lia.
Qed.

Lemma Split_cons s c : ∃ p ps, Split s c = p :: ps.
Proof.
  destruct s as [|d s]; simpl; [by eauto|].
  case_bool_decide; [by eauto|]. destruct (Split s c); eauto.
Qed.

Lemma Join_cons s l sep : l ≠ [] → Join (s :: l) sep = s +:+ sep +:+ Join l sep.
Proof. by destruct l. Qed.

(** Joining the pieces gives the string back. *)
Lemma Join_Split s c : Join (Split s c) (String c "") = s.
Proof.
  induction s as [|d s IH]; [done|]. cbn [Split].
  destruct (Split_cons s c) as (p & ps & E). rewrite E in *.
  case_bool_decide as Hd; [subst d|].
  - rewrite Join_cons by done. by rewrite IH.
  - destruct ps as [|q ps]; [cbn in *; by f_equal|].
    rewrite Join_cons in * by done. rewrite app_cons_s. by f_equal.
Qed.

Lemma Split_no_char s c : Forall (λ p, has_char c p = false) (Split s c).
Proof.
  induction s as [|d s IH]; simpl; [by repeat constructor|].
  case_bool_decide; [by constructor|].
  destruct (Split s c) as [|p ps]; inversion IH; subst; repeat constructor; simpl;
    rewrite ?bool_decide_false; auto.
Qed.

Lemma Split_none s c : has_char c s = false → Split s c = [s].
Proof.
  induction s as [|d s IH]; simpl; [done|].
  intros [Hd Hs]%orb_false_iff. rewrite bool_decide_eq_false in Hd.
  rewrite bool_decide_false by done. by rewrite IH.
Qed.

Lemma Split_app s t c :
  has_char c s = false → Split (s +:+ String c t) c = s :: Split t c.
Proof.
  induction s as [|d s IH]; intros Hs.
  - rewrite app_empty_s. simpl. by rewrite bool_decide_true.
  - simpl in Hs. apply orb_false_iff in Hs as [Hd Hs].
    rewrite bool_decide_eq_false in Hd. rewrite app_cons_s. simpl.
    rewrite bool_decide_false by done. by rewrite IH.
Qed.

(** The pieces determine the string, and the string determines the pieces. *)
Lemma Split_Join l c :
  l ≠ [] → Forall (λ p, has_char c p = false) l →
  Split (Join l (String c "")) c = l.
Proof.
  induction l as [|p l IH]; [done|]. intros _ [Hp Hl]%Forall_cons.
  destruct l as [|q l]; [by apply Split_none|].
  rewrite Join_cons by done. rewrite app_cons_s, app_empty_s.
  rewrite Split_app by done. by rewrite IH.
Qed.

Lemma SplitN2_none s c : has_char c s = false → SplitN s c 2 = [s].
Proof.
  induction s as [|d s IH]; simpl; [done|].
  intros [Hd Hs]%orb_false_iff. rewrite bool_decide_eq_false in Hd.
  rewrite bool_decide_false by done. simpl in IH. by rewrite IH.
Qed.
Lemma SplitN1 s c : SplitN s c 1 = [s].
Proof. by destruct s. Qed.
Lemma SplitN2_app s t c :
  has_char c s = false → SplitN (s +:+ String c t) c 2 = [s; t].
Proof.
  induction s as [|d s IH]; intros Hs.
  - rewrite app_empty_s. cbn. rewrite bool_decide_true by done. by destruct t.
  - simpl in Hs. apply orb_false_iff in Hs as [Hd Hs].
    rewrite bool_decide_eq_false in Hd. rewrite app_cons_s. cbn.
    rewrite bool_decide_false by done. cbn in IH. by rewrite IH.
Qed.

Lemma digit_value_range c d : digit_value c = Some d → 0 ≤ d ≤ 9.
Proof. unfold digit_value. case_bool_decide; intros; simplify_eq; lia. Qed.

Lemma parse_uint_loop_bound bits n s m :
  0 ≤ n → parse_uint_loop bits n s = Ok m → n ≤ m ∧ (s ≠ "" → m ≤ 2 ^ bits - 1).
Proof.
  revert n. induction s as [|c s IH]; intros n Hn; simpl.
  - intros [= ->]. split; [lia|done].
  - destruct (digit_value c) as [d|] eqn:Hd; [|done].
    apply digit_value_range in Hd. case_bool_decide; [|done].
    intros Hm. destruct (IH (n * 10 + d)) as [? Hb]; [lia|done|]. split; [lia|].
    intros _. destruct s as [|? ?]; [|by apply Hb]. simpl in Hm. simplify_eq. done.
Qed.

(** A parsed unsigned integer fits its width. *)
Lemma ParseUint_bound s bits n : ParseUint s bits = Ok n → 0 ≤ n ≤ 2 ^ bits - 1.
Proof.
  destruct s as [|c s]; [done|]. unfold ParseUint. intros H.
  apply parse_uint_loop_bound in H as [? Hb]; [|lia]. split; [lia|by apply Hb].
Qed.

Lemma parse_uint_loop_chars bits n s m c :
  parse_uint_loop bits n s = Ok m → digit_value c = None → has_char c s = false.
Proof.
  intros H Hc. revert n H. induction s as [|d s IH]; intros n; simpl; [done|].
  destruct (digit_value d) as [v|] eqn:Hd; [|done]. case_bool_decide; [|done].
  intros H2. rewrite (IH _ H2), orb_false_r. apply bool_decide_eq_false. intros ->. congruence.
Qed.
Lemma ParseUint_chars s bits n c :
  ParseUint s bits = Ok n → digit_value c = None → has_char c s = false.
Proof. destruct s as [|d s]; [done|]. exact (parse_uint_loop_chars bits 0 _ _ _). Qed.

#[export] Hint Rewrite len_app len_cons len_empty : str.

(** Slicing and indexing around a known byte. *)
Lemma slice_prefix l t : slice (l +:+ t) 0 (len l) = Return l.
Proof.
  rewrite slice_Return; [|lia|apply len_nonneg|rewrite len_app; pose proof (len_nonneg t); lia].
  rewrite Z.sub_0_r. simpl. unfold len. rewrite Nat2Z.id. by rewrite take_app_s.
Qed.
Lemma drop_app_cons_s l c r :
  drop_s (String.length l + 1) (l +:+ String c r) = r.
Proof.
  induction l as [|d l IH]; [by destruct r|]. rewrite app_cons_s. simpl.
  by rewrite Nat.add_1_r in *.
Qed.
Lemma slice_suffix l c r :
  slice (l +:+ String c r) (len l + 1) (len (l +:+ String c r)) = Return r.
Proof.
  pose proof (len_nonneg l). pose proof (len_nonneg r).
  rewrite slice_Return; rewrite ?len_app, ?len_cons; [|lia..].
  replace (Z.to_nat (len l + 1)) with (String.length l + 1)%nat by (unfold len; lia).
  rewrite drop_app_cons_s.
  replace (Z.to_nat _) with (String.length r) by (unfold len; lia).
  by rewrite take_all_s.
Qed.
Lemma byte_at_0 c s : byte_at (String c s) 0 = Return c.
Proof. done. Qed.
Lemma byte_at_app l c t : byte_at (l +:+ String c t) (len l) = Return c.
Proof.
  pose proof (len_nonneg l). unfold byte_at. rewrite bool_decide_true by done.
  replace (Z.to_nat (len l)) with (String.length l + 0)%nat by (unfold len; lia).
  by rewrite get_app_r.
Qed.
Lemma snoc_s s : s ≠ "" → ∃ h c, s = h +:+ String c "".
Proof.
  induction s as [|c s IH]; [done|]. intros _. destruct s as [|d s].
  - by exists "", c.
  - destruct IH as (h & e & ->); [done|]. by exists (String c h), e.
Qed.
Lemma slice_middle c h d t :
  slice (String c ((h +:+ String d "") +:+ t)) 1 (1 + len h) = Return h.
Proof.
  pose proof (len_nonneg h). pose proof (len_nonneg t).
  rewrite slice_Return; rewrite ?len_cons, ?len_app, ?len_cons, ?len_empty; [|lia..].
  replace (Z.to_nat 1) with 1%nat by lia. cbn [drop_s].
  replace (Z.to_nat _) with (String.length h) by (unfold len; lia).
  by rewrite <- app_assoc_s, take_app_s.
Qed.

(** ** The last element of a path *)

(** A name of a file in a directory. *)
Definition plain_name (f : string) : bool :=
  negb (has_char "/" f) && negb (bool_decide (f ∈ [""; "."; ".."])).

(** What [path.Clean] makes of a directory, up to the name of a file in it. *)
Definition clean_dir (p : string) : string :=
  let rooted := bool_decide (p = "" ∨ HasPrefix p "/" = true) in
  let out := reverse (foldl (clean_step rooted) [] (Split p "/")) in
  (if rooted then "/" else "") +:+ (if bool_decide (out = []) then "" else Join out "/" +:+ "/").

Lemma Split_last p f : has_char "/" f = false → Split (p +:+ "/" +:+ f) "/" = Split p "/" ++ [f].
Proof.
  intros Hf. induction p as [|c p IH].
  - rewrite app_empty_s. change ("/" +:+ f) with (String "/" f). cbn [Split]. rewrite bool_decide_true by done.
    by rewrite (Split_none f).
  - rewrite app_cons_s. cbn [Split]. case_bool_decide; [by rewrite IH|].
    rewrite IH. by destruct (Split_cons p "/") as (x & y & ->).
Qed.
Lemma Join_snoc l s sep : Join (l ++ [s]) sep = (if bool_decide (l = []) then "" else Join l sep +:+ sep) +:+ s.
Proof.
  induction l as [|x l IH]; [done|]. cbn [app]. rewrite bool_decide_false by done.
  rewrite Join_cons by (by destruct l). rewrite IH. case_bool_decide as Hl.
  - subst. simpl. by rewrite app_assoc_s.
  - rewrite (Join_cons x l) by done. by rewrite !app_assoc_s.
Qed.
Lemma path_Clean_last p f : plain_name f = true → path_Clean (p +:+ "/" +:+ f) = clean_dir p +:+ f.
Proof.
  intros [Hf Hn]%andb_true_iff. apply negb_true_iff in Hf. apply negb_true_iff, bool_decide_eq_false in Hn.
  assert (Hstep : ∀ r out, clean_step r out f = f :: out).
  { intros r out. unfold clean_step. rewrite !bool_decide_false; [done|..]; intros Hx; apply Hn; set_solver. }
  assert (Hc : ∃ c s, p +:+ "/" +:+ f = String c s ∧
    bool_decide (c = "/"%char) = bool_decide (p = "" ∨ HasPrefix p "/" = true)).
  { destruct p as [|c p]; [by exists "/"%char, f|]. exists c, (p +:+ "/" +:+ f). split; [done|].
    apply bool_decide_ext. cbn [HasPrefix]. split.
    - intros ->. by right.
    - intros [?|Hp]; [done|]. change (bool_decide ("/"%char = c) && HasPrefix p "" = true) in Hp.
      by apply andb_true_iff in Hp as [<-%bool_decide_eq_true _]. }
  destruct Hc as (c & s & E & Hr). unfold path_Clean, clean_dir. rewrite E, Hr, <- E, Split_last by done.
  rewrite foldl_app. cbn [foldl]. rewrite Hstep, reverse_cons, Join_snoc.
  set (r := bool_decide (p = "" ∨ HasPrefix p "/" = true)). destruct r; [by rewrite app_assoc_s|].
  rewrite bool_decide_false; [done|]. intros H%(f_equal String.length). rewrite length_app_s in H. simpl in H.
  destruct f; [by apply Hn; left|simpl in H; lia].
Qed.

Lemma clean_dir_slash p : clean_dir p = "" ∨ ∃ d, clean_dir p = d +:+ "/".
Proof.
  unfold clean_dir. destruct (bool_decide (reverse _ = [])).
  - case_bool_decide; [right; by exists ""|by left].
  - right. eexists. by rewrite app_assoc_s.
Qed.
Lemma plain_first f : plain_name f = true → path_Clean f = f.
Proof.
  intros Hf. pose proof Hf as [Hs Hn]%andb_true_iff. apply negb_true_iff in Hs.
  apply negb_true_iff, bool_decide_eq_false in Hn. destruct f as [|c f]; [by exfalso; apply Hn; left|].
  unfold path_Clean. rewrite (Split_none (String c f)) by done. cbn [foldl]. unfold clean_step.
  rewrite (bool_decide_false (String c f = "" ∨ _)) by (intros [?|E]; [done|apply Hn; rewrite E; set_solver]).
  rewrite (bool_decide_false (String c f = "..")) by (intros E; apply Hn; rewrite E; set_solver).
  rewrite bool_decide_false by (intros ->; simpl in Hs; done). done.
Qed.

(** A file of a directory is named by the file's name, whatever the directory. *)
Lemma path_Join_last p : ∃ d, ∀ f, plain_name f = true → path_Clean (path_Join [p; f]) = d +:+ f.
Proof.
  assert (Hd : ∀ q, ∃ d, ∀ f, plain_name f = true → path_Clean (clean_dir q +:+ f) = d +:+ f).
  { intros q. destruct (clean_dir_slash q) as [->|(d & ->)].
    - exists "". intros f Hf. rewrite !app_empty_s. by apply plain_first.
    - exists (clean_dir d). intros f Hf. rewrite <- app_assoc_s. by apply path_Clean_last. }
  destruct p as [|c p].
  - exists "". intros f Hf. rewrite app_empty_s.
    assert (Hj : path_Join [""; f] = f) by (destruct f as [|d f]; [done|]; cbn [path_Join Join]; by apply plain_first).
    rewrite Hj. by apply plain_first.
  - destruct (Hd (String c p)) as [d Hd']. exists d. intros f Hf. rewrite <- Hd' by done.
    cbn [path_Join Join]. by rewrite path_Clean_last.
Qed.
Lemma path_Join_inj p f g :
  plain_name f = true → plain_name g = true →
  path_Clean (path_Join [p; f]) = path_Clean (path_Join [p; g]) → f = g.
Proof.
  intros Hf Hg E. destruct (path_Join_last p) as [d Hd]. rewrite !Hd in E by done. by apply app_inj_s in E.
Qed.
