(* ===== verification/GoNet.v ===== *)
(** * IP addresses and the parsing of remote addresses

    Go's [net.ParseIP] and [net.IP.Equal] (package net of Go 1.14), and
    [src/platform/util/netutil/parseip.go] on top of them. *)

From S2P Require Import Prelude GoStrings.
#[export] Set Default Goal Selector "!".

(** ** Package net *)

(** A non-nil [net.IP]: its bytes, 4 or 16 of them. *)
Abbreviation IP := (list Z).

Definition v4InV6Prefix : list Z := [0;0;0;0;0;0;0;0;0;0;255;255].
Definition IPv4 (a b c d : Z) : IP := v4InV6Prefix ++ [a; b; c; d].

(** [net.IP.To4] *)
Definition To4 (ip : IP) : option IP :=
  if bool_decide (length ip = 4%nat) then Some ip
  else if bool_decide (length ip = 16%nat ∧ take 12 ip = v4InV6Prefix)
       then Some (drop 12 ip) else None.

(** [net.IP.Equal]: an IPv4 address and that address in IPv6 form are equal. *)
Definition IP_Equal (ip x : IP) : bool :=
  if bool_decide (length ip = length x) then bool_decide (ip = x)
  else if bool_decide (length ip = 4%nat ∧ length x = 16%nat)
    then bool_decide (take 12 x = v4InV6Prefix ∧ ip = drop 12 x)
  else if bool_decide (length ip = 16%nat ∧ length x = 4%nat)
    then bool_decide (take 12 ip = v4InV6Prefix ∧ drop 12 ip = x)
  else false.

Definition big : Z := 16777215.

(** [IP.String]: dotted for an IPv4 address; otherwise groups in hexadecimal, the
    longest run of at least two zero groups written as two colons. *)
Definition dotted (l : list Z) : string := Join (map FormatInt l) ".".
Fixpoint zero_run (l : list Z) : nat :=
  match l with 0 :: l => S (zero_run l) | _ => O end.
Fixpoint ip_groups (l : list Z) : list Z :=
  match l with a :: b :: l => a * 256 + b :: ip_groups l | _ => [] end.
Definition longest_run (l : list Z) : nat * nat :=
  foldl (λ best i, if bool_decide (best.2 < zero_run (drop i l))%nat then (i, zero_run (drop i l)) else best)
    (O, O) (seq 0 (length l)).
Definition hex_lower (d : Z) : string := take_s 1 (drop_s (Z.to_nat d) "0123456789abcdef").
Fixpoint hex_digits (fuel : nat) (n : Z) : string :=
  match fuel with
  | O => ""
  | S fuel => (if bool_decide (n < 16) then "" else hex_digits fuel (n / 16)) +:+ hex_lower (n mod 16)
  end.
Definition hex_group (n : Z) : string := hex_digits 4 n.
Definition IP_String (ip : IP) : string :=
  if bool_decide (length ip = 0%nat) then "<nil>"
  else match To4 ip with
  | Some p4 => dotted p4
  | None =>
      if bool_decide (length ip ≠ 16%nat)
      then "?" +:+ Join (map (λ b, hex_lower (b / 16) +:+ hex_lower (b mod 16)) ip) ""
      else
        let l := ip_groups ip in
        let '(start, n) := longest_run l in
        if bool_decide (2 ≤ n)%nat
        then Join (map hex_group (take start l)) ":" +:+ "::" +:+ Join (map hex_group (drop (start + n) l)) ":"
        else Join (map hex_group l) ":"
  end.
Example IP_String_ex1 : IP_String (IPv4 10 0 0 1) = "10.0.0.1".
Proof. reflexivity. Qed.
Example IP_String_ex2 : IP_String [32;1;13;184;0;0;0;0;0;0;0;0;0;0;0;18] = "2001:db8::12".
Proof. reflexivity. Qed.

(** [dtoi]: the value of a decimal prefix and the rest of the string. The
    first argument tells whether a digit was read already. *)
Fixpoint dtoi (seen : bool) (n : Z) (s : string) : option (Z * string) :=
  match s with
  | String c s' =>
      match digit_value c with
      | Some d =>
          let n := n * 10 + d in
          if bool_decide (big ≤ n) then None else dtoi true n s'
      | None => if seen then Some (n, s) else None
      end
  | "" => if seen then Some (n, s) else None
  end.

Definition hex_value (c : ascii) : option Z :=
  let n := Z.of_nat (nat_of_ascii c) in
  if bool_decide (48 ≤ n ∧ n ≤ 57) then Some (n - 48)
  else if bool_decide (97 ≤ n ∧ n ≤ 102) then Some (n - 97 + 10)
  else if bool_decide (65 ≤ n ∧ n ≤ 70) then Some (n - 65 + 10)
  else None.

(** [xtoi] *)
Fixpoint xtoi (seen : bool) (n : Z) (s : string) : option (Z * string) :=
  match s with
  | String c s' =>
      match hex_value c with
      | Some d =>
          let n := n * 16 + d in
          if bool_decide (big ≤ n) then None else xtoi true n s'
      | None => if seen then Some (n, s) else None
      end
  | "" => if seen then Some (n, s) else None
  end.

(** The loop of [parseIPv4] over the octets: [k] remain. *)
Fixpoint parse_octets (first : bool) (k : nat) (s : string) : option (list Z) :=
  match k with
  | O => if bool_decide (s = "") then Some [] else None
  | S k =>
      let body s :=
        '(n, s) ← dtoi false 0 s;
        if bool_decide (255 < n) then None
        else l ← parse_octets false k s; Some (n :: l) in
      if first then body s
      else match s with
           | String c s => if bool_decide (c = "."%char) then body s else None
           | "" => None
           end
  end.
Definition parseIPv4 (s : string) : option IP :=
  l ← parse_octets true 4 s; Some (v4InV6Prefix ++ l).

(** The loop of [parseIPv6]: [acc] are the bytes read so far (reversed), their
    number is [i]; [ellipsis] is the position of [::]. Each round reads two or
    four bytes, so eight rounds are enough. *)
Fixpoint parse_groups (fuel : nat) (i : nat) (acc : list Z) (ellipsis : option nat)
    (s : string) : option (list Z * option nat * string) :=
  match fuel with
  | O => Some (acc, ellipsis, s)
  | S fuel =>
      if bool_decide (16 ≤ i)%nat then Some (acc, ellipsis, s) else
      '(n, rest) ← xtoi false 0 s;
      if bool_decide (65535 < n) then None else
      if HasPrefix rest "." then
        if bool_decide (ellipsis = None ∧ i ≠ 12%nat) then None else
        if bool_decide (16 < i + 4)%nat then None else
        ip4 ← parseIPv4 s;
        Some (reverse (drop 12 ip4) ++ acc, ellipsis, "")
      else
        let acc := (n `mod` 256) :: (n / 256) :: acc in
        let i := (i + 2)%nat in
        match rest with
        | "" => Some (acc, ellipsis, "")
        | String c rest =>
            if bool_decide (c ≠ ":"%char ∨ rest = "") then None else
            match rest with
            | String d rest' =>
                if bool_decide (d = ":"%char) then
                  match ellipsis with
                  | Some _ => None
                  | None =>
                      if bool_decide (rest' = "") then Some (acc, Some i, "")
                      else parse_groups fuel i acc (Some i) rest'
                  end
                else parse_groups fuel i acc ellipsis rest
            | "" => None
            end
        end
  end.

(** The bytes with the ellipsis expanded. *)
Definition expand_ellipsis (bytes : list Z) (ellipsis : option nat) : option IP :=
  if bool_decide (length bytes < 16)%nat then
    e ← ellipsis;
    Some (take e bytes ++ replicate (16 - length bytes) 0 ++ drop e bytes)
  else match ellipsis with Some _ => None | None => Some bytes end.

Definition parseIPv6 (s : string) : option IP :=
  let '(ellipsis, s') :=
    if HasPrefix s "::" then (Some 0%nat, drop_s 2 s) else (None, s) in
  if bool_decide (ellipsis = Some 0%nat ∧ s' = "") then Some (replicate 16 0) else
  '(acc, ellipsis, rest) ← parse_groups 8 0 [] ellipsis s';
  if bool_decide (rest ≠ "") then None else expand_ellipsis (reverse acc) ellipsis.

(** [net.ParseIP]; [None] is Go's nil. The first dot or colon decides. *)
Fixpoint first_dot_or_colon (s : string) : option ascii :=
  match s with
  | "" => None
  | String c s =>
      if bool_decide (c = "."%char ∨ c = ":"%char) then Some c else first_dot_or_colon s
  end.
Definition ParseIP (s : string) : option IP :=
  c ← first_dot_or_colon s;
  if bool_decide (c = "."%char) then parseIPv4 s else parseIPv6 s.

(** *** Networks *)

(** [net.IPNet], with a mask as long as the address. *)
Record IPNet := mkIPNet { net_IP : IP; net_Mask : list Z }.

(** [net.CIDRMask], [IP.Mask] and [IPNet.Contains]. *)
Definition mask_byte (ones : Z) (i : nat) : Z :=
  let k := ones - 8 * Z.of_nat i in
  if bool_decide (8 <= k) then 255 else if bool_decide (k <= 0) then 0 else 256 - 2 ^ (8 - k).
Definition CIDRMask (ones : Z) (iplen : nat) : list Z := map (mask_byte ones) (seq 0 iplen).
Definition IP_Mask (ip mask : list Z) : IP :=
  let ip := if bool_decide (length mask = 4%nat ∧ length ip = 16%nat ∧ take 12 ip = v4InV6Prefix) then drop 12 ip else ip in
  zip_with Z.land ip mask.
Definition networkNumberAndMask (n : IPNet) : IP * list Z :=
  let ip := default (net_IP n) (To4 (net_IP n)) in
  (ip, if bool_decide (length (net_Mask n) = 16%nat ∧ length ip = 4%nat) then drop 12 (net_Mask n) else net_Mask n).
Definition Contains_IP (n : IPNet) (ip : IP) : bool :=
  let '(nn, m) := networkNumberAndMask n in
  let ip := default ip (To4 ip) in
  bool_decide (length ip = length nn ∧ zip_with Z.land nn m = zip_with Z.land ip m).

(** [IPNet.String]: the length of a mask of leading ones, the bytes of another. *)
Definition simpleMaskLength (m : list Z) : option Z :=
  List.find (λ n, bool_decide (m = CIDRMask n (length m))) (seqZ 0 (8 * Z.of_nat (length m) + 1)).
Definition IPNet_String (n : IPNet) : string :=
  let '(nn, m) := networkNumberAndMask n in
  IP_String nn +:+ "/" +:+
    match simpleMaskLength m with
    | Some l => FormatInt l
    | None => Join (map (λ b, hex_lower (b / 16) +:+ hex_lower (b mod 16)) m) ""
    end.

(** [net.ParseCIDR]: the address, and the network. *)
Definition ParseCIDR (s : string) : result (IP * IPNet) :=
  let bad := Err (StdError "invalid CIDR address") in
  match SplitN s "/"%char 2 with
  | [addr; mask] =>
      let '(iplen, ip) :=
        match parseIPv4 addr with Some ip => (4%nat, Some ip) | None => (16%nat, parseIPv6 addr) end in
      match ip, dtoi false 0 mask with
      | Some ip, Some (n, "") =>
          if bool_decide (8 * Z.of_nat iplen < n) then bad
          else let m := CIDRMask n iplen in Ok (ip, mkIPNet (IP_Mask ip m) m)
      | _, _ => bad
      end
  | _ => bad
  end.
Example ParseCIDR_ex :
  ParseCIDR "172.28.7.1/20" = Ok (IPv4 172 28 7 1, mkIPNet [172; 28; 0; 0] [255; 255; 240; 0])
  ∧ is_ok (ParseCIDR "172.28.0.0/33") = false ∧ is_ok (ParseCIDR "172.28.0.0") = false ∧ is_ok (ParseCIDR "fd00::/64") = true.
Proof. vm_compute. done. Qed.
Example IPNet_String_ex : IPNet_String (mkIPNet [172; 28; 0; 0] [255; 255; 240; 0]) = "172.28.0.0/20".
Proof. vm_compute. reflexivity. Qed.
Example Contains_ex :
  let n := mkIPNet [172; 28; 0; 0] [255; 255; 240; 0] in
  (Contains_IP n (IPv4 172 28 15 9), Contains_IP n (IPv4 172 28 16 9), Contains_IP n (repeat 0 16)) = (true, false, false).
Proof. vm_compute. done. Qed.

(** ** netutil/parseip.go *)

(** [netutil.ParseRemoteAddress]. Indexing and slicing may panic. *)
Definition ParseRemoteAddress (remote_addr : string) : outcome (result IP) :=
  let index := LastIndexByte remote_addr ":" in
  if bool_decide (index = -1)
  then fail (ErrorString "invalid request address (no colon)") else
  port ← slice remote_addr (index + 1) (len remote_addr);
  _ ←? mret (ParseUint port 16);
  c0 ← byte_at remote_addr 0;
  bracketed ← (if bool_decide (c0 = "["%char)
               then c1 ← byte_at remote_addr (index - 1); Return (bool_decide (c1 = "]"%char))
               else Return false);
  if (bracketed : bool) then
    host ← slice remote_addr 1 (index - 1);
    match ParseIP host with
    | None => fail (ErrorString ("invalid request address (invalid IP in '" +:+ remote_addr +:+ "')"))
    | Some ip =>
        if Contains host "."
        then fail (ErrorString "IP address was expected to be IPv6, but was IPv4")
        else ok ip
    end
  else
    host ← slice remote_addr 0 index;
    match ParseIP host with
    | None => fail (ErrorString ("invalid request address (invalid IP in '" +:+ remote_addr +:+ "')"))
    | Some ip =>
        if Contains host ":"
        then fail (ErrorString "IP address was expected to be IPv4, but was IPv6")
        else ok ip
    end.

(** [netutil.ParseRemoteAddressFromRequest], on the field it reads. *)
Definition ParseRemoteAddressFromRequest (RemoteAddr : string) : outcome (result IP) :=
  ParseRemoteAddress RemoteAddr.

Example parse_v4 : ParseRemoteAddress "10.15.40.2:20557" = Return (Ok (IPv4 10 15 40 2)).
Proof. vm_compute. reflexivity. Qed.
Example parse_v6 :
  ParseRemoteAddress "[2001:0db8:85a3:0000:0000:8a2e:0370:7334]:443" =
  Return (Ok [32;1;13;184;133;163;0;0;0;0;138;46;3;112;115;52]).
Proof. vm_compute. reflexivity. Qed.
Example parse_v6_ellipsis :
  ParseRemoteAddress "[fe80::5]:443" = Return (Ok [254;128;0;0;0;0;0;0;0;0;0;0;0;0;0;5]).
Proof. vm_compute. reflexivity. Qed.
Example parse_v6_mapped :
  ParseRemoteAddress "[::ffff:0808:0808]:123" = Return (Ok (IPv4 8 8 8 8)).
Proof. vm_compute. reflexivity. Qed.
Example parse_bad :
  forallb (λ s, match ParseRemoteAddress s with Return (Err _) => true | _ => false end)
    ["127.0.0:80"; "10.15.40.2:"; "8.8.8.8"; ":56";
     "[2001:0db8:85a3:0000:0000:8a2e:0370:7334]";
     "[2001:0db8:85a3:0000:0000:8a2e:0370:7334]:";
     "2001:0db8:85a3:0000:0000:8a2e:0370:7334:443"; "[127.0.0.1]:123"; "82";
     "127.0.0.1:70000"; "homeworld.private"; "homeworld.private:80";
     "[homeworld.private]:80"; "[fe80:::145"; "fe80::]:145"; "10.15.40.2:123:456";
     "192.168.0.1:hello"; "nothing:55"] = true.
Proof. vm_compute. reflexivity. Qed.

(** ** Lemmas *)

Definition is_byte (n : Z) : Prop := 0 ≤ n ≤ 255.

Lemma hex_value_range c d : hex_value c = Some d → 0 ≤ d ≤ 15.
Proof. unfold hex_value. repeat case_bool_decide; intros; simplify_eq; lia. Qed.

Lemma dtoi_nonneg seen n s m rest : 0 ≤ n → dtoi seen n s = Some (m, rest) → 0 ≤ m.
Proof.
  revert seen n. induction s as [|c s IH]; intros seen n Hn; simpl.
  - destruct seen; naive_solver.
  - destruct (digit_value c) eqn:Hd; [|destruct seen; naive_solver].
    apply digit_value_range in Hd. case_bool_decide; [done|]. apply IH. lia.
Qed.
Lemma xtoi_nonneg seen n s m rest : 0 ≤ n → xtoi seen n s = Some (m, rest) → 0 ≤ m.
Proof.
  revert seen n. induction s as [|c s IH]; intros seen n Hn; simpl.
  - destruct seen; naive_solver.
  - destruct (hex_value c) eqn:Hd; [|destruct seen; naive_solver].
    apply hex_value_range in Hd. case_bool_decide; [done|]. apply IH. lia.
Qed.

Lemma parse_octets_bytes first k s l :
  parse_octets first k s = Some l → length l = k ∧ Forall is_byte l.
Proof.
  revert first s l. induction k as [|k IH]; intros first s l.
  - simpl. case_bool_decide; naive_solver.
  - assert (∀ s, ('(n, s) ← dtoi false 0 s;
        if bool_decide (255 < n) then None
        else l ← parse_octets false k s; Some (n :: l)) = Some l →
        length l = S k ∧ Forall is_byte l) as Hbody.
    { intros s'. destruct (dtoi false 0 s') as [[n r]|] eqn:Hd; simpl; [|done].
      apply dtoi_nonneg in Hd; [|lia]. case_bool_decide; [done|].
      destruct (parse_octets false k r) eqn:Hr; simpl; [|done].
      apply IH in Hr as [? ?]. intros [= <-]. simpl. split; [lia|].
      constructor; [unfold is_byte; lia|done]. }
    destruct first; [apply Hbody|]. destruct s as [|c s]; simpl; [done|].
    case_bool_decide; [apply Hbody|done].
Qed.

Lemma parseIPv4_bytes s ip :
  parseIPv4 s = Some ip →
  ∃ l, ip = v4InV6Prefix ++ l ∧ length l = 4%nat ∧ Forall is_byte l.
Proof.
  unfold parseIPv4. destruct (parse_octets true 4 s) as [l|] eqn:Hl; [|done].
  apply parse_octets_bytes in Hl as [? ?]. simpl. intros [= <-]. by exists l.
Qed.

Lemma parse_groups_bytes fuel i acc e s acc' e' rest :
  length acc = i → (i ≤ 16)%nat → Nat.Even i →
  (∀ k, e = Some k → (k ≤ i)%nat) →
  Forall is_byte acc →
  parse_groups fuel i acc e s = Some (acc', e', rest) →
  Forall is_byte acc' ∧ (length acc' ≤ 16)%nat ∧ (∀ k, e' = Some k → (k ≤ length acc')%nat).
Proof.
  revert i acc e s. induction fuel as [|fuel IH]; intros i acc e s Hl Hi Hev He Hb; cbn [parse_groups].
  { intros [= <- <- <-]. rewrite Hl. done. }
  case_bool_decide as H16; [intros [= <- <- <-]; rewrite Hl; done|].
  destruct (xtoi false 0 s) as [[n r]|] eqn:Hx; cbn [mbind option_bind]; [|done].
  apply xtoi_nonneg in Hx; [|lia]. case_bool_decide as Hn; [done|].
  destruct (HasPrefix r ".").
  - case_bool_decide; [done|]. case_bool_decide as H12; [done|].
    destruct (parseIPv4 s) as [ip4|] eqn:H4; simpl; [|done].
    apply parseIPv4_bytes in H4 as (l & -> & Hl4 & Hb4). intros [= <- <- <-].
    change (drop 12 (v4InV6Prefix ++ l)) with (drop 0 l). rewrite drop_0.
    rewrite length_app, length_reverse, Hl4. split_and!.
    + apply Forall_app. split; [by apply Forall_reverse|done].
    + lia.
    + intros k Hk. apply He in Hk. lia.
  - assert (i + 2 ≤ 16)%nat as Hi2 by (destruct Hev; lia).
    assert (Forall is_byte (n `mod` 256 :: n / 256 :: acc)) as Hb2.
    { pose proof (Z.mod_pos_bound n 256). unfold is_byte.
      assert (0 ≤ n / 256 ≤ 255) by (split; [by apply Z.div_pos|]; apply Z.lt_succ_r,
        Z.div_lt_upper_bound; lia).
      constructor; [lia|]. by constructor. }
    assert (Nat.Even (i + 2)) as Hev2 by (destruct Hev as [j ->]; exists (j + 1)%nat; lia).
    assert (∀ k, e = Some k → (k ≤ i + 2)%nat) as He2 by (intros k Hk; apply He in Hk; lia).
    destruct r as [|c r]; [intros [= <- <- <-]; simpl; rewrite Hl; split_and!; [done|lia|];
      intros k Hk; apply He in Hk; lia|].
    case_bool_decide; [done|]. destruct r as [|d r]; [done|].
    case_bool_decide.
    + destruct e; [done|]. case_bool_decide.
      * intros [= <- <- <-]. simpl. rewrite Hl. split_and!; [done|lia|]. intros k [= <-]. lia.
      * apply IH; simpl; try done; [lia|]. intros k [= <-]. lia.
    + apply IH; simpl; try done. lia.
Qed.

Lemma expand_ellipsis_bytes bytes e ip :
  (length bytes ≤ 16)%nat → (∀ k, e = Some k → (k ≤ length bytes)%nat) → Forall is_byte bytes →
  expand_ellipsis bytes e = Some ip → length ip = 16%nat ∧ Forall is_byte ip.
Proof.
  intros Hl He Hb. unfold expand_ellipsis. case_bool_decide.
  - destruct e as [k|]; simpl; [|done]. specialize (He k eq_refl). intros [= <-].
    rewrite !length_app, length_take, length_drop, length_replicate. split; [lia|].
    apply Forall_app. split; [by apply Forall_take|]. apply Forall_app.
    split; [|by apply Forall_drop]. by apply Forall_replicate.
  - destruct e; [done|]. intros [= <-]. split; [lia|done].
Qed.

(** Every address [ParseIP] returns has 16 bytes. *)
Lemma ParseIP_bytes s ip : ParseIP s = Some ip → length ip = 16%nat ∧ Forall is_byte ip.
Proof.
  unfold ParseIP. destruct (first_dot_or_colon s) as [c|]; simpl; [|done].
  case_bool_decide.
  { intros (l & -> & Hl & Hb)%parseIPv4_bytes. rewrite length_app, Hl. split; [done|].
    apply Forall_app. split; [|done]. by repeat constructor. }
  unfold parseIPv6.
  assert (∀ e s', (∀ k, e = Some k → k = 0%nat) →
    ('(acc, ellipsis, rest) ← parse_groups 8 0 [] e s';
     if bool_decide (rest ≠ "") then None else expand_ellipsis (reverse acc) ellipsis) = Some ip →
    length ip = 16%nat ∧ Forall is_byte ip) as Hg.
  { intros e s' He. destruct (parse_groups _ _ _ _ _) as [[[acc e'] rest]|] eqn:Hg; simpl; [|done].
    apply parse_groups_bytes in Hg as (Hb & Hlen & He'); [|try done..].
    - case_bool_decide; [done|].
      apply expand_ellipsis_bytes; rewrite ?length_reverse; [done|done|by apply Forall_reverse].
    - lia.
    - by exists 0%nat.
    - intros k ->%He. lia. }
  destruct (HasPrefix s "::").
  - case_bool_decide; [intros [= <-]; split; [done|]; by repeat constructor|].
    apply Hg. by intros k [= <-].
  - case_bool_decide as H0; [by destruct H0|]. by apply Hg.
Qed.

Lemma ParseIP_no_bracket s : ParseIP (String "[" s) = None.
Proof.
  unfold ParseIP. destruct (first_dot_or_colon _) as [c|]; simpl; [|done].
  case_bool_decide; [done|]. reflexivity.
Qed.

Lemma colon_not_digit : digit_value ":" = None.
Proof. reflexivity. Qed.

(** What the last part of [ParseRemoteAddress] answers, on the host it cut out
    and the byte that host must not contain. *)
Definition host_result (addr host : string) (bad : ascii) (msg : string) : result IP :=
  match ParseIP host with
  | None => Err (ErrorString ("invalid request address (invalid IP in '" +:+ addr +:+ "')"))
  | Some ip => if has_char bad host then Err (ErrorString msg) else Ok ip
  end.

(** A host in brackets, or not. *)
Definition bracket (h : string) : string := String "[" (h +:+ "]").

Lemma bracket_dec host : (∃ h, host = bracket h) ∨ (∀ h, host ≠ bracket h).
Proof.
  destruct host as [|c s]; [by right|].
  destruct (decide (c = "["%char)) as [->|Hc]; [|right; unfold bracket; congruence].
  destruct (decide (s = "")) as [->|Hs]; [right; by intros []|].
  destruct (snoc_s s Hs) as (h & d & ->).
  destruct (decide (d = "]"%char)) as [->|Hd]; [left; by exists h|].
  right. intros h' [= H]. apply (f_equal (λ s, s +:+ "")) in H.
  assert (String.length h = String.length h') as Hl.
  { apply (f_equal String.length) in H. rewrite !length_app_s in H. simpl in H. lia. }
  apply (f_equal (drop_s (String.length h))) in H.
  rewrite <- !app_assoc_s in H. rewrite drop_app_s, Hl, drop_app_s in H.
  injection H. congruence.
Qed.

Lemma len_bracket h : len (bracket h) = 2 + len h.
Proof. unfold bracket. rewrite len_cons, len_app, len_cons, len_empty. lia. Qed.

Lemma bracket_bytes h t :
  byte_at (bracket h +:+ t) 0 = Return "["%char ∧
  byte_at (bracket h +:+ t) (len (bracket h) - 1) = Return "]"%char ∧
  slice (bracket h +:+ t) 1 (len (bracket h) - 1) = Return h.
Proof.
  rewrite len_bracket. replace (2 + len h - 1) with (1 + len h) by lia. split_and!; [done| |].
  - assert (bracket h +:+ t = String "[" h +:+ String "]" t) as ->.
    { unfold bracket. rewrite !app_cons_s, <- app_assoc_s. done. }
    rewrite <- (len_cons "["). apply byte_at_app.
  - apply slice_middle.
Qed.

Lemma ParseRemoteAddress_bracket h port :
  has_char ":" port = false →
  let addr := bracket h +:+ String ":" port in
  ParseRemoteAddress addr =
  match ParseUint port 16 with
  | Err e => Return (Err e)
  | Ok _ => Return (host_result addr h "." "IP address was expected to be IPv6, but was IPv4")
  end.
Proof.
  intros Hport addr. unfold addr, ParseRemoteAddress.
  rewrite LastIndexByte_app by done.
  pose proof (len_nonneg (bracket h)). rewrite bool_decide_false by lia.
  rewrite slice_suffix.
  unfold try_bind, mbind, mret, outcome_bind, outcome_ret.
  destruct (ParseUint port 16) as [p|e] eqn:Hp; [|done].
  destruct (bracket_bytes h (String ":" port)) as (-> & -> & ->).
  rewrite !bool_decide_true by done.
  unfold host_result. destruct (ParseIP h) as [ip|]; [|done].
  rewrite Contains_char. by destruct (has_char "." h).
Qed.

Lemma ParseRemoteAddress_plain host port :
  has_char ":" port = false → (∀ h, host ≠ bracket h) →
  let addr := host +:+ String ":" port in
  ParseRemoteAddress addr =
  match ParseUint port 16 with
  | Err e => Return (Err e)
  | Ok _ => Return (host_result addr host ":" "IP address was expected to be IPv4, but was IPv6")
  end.
Proof.
  intros Hport Hhost addr. unfold addr, ParseRemoteAddress.
  rewrite LastIndexByte_app by done.
  pose proof (len_nonneg host) as Hlen. rewrite bool_decide_false by lia.
  rewrite slice_suffix, slice_prefix.
  unfold try_bind, mbind, mret, outcome_bind, outcome_ret.
  destruct (ParseUint port 16) as [p|e] eqn:Hp; [|done].
  assert (∀ b, b = false →
    (if (b : bool) then Panic "x" else
     match ParseIP host with
     | None => Return (Err (ErrorString ("invalid request address (invalid IP in '" +:+ addr +:+ "')")))
     | Some ip => if Contains host ":" then Return (Err (ErrorString "IP address was expected to be IPv4, but was IPv6")) else Return (Ok ip)
     end) = Return (host_result addr host ":" "IP address was expected to be IPv4, but was IPv6")) as Hend.
  { intros b ->. unfold host_result. destruct (ParseIP host) as [ip|]; [|done].
    rewrite Contains_char. by destruct (has_char ":" host). }
  specialize (Hend false eq_refl). cbn in Hend.
  destruct host as [|c s]; [exact Hend|].
  rewrite app_cons_s, byte_at_0. case_bool_decide as Hc; [subst c|exact Hend].
  destruct (decide (s = "")) as [->|Hs]; [exact Hend|].
  destruct (snoc_s s Hs) as (h & d & ->).
  assert (byte_at (String "[" ((h +:+ String d "") +:+ String ":" port))
            (len (String "[" (h +:+ String d "")) - 1) = Return d) as ->.
  { rewrite len_cons, len_app, len_cons, len_empty, <- app_assoc_s.
    replace (1 + (len h + (1 + 0)) - 1) with (len (String "[" h)) by (rewrite len_cons; lia).
    apply (byte_at_app (String "[" h)). }
  case_bool_decide as Hd; [subst d; by destruct (Hhost h)|exact Hend].
Qed.

(** Every address either has no colon or is cut at its last one. *)
Lemma last_colon_dec s :
  has_char ":" s = false ∨
  ∃ host port, s = host +:+ String ":" port ∧ has_char ":" port = false.
Proof.
  destruct (has_char ":" s) eqn:H; [right|by left].
  apply LastIndexByte_split in H as (l & r & ? & ? & _). eauto.
Qed.

(** no remote address makes [ParseRemoteAddress] index or slice out of
    range: it always returns, an address or an error. *)
Theorem ParseRemoteAddress_never_panics s : ∃ r, ParseRemoteAddress s = Return r.
Proof.
  destruct (last_colon_dec s) as [H|(host & port & -> & Hp)].
  - apply LastIndexByte_none in H. unfold ParseRemoteAddress. rewrite H. by eexists.
  - destruct (bracket_dec host) as [[h ->]|Hh].
    + rewrite ParseRemoteAddress_bracket by done. destruct (ParseUint port 16); by eexists.
    + rewrite ParseRemoteAddress_plain by done. destruct (ParseUint port 16); by eexists.
Qed.

(** C36: exactly the addresses accepted. *)
Theorem ParseRemoteAddress_accepts s ip :
  ParseRemoteAddress s = Return (Ok ip) ↔
  ∃ host port n, ParseUint port 16 = Ok n ∧ ParseIP host = Some ip ∧
    ((s = host +:+ ":" +:+ port ∧ has_char ":" host = false) ∨
     (s = "[" +:+ host +:+ "]:" +:+ port ∧ has_char "." host = false)).
Proof.
  assert (∀ h port, bracket h +:+ String ":" port = "[" +:+ h +:+ "]:" +:+ port) as Hb.
  { intros. unfold bracket. by rewrite !app_cons_s, app_empty_s, <- app_assoc_s. }
  split.
  - destruct (last_colon_dec s) as [H|(host & port & -> & Hp)].
    { apply LastIndexByte_none in H. unfold ParseRemoteAddress. by rewrite H. }
    destruct (bracket_dec host) as [[h ->]|Hh].
    + rewrite ParseRemoteAddress_bracket by done.
      destruct (ParseUint port 16) as [n|] eqn:Hn; [|done]. unfold host_result.
      destruct (ParseIP h) as [ip'|] eqn:Hip; [|done]. destruct (has_char "." h) eqn:Hd; [done|].
      intros [= ->]. exists h, port, n. auto.
    + rewrite ParseRemoteAddress_plain by done.
      destruct (ParseUint port 16) as [n|] eqn:Hn; [|done]. unfold host_result.
      destruct (ParseIP host) as [ip'|] eqn:Hip; [|done]. destruct (has_char ":" host) eqn:Hd; [done|].
      intros [= ->]. exists host, port, n. auto.
  - intros (host & port & n & Hn & Hip & Hs).
    assert (has_char ":" port = false) as Hp by (by eapply ParseUint_chars).
    destruct Hs as [[-> Hd]|[-> Hd]].
    + change (":" +:+ port) with (String ":" port).
      rewrite ParseRemoteAddress_plain; [|done|].
      * unfold host_result. by rewrite Hn, Hip, Hd.
      * intros h ->. unfold bracket in Hip. by rewrite ParseIP_no_bracket in Hip.
    + rewrite <- Hb, ParseRemoteAddress_bracket by done.
      unfold host_result. by rewrite Hn, Hip, Hd.
Qed.
