(* ===== verification/StrUtil.v ===== *)
(** * Template substitution and environments

    [src/platform/util/strutil/substitute.go] and
    [src/platform/util/osutil/environment.go]. *)

From S2P Require Import Prelude GoStrings.
#[export] Set Default Goal Selector "!".

(** [vars[name]] of a Go map of strings: the empty string when absent. *)
Definition map_get (m : gmap string string) (k : string) : string := default "" (m !! k).

(** ** strutil/substitute.go *)

(** The body of the loop of [SubstituteVars] over the parts after the first. *)
Definition substitute_part (within : string) (vars : gmap string string)
    (snippets : list string) (part : string) : result (list string) :=
  let subparts := Split part ")" in
  if bool_decide (length subparts < 2)%nat then
    Err (ErrorString ("Missing close parenthesis in substitution string '" +:+ within +:+ "'"))
  else if bool_decide (2 < length subparts)%nat then
    Err (ErrorString ("Extraneous close parenthesis in substitution string '" +:+ within +:+ "'"))
  else
    let varname := nth 0 subparts "" in
    let text := nth 1 subparts "" in
    let value := map_get vars varname in
    if bool_decide (value = "") then
      Err (ErrorString ("Undefined variable " +:+ varname +:+ " in substitution string '"
                        +:+ within +:+ "'"))
    else Ok (snippets ++ [value] ++ [text]).

Definition SubstituteVars (within : string) (vars : gmap string string) : result string :=
  let parts := Split within "(" in
  let part0 := nth 0 parts "" in
  if Contains part0 ")" then
    Err (ErrorString ("Extraneous close parenthesis in substitution string '" +:+ within +:+ "'"))
  else
    snippets ← fold_result (substitute_part within vars) [part0] (tail parts);
    Ok (Join snippets "").

Definition SubstituteAllVars (within : list string) (vars : gmap string string)
    : result (list string) :=
  mapM (λ str, SubstituteVars str vars) within.

(** ** osutil/environment.go *)

(** [osutil.ModifiedEnviron]; the first argument is what [os.Environ] returned. *)
Fixpoint modify_entries (key value : string) (env : list string) : list string * bool :=
  match env with
  | [] => ([], false)
  | entry :: env =>
      let '(env', found) := modify_entries key value env in
      if HasPrefix entry (key +:+ "=") then ((key +:+ "=" +:+ value) :: env', true)
      else (entry :: env', found)
  end.
Definition ModifiedEnviron (env : list string) (key value : string) : list string :=
  let '(env, found) := modify_entries key value env in
  if found then env else env ++ [key +:+ "=" +:+ value].

(** ** What a template is

    The abstract syntax that [SubstituteVars] reads: a text, then variables
    each followed by a text. *)
Definition template : Type := string * list (string * string).

Definition plain (s : string) : Prop := has_char "(" s = false ∧ has_char ")" s = false.
Definition template_wf (t : template) : Prop :=
  plain t.1 ∧ Forall (λ p, plain p.1 ∧ plain p.2) t.2.

Definition print_tail (l : list (string * string)) : string :=
  foldr (λ p acc, "(" +:+ p.1 +:+ ")" +:+ p.2 +:+ acc) "" l.
Definition print_template (t : template) : string := t.1 +:+ print_tail t.2.

Definition render_tail (vars : gmap string string) (l : list (string * string)) : string :=
  foldr (λ p acc, map_get vars p.1 +:+ p.2 +:+ acc) "" l.
Definition render (vars : gmap string string) (t : template) : string :=
  t.1 +:+ render_tail vars t.2.

Definition all_defined (vars : gmap string string) (t : template) : Prop :=
  Forall (λ p, map_get vars p.1 ≠ "") t.2.

Lemma Join_app_empty l1 l2 : Join (l1 ++ l2) "" = Join l1 "" +:+ Join l2 "".
Proof.
  induction l1 as [|s l1 IH]; [done|].
  destruct (decide (l1 ++ l2 = [])) as [[-> ->]%app_nil|Hne].
  { simpl. by rewrite app_nil_s. }
  cbn [app]. rewrite Join_cons by done. rewrite IH, app_empty_s.
  destruct l1 as [|s' l1]; [done|]. rewrite (Join_cons s) by done.
  by rewrite app_empty_s, app_assoc_s.
Qed.

(** One step of the loop accepts exactly a variable and a text. *)
Lemma substitute_part_Ok w vars snippets part out :
  substitute_part w vars snippets part = Ok out ↔
  ∃ v t, part = v +:+ ")" +:+ t ∧ has_char ")" v = false ∧ has_char ")" t = false ∧
         map_get vars v ≠ "" ∧ out = snippets ++ [map_get vars v; t].
Proof.
  unfold substitute_part. split.
  - pose proof (Join_Split part ")") as HJ. pose proof (Split_no_char part ")") as HN.
    destruct (Split part ")") as [|v [|t [|? ?]]]; simpl; try done.
    case_bool_decide; [done|]. intros [= <-].
    apply Forall_cons in HN as [? [? _]%Forall_cons]. exists v, t. simpl in HJ. auto.
  - intros (v & t & -> & Hv & Ht & Hd & ->).
    change (")" +:+ t) with (String ")" t). rewrite Split_app, Split_none by done.
    simpl. by rewrite bool_decide_false.
Qed.

Lemma has_open_print l : has_char ")" (print_tail l) = bool_decide (l ≠ []) || false.
Proof.
  rewrite orb_false_r. destruct l as [|[v t] l]; [done|]. simpl.
  rewrite !has_char_app. simpl. by rewrite !orb_true_r.
Qed.

(** The pieces between the open parentheses of a printed template. *)
Lemma Split_print_tail l s :
  has_char "(" s = false → Forall (λ p, plain p.1 ∧ plain p.2) l →
  Split (s +:+ print_tail l) "(" = s :: ((λ p, p.1 +:+ ")" +:+ p.2) <$> l).
Proof.
  revert s. induction l as [|[v t] l IH]; intros s Hs Hl; simpl.
  { rewrite app_nil_s. by apply Split_none. }
  apply Forall_cons in Hl as [[[Hv1 Hv2] [Ht1 Ht2]] Hl]. cbn [fst snd] in *.
  change ("(" +:+ (v +:+ ")" +:+ t +:+ print_tail l))
    with (String "(" (v +:+ ")" +:+ t +:+ print_tail l)).
  rewrite Split_app by done. f_equal.
  rewrite (app_assoc_s ")" t), (app_assoc_s v). apply IH; [|done].
  rewrite !has_char_app, Hv1, Ht1. done.
Qed.

Lemma Join_print_tail s l :
  Join (s :: ((λ p, p.1 +:+ ")" +:+ p.2) <$> l)) "(" = s +:+ print_tail l.
Proof.
  revert s. induction l as [|[v t] l IH]; intros s; [simpl; by rewrite app_nil_s|].
  cbn [fmap list_fmap]. rewrite Join_cons by done. rewrite IH. cbn [fst snd print_tail foldr].
  by rewrite !app_assoc_s.
Qed.

Lemma fold_substitute w vars snippets parts out :
  fold_result (substitute_part w vars) snippets parts = Ok out ↔
  ∃ l, parts = (λ p, p.1 +:+ ")" +:+ p.2) <$> l ∧
       Forall (λ p, has_char ")" p.1 = false ∧ has_char ")" p.2 = false ∧ map_get vars p.1 ≠ "") l ∧
       out = snippets ++ concat ((λ p, [map_get vars p.1; p.2]) <$> l).
Proof.
  revert snippets. induction parts as [|part parts IH]; intros snippets; simpl.
  - split.
    + intros [= <-]. exists []. split_and!; [done|done|]. simpl. by rewrite app_nil_r.
    + intros (l & Hl & _ & ->). symmetry in Hl. apply fmap_nil_inv in Hl as ->.
      simpl. by rewrite app_nil_r.
  - split.
    + destruct (substitute_part w vars snippets part) as [s1|] eqn:H1; simpl; [|done].
      apply substitute_part_Ok in H1 as (v & t & -> & ? & ? & ? & ->).
      intros (l & -> & Hl & ->)%IH. exists ((v, t) :: l). split_and!; [done| |].
      * by constructor.
      * simpl. by rewrite <- (assoc_L app).
    + intros (l & Hl & HF & ->). destruct l as [|[v t] l]; [done|].
      cbn [fmap list_fmap fst snd] in Hl. injection Hl as -> ->.
      apply Forall_cons in HF as [(? & ? & ?) HF].
      assert (substitute_part w vars snippets (v +:+ ")" +:+ t) =
              Ok (snippets ++ [map_get vars v; t])) as ->.
      { apply substitute_part_Ok. eauto 10. }
      simpl. apply IH. exists l. split_and!; [done|done|]. simpl. by rewrite <- (assoc_L app).
Qed.

Lemma Join_concat vars l :
  Join (concat ((λ p : string * string, [map_get vars p.1; p.2]) <$> l)) "" = render_tail vars l.
Proof.
  induction l as [|[v t] l IH]; [done|]. cbn [fmap list_fmap concat].
  rewrite Join_app_empty, IH. simpl. by rewrite app_empty_s, <- app_assoc_s.
Qed.

(** C40: [SubstituteVars] succeeds exactly on the printed form of a well-formed
    template whose variables all have a non-empty value, and then answers that
    template rendered: values are inserted verbatim, never substituted again. *)
Theorem SubstituteVars_spec within vars out :
  SubstituteVars within vars = Ok out ↔
  ∃ t, template_wf t ∧ all_defined vars t ∧ within = print_template t ∧ out = render vars t.
Proof.
  unfold SubstituteVars. rewrite Contains_char. split.
  - pose proof (Join_Split within "(") as HJ. pose proof (Split_no_char within "(") as HN.
    destruct (Split_cons within "(") as (t0 & parts & E). rewrite E in *. cbn [nth tail].
    destruct (has_char ")" t0) eqn:H0; [done|].
    destruct (fold_result _ _ _) as [snips|] eqn:Hf; simpl; [|done].
    apply fold_substitute in Hf as (l & -> & HF & ->). intros [= <-].
    apply Forall_cons in HN as [Ht0 HN]. rewrite Forall_fmap in HN.
    exists (t0, l). split_and!.
    + split; [done|]. apply Forall_forall. intros [v t] Hin.
      rewrite Forall_forall in HN, HF. specialize (HN _ Hin). destruct (HF _ Hin) as (? & ? & _).
      cbn in *. rewrite !has_char_app in HN. cbn in HN.
      apply orb_false_iff in HN as [? [_ ?]%orb_false_iff]. done.
    + unfold all_defined. simpl. eapply Forall_impl; [exact HF|]. by intros ? (? & ? & ?).
    + rewrite <- HJ. apply Join_print_tail.
    + unfold render. cbn [app]. simpl. rewrite <- Join_concat.
      clear. destruct (concat _); simpl; [by rewrite app_nil_s|by rewrite app_empty_s].
  - intros ([t0 l] & [[Ht0 Ht0'] Hl] & Hd & -> & ->). unfold print_template. cbn [fst snd] in *.
    rewrite Split_print_tail by done. cbn [nth tail]. rewrite Ht0'.
    assert (fold_result (substitute_part (t0 +:+ print_tail l) vars) [t0]
             ((λ p, p.1 +:+ ")" +:+ p.2) <$> l) =
            Ok ([t0] ++ concat ((λ p, [map_get vars p.1; p.2]) <$> l))) as ->.
    { apply fold_substitute. exists l. split_and!; [done| |done].
      apply Forall_forall. intros p Hp. unfold all_defined in Hd. rewrite Forall_forall in Hl, Hd.
      destruct (Hl _ Hp) as [[? ?] [? ?]]. split_and!; [done|done|by apply Hd]. }
    simpl. f_equal. unfold render. simpl. rewrite <- Join_concat.
    destruct (concat _); simpl; [by rewrite app_nil_s|by rewrite app_empty_s].
Qed.

Lemma mapM_result_Ok {A B} (f : A → result B) l k :
  mapM f l = Ok k ↔ Forall2 (λ a b, f a = Ok b) l k.
Proof.
  revert k. induction l as [|a l IH]; intros k; cbn.
  - split; [by intros [= <-]|]. by inversion 1.
  - destruct (f a) as [b|e] eqn:Ha; cbn.
    + destruct (mapM f l) as [bs|e] eqn:Hl; cbn.
      * split.
        -- intros [= <-]. constructor; [done|]. by apply IH.
        -- inversion 1 as [|? ? ? ? Hb Hf]; subst. apply IH in Hf. cbv [mret result_ret]. congruence.
      * split; [done|]. inversion 1 as [|? ? ? ? Hb Hf]; subst. by apply IH in Hf.
    + split; [done|]. inversion 1; congruence.
Qed.

(** The list version substitutes pointwise, and fails when one string does. *)
Lemma SubstituteAllVars_spec within vars outs :
  SubstituteAllVars within vars = Ok outs ↔
  Forall2 (λ s o, SubstituteVars s vars = Ok o) within outs.
Proof. apply mapM_result_Ok. Qed.

Example substitute_ex :
  SubstituteVars "(hostname).mit.edu" {[ "hostname" := "egg(s)" ]} = Ok "egg(s).mit.edu".
Proof. vm_compute. reflexivity. Qed.
Example substitute_bad_ex :
  forallb (λ s, negb (is_ok (SubstituteVars s {[ "ruby" := "red" ]})))
    ["a (ruby"; "ruby)"; "(ruby ("; ")ruby("; "("; ")"; "(missing)"] = true.
Proof. vm_compute. reflexivity. Qed.

(** ** What an environment gives *)

(** The values that the entries for [key] give, in order. *)
Definition env_values (key : string) (env : list string) : list string :=
  (λ e, drop_s (String.length (key +:+ "=")) e) <$>
    filter (λ e, HasPrefix e (key +:+ "=") = true) env.
Definition other_entries (key : string) (env : list string) : list string :=
  filter (λ e, HasPrefix e (key +:+ "=") = false) env.

Lemma entry_prefix key value : HasPrefix (key +:+ "=" +:+ value) (key +:+ "=") = true.
Proof. rewrite app_assoc_s. apply HasPrefix_app. Qed.
Lemma entry_value key value :
  drop_s (String.length (key +:+ "=")) (key +:+ "=" +:+ value) = value.
Proof. rewrite app_assoc_s. apply drop_app_s. Qed.

Lemma modify_entries_spec key value env :
  let '(env', found) := modify_entries key value env in
  env_values key env' = replicate (length (env_values key env)) value ∧
  other_entries key env' = other_entries key env ∧
  found = bool_decide (env_values key env ≠ []).
Proof.
  unfold env_values, other_entries.
  induction env as [|e env IH]; [done|]. cbn [modify_entries].
  destruct (modify_entries key value env) as [env' found]. destruct IH as (IH1 & IH2 & ->).
  destruct (HasPrefix e (key +:+ "=")) eqn:He.
  - rewrite !filter_cons, entry_prefix, He, !decide_True, !decide_False by done.
    cbn [fmap list_fmap length replicate]. rewrite entry_value. split_and!; [by f_equal|done|by rewrite bool_decide_true].
  - rewrite !filter_cons, He. repeat (case_decide; try done).
    split_and!; [done|by f_equal|done].
Qed.

(** in the modified environment the key has exactly the new value: every
    entry that set it (there may be several) is replaced, one is added when
    there was none, and all other entries are kept in order. *)
Theorem ModifiedEnviron_spec env key value :
  env_values key (ModifiedEnviron env key value) =
    replicate (Nat.max 1 (length (env_values key env))) value ∧
  other_entries key (ModifiedEnviron env key value) = other_entries key env.
Proof.
  unfold ModifiedEnviron. pose proof (modify_entries_spec key value env) as H.
  destruct (modify_entries key value env) as [env' found]. destruct H as (Hv & Ho & ->).
  case_bool_decide as Hne.
  - rewrite Hv, Ho. split; [|done]. f_equal. destruct (env_values key env); [done|]. simpl. lia.
  - rewrite Hne in *. cbn in Hv.
    unfold env_values, other_entries in *. rewrite !filter_app, fmap_app, Hv, Ho.
    rewrite !filter_cons, entry_prefix, decide_True, decide_False by done. cbn.
    rewrite entry_value, app_nil_r. done.
Qed.
