(* ===== verification/GoOS.v ===== *)
(** * The operating system under the program

    The part of the machine that the program reads and changes: the clock, the
    random source, a file tree, external commands, the log. What the machine
    answers is part of the state, as lists that the operations consume, so that
    a theorem about all states is a theorem about every clock, every random
    source, every input/output failure and every reply of a command. *)

From S2P Require Import Prelude GoStrings.
From stdpp Require Import sorting.
#[local] Open Scope Z_scope.
#[export] Set Default Goal Selector "!".

(** ** State *)

Inductive node : Type :=
| File (contents : string) (mode : Z) (mtime : Z)
| Dir.

(** An injected failure of a system call: the error it returns, and how much of
    its work (bytes written, directories made) it did before failing. *)
Record fault := mkFault { fault_err : error; fault_done : nat }.

(** An external command: its arguments, its environment when it is not that of
    the process, what it is given to read. *)
Record command := mkCommand { cmd_args : list string; cmd_env : option (list string); cmd_stdin : string }.
(** What became of it: it succeeded, it exited with an error after writing to
    standard error, or it could not be run. *)
Inductive reply :=
| Succeeded (output : string)
| ExitError (msg stderr : string)
| NotStarted (err : error).

(** Times are nanoseconds since 1970; durations are nanoseconds. *)
Record OS := mkOS {
  now : Z;                        (* the current time *)
  ticks : list N;                 (* how far the clock moves before each reading *)
  entropy : list string;          (* what successive reads of crypto/rand give *)
  fs : gmap string node;          (* the file tree, by cleaned path *)
  faults : list (option fault);   (* the failures of the next system calls *)
  replies : nat → reply; (* the outcomes of the external commands that are still to come *)
  ran : list command;       (* the external commands run, last first *)
  logged : list string;           (* the lines logged, last first *)
  stdout : string;                (* what was written to standard output *)
  environ : list string;          (* the environment of the process *)
  host_name : string              (* the kernel's host name *)
}.

(** The state of a process: the machine, and what lies outside of it or is
    owned by the component modelled. *)
Record World (X : Type) := mkWorld { os : OS; comp : X }.
Arguments mkWorld {_} _ _.
Arguments os {_} _.
Arguments comp {_} _.

Definition on_os {X} (f : OS → OS) (w : World X) : World X := mkWorld (f (os w)) (comp w).
Definition on_comp {X} (f : X → X) (w : World X) : World X := mkWorld (os w) (f (comp w)).

Definition with_clock (n : Z) (t : list N) (o : OS) : OS :=
  mkOS n t (entropy o) (fs o) (faults o) (replies o) (ran o) (logged o) (stdout o) (environ o) (host_name o).
Definition with_entropy (e : list string) (o : OS) : OS :=
  mkOS (now o) (ticks o) e (fs o) (faults o) (replies o) (ran o) (logged o) (stdout o) (environ o) (host_name o).
Definition with_fs (f : gmap string node) (o : OS) : OS :=
  mkOS (now o) (ticks o) (entropy o) f (faults o) (replies o) (ran o) (logged o) (stdout o) (environ o) (host_name o).
Definition with_faults (f : list (option fault)) (o : OS) : OS :=
  mkOS (now o) (ticks o) (entropy o) (fs o) f (replies o) (ran o) (logged o) (stdout o) (environ o) (host_name o).
Definition with_commands (r : nat → reply) (l : list command) (o : OS) : OS :=
  mkOS (now o) (ticks o) (entropy o) (fs o) (faults o) r l (logged o) (stdout o) (environ o) (host_name o).
Definition with_log (l : list string) (o : OS) : OS :=
  mkOS (now o) (ticks o) (entropy o) (fs o) (faults o) (replies o) (ran o) l (stdout o) (environ o) (host_name o).
Definition with_stdout (l : string) (o : OS) : OS :=
  mkOS (now o) (ticks o) (entropy o) (fs o) (faults o) (replies o) (ran o) (logged o) l (environ o) (host_name o).

#[export] Instance node_eq_dec : EqDecision node.
Proof. solve_decision. Defined.
#[export] Instance leb_dec : RelDecision (λ a b : string, String.leb a b = true).
Proof. intros a b. exact (decide (String.leb a b = true)). Defined.

(** Commands that answer with these outcomes, one after the other, and then with nothing. *)
Definition answering (l : list reply) : nat → reply := λ i, default (Succeeded "") (l !! i).
(** The outcomes after the next one. *)
Definition later_replies (r : nat → reply) : nat → reply := λ i, r (S i).

(** A machine at time [n] where nothing fails. *)
Definition os0 (n : Z) : OS := mkOS n [] [] ∅ [] (answering []) [] [] "" [] "localhost".

(** ** Operations *)

Section ops.
Context {X : Type}.
Abbreviation MW := (M (World X)).

(** [time.Now] *)
Definition time_Now : MW Z := λ w,
  let t := head (ticks (os w)) in
  let n := now (os w) + Z.of_N (default 0%N t) in
  (Return n, on_os (with_clock n (tail (ticks (os w)))) w).

(** One read of [rand.Reader]. *)
Definition rand_chunk : MW (option string) := λ w,
  (Return (head (entropy (os w))), on_os (with_entropy (tail (entropy (os w)))) w).

(** [rand.Read] of [n] bytes: an error when the source does not give them. *)
Definition rand_Read (n : nat) : MW (result string) :=
  c ← rand_chunk;
  match c with
  | Some s => if bool_decide (String.length s = n) then ok s
              else fail (StdError "crypto/rand: short read")
  | None => fail (StdError "crypto/rand: read failed")
  end.

Definition log_Print (s : string) : MW unit :=
  modify (on_os (λ o, with_log (s :: logged o) o)).

Definition write_stdout (s : string) : MW unit :=
  modify (on_os (λ o, with_stdout (stdout o +:+ s) o)).

(** Runs an external command. *)
Definition exec_Command (c : command) : MW reply := λ w,
  (Return (replies (os w) 0%nat),
   on_os (λ o, with_commands (later_replies (replies o)) (c :: ran o) o) w).
Definition exec_Output (args : list string) : MW (result string) :=
  r ← exec_Command (mkCommand args None "");
  mret match r with
       | Succeeded output => Ok output
       | ExitError msg _ => Err (ForeignError msg)
       | NotStarted err => Err err
       end.
Definition exec_Run (args : list string) : MW (result unit) :=
  r ← exec_Output args;
  match r with Ok _ => ok tt | Err e => fail e end.

(** The same with the outputs of the command going where those of the process go. *)
Definition exec_Attached (args : list string) : MW (result unit) :=
  r ← exec_Command (mkCommand args None "");
  match r with
  | Succeeded output => _ ← write_stdout output; ok tt
  | ExitError msg _ => fail (ForeignError msg)
  | NotStarted err => fail err
  end.

Definition os_Environ : MW (list string) := gets (λ w, environ (os w)).
(** [os.Getenv]: the value of the first entry for the key. *)
Definition os_Getenv (key : string) : MW string :=
  gets (λ w, match List.find (λ e, HasPrefix e (key +:+ "=")) (environ (os w)) with
             | Some e => drop_s (String.length (key +:+ "=")) e
             | None => ""
             end).

(** *** Files *)

Definition next_fault : MW (option fault) := λ w,
  (Return (mjoin (head (faults (os w)))), on_os (λ o, with_faults (tail (faults o)) o) w).

(** A system call that may fail before it does anything. *)
Definition syscall {A} (m : MW (result A)) : MW (result A) :=
  f ← next_fault;
  match f with Some f => fail (fault_err f) | None => m end.

Definition set_node (p : string) (n : node) : MW unit :=
  modify (on_os (λ o, with_fs (<[path_Clean p := n]> (fs o)) o)).

Definition lookup_node (p : string) : MW (option node) :=
  gets (λ w,
    if bool_decide (path_Clean p = "/" ∨ path_Clean p = ".") then Some Dir
    else fs (os w) !! path_Clean p).

(** [os.Stat] *)
Definition os_Stat (p : string) : MW (result node) :=
  syscall (n ← lookup_node p;
           match n with
           | Some n => ok n
           | None => fail (PathError "stat" p true)
           end).

(** [os.Open] and the close of the file, for its error only. *)
Definition os_Open (p : string) : MW (result unit) :=
  syscall (n ← lookup_node p;
           match n with
           | Some _ => ok tt
           | None => fail (PathError "open" p true)
           end).

(** [ioutil.ReadFile] *)
Definition ReadFile (p : string) : MW (result string) :=
  syscall (n ← lookup_node p;
           match n with
           | Some (File c _ _) => syscall (ok c)
           | Some Dir => fail (PathError "read" p false)
           | None => fail (PathError "open" p true)
           end).

(** The names in a directory, sorted by their bytes; [.] and [..] are not among them. *)
Definition dir_prefix (d : string) : string :=
  let d := path_Clean d in
  if bool_decide (d = "/") then "/" else if bool_decide (d = ".") then "" else d +:+ "/".
Definition child_of (d key : string) : option string :=
  let p := dir_prefix d in
  let name := drop_s (String.length p) key in
  if HasPrefix key p && plain_name name then Some name else None.
Definition children (f : gmap string node) (d : string) : list string :=
  merge_sort (λ a b, String.leb a b = true) (omap (child_of d) (map_to_list f).*1).

(** [ioutil.ReadDir], of the names only. *)
Definition ReadDir (d : string) : MW (result (list string)) :=
  syscall (n ← lookup_node d;
           match n with
           | Some Dir => f ← gets (λ w, fs (os w)); syscall (ok (children f d))
           | Some (File _ _ _) => fail (PathError "readdirent" d false)
           | None => fail (PathError "open" d true)
           end).

(** [os.Remove], of a file or an empty directory. *)
Definition os_Remove (p : string) : MW (result unit) :=
  syscall (n ← lookup_node p;
           f ← gets (λ w, fs (os w));
           match n with
           | Some n =>
               if bool_decide (n = Dir ∧ (children f p ≠ [] ∨ path_Clean p = "/" ∨ path_Clean p = "."))
               then fail (PathError "remove" p false)
               else _ ← modify (on_os (λ o, with_fs (delete (path_Clean p) (fs o)) o)); ok tt
           | None => fail (PathError "remove" p true)
           end).

(** Creates an empty file when there is none ([excl]: only then), truncates
    it otherwise; the directory must exist. *)
Definition open_for_write (excl : bool) (p : string) (mode : Z) : MW (result unit) :=
  syscall (n ← lookup_node p;
           d ← lookup_node (path_Dir p);
           t ← gets (λ w, now (os w));
           match n, d with
           | Some Dir, _ => fail (PathError "open" p false)
           | Some (File _ m _), _ =>
               if excl then fail (PathError "open" p false)
               else _ ← set_node p (File "" m t); ok tt
           | None, Some Dir => _ ← set_node p (File "" mode t); ok tt
           | None, Some _ => fail (PathError "open" p false)
           | None, None => fail (PathError "open" p true)
           end).

(** [Write] to a file just opened: a failure may leave a part written. *)
Definition file_Write (p : string) (data : string) : MW (result unit) :=
  f ← next_fault;
  n ← lookup_node p;
  t ← gets (λ w, now (os w));
  let mode := match n with Some (File _ m _) => m | _ => 0 end in
  match f with
  | Some f => _ ← set_node p (File (take_s (fault_done f) data) mode t); fail (fault_err f)
  | None => _ ← set_node p (File data mode t); ok tt
  end.

Definition file_Close : MW (result unit) := syscall (ok tt).

(** [ioutil.WriteFile]: open, write, close; the first error is returned. *)
Definition WriteFile (p : string) (data : string) (mode : Z) : MW (result unit) :=
  open_for_write false p mode ;?
  r ← file_Write p data;
  c ← file_Close;
  mret match r with Err e => Err e | Ok _ => c end.

(** The directories on the way to [p], and [p]. *)
Fixpoint ancestors_of (pre : string) (l : list string) : list string :=
  match l with
  | [] => []
  | e :: l => let p := if bool_decide (pre = "") then e else pre +:+ "/" +:+ e in
              (if bool_decide (e = "") then [] else [p]) ++
              ancestors_of (if bool_decide (e = "") then pre else p) l
  end.
Definition ancestors (p : string) : list string :=
  let p := path_Clean p in
  if HasPrefix p "/" then (λ q, "/" +:+ q) <$> ancestors_of "" (Split p "/")
  else ancestors_of "" (Split p "/").

Definition is_file (n : option node) : bool :=
  match n with Some (File _ _ _) => true | _ => false end.

(** [os.MkdirAll]: a failure may leave some of the directories. *)
Definition MkdirAll (p : string) : MW (result unit) :=
  f ← next_fault;
  t ← gets (λ w, fs (os w));
  let dirs := ancestors p in
  let add l := modify (on_os (λ o, with_fs (foldr (λ q, <[q := Dir]>) (fs o) l) o)) in
  if existsb (λ q, is_file (t !! q)) dirs then fail (PathError "mkdir" p false)
  else match f with
       | Some f => _ ← add (take (fault_done f) dirs); fail (fault_err f)
       | None => _ ← add dirs; ok tt
       end.
End ops.

Definition IsNotExist (e : error) : bool :=
  match e with PathError _ _ b => b | _ => false end.

Example ancestors_ex : ancestors "/etc/homeworld/keys" = ["/etc"; "/etc/homeworld"; "/etc/homeworld/keys"].
Proof. vm_compute. reflexivity. Qed.

(** ** Frames of the operations *)

(** Every operation above leaves the rest of the world alone, and moves time
    forward only. *)
Definition os_only {X} : relation (World X) := same comp.
Definition later {X} : relation (World X) := λ w w', now (os w) ≤ now (os w').
Definition same_fs {X} : relation (World X) := same (λ w, fs (os w)).
(** Only the files at the paths in [P] may change. *)
Definition fs_only {X} (P : string → Prop) : relation (World X) :=
  λ w w', ∀ q, ¬ P q → fs (os w') !! q = fs (os w) !! q.

#[export] Instance os_only_equiv {X} : Equivalence (@os_only X).
Proof. apply same_equiv. Qed.
#[export] Instance same_fs_equiv {X} : Equivalence (@same_fs X).
Proof. apply same_equiv. Qed.
#[export] Instance later_preorder {X} : PreOrder (@later X).
Proof. split; unfold later; [intros ?; lia|intros ???; lia]. Qed.
#[export] Instance fs_only_preorder {X} P : PreOrder (@fs_only X P).
Proof.
  split; unfold fs_only; [done|]. intros w1 w2 w3 H1 H2 q Hq. by rewrite H2, H1.
Qed.

Lemma same_fs_only {X A} P (m : M (World X) A) : keeps same_fs m → keeps (fs_only P) m.
Proof. intros H w q _. specialize (H w). unfold same_fs, same in H. by rewrite H. Qed.

Lemma fs_only_mono {X A} (P Q : string → Prop) (m : M (World X) A) :
  (∀ q, P q → Q q) → keeps (fs_only P) m → keeps (fs_only Q) m.
Proof. intros HPQ H w q Hq. apply H. auto. Qed.

Ltac op_frame :=
  intros; intros w; unfold mbind, M_bind, mret, M_ret, modify, gets, on_os, on_comp;
  repeat (case_match; simpl in *; simplify_eq); try done.

Section frames.
Context {X : Type}.
Implicit Types p : string.

Lemma time_Now_os_only : keeps os_only (@time_Now X).
Proof. done. Qed.
Lemma time_Now_later : keeps later (@time_Now X).
Proof. intros w. unfold later, time_Now. simpl. lia. Qed.
Lemma time_Now_fs : keeps same_fs (@time_Now X).
Proof. done. Qed.

Lemma rand_chunk_os_only : keeps os_only (@rand_chunk X).
Proof. done. Qed.
Lemma rand_chunk_later : keeps later (@rand_chunk X).
Proof. intros w. unfold later. simpl. lia. Qed.
Lemma rand_chunk_fs : keeps same_fs (@rand_chunk X).
Proof. done. Qed.

Lemma log_Print_os_only s : keeps os_only (@log_Print X s).
Proof. done. Qed.
Lemma log_Print_later s : keeps later (@log_Print X s).
Proof. intros w. unfold later. simpl. lia. Qed.
Lemma log_Print_fs s : keeps same_fs (@log_Print X s).
Proof. done. Qed.

Lemma exec_Command_os_only c : keeps os_only (@exec_Command X c).
Proof. done. Qed.
Lemma exec_Command_later c : keeps later (@exec_Command X c).
Proof. intros w. unfold later. simpl. lia. Qed.
Lemma exec_Command_fs c : keeps same_fs (@exec_Command X c).
Proof. done. Qed.
Lemma exec_Command_returns c : returns (@exec_Command X c).
Proof. intros w. by eexists. Qed.
Lemma write_stdout_os_only s : keeps os_only (@write_stdout X s).
Proof. done. Qed.
Lemma write_stdout_later s : keeps later (@write_stdout X s).
Proof. intros w. unfold later. simpl. lia. Qed.
Lemma write_stdout_fs s : keeps same_fs (@write_stdout X s).
Proof. done. Qed.

Lemma exec_Output_os_only l : keeps os_only (@exec_Output X l).
Proof. done. Qed.
Lemma exec_Output_later l : keeps later (@exec_Output X l).
Proof. intros w. unfold later. simpl. lia. Qed.
Lemma exec_Output_fs l : keeps same_fs (@exec_Output X l).
Proof. done. Qed.

Lemma next_fault_os_only : keeps os_only (@next_fault X).
Proof. done. Qed.
Lemma next_fault_later : keeps later (@next_fault X).
Proof. intros w. unfold later. simpl. lia. Qed.
Lemma next_fault_fs : keeps same_fs (@next_fault X).
Proof. done. Qed.

Lemma set_node_os_only p n : keeps os_only (@set_node X p n).
Proof. done. Qed.
Lemma set_node_later p n : keeps later (@set_node X p n).
Proof. intros w. unfold later. simpl. lia. Qed.
Lemma set_node_fs p n : keeps (fs_only (eq (path_Clean p))) (@set_node X p n).
Proof. intros w q Hq. simpl. by rewrite lookup_insert_ne. Qed.

Lemma time_Now_returns : returns (@time_Now X).
Proof. intros w. by eexists. Qed.
Lemma rand_chunk_returns : returns (@rand_chunk X).
Proof. intros w. by eexists. Qed.
Lemma log_Print_returns s : returns (@log_Print X s).
Proof. intros w. by eexists. Qed.
Lemma write_stdout_returns s : returns (@write_stdout X s).
Proof. intros w. by eexists. Qed.
Lemma exec_Output_returns l : returns (@exec_Output X l).
Proof. intros w. by eexists. Qed.
Lemma next_fault_returns : returns (@next_fault X).
Proof. intros w. by eexists. Qed.
Lemma set_node_returns p n : returns (@set_node X p n).
Proof. intros w. by eexists. Qed.
Lemma lookup_node_returns p : returns (@lookup_node X p).
Proof. intros w. by eexists. Qed.

Lemma keeps_syscall {A} (R : relation (World X)) `{!PreOrder R} (m : M (World X) (result A)) :
  keeps R (@next_fault X) → keeps R m → keeps R (syscall m).
Proof.
  intros Hf Hm. unfold syscall. apply keeps_bind; [done|done|]. intros [f|]; [|done].
  by apply keeps_ret.
Qed.
Lemma returns_syscall {A} (m : M (World X) (result A)) : returns m → returns (syscall m).
Proof.
  intros Hm. unfold syscall. apply returns_bind; [apply next_fault_returns|].
  intros [f|]; [apply returns_ret|done].
Qed.
End frames.

#[export] Hint Resolve time_Now_os_only time_Now_later time_Now_fs rand_chunk_os_only
  rand_chunk_later rand_chunk_fs log_Print_os_only log_Print_later log_Print_fs
  write_stdout_os_only write_stdout_later write_stdout_fs exec_Output_os_only
  exec_Output_later exec_Output_fs next_fault_os_only next_fault_later next_fault_fs
  set_node_os_only set_node_later set_node_fs : go.
#[export] Hint Resolve time_Now_returns rand_chunk_returns log_Print_returns
  write_stdout_returns exec_Output_returns next_fault_returns set_node_returns
  lookup_node_returns returns_syscall exec_Command_returns : go.
#[export] Hint Resolve exec_Command_os_only exec_Command_later exec_Command_fs : go.
#[export] Hint Extern 2 (keeps _ (syscall _)) =>
  (apply keeps_syscall; [exact _|..]) : go.
#[export] Hint Extern 2 (keeps _ (lookup_node _)) => (apply keeps_gets; exact _) : go.
#[export] Hint Extern 2 (keeps _ os_Environ) => (apply keeps_gets; exact _) : go.
#[export] Hint Extern 2 (keeps _ (os_Getenv _)) => (apply keeps_gets; exact _) : go.
#[export] Hint Extern 3 (keeps (fs_only _) _) => (apply same_fs_only) : go.
#[export] Hint Extern 3 (keeps _ (modify _)) =>
  (apply keeps_modify; intros ?; first [reflexivity|unfold later; simpl; lia]) : go.

(** Splits a frame goal along the code, system calls included. *)
Ltac os_frame_step :=
  match goal with
  | |- keeps _ (syscall _) => apply keeps_syscall; [exact _|..]
  | |- returns (syscall _) => apply returns_syscall
  | |- keeps (fs_only _) (_ ≫= _) => apply keeps_bind; [exact _|..]
  | _ => go_frame_step
  end.
Ltac os_frame := repeat (cbv beta zeta; os_frame_step).

Section op_frames.
Context {X : Type}.
Implicit Types p : string.

Lemma rand_Read_os_only n : keeps os_only (@rand_Read X n).
Proof. unfold rand_Read. os_frame. Qed.
Lemma rand_Read_later n : keeps later (@rand_Read X n).
Proof. unfold rand_Read. os_frame. Qed.
Lemma rand_Read_fs n : keeps same_fs (@rand_Read X n).
Proof. unfold rand_Read. os_frame. Qed.
Lemma exec_Run_os_only l : keeps os_only (@exec_Run X l).
Proof. unfold exec_Run. os_frame. Qed.
Lemma exec_Run_later l : keeps later (@exec_Run X l).
Proof. unfold exec_Run. os_frame. Qed.
Lemma exec_Run_fs l : keeps same_fs (@exec_Run X l).
Proof. unfold exec_Run. os_frame. Qed.
Lemma os_Stat_os_only p : keeps os_only (@os_Stat X p).
Proof. unfold os_Stat. os_frame. Qed.
Lemma os_Stat_later p : keeps later (@os_Stat X p).
Proof. unfold os_Stat. os_frame. Qed.
Lemma os_Stat_fs p : keeps same_fs (@os_Stat X p).
Proof. unfold os_Stat. os_frame. Qed.
Lemma os_Open_os_only p : keeps os_only (@os_Open X p).
Proof. unfold os_Open. os_frame. Qed.
Lemma os_Open_later p : keeps later (@os_Open X p).
Proof. unfold os_Open. os_frame. Qed.
Lemma os_Open_fs p : keeps same_fs (@os_Open X p).
Proof. unfold os_Open. os_frame. Qed.
Lemma ReadFile_os_only p : keeps os_only (@ReadFile X p).
Proof. unfold ReadFile. os_frame. Qed.
Lemma ReadFile_later p : keeps later (@ReadFile X p).
Proof. unfold ReadFile. os_frame. Qed.
Lemma ReadFile_fs p : keeps same_fs (@ReadFile X p).
Proof. unfold ReadFile. os_frame. Qed.
Lemma os_Remove_os_only p : keeps os_only (@os_Remove X p).
Proof. unfold os_Remove. os_frame. Qed.
Lemma os_Remove_later p : keeps later (@os_Remove X p).
Proof. unfold os_Remove. os_frame. Qed.
Lemma exec_Attached_os_only l : keeps os_only (@exec_Attached X l).
Proof. unfold exec_Attached. os_frame. Qed.
Lemma exec_Attached_later l : keeps later (@exec_Attached X l).
Proof. unfold exec_Attached. os_frame. Qed.
Lemma exec_Attached_fs l : keeps same_fs (@exec_Attached X l).
Proof. unfold exec_Attached. os_frame. Qed.
Lemma ReadDir_os_only p : keeps os_only (@ReadDir X p).
Proof. unfold ReadDir. os_frame. Qed.
Lemma ReadDir_later p : keeps later (@ReadDir X p).
Proof. unfold ReadDir. os_frame. Qed.
Lemma ReadDir_fs p : keeps same_fs (@ReadDir X p).
Proof. unfold ReadDir. os_frame. Qed.
Lemma os_Remove_fs p : keeps (fs_only (eq (path_Clean p))) (@os_Remove X p).
Proof.
  unfold os_Remove. os_frame. apply keeps_modify.
  intros w q Hq. simpl. by rewrite lookup_delete_ne.
Qed.
Lemma open_for_write_os_only b p m : keeps os_only (@open_for_write X b p m).
Proof. unfold open_for_write. os_frame. Qed.
Lemma open_for_write_later b p m : keeps later (@open_for_write X b p m).
Proof. unfold open_for_write. os_frame. Qed.
Lemma open_for_write_fs b p m : keeps (fs_only (eq (path_Clean p))) (@open_for_write X b p m).
Proof. unfold open_for_write. os_frame. Qed.
Lemma file_Write_os_only p d : keeps os_only (@file_Write X p d).
Proof. unfold file_Write. os_frame. Qed.
Lemma file_Write_later p d : keeps later (@file_Write X p d).
Proof. unfold file_Write. os_frame. Qed.
Lemma file_Write_fs p d : keeps (fs_only (eq (path_Clean p))) (@file_Write X p d).
Proof. unfold file_Write. os_frame. Qed.
Lemma file_Close_os_only : keeps os_only (@file_Close X).
Proof. unfold file_Close. os_frame. Qed.
Lemma file_Close_later : keeps later (@file_Close X).
Proof. unfold file_Close. os_frame. Qed.
Lemma file_Close_fs : keeps same_fs (@file_Close X).
Proof. unfold file_Close. os_frame. Qed.
End op_frames.

#[export] Hint Resolve rand_Read_os_only rand_Read_later rand_Read_fs exec_Run_os_only
  exec_Run_later exec_Run_fs os_Stat_os_only os_Stat_later os_Stat_fs os_Open_os_only
  os_Open_later os_Open_fs ReadFile_os_only ReadFile_later ReadFile_fs os_Remove_os_only
  os_Remove_later os_Remove_fs exec_Attached_os_only exec_Attached_later exec_Attached_fs
  ReadDir_os_only ReadDir_later ReadDir_fs open_for_write_os_only open_for_write_later
  open_for_write_fs file_Write_os_only file_Write_later file_Write_fs file_Close_os_only
  file_Close_later file_Close_fs : go.

Section write_frames.
Context {X : Type}.
Implicit Types p : string.

Lemma WriteFile_os_only p d m : keeps os_only (@WriteFile X p d m).
Proof. unfold WriteFile. os_frame. Qed.
Lemma WriteFile_later p d m : keeps later (@WriteFile X p d m).
Proof. unfold WriteFile. os_frame. Qed.
Lemma WriteFile_fs p d m : keeps (fs_only (eq (path_Clean p))) (@WriteFile X p d m).
Proof. unfold WriteFile. os_frame. Qed.

Lemma MkdirAll_os_only p : keeps os_only (@MkdirAll X p).
Proof. unfold MkdirAll. os_frame. Qed.
Lemma MkdirAll_later p : keeps later (@MkdirAll X p).
Proof. unfold MkdirAll. os_frame. Qed.

(** Making directories never touches a file. *)
Lemma foldr_insert_file (f : gmap string node) (l : list string) q n :
  is_file (Some n) = true → existsb (λ q, is_file (f !! q)) l = false →
  foldr (λ q, <[q := Dir]>) f l !! q = Some n ↔ f !! q = Some n.
Proof.
  intros Hn. induction l as [|p l IH]; simpl; [done|].
  intros [Hp Hl]%orb_false_iff. specialize (IH Hl).
  destruct (decide (p = q)) as [->|Hpq].
  - rewrite lookup_insert_eq. split; [intros [= <-]; done|]. intros E. rewrite E in Hp. congruence.
  - by rewrite lookup_insert_ne.
Qed.
End write_frames.

#[export] Hint Resolve WriteFile_os_only WriteFile_later WriteFile_fs MkdirAll_os_only
  MkdirAll_later : go.

(** Only files at the paths in [P] may change; directories may appear. *)
Definition files_only {X} (P : string → Prop) : relation (World X) :=
  λ w w', ∀ q n, ¬ P q → is_file (Some n) = true →
    fs (os w') !! q = Some n ↔ fs (os w) !! q = Some n.

#[export] Instance files_only_preorder {X} P : PreOrder (@files_only X P).
Proof.
  split; unfold files_only; [done|]. intros w1 w2 w3 H1 H2 q n Hq Hn. by rewrite H2, H1.
Qed.

Lemma fs_files_only {X A} P (m : M (World X) A) : keeps (fs_only P) m → keeps (files_only P) m.
Proof. intros H w q n Hq _. by rewrite (H w q Hq). Qed.
Lemma same_files_only {X A} P (m : M (World X) A) : keeps same_fs m → keeps (files_only P) m.
Proof. intros H. by apply fs_files_only, same_fs_only. Qed.
Lemma files_only_mono {X A} (P Q : string → Prop) (m : M (World X) A) :
  (∀ q, P q → Q q) → keeps (files_only P) m → keeps (files_only Q) m.
Proof. intros HPQ H w q n Hq. apply H. auto. Qed.

Lemma MkdirAll_files {X} P p : keeps (files_only P) (@MkdirAll X p).
Proof.
  intros w q n _ Hn. unfold MkdirAll, mbind, M_bind, next_fault, gets, modify. simpl.
  destruct (existsb _ _) eqn:He; [done|].
  destruct (mjoin _) as [f|]; simpl; apply foldr_insert_file; try done.
  apply not_true_iff_false. intros (x & Hx & Hf)%existsb_exists.
  apply not_true_iff_false in He. apply He, existsb_exists. exists x. split; [|done].
  rewrite <- (take_drop (fault_done f)). apply in_or_app. by left.
Qed.

#[export] Hint Resolve MkdirAll_files : go.
#[export] Hint Extern 4 (keeps (files_only _) _) =>
  first [apply same_files_only; solve [eauto 3 with go]
        |apply fs_files_only; solve [eauto 3 with go]] : go.

Section total.
Context {X : Type}.
Implicit Types p : string.

Lemma rand_Read_returns n : returns (@rand_Read X n).
Proof. unfold rand_Read. os_frame. Qed.
Lemma exec_Run_returns l : returns (@exec_Run X l).
Proof. unfold exec_Run. os_frame. Qed.
Lemma os_Stat_returns p : returns (@os_Stat X p).
Proof. unfold os_Stat. os_frame. Qed.
Lemma os_Open_returns p : returns (@os_Open X p).
Proof. unfold os_Open. os_frame. Qed.
Lemma ReadFile_returns p : returns (@ReadFile X p).
Proof. unfold ReadFile. os_frame. Qed.
Lemma os_Remove_returns p : returns (@os_Remove X p).
Proof. unfold os_Remove. os_frame. Qed.
Lemma exec_Attached_returns l : returns (@exec_Attached X l).
Proof. unfold exec_Attached. os_frame. Qed.
Lemma ReadDir_returns p : returns (@ReadDir X p).
Proof. unfold ReadDir. os_frame. Qed.
Lemma open_for_write_returns b p m : returns (@open_for_write X b p m).
Proof. unfold open_for_write. os_frame. Qed.
Lemma file_Write_returns p d : returns (@file_Write X p d).
Proof. unfold file_Write. os_frame. Qed.
Lemma file_Close_returns : returns (@file_Close X).
Proof. unfold file_Close. os_frame. Qed.
Lemma MkdirAll_returns p : returns (@MkdirAll X p).
Proof. unfold MkdirAll. os_frame. Qed.
End total.

#[export] Hint Resolve rand_Read_returns exec_Run_returns os_Stat_returns os_Open_returns
  ReadFile_returns os_Remove_returns exec_Attached_returns ReadDir_returns open_for_write_returns file_Write_returns
  file_Close_returns MkdirAll_returns : go.

Lemma WriteFile_returns {X} p d m : returns (@WriteFile X p d m).
Proof. unfold WriteFile. os_frame. Qed.
#[export] Hint Resolve WriteFile_returns : go.
