(* ===== verification/Exits.v ===== *)
(** * How programs end

    The ends of a main function: with [log.Fatal], with a status, or by returning; and what
    is known of the files when a program ends with a status. *)

From S2P Require Import Prelude GoStrings GoOS.
#[export] Set Default Goal Selector "!".

Section exits.
Context {X : Type}.
Abbreviation MW := (M (World X)).

(** [logger.Fatal], and the ends of a program with a status. *)
Definition logger_Fatal {A} (msg : string) : MW A := _ ← log_Print msg; exit 1.
Definition log_exit {A} (code : Z) (msg : string) : MW A := _ ← log_Print msg; exit code.
Definition or_exit {A} (code : Z) (m : MW (result A)) : MW A :=
  r ← m; match r with Ok a => mret a | Err err => log_exit code (Error err) end.
Definition or_fatal {A} (m : MW (result A)) : MW A := or_exit 1 m.
End exits.

(** ** How the programs end *)

(** A run returns, or exits with one of these statuses; it does not panic. *)
Definition exits {S A} (codes : list Z) (m : M S A) : Prop := ∀ s,
  match (m s).1 with Return _ => True | Exit c => c ∈ codes | Panic _ => False end.
(** A run that exits with one of these statuses has touched no file. *)
Definition untouched {X A} (codes : list Z) (m : M (World X) A) : Prop := ∀ w c,
  (m w).1 = Exit c → c ∈ codes → fs (os (m w).2) = fs (os w).

Section exits_lemmas.
Context {X : Type}.

Lemma exits_returns {S A} codes (m : M S A) : returns m → exits codes m.
Proof. intros Hm s. destruct (Hm s) as [a ->]. done. Qed.
Lemma exits_bind {S A B} codes (m : M S A) (f : A → M S B) :
  exits codes m → (∀ a s s', m s = (Return a, s') → exits codes (f a)) → exits codes (m ≫= f).
Proof.
  intros Hm Hf s. unfold mbind, M_bind. specialize (Hm s). destruct (m s) as [[a|w|c] s'] eqn:E; [|done..].
  eapply Hf, E.
Qed.
Lemma exits_mono {S A} codes codes' (m : M S A) : codes ⊆ codes' → exits codes m → exits codes' m.
Proof. intros Hc Hm s. specialize (Hm s). destruct (m s).1; [done..|]. by apply Hc. Qed.

Lemma untouched_bind {A B} codes (m : M (World X) A) (f : A → M (World X) B) :
  keeps same_fs m → (∀ a w w', m w = (Return a, w') → untouched codes (f a)) → untouched codes (m ≫= f).
Proof.
  intros Hm Hf w c. unfold mbind, M_bind. specialize (Hm w). destruct (m w) as [[a|?|?] w'] eqn:E; simpl in *; [|done|done].
  intros Hc Hin. rewrite (Hf a w w' E w' c Hc Hin). by symmetry.
Qed.
Lemma exits_untouched {A} codes codes' (m : M (World X) A) :
  exits codes m → (∀ c, c ∈ codes → c ∉ codes') → untouched codes' m.
Proof. intros Hm Hd w c Hc Hin. specialize (Hm w). rewrite Hc in Hm. by destruct (Hd c). Qed.
Lemma keeps_untouched {A} codes (m : M (World X) A) : keeps same_fs m → untouched codes m.
Proof. intros Hm w c _ _. symmetry. apply Hm. Qed.

Lemma log_exit_exits {A} codes c msg : c ∈ codes → exits codes (log_exit (X:=X) (A:=A) c msg).
Proof. intros Hc s. exact Hc. Qed.
Lemma or_exit_exits {A} codes c (m : M (World X) (result A)) : returns m → c ∈ codes → exits codes (or_exit c m).
Proof.
  intros Hm Hc. apply exits_bind; [by apply exits_returns|]. intros [a|e] _ _ _; [by apply exits_returns, returns_ret|by apply log_exit_exits].
Qed.
Lemma log_exit_keeps {A} (R : relation (World X)) `{!PreOrder R} c msg :
  keeps R (log_Print (X:=X) msg) → keeps R (log_exit (A:=A) c msg).
Proof. intros. unfold log_exit. os_frame. Qed.
Lemma or_exit_keeps {A} (R : relation (World X)) `{!PreOrder R} c (m : M (World X) (result A)) :
  (∀ msg, keeps R (log_Print (X:=X) msg)) → keeps R m → keeps R (or_exit c m).
Proof. intros. unfold or_exit, log_exit. os_frame. Qed.
Lemma or_exit_inv {A} c (m : M (World X) (result A)) w a w' :
  or_exit c m w = (Return a, w') → m w = (Return (Ok a), w').
Proof. unfold or_exit. intros (r & w1 & E & H)%bind_inv. destruct r; [by injection H as -> ->|done]. Qed.

(** A step of a main function: it ends there with status 1, or goes on. *)
Lemma fatal_step {A B} (Q : outcome B → World X → Prop) (m : M (World X) (result A)) (k : A → M (World X) B) w :
  returns m →
  (∀ e w1 w2, m w = (Return (Err e), w1) → fs (os w2) = fs (os w1) → Q (Exit 1) w2) →
  (∀ a w1, m w = (Return (Ok a), w1) → ∃ o w', k a w1 = (o, w') ∧ Q o w') →
  ∃ o w', (or_fatal m ≫= k) w = (o, w') ∧ Q o w'.
Proof.
  intros Hr He Hk. destruct (Hr w) as [r Er]. destruct (m w) as [o w1] eqn:E. simpl in Er. subst o.
  unfold or_fatal, or_exit. destruct r as [a|e].
  - destruct (Hk a w1 eq_refl) as (o & w' & E2 & HQ). exists o, w'. split; [|done].
    rewrite (bind_Return _ _ w a w1); [done|]. by rewrite (bind_Return _ _ _ _ _ E).
  - eexists _, _. split; [|by apply (He e w1 (on_os (λ o, with_log (Error e :: logged o) o) w1))].
    unfold mbind at 1, M_bind at 1. by rewrite (bind_Return _ _ _ _ _ E).
Qed.
(** The same for a step that touches no file. *)
Lemma fatal_bind {A B} (Q : outcome B → World X → Prop) (m : M (World X) (result A)) (k : A → M (World X) B) w :
  returns m → keeps same_fs m →
  (∀ w2, fs (os w2) = fs (os w) → Q (Exit 1) w2) →
  (∀ a w1, m w = (Return (Ok a), w1) → fs (os w1) = fs (os w) → ∃ o w', k a w1 = (o, w') ∧ Q o w') →
  ∃ o w', (or_fatal m ≫= k) w = (o, w') ∧ Q o w'.
Proof.
  intros Hr Hf He Hk. specialize (Hf w). apply fatal_step; [done|..].
  - intros e w1 w2 E E2. apply He. rewrite E in Hf. by rewrite E2, Hf.
  - intros a w1 E. apply Hk; [done|]. rewrite E in Hf. by symmetry.
Qed.
End exits_lemmas.
