(* ===== verification/FileUtil.v ===== *)
(** * Files: fileutil

    [src/platform/util/fileutil/util.go]. *)

From S2P Require Import Prelude GoStrings GoOS.
#[export] Set Default Goal Selector "!".

Section fileutil.
Context {X : Type}.
Abbreviation MW := (M (World X)).

Definition Exists (path : string) : MW bool :=
  r ← os_Open path;
  match r with Ok _ => mret true | Err _ => mret false end.

Definition EnsureIsFolder (dirname : string) : MW (result unit) :=
  r ← os_Stat dirname;
  fileinfo ←?
    match r with
    | Ok n => ok n
    | Err err =>
        r2 ← (if IsNotExist err then MkdirAll dirname else fail err);
        match r2 with
        | Err err => fail err
        | Ok _ => os_Stat dirname
        end
    end;
  match fileinfo with
  | Dir => ok tt
  | File _ _ _ => fail (ErrorString "not a directory")
  end.

Definition CreateFile (filename contents : string) (permissions : Z) : MW (result unit) :=
  open_for_write true filename permissions ;?
  r ← file_Write filename contents;
  err ← match r with
        | Err err => _ ← file_Close; fail err
        | Ok _ => file_Close
        end;
  match err with
  | Ok _ => ok tt
  | Err err =>
      r2 ← os_Remove filename;
      match r2 with
      | Err err2 =>
          if negb (IsNotExist err2)
          then fail (ErrorString ("multiple errors while creating file: " +:+
                                  Error err +:+ " | " +:+ Error err2))
          else fail err
      | Ok _ => fail err
      end
  end.
End fileutil.

(** ** Frames *)

Section frames.
Context {X : Type}.
Implicit Types p : string.

Lemma Exists_os_only p : keeps os_only (@Exists X p).
Proof. unfold Exists. os_frame. Qed.
Lemma Exists_later p : keeps later (@Exists X p).
Proof. unfold Exists. os_frame. Qed.
Lemma Exists_fs p : keeps same_fs (@Exists X p).
Proof. unfold Exists. os_frame. Qed.
Lemma Exists_returns p : returns (@Exists X p).
Proof. unfold Exists. os_frame. Qed.
Lemma EnsureIsFolder_os_only p : keeps os_only (@EnsureIsFolder X p).
Proof. unfold EnsureIsFolder. os_frame. Qed.
Lemma EnsureIsFolder_later p : keeps later (@EnsureIsFolder X p).
Proof. unfold EnsureIsFolder. os_frame. Qed.
Lemma EnsureIsFolder_files P p : keeps (files_only P) (@EnsureIsFolder X p).
Proof. unfold EnsureIsFolder. os_frame. Qed.
Lemma EnsureIsFolder_returns p : returns (@EnsureIsFolder X p).
Proof. unfold EnsureIsFolder. os_frame. Qed.
Lemma CreateFile_os_only p c m : keeps os_only (@CreateFile X p c m).
Proof. unfold CreateFile. os_frame. Qed.
Lemma CreateFile_later p c m : keeps later (@CreateFile X p c m).
Proof. unfold CreateFile. os_frame. Qed.
Lemma CreateFile_fs p c m : keeps (fs_only (eq (path_Clean p))) (@CreateFile X p c m).
Proof. unfold CreateFile. os_frame. Qed.
Lemma CreateFile_returns p c m : returns (@CreateFile X p c m).
Proof. unfold CreateFile. os_frame. Qed.
End frames.

#[export] Hint Resolve Exists_os_only Exists_later Exists_fs Exists_returns
  EnsureIsFolder_os_only EnsureIsFolder_later EnsureIsFolder_files EnsureIsFolder_returns
  CreateFile_os_only CreateFile_later CreateFile_fs CreateFile_returns : go.

(** ** Calls that run no command *)

Definition same_commands {X} : relation (World X) := same (λ w, (replies (os w), GoOS.ran (os w))).
#[export] Instance same_commands_equiv {X} : Equivalence (@same_commands X).
Proof. apply same_equiv. Qed.

Section commands.
Context {X : Type}.
Implicit Types p : string.
Lemma next_fault_commands : keeps same_commands (next_fault (X:=X)).
Proof. done. Qed.
Lemma set_node_commands p n : keeps same_commands (set_node (X:=X) p n).
Proof. done. Qed.
Lemma time_Now_commands : keeps same_commands (time_Now (X:=X)).
Proof. done. Qed.
Lemma rand_chunk_commands : keeps same_commands (rand_chunk (X:=X)).
Proof. done. Qed.
Lemma log_Print_commands m : keeps same_commands (log_Print (X:=X) m).
Proof. done. Qed.
End commands.
#[export] Hint Resolve next_fault_commands set_node_commands time_Now_commands rand_chunk_commands log_Print_commands : go.

Section commands_of_files.
Context {X : Type}.
Implicit Types p : string.
Lemma rand_Read_commands n : keeps same_commands (rand_Read (X:=X) n).
Proof. unfold rand_Read. os_frame. Qed.
Lemma ReadFile_commands p : keeps same_commands (ReadFile (X:=X) p).
Proof. unfold ReadFile. os_frame. Qed.
Lemma os_Remove_commands p : keeps same_commands (os_Remove (X:=X) p).
Proof. unfold os_Remove. os_frame. Qed.
Lemma open_for_write_commands b p m : keeps same_commands (open_for_write (X:=X) b p m).
Proof. unfold open_for_write. os_frame. Qed.
Lemma file_Write_commands p d : keeps same_commands (file_Write (X:=X) p d).
Proof. unfold file_Write. os_frame. Qed.
Lemma file_Close_commands : keeps same_commands (file_Close (X:=X)).
Proof. unfold file_Close. os_frame. Qed.
End commands_of_files.
#[export] Hint Resolve rand_Read_commands ReadFile_commands os_Remove_commands open_for_write_commands
  file_Write_commands file_Close_commands : go.

(** ** What CreateFile does *)

(** No failure that the machine makes up claims that a file is missing. *)
Definition honest_faults {X} (w : World X) : Prop :=
  Forall (λ f, match f with Some f => IsNotExist (fault_err f) = false | None => True end)
    (faults (os w)).

Section steps.
Context {X : Type}.
Implicit Types (w : World X) (p : string).

Lemma next_fault_honest w :
  ∃ f l, next_fault w = (Return f, on_os (with_faults l) w) ∧
    (honest_faults w → honest_faults (on_os (with_faults l) w) ∧
       match f with Some f => IsNotExist (fault_err f) = false | None => True end).
Proof.
  unfold honest_faults, next_fault. destruct w as [o x]. simpl.
  exists (mjoin (head (faults o))), (tail (faults o)). unfold on_os. simpl. split; [done|].
  destruct (faults o) as [|[f|] l]; simpl in *; [by split|intros H; inversion H; by split..].
Qed.

Definition node_at w p : option node :=
  if bool_decide (path_Clean p = "/" ∨ path_Clean p = ".") then Some Dir
  else fs (os w) !! path_Clean p.

Lemma node_at_fs w p :
  is_file (node_at w p) = true ∨ node_at w p = None → fs (os w) !! path_Clean p = node_at w p.
Proof. unfold node_at. case_bool_decide; [by intros [?|?]|done]. Qed.

Lemma open_new w p mode :
  match open_for_write true p mode w with
  | (Return (Ok _), w') =>
      (honest_faults w → honest_faults w') ∧ node_at w p = None ∧ now (os w') = now (os w) ∧
      fs (os w') = <[path_Clean p := File "" mode (now (os w))]> (fs (os w))
  | (Return (Err e), w') => fs (os w') = fs (os w)
  | _ => False
  end.
Proof.
  destruct (next_fault_honest w) as (f & l & E & Hn). unfold open_for_write, syscall.
  rewrite (bind_Return _ _ _ _ _ E). destruct f as [f|]; [done|].
  unfold lookup_node, mbind, M_bind, mret, M_ret, gets, set_node, modify. simpl.
  fold (node_at w p) (node_at w (path_Dir p)).
  destruct (node_at w p) as [[]|]; simpl; [done..|].
  destruct (node_at w (path_Dir p)) as [[]|]; simpl; [done| |done]. split_and!; try done. by intros [? _]%Hn.
Qed.

Lemma write_opened w p data c m t :
  node_at w p = Some (File c m t) →
  ∃ r l n, file_Write p data w =
    (Return r, on_os (λ o, with_faults l (with_fs (<[path_Clean p := File (take_s n data) m (now o)]> (fs o)) o)) w) ∧
    (honest_faults w → honest_faults (on_os (with_faults l) w)) ∧ (is_ok r = true → take_s n data = data).
Proof.
  intros Hp. destruct (next_fault_honest w) as (f & l & E & Hn). unfold file_Write.
  rewrite (bind_Return _ _ _ _ _ E).
  unfold lookup_node, mbind, M_bind, mret, M_ret, gets, set_node, modify. simpl.
  fold (node_at w p). rewrite Hp. simpl.
  destruct f as [f|]; simpl.
  - exists (Err (fault_err f)), l, (fault_done f). split_and!; [done|by intros [? _]%Hn|done].
  - exists (Ok tt), l, (String.length data). rewrite take_all_s. split_and!; [done|by intros [? _]%Hn|done].
Qed.

Lemma close_opened w :
  ∃ r l, file_Close w = (Return r, on_os (with_faults l) w) ∧
    (honest_faults w → honest_faults (on_os (with_faults l) w)).
Proof.
  destruct (next_fault_honest w) as (f & l & E & Hn). unfold file_Close, syscall.
  rewrite (bind_Return _ _ _ _ _ E).
  destruct f as [f|]; [exists (Err (fault_err f)), l|exists (Ok tt), l]; (split; [done|by intros [? _]%Hn]).
Qed.

Lemma remove_opened w p c m t :
  node_at w p = Some (File c m t) →
  match os_Remove p w with
  | (Return (Ok _), w') => fs (os w') = delete (path_Clean p) (fs (os w))
  | (Return (Err e), w') => fs (os w') = fs (os w) ∧ (honest_faults w → IsNotExist e = false)
  | _ => False
  end.
Proof.
  intros Hp. destruct (next_fault_honest w) as (f & l & E & Hf). unfold os_Remove, syscall.
  rewrite (bind_Return _ _ _ _ _ E). destruct f as [f|]; [split; [done|by intros [_ ?]%Hf]|].
  unfold lookup_node, mbind, M_bind, mret, M_ret, gets, modify. simpl.
  fold (node_at w p). by rewrite Hp.
Qed.
End steps.

(** Calls on a machine where nothing fails. *)
Section no_faults.
Context {X : Type}.
Implicit Types (w : World X) (p : string).

Lemma next_fault_none w : faults (os w) = [] → next_fault w = (Return None, w).
Proof. unfold next_fault. destruct w as [[] ?]. simpl. by intros ->. Qed.
Lemma syscall_none {A} (m : M (World X) (result A)) w : faults (os w) = [] → syscall m w = m w.
Proof. intros Hf. unfold syscall. by rewrite (bind_Return _ _ _ _ _ (next_fault_none w Hf)). Qed.
Lemma lookup_node_at w p : lookup_node p w = (Return (node_at w p), w).
Proof. done. Qed.
Lemma Exists_none w p : faults (os w) = [] → Exists p w = (Return (bool_decide (is_Some (node_at w p))), w).
Proof.
  intros Hf. unfold Exists, os_Open. unfold mbind at 1, M_bind at 1.
  rewrite syscall_none, (bind_Return _ _ _ _ _ (lookup_node_at w p)) by done. by destruct (node_at w p).
Qed.
Lemma os_Stat_none w p :
  faults (os w) = [] →
  os_Stat p w = (Return (match node_at w p with Some n => Ok n | None => Err (PathError "stat" p true) end), w).
Proof.
  intros Hf. unfold os_Stat. rewrite syscall_none, (bind_Return _ _ _ _ _ (lookup_node_at w p)) by done.
  by destruct (node_at w p).
Qed.
Lemma ReadFile_none w p :
  faults (os w) = [] →
  ReadFile p w = (Return (match node_at w p with
    | Some (File c _ _) => Ok c
    | Some Dir => Err (PathError "read" p false)
    | None => Err (PathError "open" p true) end), w).
Proof.
  intros Hf. unfold ReadFile. rewrite syscall_none, (bind_Return _ _ _ _ _ (lookup_node_at w p)) by done.
  destruct (node_at w p) as [[]|]; [by rewrite syscall_none|done..].
Qed.
End no_faults.

(** A successful [CreateFile], whatever failed on the way. *)
Section created.
Context {X : Type}.
Implicit Types (w : World X) (p : string).

(** What the calls that returned found, and left. *)
Lemma ReadFile_inv p w w' c :
  ReadFile p w = (Return (Ok c), w') → ∃ m t, node_at w p = Some (File c m t).
Proof.
  unfold ReadFile, syscall. intros (f & w1 & E & H1)%bind_inv. injection E as <- <-.
  destruct (mjoin _); [done|]. apply bind_inv in H1 as (n & w2 & E & H1). injection E as <- <-.
  change (if bool_decide (path_Clean p = "/" ∨ path_Clean p = ".") then Some Dir else fs (os w) !! path_Clean p)
    with (node_at w p) in H1.
  simpl in H1. fold (node_at w p) in H1. destruct (node_at w p) as [[c' m t|]|]; [|done..].
  apply bind_inv in H1 as (f & w3 & E & H1). injection E as <- <-. destruct (mjoin _); [done|].
  injection H1 as <- _. eauto.
Qed.
Lemma os_Stat_inv p w n w' : os_Stat p w = (Return (Ok n), w') → node_at w p = Some n.
Proof.
  unfold os_Stat, syscall. intros (f & w1 & E & H1)%bind_inv. injection E as <- <-.
  destruct (mjoin _); [done|]. apply bind_inv in H1 as (x & w2 & E & H1). injection E as <- <-.
  simpl in H1. fold (node_at w p) in H1. destruct (node_at w p); [|done]. by injection H1 as <- _.
Qed.
Lemma os_Remove_inv p w w' r :
  os_Remove p w = (Return r, w') →
  (is_ok r = true → fs (os w') = delete (path_Clean p) (fs (os w))) ∧ (is_ok r = false → fs (os w') = fs (os w)).
Proof.
  unfold os_Remove, syscall. intros (f & w1 & E & H1)%bind_inv. injection E as <- <-.
  destruct (mjoin _); [by injection H1 as <- <-|]. apply bind_inv in H1 as (n & w2 & E & H1). injection E as <- <-.
  apply bind_inv in H1 as (g & w3 & E & H1). injection E as <- <-.
  destruct (if bool_decide _ then Some Dir else _) as [n|]; [|by injection H1 as <- <-].
  case_bool_decide; by injection H1 as <- <-.
Qed.

Lemma open_new_Ok w p mode u w' :
  open_for_write true p mode w = (Return (Ok u), w') →
  node_at w p = None ∧ now (os w') = now (os w) ∧
  fs (os w') = <[path_Clean p := File "" mode (now (os w))]> (fs (os w)).
Proof.
  unfold open_for_write, syscall. intros (f & w1 & E & H)%bind_inv. injection E as <- <-.
  destruct (mjoin _); [done|]. unfold lookup_node, mbind, M_bind, gets, mret, M_ret, set_node, modify in H.
  simpl in H. fold (node_at w p) (node_at w (path_Dir p)) in H.
  destruct (node_at w p) as [[]|]; [done..|]. destruct (node_at w (path_Dir p)) as [[]|]; [done| |done].
  by injection H as _ <-.
Qed.
Lemma file_Write_Ok w p data c m t u w' :
  node_at w p = Some (File c m t) → file_Write p data w = (Return (Ok u), w') →
  fs (os w') = <[path_Clean p := File data m (now (os w))]> (fs (os w)).
Proof.
  intros Hp. unfold file_Write. intros (f & w1 & E & H)%bind_inv. injection E as <- <-.
  unfold lookup_node, mbind, M_bind, gets, mret, M_ret, set_node, modify in H. simpl in H.
  fold (node_at w p) in H. rewrite Hp in H. destruct (mjoin _); [done|]. by injection H as _ <-.
Qed.

(** A successful write, over a file or a new one. *)
Lemma open_over_Ok w p mode u w' :
  open_for_write false p mode w = (Return (Ok u), w') →
  ∃ m t, node_at w' p = Some (File "" m t) ∧ (node_at w p = None → m = mode).
Proof.
  unfold open_for_write, syscall. intros (f & w1 & E & H)%bind_inv. injection E as <- <-.
  destruct (mjoin _); [done|]. unfold lookup_node, mbind, M_bind, gets, mret, M_ret, set_node, modify in H.
  simpl in H. fold (node_at w p) (node_at w (path_Dir p)) in H.
  assert (Hat : ∀ n, node_at w p ≠ Some Dir →
    node_at (on_os (λ o, with_fs (<[path_Clean p := n]> (fs o)) o) (on_os (with_faults (tail (faults (os w)))) w)) p = Some n).
  { intros n Hp. unfold node_at in *. case_bool_decide; [done|]. simpl. by rewrite lookup_insert_eq. }
  destruct (node_at w p) as [[c m t|]|] eqn:Hn; [|done|].
  - injection H as _ <-. eexists m, _. split; [by apply Hat|done].
  - destruct (node_at w (path_Dir p)) as [[]|]; [done| |done]. injection H as _ <-.
    eexists mode, _. split; [by apply Hat|done].
Qed.
Lemma WriteFile_Ok_inv p d mode w u w' :
  WriteFile p d mode w = (Return (Ok u), w') →
  ∃ m t, node_at w' p = Some (File d m t) ∧ (node_at w p = None → m = mode).
Proof.
  unfold WriteFile. intros (u1 & w1 & (m & t & Hn & Hm)%open_over_Ok & H)%try_bind_Ok_inv.
  apply bind_inv in H as (r & w2 & Hw & (c & w3 & Hc & H)%bind_inv). injection H as H <-.
  destruct r as [u2|e]; [|done]. pose proof (file_Close_fs w2) as Hf. rewrite Hc in Hf.
  unfold same_fs, same in Hf. simpl in Hf. apply (file_Write_Ok _ _ _ _ _ _ _ _ Hn) in Hw.
  exists m, (now (os w1)). split; [|done]. unfold node_at in *. rewrite <- Hf, Hw, lookup_insert_eq.
  by case_bool_decide.
Qed.

Lemma CreateFile_Ok_inv p c m w u w' :
  CreateFile p c m w = (Return (Ok u), w') →
  fs (os w) !! path_Clean p = None ∧ fs (os w') = <[path_Clean p := File c m (now (os w))]> (fs (os w)).
Proof.
  unfold CreateFile. intros (u1 & w1 & (Hn & Ht & Hf)%open_new_Ok & H1)%try_bind_Ok_inv.
  split; [rewrite <- Hn; apply node_at_fs; by right|].
  apply bind_inv in H1 as (r & w2 & Hw & (err & w3 & Hc & H1)%bind_inv).
  destruct err as [u2|err].
  2: { apply bind_inv in H1 as ([?|e2] & w4 & _ & H1); [done|]. by destruct (negb (IsNotExist e2)). }
  destruct r as [u3|e]; [|by apply bind_inv in Hc as (? & ? & _ & Hc)].
  injection H1 as _ <-. replace (fs (os w3)) with (fs (os w2)) by (pose proof (file_Close_fs w2) as E; by rewrite Hc in E).
  rewrite (file_Write_Ok w1 p c "" m (now (os w)) u3 w2); [by rewrite Hf, Ht, insert_insert_eq| |done].
  unfold node_at in *. case_bool_decide; [done|]. by rewrite Hf, lookup_insert_eq.
Qed.
End created.

(** C39: [CreateFile] has three ends. It succeeds, only where nothing was, and then the file has
    the contents and mode asked for and nothing else changed. It fails, and the file tree is
    as before. Or it fails and could not take back what it had made: nothing was there
    before, a beginning of the contents stays behind, and the error says that the removal
    failed too (unless some system call claims, wrongly, that the file is missing). Whatever
    fails, it never overwrites a file. *)
Theorem CreateFile_spec {X} filename contents permissions (w : World X) :
  let p := path_Clean filename in
  match CreateFile filename contents permissions w with
  | (Return (Ok _), w') =>
      fs (os w) !! p = None ∧
      fs (os w') = <[p := File contents permissions (now (os w))]> (fs (os w))
  | (Return (Err e), w') =>
      fs (os w') = fs (os w) ∨
      fs (os w) !! p = None ∧
      (honest_faults w → HasPrefix (Error e) "multiple errors while creating file: " = true) ∧
      ∃ n, fs (os w') = <[p := File (take_s n contents) permissions (now (os w))]> (fs (os w))
  | _ => False
  end.
Proof.
  intros p. unfold CreateFile. pose proof (open_new w filename permissions) as Ho.
  destruct (open_for_write _ _ _ w) as [[[[]|e]| |] w1] eqn:E1; try done.
  2: { erewrite try_bind_Err by exact E1. by left. }
  destruct Ho as (H1 & Hnone & Hnow & Hfs). erewrite try_bind_Ok by exact E1.
  assert (Hfs0 : fs (os w) !! p = None) by (rewrite <- Hnone; apply node_at_fs; by right).
  assert (Hat : ∀ (w' : World X) n, fs (os w') !! p = Some n → node_at w' filename = Some n).
  { intros w' n. unfold node_at in *. by case_bool_decide. }
  destruct (write_opened w1 filename contents "" permissions (now (os w)))
    as (r & l & n & E2 & H2 & Hr).
  { apply Hat. by rewrite Hfs, lookup_insert_eq. }
  rewrite (bind_Return _ _ _ _ _ E2). clear E2.
  match goal with |- match _ ?w' with _ => _ end => set (w2 := w') end.
  assert (Hw2 : fs (os w2) = <[p := File (take_s n contents) permissions (now (os w))]> (fs (os w))).
  { unfold w2, on_os. simpl. rewrite Hfs, Hnow. apply insert_insert_eq. }
  assert (Hh2 : honest_faults w → honest_faults w2) by (intros H; exact (H2 (H1 H))).
  destruct (close_opened w2) as (rc & l' & E3 & H3).
  set (w3 := on_os _ w2) in *. assert (fs (os w3) = fs (os w2)) as Hw3 by done. clearbody w2 w3.
  assert (∃ err, (match r with
                  | Err err => _ ← file_Close; fail err
                  | Ok _ => file_Close
                  end) w2 = (Return err, w3) ∧ (is_ok err = true → take_s n contents = contents))
    as (err & Eerr & Herr).
  { destruct r as [[]|e]; [exists rc; auto|exists (Err e)].
    split; [|done]. by rewrite (bind_Return _ _ _ _ _ E3). }
  rewrite (bind_Return _ _ _ _ _ Eerr).
  destruct err as [[]|e]; simpl.
  { rewrite Hw3, Hw2, Herr by done. by split. }
  pose proof (remove_opened w3 filename (take_s n contents) permissions (now (os w))) as Hrem.
  unfold mbind, M_bind. destruct (os_Remove filename w3) as [[[[]|e2]| |] w4]; simpl; try (by apply Hrem, Hat; rewrite Hw3, Hw2, lookup_insert_eq).
  - left. rewrite Hrem, Hw3, Hw2 by (apply Hat; by rewrite Hw3, Hw2, lookup_insert_eq). fold p. by rewrite delete_insert_id.
  - destruct Hrem as [Hrem He]; [apply Hat; by rewrite Hw3, Hw2, lookup_insert_eq|].
    destruct (IsNotExist e2) eqn:Ee; simpl; right; (split; [done|]);
      (split; [|exists n; by rewrite Hrem, Hw3, Hw2]); [|done]. intros Hh. by specialize (He (H3 (Hh2 Hh))).
Qed.

(** The last end: the write stops after two bytes, and the removal fails. *)
Definition failing_world : World unit :=
  mkWorld (with_faults [None; Some (mkFault (StdError "no space left") 2); None; Some (mkFault (StdError "busy") 0)]
    (with_fs {[ "/d" := Dir ]} (os0 5))) tt.
Lemma CreateFile_spec_witness :
  match CreateFile "/d/f" "data" 384 failing_world with
  | (Return (Err e), w') => HasPrefix (Error e) "multiple errors while creating file: " = true ∧
      ∃ n, fs (os w') = <["/d/f" := File (take_s n "data") 384 5]> {[ "/d" := Dir ]}
  | _ => False
  end.
Proof.
  pose proof (CreateFile_spec "/d/f" "data" 384 failing_world) as Hs. cbv zeta in Hs.
  assert (Hleft : fs (os (CreateFile "/d/f" "data" 384 failing_world).2) !! "/d/f" = Some (File "da" 384 5)) by (vm_compute; reflexivity).
  assert (Hr : match (CreateFile "/d/f" "data" 384 failing_world).1 with Return (Err _) => true | _ => false end = true)
    by (vm_compute; reflexivity).
  destruct (CreateFile "/d/f" "data" 384 failing_world) as [[[u|e]|why|c] w']; [discriminate Hr| |exact Hs..].
  cbn [snd] in Hleft. destruct Hs as [Hs|(_ & Hm & n & Hn)].
  - rewrite Hs in Hleft. vm_compute in Hleft. discriminate Hleft.
  - split; [|exists n; exact Hn]. apply Hm. repeat constructor.
Defined.

(** after [EnsureIsFolder] succeeds the path is a directory, whatever it
    was before; no file is changed or removed on the way. *)
Theorem EnsureIsFolder_spec {X} dirname (w w' : World X) r :
  EnsureIsFolder dirname w = (Return r, w') →
  (r = Ok tt → node_at w' dirname = Some Dir) ∧ files_only (λ _, False) w w'.
Proof.
  intros H. split.
  - intros ->. unfold EnsureIsFolder in H.
    assert (Hstat : ∀ (w1 : World X) n w2, os_Stat dirname w1 = (Return (Ok n), w2) → node_at w2 dirname = Some n).
    { intros w1 n w2. unfold os_Stat, syscall, mbind, M_bind, next_fault. simpl.
      destruct (mjoin _); [done|]. unfold lookup_node, gets. simpl.
      fold (node_at w1 dirname). destruct (node_at w1 dirname) eqn:En; [|done].
      intros [= -> <-]. done. }
    apply bind_inv in H as ([n|e] & w1 & H1 & H).
    + apply try_bind_Ok_inv in H as (n' & w2 & H2 & H). injection H2 as <- <-.
      destruct n; [done|]. injection H as <-. by eapply Hstat.
    + apply try_bind_Ok_inv in H as (n & w2 & H2 & H).
      apply bind_inv in H2 as ([?|?] & w3 & _ & H2); [|done].
      destruct n; [done|]. injection H as <-. by eapply Hstat.
  - pose proof (EnsureIsFolder_files (λ _, False) dirname w) as Hf. by rewrite H in Hf.
Qed.

Lemma EnsureIsFolder_spec_witness :
  ∃ w', EnsureIsFolder "/etc/keys" (mkWorld (os0 1) tt) = (Return (Ok tt), w') ∧
  (Ok tt = Ok tt → node_at w' "/etc/keys" = Some Dir).
Proof.
  eexists. split; [vm_compute; reflexivity|].
  exact (proj1 (EnsureIsFolder_spec "/etc/keys" (mkWorld (os0 1) tt) _ _ eq_refl)).
Defined.
