(* ===== verification/Paths.v ===== *)
(** * The paths of a machine of the cluster

    [worldconfig/paths/paths.go]: where the programs find their keys, certificates and
    configuration files, and how a node knows the name of its key server. *)

From S2P Require Import Prelude GoStrings GoOS.
#[export] Set Default Goal Selector "!".

Definition KeyserverTLSCert : string := "/etc/homeworld/keyclient/keyservertls.pem".
Definition GrantingKeyPath : string := "/etc/homeworld/keyclient/granting.key".
Definition GrantingCertPath : string := "/etc/homeworld/keyclient/granting.pem".
Definition BootstrapTokenPath : string := "/etc/homeworld/keyclient/bootstrap.token".
Definition SpireSetupPath : string := "/etc/homeworld/config/setup.yaml".

Definition ClusterConfPath : string := "/etc/homeworld/config/cluster.conf".
Definition LocalConfPath : string := "/etc/homeworld/config/local.conf".

Definition KubernetesCAPath : string := "/etc/homeworld/authorities/kubernetes.pem".
Definition KubernetesMasterKey : string := "/etc/homeworld/keys/kubernetes-master.key".
Definition KubernetesMasterCert : string := "/etc/homeworld/keys/kubernetes-master.pem".
Definition KubernetesWorkerKey : string := "/etc/homeworld/keys/kubernetes-worker.key".
Definition KubernetesWorkerCert : string := "/etc/homeworld/keys/kubernetes-worker.pem".
Definition KubernetesSupervisorKey : string := "/etc/homeworld/keys/kubernetes-supervisor.key".
Definition KubernetesSupervisorCert : string := "/etc/homeworld/keys/kubernetes-supervisor.pem".
Definition KubernetesCtrlMgrKey : string := "/etc/homeworld/keys/kubernetes-ctrl-mgr.key".
Definition KubernetesCtrlMgrCert : string := "/etc/homeworld/keys/kubernetes-ctrl-mgr.pem".
Definition KubernetesProxyKey : string := "/etc/homeworld/keys/kubernetes-proxy.key".
Definition KubernetesProxyCert : string := "/etc/homeworld/keys/kubernetes-proxy.pem".
Definition KubernetesSchedulerKey : string := "/etc/homeworld/keys/kubernetes-scheduler.key".
Definition KubernetesSchedulerCert : string := "/etc/homeworld/keys/kubernetes-scheduler.pem".

Section keyserver.
Context {X : Type}.

Definition GetKeyserver : M (World X) (result string) :=
  keyserver ←? ReadFile "/etc/homeworld/config/keyserver.domain";
  ok (TrimSpace keyserver +:+ ":20557").
End keyserver.
