(* ===== verification/GoErrors.v ===== *)
(** * github.com/pkg/errors

    Most of the key system builds its errors with this package, which is not in
    the repository: it is a parameter of every definition that uses it, with
    what the package documents as laws. *)

From S2P Require Import Prelude.
#[export] Set Default Goal Selector "!".

(** The error values whose type has no [Cause] method. *)
Definition plain (e : error) : bool :=
  match e with ForeignWrapper _ _ => false | _ => true end.

(** Errors whose dynamic type is one that the program asserts or compares
    with; no value made by another package has such a type. *)
Definition native (e : error) : bool :=
  match e with OperationForbiddenError _ _ | OperationForbidden | PathError _ _ _ => true
  | _ => false end.

Class PkgErrors := {
  errors_New : string → error;            (* errors.New *)
  wrap : error → string → error;          (* errors.Wrap of an error that is not nil *)
  errors_Cause : error → error;           (* errors.Cause *)
  errors_New_text m : Error (errors_New m) = m;
  errors_New_cause m : errors_Cause (errors_New m) = errors_New m;
  errors_New_foreign m : native (errors_New m) = false;
  wrap_text e m : Error (wrap e m) = m +:+ ": " +:+ Error e;
  wrap_cause e m : errors_Cause (wrap e m) = errors_Cause e;
  wrap_foreign e m : native (wrap e m) = false;
  cause_plain e : plain e = true → errors_Cause e = e
}.

(** [errors.Wrap]: nil stays nil. *)
Definition Wrap `{PkgErrors} (err : option error) (m : string) : option error :=
  (λ e, wrap e m) <$> err.

#[export] Hint Rewrite @errors_New_text @errors_New_cause @wrap_text @wrap_cause : str.

(** The package as its source does it, for the concrete runs. *)
Module PkgErrorsImpl.
Fixpoint Cause (e : error) : error :=
  match e with ForeignWrapper _ c => Cause c | _ => e end.

#[export] Program Instance impl : PkgErrors := {|
  errors_New m := ForeignError m;
  wrap e m := ForeignWrapper (m +:+ ": " +:+ Error e) e;
  errors_Cause := Cause
|}.
Solve Obligations with (try done; by intros []).
End PkgErrorsImpl.
