(* ===== verification/GoCodec.v ===== *)
(** * Text encodings of the standard library: encoding/base64, crypto/sha256

    Both are written out, so that the tokens of the key server can be computed.
    Strings are sequences of bytes. *)

From S2P Require Import Prelude GoStrings.
#[export] Set Default Goal Selector "!".

Definition byte_val (c : ascii) : Z := Z.of_N (N_of_ascii c).
Definition byte_chr (z : Z) : ascii := ascii_of_N (Z.to_N (z mod 256)).
Fixpoint bytes_of (s : string) : list Z :=
  match s with "" => [] | String c s => byte_val c :: bytes_of s end.
Fixpoint string_of (l : list Z) : string :=
  match l with [] => "" | z :: l => String (byte_chr z) (string_of l) end.

Lemma byte_val_range c : 0 ≤ byte_val c < 256.
Proof. unfold byte_val. pose proof (N_ascii_bounded c). lia. Qed.
Lemma byte_chr_val c : byte_chr (byte_val c) = c.
Proof.
  unfold byte_chr. rewrite Z.mod_small by apply byte_val_range.
  unfold byte_val. by rewrite N2Z.id, ascii_N_embedding.
Qed.
Lemma string_of_bytes_of s : string_of (bytes_of s) = s.
Proof. induction s as [|c s IH]; simpl; [done|]. by rewrite byte_chr_val, IH. Qed.
Lemma length_bytes_of s : length (bytes_of s) = String.length s.
Proof. induction s; simpl; auto. Qed.
Lemma length_string_of l : String.length (string_of l) = length l.
Proof. induction l; simpl; auto. Qed.

(** ** Base64 *)

Definition base64_alphabet : string :=
  "ABCDEFGHIJKLMNOPQRSTUVWXYZabcdefghijklmnopqrstuvwxyz0123456789+/".
(** [alphabet[val >> n & 0x3F]] *)
Definition base64_char (val n : Z) : ascii :=
  default "A"%char (String.get (Z.to_nat (Z.land (Z.shiftr val n) 63)) base64_alphabet).

(** [base64.StdEncoding] ([pad]) and [base64.RawStdEncoding], [EncodeToString]. *)
Fixpoint base64_groups (pad : bool) (l : list Z) : string :=
  match l with
  | [] => ""
  | [a] =>
      let val := a * 65536 in
      String (base64_char val 18) (String (base64_char val 12) (if pad then "==" else ""))
  | [a; b] =>
      let val := a * 65536 + b * 256 in
      String (base64_char val 18) (String (base64_char val 12)
        (String (base64_char val 6) (if pad then "=" else "")))
  | a :: b :: c :: l =>
      let val := a * 65536 + b * 256 + c in
      String (base64_char val 18) (String (base64_char val 12)
        (String (base64_char val 6) (String (base64_char val 0) (base64_groups pad l))))
  end.
Definition base64_StdEncode (s : string) : string := base64_groups true (bytes_of s).
Definition base64_RawStdEncode (s : string) : string := base64_groups false (bytes_of s).

Definition base64_value (c : ascii) : option Z :=
  Z.of_nat <$> String.index 0 (String c "") base64_alphabet.

(** [base64.StdEncoding.DecodeString]: carriage returns and line feeds are
    skipped, the padding is required and nothing may follow it. *)
Fixpoint base64_quads (s : string) : option (list Z) :=
  match s with
  | "" => Some []
  | String a (String b (String c (String d s))) =>
      va ← base64_value a; vb ← base64_value b;
      if bool_decide (c = "="%char ∧ d = "="%char) then
        if bool_decide (s = "") then Some [(va * 64 + vb) / 16] else None
      else
        vc ← base64_value c;
        if bool_decide (d = "="%char) then
          let val := va * 4096 + vb * 64 + vc in
          if bool_decide (s = "") then Some [val / 1024; val / 4 mod 256] else None
        else
          vd ← base64_value d;
          let val := va * 262144 + vb * 4096 + vc * 64 + vd in
          l ← base64_quads s;
          Some (val / 65536 :: val / 256 mod 256 :: val mod 256 :: l)
  | _ => None
  end.
Fixpoint drop_newlines (s : string) : string :=
  match s with
  | "" => ""
  | String c s => if bool_decide (c = ascii_of_nat 10 ∨ c = ascii_of_nat 13)
                  then drop_newlines s else String c (drop_newlines s)
  end.
Definition base64_StdDecode (s : string) : option string :=
  string_of <$> base64_quads (drop_newlines s).

Example base64_ex1 : base64_StdEncode "Man is" = "TWFuIGlz".
Proof. vm_compute. reflexivity. Qed.
Example base64_ex2 : base64_StdEncode "light w" = "bGlnaHQgdw==".
Proof. vm_compute. reflexivity. Qed.
Example base64_ex3 : base64_RawStdEncode "light wo" = "bGlnaHQgd28".
Proof. vm_compute. reflexivity. Qed.

Lemma base64_char_spec val n :
  0 ≤ n → 0 ≤ val →
  base64_value (base64_char val n) = Some (val / 2 ^ n mod 64) ∧
  base64_char val n ≠ "="%char ∧ base64_char val n ≠ " "%char ∧
  base64_char val n ≠ ascii_of_nat 10 ∧ base64_char val n ≠ ascii_of_nat 13.
Proof.
  intros Hn Hv. unfold base64_char.
  change 63 with (Z.ones 6). rewrite Z.land_ones, Z.shiftr_div_pow2 by lia.
  change (2 ^ 6) with 64. set (i := _ mod 64).
  assert (0 ≤ i < 64) by (apply Z.mod_pos_bound; lia).
  assert (Hall : forallb (λ k,
    let c := default "A"%char (String.get k base64_alphabet) in
    bool_decide (base64_value c = Some (Z.of_nat k)) &&
    negb (bool_decide (c ∈ ["="%char; " "%char; ascii_of_nat 10; ascii_of_nat 13]))) (seq 0 64) = true)
    by (vm_compute; reflexivity).
  rewrite forallb_forall in Hall. specialize (Hall (Z.to_nat i)).
  rewrite List.in_seq in Hall. specialize (Hall ltac:(lia)).
  apply andb_true_iff in Hall as [H1%bool_decide_eq_true H2].
  rewrite Z2Nat.id in H1 by lia. split; [done|].
  apply negb_true_iff, bool_decide_eq_false in H2.
  rewrite !elem_of_cons in H2. tauto.
Qed.

(** The characters of an encoding. *)
Lemma base64_groups_all (P : ascii → bool) l :
  forallb (λ k, P (default "A"%char (String.get k base64_alphabet))) (seq 0 64) = true → P "="%char = true →
  all_chars P (base64_groups true l) = true.
Proof.
  intros HP He. assert (Hc : ∀ val n, P (base64_char val n) = true).
  { intros val n. unfold base64_char. change 63 with (Z.ones 6). rewrite Z.land_ones by lia.
    rewrite forallb_forall in HP. apply HP, List.in_seq.
    pose proof (Z.mod_pos_bound (Z.shiftr val n) (2 ^ 6)). lia. }
  induction l as [l IH] using (induction_ltof1 _ length). unfold ltof in IH.
  destruct l as [|a [|b [|c l]]]; [done|..]; cbn [base64_groups all_chars]; rewrite !Hc, ?He; [done..|].
  cbn [andb]. apply IH. simpl. lia.
Qed.
(** The encoding of bytes below 128 other than the two with the last six bits of [+] has no [+]. *)
Lemma base64_no_plus l :
  Forall (λ b, 0 ≤ b < 128 ∧ b mod 64 ≠ 62) l → has_char "+" (base64_groups true l) = false.
Proof.
  assert (Hc : ∀ val n, 0 ≤ n → 0 ≤ val → val / 2 ^ n mod 64 ≠ 62 → bool_decide (base64_char val n = "+"%char) = false).
  { intros val n Hn Hv Hm. apply bool_decide_eq_false. intros E.
    destruct (base64_char_spec val n Hn Hv) as (Hs & _). rewrite E in Hs. apply Hm. by injection Hs as <-. }
  intros Hl. induction l as [l IH] using (induction_ltof1 _ length). unfold ltof in IH.
  destruct l as [|a [|b [|c l]]]; [done|..]; repeat (apply Forall_cons in Hl as [[? ?] Hl]);
    cbn [base64_groups has_char].
  all: rewrite !Hc by (first [lia|change (2 ^ 18) with 262144; change (2 ^ 12) with 4096; change (2 ^ 6) with 64;
    change (2 ^ 0) with 1; Z.to_euclidean_division_equations; lia]).
  1-2: done.
  apply IH; [simpl; lia|done].
Qed.

Lemma base64_quads_groups l :
  Forall (λ b, 0 ≤ b < 256) l → base64_quads (base64_groups true l) = Some l.
Proof.
  intros Hl. induction l as [l IH] using (induction_ltof1 _ length). unfold ltof in IH.
  assert (Hc : ∀ val n, 0 ≤ val → 0 ≤ n →
    base64_value (base64_char val n) = Some (val / 2 ^ n mod 64) ∧ base64_char val n ≠ "="%char).
  { intros val n Hv Hn. destruct (base64_char_spec val n Hn Hv) as (? & ? & _). done. }
  assert (Hc' : ∀ val, 0 ≤ val →
    (∀ n, 0 ≤ n → base64_value (base64_char val n) = Some (val / 2 ^ n mod 64)) ∧
    (∀ n, 0 ≤ n → base64_char val n ≠ "="%char)).
  { intros val Hv. split; intros n Hn; apply (Hc val n Hv Hn). }
  destruct l as [|a [|b [|c l]]]; [done|..];
    repeat (apply Forall_cons in Hl as [? Hl]);
    cbn [base64_groups base64_quads].
  - set (val := a * 65536).
    destruct (Hc' val) as [Hv Hne]; [unfold val; lia|]. rewrite !Hv by lia. cbn [mbind option_bind].
    rewrite !bool_decide_true by done. f_equal. f_equal. unfold val.
    change (2 ^ 18) with 262144. change (2 ^ 12) with 4096. Z.to_euclidean_division_equations; lia.
  - set (val := a * 65536 + b * 256).
    destruct (Hc' val) as [Hv Hne]; [unfold val; lia|]. rewrite !Hv by lia. cbn [mbind option_bind].
    rewrite bool_decide_false by (intros [E _]; by apply (Hne 6 ltac:(lia))).
    rewrite !bool_decide_true by done. unfold val.
    change (2 ^ 18) with 262144. change (2 ^ 12) with 4096. change (2 ^ 6) with 64.
    match goal with |- Some [?x; ?y] = _ =>
      replace x with a by (Z.to_euclidean_division_equations; lia);
      replace y with b by (Z.to_euclidean_division_equations; lia) end. done.
  - set (val := a * 65536 + b * 256 + c).
    destruct (Hc' val) as [Hv Hne]; [unfold val; lia|]. rewrite !Hv by lia. cbn [mbind option_bind].
    rewrite bool_decide_false by (intros [E _]; by apply (Hne 6 ltac:(lia))).
    rewrite bool_decide_false by (apply Hne; lia).
    rewrite IH by first [done|simpl; lia]. cbn [mbind option_bind]. unfold val.
    change (2 ^ 18) with 262144. change (2 ^ 12) with 4096. change (2 ^ 6) with 64.
    change (2 ^ 0) with 1.
    match goal with |- Some (?x :: ?y :: ?z :: _) = _ =>
      replace x with a by (Z.to_euclidean_division_equations; lia);
      replace y with b by (Z.to_euclidean_division_equations; lia);
      replace z with c by (Z.to_euclidean_division_equations; lia) end. done.
Qed.

Lemma bytes_of_range s : Forall (λ b, 0 ≤ b < 256) (bytes_of s).
Proof. induction s; simpl; constructor; [apply byte_val_range|done]. Qed.

Lemma base64_no_blank s :
  all_chars (λ c, negb (bool_decide (c ∈ [" "%char; ascii_of_nat 10; ascii_of_nat 13])))
    (base64_StdEncode s) = true.
Proof. by apply base64_groups_all. Qed.

Lemma drop_newlines_none s :
  all_chars (λ c, negb (bool_decide (c ∈ [" "%char; ascii_of_nat 10; ascii_of_nat 13]))) s = true →
  drop_newlines s = s.
Proof.
  induction s as [|c s IH]; simpl; [done|].
  intros [Hc Hs]%andb_true_iff. apply negb_true_iff, bool_decide_eq_false in Hc.
  rewrite bool_decide_false by (rewrite !elem_of_cons in Hc; tauto). by rewrite IH.
Qed.

Lemma base64_roundtrip s : base64_StdDecode (base64_StdEncode s) = Some s.
Proof.
  unfold base64_StdDecode. rewrite drop_newlines_none by apply base64_no_blank.
  unfold base64_StdEncode. rewrite base64_quads_groups by apply bytes_of_range.
  simpl. by rewrite string_of_bytes_of.
Qed.

(** ** SHA-256 *)

Module SHA256.
Definition w32 (z : Z) : Z := z mod 4294967296.
Definition rotr (n x : Z) : Z := Z.lor (Z.shiftr x n) (w32 (Z.shiftl x (32 - n))).
(** The constants: the first 32 bits of the fractional parts of the cube roots
    (of the square roots) of the first primes. *)
Definition is_prime (n : Z) : bool :=
  forallb (λ d, negb (n mod Z.of_nat d =? 0)) (List.seq 2 (Z.to_nat (Z.sqrt n) - 1)).
Definition primes : list Z := List.filter is_prime (Z.of_nat <$> List.seq 2 310).
Fixpoint cube_root (steps : nat) (r n : Z) : Z :=
  match steps with
  | O => r
  | S k => let r' := r + Z.shiftl 1 (Z.of_nat k) in cube_root k (if r' * r' * r' <=? n then r' else r) n
  end.
Definition K : list Z := (λ p, w32 (cube_root 36 0 (Z.shiftl p 96))) <$> take 64 primes.
Definition H0 : list Z := (λ p, w32 (Z.sqrt (Z.shiftl p 64))) <$> take 8 primes.
Definition be (n : nat) (z : Z) : list Z :=
  map (λ i, Z.land (Z.shiftr z (8 * Z.of_nat i)) 255) (rev (List.seq 0 n)).
Definition pad (m : list Z) : list Z :=
  m ++ [128] ++ repeat 0 (Z.to_nat ((55 - Z.of_nat (length m)) mod 64))
    ++ be 8 (8 * Z.of_nat (length m)).
Definition word (l : list Z) : Z := fold_left (λ acc b, acc * 256 + b) l 0.
Fixpoint chunks {A} (fuel n : nat) (l : list A) : list (list A) :=
  match fuel, l with
  | O, _ | _, [] => []
  | S f, _ => take n l :: chunks f n (drop n l)
  end.
(* the schedule, newest word first *)
Fixpoint extend (n : nat) (w : list Z) : list Z :=
  match n with
  | O => w
  | S n =>
      let w2 := nth 1 w 0 in let w7 := nth 6 w 0 in
      let w15 := nth 14 w 0 in let w16 := nth 15 w 0 in
      let s0 := Z.lxor (Z.lxor (rotr 7 w15) (rotr 18 w15)) (Z.shiftr w15 3) in
      let s1 := Z.lxor (Z.lxor (rotr 17 w2) (rotr 19 w2)) (Z.shiftr w2 10) in
      extend n (w32 (w16 + s0 + w7 + s1) :: w)
  end.
Definition round (st : list Z) (kw : Z * Z) : list Z :=
  match st with
  | [a; b; c; d; e; f; g; h] =>
      let S1 := Z.lxor (Z.lxor (rotr 6 e) (rotr 11 e)) (rotr 25 e) in
      let ch := Z.lxor (Z.land e f) (Z.land (Z.lxor e 4294967295) g) in
      let t1 := w32 (h + S1 + ch + kw.1 + kw.2) in
      let S0 := Z.lxor (Z.lxor (rotr 2 a) (rotr 13 a)) (rotr 22 a) in
      let maj := Z.lxor (Z.lxor (Z.land a b) (Z.land a c)) (Z.land b c) in
      let t2 := w32 (S0 + maj) in
      [w32 (t1 + t2); a; b; c; w32 (d + t1); e; f; g]
  | _ => st
  end.
Definition block (st : list Z) (b : list Z) : list Z :=
  let ws := rev (extend 48 (rev (map word (chunks 16 4 b)))) in
  zip_with (λ x y, w32 (x + y)) st (fold_left round (zip K ws) st).
Definition digest (m : list Z) : list Z :=
  let p := pad m in
  mjoin (map (be 4) (fold_left block (chunks (length p) 64 p) H0)).
End SHA256.

(** [sha256.Sum256] *)
Definition sha256_Sum256 (s : string) : string := string_of (SHA256.digest (bytes_of s)).

Example sha256_abc : base64_StdEncode (sha256_Sum256 "abc")
  = "ungWv48Bz+pBQUDeXa4iI7ADYaOWF3qctBD/YfIAFa0=".
Proof. vm_compute. reflexivity. Qed.

(** ** Lengths *)

Lemma round_length st kw : length st = 8%nat → length (SHA256.round st kw) = 8%nat.
Proof. destruct st as [|a [|b [|c [|d [|e [|f [|g [|h [|]]]]]]]]]; done. Qed.
Lemma block_length st b : length st = 8%nat → length (SHA256.block st b) = 8%nat.
Proof.
  intros Hst. unfold SHA256.block. rewrite length_zip_with.
  enough (∀ l s, length s = 8%nat → length (fold_left SHA256.round l s) = 8%nat) as -> by (done || lia).
  induction l as [|kw l IH]; intros s Hs; [done|]. simpl. by apply IH, round_length.
Qed.
Lemma digest_length m : length (SHA256.digest m) = 32%nat.
Proof.
  unfold SHA256.digest. set (cs := SHA256.chunks _ _ _). clearbody cs.
  assert (∀ st, length st = 8%nat → length (fold_left SHA256.block cs st) = 8%nat) as H.
  { induction cs as [|c cs IH]; intros st Hst; [done|]. simpl. by apply IH, block_length. }
  specialize (H SHA256.H0 ltac:(vm_compute; reflexivity)).
  destruct (fold_left _ _ _) as [|a [|b [|c [|d [|e [|f [|g [|h [|]]]]]]]]]; done.
Qed.

Lemma base64_triples_length pad n l :
  length l = (3 * n)%nat → String.length (base64_groups pad l) = (4 * n)%nat.
Proof.
  revert l. induction n as [|n IH]; intros l Hl; [by destruct l|].
  destruct l as [|a [|b [|c l]]]; simpl in Hl; try lia.
  cbn [base64_groups String.length]. rewrite IH by (simpl; lia). lia.
Qed.
Lemma base64_two pad l : l ≠ [] → (2 ≤ String.length (base64_groups pad l))%nat.
Proof. destruct l as [|a [|b [|c l]]]; [done|destruct pad..|]; simpl; lia. Qed.
