(* ===== verification/GoCrypto.v ===== *)
(** * Certificates and keys: crypto/x509, crypto/tls, encoding/pem, x/crypto/ssh

    The data that the program builds and takes apart is written out. What the
    cryptographic packages compute (parsing, signing, verification) is a
    parameter of every definition that uses it, with the documented behaviour
    as laws; [ToyCrypto] is one function of each, for the concrete runs. *)

From S2P Require Import Prelude GoStrings GoNet GoCodec.
#[export] Set Default Goal Selector "!".

(** ** Data *)

Record pem_Block := mkPemBlock { pem_Type : string; pem_Bytes : string }.

(** [crypto.PublicKey], with the one dynamic type that the program asserts. *)
Inductive crypto_PublicKey :=
| RSAPublicKey (N : Z)
| OtherPublicKey (data : string).

Record rsa_PrivateKey := mkRSA { rsa_N : Z; rsa_secret : string }.

Inductive ExtKeyUsage :=
| ExtKeyUsageClientAuth
| ExtKeyUsageServerAuth
| ExtKeyUsageOther (n : Z).

(** An attribute of a name: its object identifier, and its value of any dynamic type. *)
Inductive attr_value := AString (s : string) | AOther.
Record pkix_AttributeTypeAndValue := mkAttr { attr_Type : list Z; attr_Value : attr_value }.

(** [Names] are the attributes of a parsed name, in their order; [ExtraNames] those to
    encode besides the others. *)
Record pkix_Name := mkName {
  CommonName : string;
  Organization : list string;
  Names : list pkix_AttributeTypeAndValue;
  ExtraNames : list pkix_AttributeTypeAndValue
}.

Record Certificate := mkCert {
  Raw : string;
  PublicKeyAlgorithm_RSA : bool;       (* PublicKeyAlgorithm == x509.RSA *)
  PublicKey : crypto_PublicKey;
  SerialNumber : Z;
  Subject : pkix_Name;
  NotBefore : Z;
  NotAfter : Z;
  KeyUsage : Z;
  ExtKeyUsages : list ExtKeyUsage;
  BasicConstraintsValid : bool;
  IsCA : bool;
  MaxPathLen : Z;
  MaxPathLenZero : bool;
  DNSNames : list string;
  IPAddresses : list IP;
  SignatureAlgorithm_SHA256 : bool     (* SignatureAlgorithm == x509.SHA256WithRSA *)
}.

Definition KeyUsageDigitalSignature : Z := 1.
Definition KeyUsageCertSign : Z := 32.

Record CertificateRequest := mkCSR {
  csr_Raw : string;
  csr_CommonName : string;
  csr_PublicKey : crypto_PublicKey
}.

(** [ssh.PublicKey]: a key, or an [*ssh.Certificate]. *)
Record ssh_CertBody := mkSSHBody {
  ssh_Nonce : string;
  ssh_Serial : Z;
  ssh_CertType : Z;
  ssh_KeyId : string;
  ssh_ValidPrincipals : list string;
  ssh_ValidAfter : Z;
  ssh_ValidBefore : Z;
  ssh_Extensions : list (string * string);
  ssh_Signature : string
}.
Inductive ssh_PublicKey :=
| SSHKey (type blob : string)
| SSHCertificate (key : ssh_PublicKey) (body : ssh_CertBody).

Definition UserCert : Z := 1.
Definition HostCert : Z := 2.

Record ssh_Signer := mkSigner { signer_PublicKey : ssh_PublicKey; signer_secret : string }.

(** The contents of a certificate, without what signing adds to it. *)
Definition cert_fields (c : Certificate) (ips : list IP) :=
  (SerialNumber c, (CommonName (Subject c), Organization (Subject c)), (NotBefore c / 1000000000, NotAfter c / 1000000000), KeyUsage c,
   ExtKeyUsages c, (BasicConstraintsValid c, IsCA c), (DNSNames c, ips)).
Definition cert_contents (c : Certificate) := cert_fields c (IPAddresses c).
(** An IPv4 address is written into a certificate in its form of four bytes. *)
Definition san_IP (ip : IP) : IP := default ip (To4 ip).
Definition encoded_contents (t : Certificate) := cert_fields t (san_IP <$> IPAddresses t).
(** The attributes other than those of X.520, which the fields of a name are made into. *)
Definition extra_attrs (l : list pkix_AttributeTypeAndValue) : list pkix_AttributeTypeAndValue :=
  List.filter (λ a, bool_decide (take 3 (attr_Type a) ≠ [2; 5; 4])) l.
(** The extra names of a template are such attributes, with strings. *)
Definition plain_extras (n : pkix_Name) : Prop :=
  Forall (λ a, take 3 (attr_Type a) ≠ [2; 5; 4] ∧ ∃ s, attr_Value a = AString s) (ExtraNames n).
(** What a template has to be for its certificate to be read back as it was meant. *)
Record encodable (t : Certificate) : Prop := {
  enc_names : plain_extras (Subject t);
  enc_constraints : BasicConstraintsValid t = true;
  enc_ips : Forall (λ ip : IP, length ip = 4%nat ∨ length ip = 16%nat) (IPAddresses t)
}.
Definition ssh_contents (b : ssh_CertBody) :=
  (ssh_Serial b, ssh_CertType b, ssh_KeyId b, ssh_ValidPrincipals b,
   (ssh_ValidAfter b, ssh_ValidBefore b), ssh_Extensions b).

(** The labels that the program gives to PEM blocks. *)
Definition pem_label (t : string) : bool :=
  all_chars (λ c, ((65 <=? byte_val c) && (byte_val c <=? 90)) || (byte_val c =? 32)) t.

(** The characters of PEM texts. *)
Definition pem_char (c : ascii) : bool :=
  let n := byte_val c in
  ((48 <=? n) && (n <=? 57)) || ((65 <=? n) && (n <=? 90)) || ((97 <=? n) && (n <=? 122)) ||
  bool_decide (c ∈ ["+"%char; "/"%char; "="%char; "-"%char; " "%char; ascii_of_nat 10]).

(** ** The packages *)

Class Crypto := {
  pem_Decode : string → option (pem_Block * string);
  pem_EncodeToMemory : pem_Block → string;
  ParsePKCS1PrivateKey : string → result rsa_PrivateKey;
  ParsePKCS8PrivateKey : string → result (option rsa_PrivateKey);  (* None: not an RSA key *)
  MarshalPKCS1PrivateKey : rsa_PrivateKey → string;
  rsa_GenerateKey : option string → Z → result rsa_PrivateKey;
  x509_ParseCertificate : string → result Certificate;
  x509_ParseCertificateRequest : string → result CertificateRequest;
  csr_CheckSignature : CertificateRequest → result unit;
  x509_CreateCertificate :
    option string → Certificate → Certificate → crypto_PublicKey → rsa_PrivateKey → result string;
  x509_CreateCertificateRequest : option string → CertificateRequest → rsa_PrivateKey → result string;
  (* is the first certificate signed with the key of the second? *)
  x509_signed_by : Certificate → Certificate → bool;
  x509_Verify : Certificate → list Certificate → list ExtKeyUsage → Z → result (list (list Certificate));
  tls_X509KeyPair : string → string → result (list string * rsa_PrivateKey);
  ssh_ParseAuthorizedKey : string → result (ssh_PublicKey * string);
  ssh_ParsePrivateKey : string → result ssh_Signer;
  ssh_Type : ssh_PublicKey → string;
  ssh_Marshal : ssh_PublicKey → string;
  ssh_MarshalAuthorizedKey : ssh_PublicKey → string;
  ssh_SignCert : option string → ssh_PublicKey → ssh_CertBody → ssh_Signer → result ssh_CertBody;

  pem_header b : HasPrefix (pem_EncodeToMemory b) "-----BEGIN " = true;
  pem_roundtrip b :
    pem_label (pem_Type b) = true → pem_Decode (pem_EncodeToMemory b) = Some (b, "");
  pem_text b :
    pem_label (pem_Type b) = true → all_chars pem_char (pem_EncodeToMemory b) = true;
  rsa_roundtrip r n k :
    rsa_GenerateKey r n = Ok k → ParsePKCS1PrivateKey (MarshalPKCS1PrivateKey k) = Ok k;
  parse_raw d c : x509_ParseCertificate d = Ok c → Raw c = d;
  create_parses r t p pub k d :
    encodable t → x509_CreateCertificate r t p pub k = Ok d →
    ∃ c, x509_ParseCertificate d = Ok c ∧ cert_contents c = encoded_contents t ∧
         extra_attrs (Names (Subject c)) = ExtraNames (Subject t) ∧ PublicKey c = pub ∧
         (PublicKey p = RSAPublicKey (rsa_N k) → x509_signed_by c p = true);
  request_parses r t k d :
    x509_CreateCertificateRequest r t k = Ok d →
    ∃ c, x509_ParseCertificateRequest d = Ok c ∧ csr_CheckSignature c = Ok tt ∧
         csr_CommonName c = csr_CommonName t ∧ csr_PublicKey c = RSAPublicKey (rsa_N k);
  (* without intermediates, a chain is the certificate and a root, or a root *)
  verify_sound c roots us t chain chains :
    x509_Verify c roots us t = Ok (chain :: chains) →
    NotBefore c ≤ t ≤ NotAfter c ∧ (∃ u, u ∈ us ∧ u ∈ ExtKeyUsages c) ∧
    ∃ r, r ∈ roots ∧ (x509_signed_by c r = true ∨ Raw c = Raw r);
  keypair_leaf d key ders k :
    tls_X509KeyPair (pem_EncodeToMemory (mkPemBlock "CERTIFICATE" d)) key = Ok (ders, k) →
    ders = [d];
  ssh_signed r key b s b' :
    ssh_SignCert r key b s = Ok b' →
    ssh_contents b' = ssh_contents b ∧
    ssh_ParseAuthorizedKey (ssh_Type (SSHCertificate key b') +:+ " " +:+
      base64_StdEncode (ssh_Marshal (SSHCertificate key b')) +:+ newline)
    = Ok (SSHCertificate key b', "")
}.
