(* ===== verification/ToyCrypto.v ===== *)
(** * One implementation of the cryptographic packages, for concrete runs

    Not secure and not the real formats: it satisfies the laws of [Crypto], so
    that the theorems that use them can be applied to concrete inputs. *)

From S2P Require Import Prelude GoStrings GoNet GoCodec GoCrypto.
From stdpp Require Import countable.
#[local] Open Scope Z_scope.
#[export] Set Default Goal Selector "!".

Module Toy.
(** ** Values as strings of digits *)

Fixpoint bits (p : positive) : string :=
  match p with
  | xH => ""
  | xO p => String "0" (bits p)
  | xI p => String "1" (bits p)
  end.
Fixpoint unbits (s : string) : positive :=
  match s with
  | "" => xH
  | String c s => if bool_decide (c = "1"%char) then xI (unbits s) else xO (unbits s)
  end.
Lemma unbits_bits p : unbits (bits p) = p.
Proof. induction p; simpl; congruence. Qed.

Definition code {A} `{Countable A} (a : A) : string := bits (encode a).
Definition uncode {A} `{Countable A} (s : string) : option A := decode (unbits s).
Lemma uncode_code {A} `{Countable A} (a : A) : uncode (code a) = Some a.
Proof. unfold uncode, code. by rewrite unbits_bits, decode_encode. Qed.

(** ** PEM: type, length and bytes *)

(** The bytes as they are when they may stand in a text, in base64 otherwise. *)
Definition armor (bytes : string) : string :=
  if all_chars pem_char bytes then String "r" bytes else String "x" (base64_StdEncode bytes).
Definition unarmor (s : string) : option string :=
  match s with
  | String c s => if bool_decide (c = "r"%char) then Some s else base64_StdDecode s
  | "" => None
  end.
Lemma unarmor_armor s : unarmor (armor s) = Some s.
Proof. unfold armor. destruct (all_chars _ _); [done|]. apply base64_roundtrip. Qed.

Definition pem_Encode (b : pem_Block) : string :=
  let body := armor (pem_Bytes b) in
  "-----BEGIN " +:+ (pem_Type b +:+ String "-" (bits (Pos.of_succ_nat (String.length body))))
  +:+ String (ascii_of_nat 10) body.
Definition pem_Decode (s : string) : option (pem_Block * string) :=
  if HasPrefix s "-----BEGIN " then
    match SplitN (drop_s 11 s) (ascii_of_nat 10) 2 with
    | [h; r] =>
        match SplitN h "-" 2 with
        | [t; n] =>
            let n := pred (Pos.to_nat (unbits n)) in
            bytes ← unarmor (take_s n r);
            Some (mkPemBlock t bytes, drop_s n r)
        | _ => None
        end
    | _ => None
    end
  else None.

Lemma bits_no_char c p : c ≠ "0"%char → c ≠ "1"%char → has_char c (bits p) = false.
Proof.
  intros H0 H1. induction p as [p IH|p IH|]; simpl; [..|done];
    (rewrite bool_decide_false by congruence; exact IH).
Qed.

Lemma label_no_char c t :
  pem_label t = true → pem_label (String c "") = false → has_char c t = false.
Proof.
  unfold pem_label. intros Ht Hc. cbn [all_chars] in Hc. rewrite andb_true_r in Hc.
  induction t as [|d t IH]; [done|]. cbn [all_chars has_char] in *.
  apply andb_true_iff in Ht as [Hd Ht]. rewrite IH by done.
  rewrite bool_decide_false; [done|]. intros ->. congruence.
Qed.

Lemma pem_Decode_Encode b : pem_label (pem_Type b) = true → pem_Decode (pem_Encode b) = Some (b, "").
Proof.
  intros Hb. unfold pem_Decode, pem_Encode. rewrite HasPrefix_app.
  change 11%nat with (String.length "-----BEGIN ") at 1. rewrite drop_app_s, SplitN2_app.
  - rewrite SplitN2_app by (by apply label_no_char).
    rewrite unbits_bits, SuccNat2Pos.id_succ. cbn [pred].
    rewrite take_all_s, unarmor_armor. destruct b as [t y]. simpl. f_equal. f_equal.
    pose proof (take_drop_s (String.length (armor y)) (armor y)) as E. rewrite take_all_s in E.
    by apply (app_inj_s (armor y)); rewrite app_nil_s.
  - rewrite has_char_app. rewrite label_no_char by done. simpl.
    by rewrite bits_no_char.
Qed.

Lemma pem_Encode_text b : pem_label (pem_Type b) = true → all_chars pem_char (pem_Encode b) = true.
Proof.
  intros Hb. unfold pem_Encode. rewrite !all_chars_app. cbn [all_chars].
  assert (Hbits : ∀ p, all_chars pem_char (bits p) = true) by (intros p; by induction p).
  rewrite Hbits. assert (Ht : all_chars pem_char (pem_Type b) = true).
  { eapply all_chars_mono; [|exact Hb]. intros c [Hc|Hc%Z.eqb_eq]%orb_true_iff; unfold pem_char.
    - by rewrite Hc, !orb_true_r.
    - replace c with " "%char; [by vm_compute|]. rewrite <- (byte_chr_val c), Hc. by vm_compute. }
  rewrite Ht. simpl. unfold armor. destruct (all_chars pem_char (pem_Bytes b)) eqn:E; [exact E|].
  apply base64_groups_all; by vm_compute.
Qed.

(** ** X.509 *)

Definition pub_data (p : crypto_PublicKey) : Z + string :=
  match p with RSAPublicKey n => inl n | OtherPublicKey s => inr s end.
Definition data_pub (d : Z + string) : crypto_PublicKey :=
  match d with inl n => RSAPublicKey n | inr s => OtherPublicKey s end.
Lemma data_pub_data p : data_pub (pub_data p) = p.
Proof. by destruct p. Qed.

Definition usage_data (u : ExtKeyUsage) : Z + bool :=
  match u with
  | ExtKeyUsageClientAuth => inr true
  | ExtKeyUsageServerAuth => inr false
  | ExtKeyUsageOther n => inl n
  end.
Definition data_usage (d : Z + bool) : ExtKeyUsage :=
  match d with
  | inr true => ExtKeyUsageClientAuth
  | inr false => ExtKeyUsageServerAuth
  | inl n => ExtKeyUsageOther n
  end.
Lemma data_usage_data u : data_usage (usage_data u) = u.
Proof. by destruct u. Qed.
#[export] Instance usage_eq_dec : EqDecision ExtKeyUsage.
Proof. solve_decision. Defined.

(* issuer's modulus, public key, serial, subject, validity, usages, flags, names *)
Definition attr_data (a : pkix_AttributeTypeAndValue) : list Z * option string :=
  (attr_Type a, match attr_Value a with AString s => Some s | AOther => None end).
Definition data_attr (d : list Z * option string) : pkix_AttributeTypeAndValue :=
  mkAttr d.1 (match d.2 with Some s => AString s | None => AOther end).
Lemma data_attr_data a : data_attr (attr_data a) = a.
Proof. by destruct a as [? []]. Qed.
(** The attributes that the fields of a name are encoded as. *)
Definition std_attrs (cn : string) (org : list string) : list pkix_AttributeTypeAndValue :=
  map (λ o, mkAttr [2; 5; 4; 10] (AString o)) org ++ [mkAttr [2; 5; 4; 3] (AString cn)].
Definition cert_data : Type :=
  Z * (Z + string) * Z * (string * list string * list (list Z * option string)) * (Z * Z) * (Z * list (Z + bool)) *
  (bool * bool) * (list string * list (list Z)).

Definition data_of (issuer : Z) (t : Certificate) (pub : crypto_PublicKey) : cert_data :=
  (issuer, pub_data pub, SerialNumber t, (CommonName (Subject t), Organization (Subject t), map attr_data (ExtraNames (Subject t))),
   (NotBefore t / 1000000000, NotAfter t / 1000000000), (KeyUsage t, map usage_data (ExtKeyUsages t)),
   (BasicConstraintsValid t, IsCA t), (DNSNames t, san_IP <$> IPAddresses t)).

Definition cert_of (raw : string) (d : cert_data) : Certificate :=
  let '(_, pub, serial, (cn, org, names), (nb, na), (ku, eku), (bc, ca), (dns, ips)) := d in
  mkCert raw (match pub with inl _ => true | _ => false end) (data_pub pub) serial
    (mkName cn org (std_attrs cn org ++ map data_attr names) [])
    (nb * 1000000000) (na * 1000000000) ku (map data_usage eku) bc ca (-1) false dns ips true.

Lemma cert_of_raw raw d : Raw (cert_of raw d) = raw.
Proof. by destruct d as [[[[[[[? ?] ?] [[? ?] ?]] [? ?]] [? ?]] [? ?]] [? ?]]. Qed.

Definition ParseCertificate (der : string) : result Certificate :=
  match uncode (A:=cert_data) der with
  | Some d => Ok (cert_of der d)
  | None => Err (StdError "x509: malformed certificate")
  end.
Definition CreateCertificate (r : option string) (t p : Certificate) (pub : crypto_PublicKey)
    (k : rsa_PrivateKey) : result string :=
  match r with
  | Some _ => Ok (code (A:=cert_data) (data_of (rsa_N k) t pub))
  | None => Err (StdError "x509: no randomness")
  end.
#[export] Instance pub_eq_dec : EqDecision crypto_PublicKey.
Proof. solve_decision. Defined.
Definition signed_by (c p : Certificate) : bool :=
  match uncode (A:=cert_data) (Raw c) with
  | Some (n, _, _, _, _, _, _, _) => bool_decide (PublicKey p = RSAPublicKey n)
  | None => false
  end.

Definition Verify (c : Certificate) (roots : list Certificate) (us : list ExtKeyUsage) (t : Z)
    : result (list (list Certificate)) :=
  if bool_decide (NotBefore c ≤ t ≤ NotAfter c) then
    if existsb (λ u, bool_decide (u ∈ ExtKeyUsages c)) us then
      match List.filter (λ r, signed_by c r || bool_decide (Raw c = Raw r)) roots with
      | [] => Err (StdError "x509: certificate signed by unknown authority")
      | l => Ok (map (λ r, [c; r]) l)
      end
    else Err (StdError "x509: certificate specifies an incompatible key usage")
  else Err (StdError "x509: certificate has expired or is not yet valid").

Definition ParsePKCS1 (s : string) : result rsa_PrivateKey :=
  match uncode (A:=Z * string) s with
  | Some (n, d) => Ok (mkRSA n d)
  | None => Err (StdError "x509: malformed key")
  end.
Definition GenerateKey (r : option string) (n : Z) : result rsa_PrivateKey :=
  match r with
  | Some s => Ok (mkRSA (Zpos (encode s)) s)
  | None => Err (StdError "rsa: no randomness")
  end.

Definition ParseRequest (der : string) : result CertificateRequest :=
  match uncode (A:=string * (Z + string)) der with
  | Some (cn, pub) => Ok (mkCSR der cn (data_pub pub))
  | None => Err (StdError "x509: malformed request")
  end.
Definition CreateRequest (r : option string) (t : CertificateRequest) (k : rsa_PrivateKey)
    : result string :=
  match r with
  | Some _ => Ok (code (A:=string * (Z + string)) (csr_CommonName t, inl (rsa_N k)))
  | None => Err (StdError "x509: no randomness")
  end.

Definition X509KeyPair (cert key : string) : result (list string * rsa_PrivateKey) :=
  match pem_Decode cert, pem_Decode key with
  | Some (b, _), Some (kb, _) =>
      k ← ParsePKCS1 (pem_Bytes kb);
      c ← ParseCertificate (pem_Bytes b);
      if bool_decide (PublicKey c = RSAPublicKey (rsa_N k)) then Ok ([pem_Bytes b], k)
      else Err (StdError "tls: private key does not match public key")
  | _, _ => Err (StdError "tls: failed to find any PEM data")
  end.

(** ** SSH *)

Definition body_data : Type :=
  string * Z * Z * string * list string * (Z * Z) * list (string * string) * string.
Definition data_body (b : ssh_CertBody) : body_data :=
  (ssh_Nonce b, ssh_Serial b, ssh_CertType b, ssh_KeyId b, ssh_ValidPrincipals b,
   (ssh_ValidAfter b, ssh_ValidBefore b), ssh_Extensions b, ssh_Signature b).
Definition body_of (d : body_data) : ssh_CertBody :=
  let '(n, s, t, i, p, (a, b), e, g) := d in mkSSHBody n s t i p a b e g.

(* the key at the bottom, and the certificates around it from the inside *)
Fixpoint flatten (k : ssh_PublicKey) : string * string * list body_data :=
  match k with
  | SSHKey t b => (t, b, [])
  | SSHCertificate k b => let '(t, d, l) := flatten k in (t, d, l ++ [data_body b])
  end.
Definition unflatten (x : string * string * list body_data) : ssh_PublicKey :=
  let '(t, d, l) := x in fold_left (λ k b, SSHCertificate k (body_of b)) l (SSHKey t d).
Lemma unflatten_flatten k : unflatten (flatten k) = k.
Proof.
  induction k as [t b|k IH b]; [done|]. simpl. destruct (flatten k) as [[t d] l].
  simpl in *. rewrite fold_left_app. simpl. rewrite IH. by destruct b.
Qed.

Definition sshType (k : ssh_PublicKey) : string :=
  match k with SSHKey t _ => t | SSHCertificate _ _ => "ssh-rsa-cert-v01@openssh.com" end.
Definition sshMarshal (k : ssh_PublicKey) : string := code (flatten k).
Definition sshMarshalAuthorizedKey (k : ssh_PublicKey) : string :=
  sshType k +:+ " " +:+ base64_StdEncode (sshMarshal k) +:+ newline.
Definition sshParseAuthorizedKey (s : string) : result (ssh_PublicKey * string) :=
  let '(line, rest) :=
    match SplitN s (ascii_of_nat 10) 2 with [l; r] => (l, r) | _ => (s, "") end in
  match SplitN line " " 2 with
  | [t; b] =>
      match base64_StdDecode b ≫= uncode (A:=string * string * list body_data) with
      | Some x => if bool_decide (sshType (unflatten x) = t) then Ok (unflatten x, rest)
                  else Err (ForeignError "ssh: wrong type")
      | None => Err (ForeignError "ssh: malformed key")
      end
  | _ => Err (ForeignError "ssh: no key found")
  end.
Definition sshParsePrivateKey (s : string) : result ssh_Signer :=
  if HasPrefix s "PRIVATE " then Ok (mkSigner (SSHKey "ssh-rsa" (drop_s 8 s)) s)
  else
    match pem_Decode s with
    | Some (b, _) =>
        k ← ParsePKCS1 (pem_Bytes b); Ok (mkSigner (SSHKey "ssh-rsa" (code (rsa_N k))) s)
    | None => Err (ForeignError "ssh: no key found")
    end.
Definition sshSignCert (r : option string) (k : ssh_PublicKey) (b : ssh_CertBody) (s : ssh_Signer)
    : result ssh_CertBody :=
  match r with
  | Some n => Ok (mkSSHBody n (ssh_Serial b) (ssh_CertType b) (ssh_KeyId b) (ssh_ValidPrincipals b)
                    (ssh_ValidAfter b) (ssh_ValidBefore b) (ssh_Extensions b) (signer_secret s))
  | None => Err (ForeignError "ssh: no randomness")
  end.

(** ** The laws *)

Lemma extra_attrs_parsed n cn org :
  plain_extras n → extra_attrs (std_attrs cn org ++ ExtraNames n) = ExtraNames n.
Proof.
  intros Hn. unfold extra_attrs. rewrite List.filter_app. unfold std_attrs. rewrite List.filter_app.
  assert (Ho : List.filter (λ a, bool_decide (take 3 (attr_Type a) ≠ [2; 5; 4]))
    (map (λ o, mkAttr [2; 5; 4; 10] (AString o)) org) = []) by (by induction org).
  rewrite Ho. simpl. unfold plain_extras in Hn. induction Hn as [|a l [Ha _] _ IH]; [done|]. simpl.
  by rewrite bool_decide_true, IH.
Qed.
Lemma create_parses_toy r t p pub k d :
  encodable t → CreateCertificate r t p pub k = Ok d →
  ∃ c, ParseCertificate d = Ok c ∧ cert_contents c = encoded_contents t ∧
       extra_attrs (Names (Subject c)) = ExtraNames (Subject t) ∧ PublicKey c = pub ∧
       (PublicKey p = RSAPublicKey (rsa_N k) → signed_by c p = true).
Proof.
  intros [Hx _ _]. unfold CreateCertificate. destruct r; [|done]. intros [= <-]. unfold ParseCertificate.
  rewrite uncode_code. eexists. split; [done|]. unfold cert_contents, encoded_contents, cert_fields, data_of, cert_of. simpl.
  rewrite data_pub_data, !map_map.
  rewrite (map_ext _ id) by apply data_usage_data. rewrite map_id.
  rewrite (map_ext (λ x, data_attr (attr_data x)) id) by apply data_attr_data. rewrite map_id.
  rewrite !Z.div_mul by lia. split_and!; [done|by apply extra_attrs_parsed|done|].
  intros Hp. unfold signed_by. cbn [Raw]. rewrite uncode_code. by apply bool_decide_true.
Qed.

Lemma verify_sound_toy c roots us t chain chains :
  Verify c roots us t = Ok (chain :: chains) →
  NotBefore c ≤ t ≤ NotAfter c ∧ (∃ u, u ∈ us ∧ u ∈ ExtKeyUsages c) ∧
  ∃ r, r ∈ roots ∧ (signed_by c r = true ∨ Raw c = Raw r).
Proof.
  unfold Verify. case_bool_decide as Ht; [|done]. destruct (existsb _ us) eqn:Hu; [|done].
  destruct (List.filter _ roots) as [|r l] eqn:Hf; [done|]. intros _.
  apply existsb_exists in Hu as (u & Hu%list_elem_of_In & Hc%bool_decide_eq_true).
  split; [done|]. split; [by exists u|].
  assert (In r (r :: l)) as Hr by by left. rewrite <- Hf in Hr.
  apply filter_In in Hr as [Hr%list_elem_of_In Hs]. exists r. split; [done|].
  apply orb_true_iff in Hs as [?|?%bool_decide_eq_true]; auto.
Qed.

(** The line of a key is read back. *)
Lemma ssh_line k :
  has_char " " (sshType k) = false → has_char (ascii_of_nat 10) (sshType k) = false →
  sshParseAuthorizedKey (sshMarshalAuthorizedKey k) = Ok (k, "").
Proof.
  intros Hsp Hnl. unfold sshParseAuthorizedKey, sshMarshalAuthorizedKey. pose proof (base64_no_blank (sshMarshal k)) as Hb.
  assert (Hno : ∀ c, c ∈ [" "%char; ascii_of_nat 10; ascii_of_nat 13] →
    has_char c (base64_StdEncode (sshMarshal k)) = false).
  { intros c Hc. revert Hb. generalize (base64_StdEncode (sshMarshal k)). intros e.
    induction e as [|d e IH]; simpl; [done|]. intros [Hd He]%andb_true_iff. rewrite IH by done.
    apply negb_true_iff, bool_decide_eq_false in Hd. rewrite bool_decide_false; [done|].
    by intros ->. }
  unfold newline. rewrite !app_assoc_s, SplitN2_app.
  2: { rewrite !has_char_app, Hnl. rewrite Hno by (rewrite !elem_of_cons; auto). by vm_compute. }
  rewrite <- app_assoc_s. change (" " +:+ ?x) with (String " " x).
  rewrite SplitN2_app by done.
  rewrite base64_roundtrip. cbn [mbind option_bind]. unfold sshMarshal.
  rewrite uncode_code, unflatten_flatten. by rewrite bool_decide_true.
Qed.

Lemma ssh_signed_toy r key b s b' :
  sshSignCert r key b s = Ok b' →
  ssh_contents b' = ssh_contents b ∧
  sshParseAuthorizedKey (sshType (SSHCertificate key b') +:+ " " +:+
    base64_StdEncode (sshMarshal (SSHCertificate key b')) +:+ newline)
  = Ok (SSHCertificate key b', "").
Proof.
  unfold sshSignCert. destruct r as [n|]; [|done]. intros H.
  split; [by injection H as <-|]. by apply ssh_line.
Qed.

#[export] Program Instance crypto : Crypto := {|
  GoCrypto.pem_Decode := pem_Decode;
  pem_EncodeToMemory := pem_Encode;
  ParsePKCS1PrivateKey := ParsePKCS1;
  ParsePKCS8PrivateKey _ := Err (StdError "x509: malformed key");
  MarshalPKCS1PrivateKey k := code (rsa_N k, rsa_secret k);
  rsa_GenerateKey := GenerateKey;
  x509_ParseCertificate := ParseCertificate;
  x509_ParseCertificateRequest := ParseRequest;
  csr_CheckSignature _ := Ok tt;
  x509_CreateCertificate := CreateCertificate;
  x509_CreateCertificateRequest := CreateRequest;
  x509_signed_by := signed_by;
  x509_Verify := Verify;
  tls_X509KeyPair := X509KeyPair;
  ssh_ParseAuthorizedKey := sshParseAuthorizedKey;
  ssh_ParsePrivateKey := sshParsePrivateKey;
  ssh_Type := sshType;
  ssh_Marshal := sshMarshal;
  ssh_MarshalAuthorizedKey := sshMarshalAuthorizedKey;
  ssh_SignCert := sshSignCert
|}.
Next Obligation. intros b. apply HasPrefix_app. Qed.
Next Obligation. apply pem_Decode_Encode. Qed.
Next Obligation. apply pem_Encode_text. Qed.
Next Obligation.
  intros r n k _. unfold ParsePKCS1. rewrite uncode_code. by destruct k.
Qed.
Next Obligation.
  intros d c. unfold ParseCertificate. destruct (uncode d) as [x|]; [|done]. intros [= <-].
  apply cert_of_raw.
Qed.
Next Obligation. apply create_parses_toy. Qed.
Next Obligation.
  intros [r|] t k d; [|done]. intros [= <-]. unfold ParseRequest. rewrite uncode_code.
  eexists. by split_and!.
Qed.
Next Obligation. apply verify_sound_toy. Qed.
Next Obligation.
  intros d key ders k. unfold X509KeyPair. rewrite pem_Decode_Encode by done.
  destruct (pem_Decode key) as [[kb ?]|]; [|done]. cbn [pem_Bytes].
  destruct (ParsePKCS1 _) as [k'|]; [|done]. simpl.
  destruct (ParseCertificate d) as [c|]; [|done]. simpl. case_bool_decide; [|done].
  by intros [= <- _].
Qed.
Next Obligation. apply ssh_signed_toy. Qed.
End Toy.
