(* ===== verification/GoJSON.v ===== *)
(** * encoding/json, for the values that the program sends

    The decoder of [json.Unmarshal] into [[]map[string]string], [[]string] and
    slices of a struct of strings, and the encoder of [json.Marshal] for the
    same, on byte strings: whitespace, literals, numbers, escapes, UTF-8 and
    surrogates as the standard library treats them. *)

From S2P Require Import Prelude GoStrings GoCodec.
#[export] Set Default Goal Selector "!".

Inductive json : Type :=
| JNull
| JBool (b : bool)
| JNumber (s : string)
| JString (s : string)
| JArray (l : list json)
| JObject (l : list (string * json)).

(** ** Characters *)

Definition quote : ascii := ascii_of_nat 34.
Definition backslash : ascii := ascii_of_nat 92.

Definition hex_value (c : ascii) : option Z :=
  let v := byte_val c in
  if (48 <=? v) && (v <=? 57) then Some (v - 48)
  else if (97 <=? v) && (v <=? 102) then Some (v - 87)
  else if (65 <=? v) && (v <=? 70) then Some (v - 55)
  else None.
Definition hex4 (a b c d : ascii) : option Z :=
  va ← hex_value a; vb ← hex_value b; vc ← hex_value c; vd ← hex_value d;
  Some (va * 4096 + vb * 256 + vc * 16 + vd).

(** [utf8.EncodeRune] *)
Definition utf8_encode (r : Z) : string :=
  if r <? 128 then string_of [r]
  else if r <? 2048 then string_of [192 + r / 64; 128 + r mod 64]
  else if r <? 65536 then string_of [224 + r / 4096; 128 + r / 64 mod 64; 128 + r mod 64]
  else string_of [240 + r / 262144; 128 + r / 4096 mod 64; 128 + r / 64 mod 64; 128 + r mod 64].
Definition replacement : string := utf8_encode 65533.

Definition in_range (lo hi : Z) (c : ascii) : bool := (lo <=? byte_val c) && (byte_val c <=? hi).
Definition continuation : ascii → bool := in_range 128 191.

(** How many bytes follow the first one, and the range of the second. *)
Definition utf8_class (c : ascii) : option (nat * (Z * Z)) :=
  let v := byte_val c in
  if (194 <=? v) && (v <=? 223) then Some (1%nat, (128, 191))
  else if v =? 224 then Some (2%nat, (160, 191))
  else if v =? 237 then Some (2%nat, (128, 159))
  else if (225 <=? v) && (v <=? 239) then Some (2%nat, (128, 191))
  else if v =? 240 then Some (3%nat, (144, 191))
  else if v =? 244 then Some (3%nat, (128, 143))
  else if (241 <=? v) && (v <=? 243) then Some (3%nat, (128, 191))
  else None.

Definition surrogate (r : Z) : bool := (55296 <=? r) && (r <? 57344).
(** [utf16.DecodeRune] of a pair, when it is one. *)
Definition utf16_pair (r1 r2 : Z) : option Z :=
  if (55296 <=? r1) && (r1 <? 56320) && (56320 <=? r2) && (r2 <? 57344)
  then Some ((r1 - 55296) * 1024 + (r2 - 56320) + 65536) else None.

Definition simple_escape (c : ascii) : option ascii :=
  let v := byte_val c in
  if (v =? 34) || (v =? 92) || (v =? 47) then Some c          (* quote, backslash, slash *)
  else if v =? 98 then Some (ascii_of_nat 8)                    (* b *)
  else if v =? 102 then Some (ascii_of_nat 12)                  (* f *)
  else if v =? 110 then Some (ascii_of_nat 10)                  (* n *)
  else if v =? 114 then Some (ascii_of_nat 13)                  (* r *)
  else if v =? 116 then Some (ascii_of_nat 9)                   (* t *)
  else None.

(** ** Decoding *)

Definition prepend (p : string) (r : option (string * string)) : option (string * string) :=
  match r with Some (s, t) => Some (p +:+ s, t) | None => None end.

(** What follows a backslash: its value and the rest. *)
Definition escape_value (s1 : string) : option (string * string) :=
  match s1 with
  | "" => None
  | String e s2 =>
      match simple_escape e with
      | Some c' => Some (String c' "", s2)
      | None =>
          if bool_decide (e = "u"%char) then
            match s2 with
            | String a1 (String a2 (String a3 (String a4 s3))) =>
                r ← hex4 a1 a2 a3 a4;
                if surrogate r then
                  match s3 with
                  | String b (String u (String b1 (String b2 (String b3 (String b4 s4))))) =>
                      let r2 := if bool_decide (b = backslash ∧ u = "u"%char)
                                then hex4 b1 b2 b3 b4 else None in
                      match r2 ≫= utf16_pair r with
                      | Some r' => Some (utf8_encode r', s4)
                      | None => Some (replacement, s3)
                      end
                  | _ => Some (replacement, s3)
                  end
                else Some (utf8_encode r, s3)
            | _ => None
            end
          else None
      end
  end.

(** The encoding of a rune whose first byte [c] is not ASCII, and the rest; a
    byte that starts no encoding is replaced. *)
Definition rune_value (bad : string) (c : ascii) (s1 : string) : string * string :=
  match utf8_class c, s1 with
  | Some (1%nat, (lo, hi)), String d s2 =>
      if in_range lo hi d then (String c (String d ""), s2) else (bad, s1)
  | Some (2%nat, (lo, hi)), String d (String e s2) =>
      if in_range lo hi d && continuation e
      then (String c (String d (String e "")), s2) else (bad, s1)
  | Some (3%nat, (lo, hi)), String d (String e (String f s2)) =>
      if in_range lo hi d && continuation e && continuation f
      then (String c (String d (String e (String f ""))), s2) else (bad, s1)
  | _, _ => (bad, s1)
  end.

(** The value of a string whose opening quote was read, and what follows its
    closing quote. A step drops at least one byte, so the length is fuel
    enough. *)
Definition unquote_char (c : ascii) (s1 : string) : option (string * string) :=
  if bool_decide (c = backslash) then escape_value s1
  else if byte_val c <? 32 then None
  else if byte_val c <? 128 then Some (String c "", s1)
  else Some (rune_value replacement c s1).
Fixpoint unquote_fuel (fuel : nat) (s : string) : option (string * string) :=
  match fuel, s with
  | O, _ | _, "" => None
  | S fuel, String c s1 =>
      if bool_decide (c = quote) then Some ("", s1)
      else
        pr ← unquote_char c s1;
        prepend pr.1 (unquote_fuel fuel pr.2)
  end.
Definition unquote (s : string) : option (string * string) := unquote_fuel (String.length s) s.

Definition is_space (c : ascii) : bool :=
  let v := byte_val c in (v =? 32) || (v =? 9) || (v =? 10) || (v =? 13).
Fixpoint skip_space (s : string) : string :=
  match s with
  | String c s' => if is_space c then skip_space s' else s
  | "" => ""
  end.

Definition is_digit (c : ascii) : bool := in_range 48 57 c.
Fixpoint scan_digits (s : string) : string * string :=
  match s with
  | String c s' => if is_digit c then let '(d, r) := scan_digits s' in (String c d, r) else ("", s)
  | "" => ("", "")
  end.
(** The characters of a number, and what follows it. *)
Definition scan_number (s : string) : option (string * string) :=
  let '(sign, s) := match s with
                    | String c s' => if bool_decide (c = "-"%char) then ("-", s') else ("", s)
                    | "" => ("", "") end in
  let '(int, s) := match s with
                   | String c s' => if bool_decide (c = "0"%char) then ("0", s') else scan_digits s
                   | "" => ("", "") end in
  if bool_decide (int = "") then None
  else
    frac ← match s with
           | String c s' =>
               if bool_decide (c = "."%char) then
                 let '(d, r) := scan_digits s' in
                 if bool_decide (d = "") then None else Some ("." +:+ d, r)
               else Some ("", s)
           | "" => Some ("", "")
           end;
    exp ← match frac.2 with
          | String c s' =>
              if bool_decide (c = "e"%char ∨ c = "E"%char) then
                let '(sg, s'') := match s' with
                                  | String c' r => if bool_decide (c' = "+"%char ∨ c' = "-"%char)
                                                   then (String c' "", r) else ("", s')
                                  | "" => ("", "") end in
                let '(d, r) := scan_digits s'' in
                if bool_decide (d = "") then None else Some (String c "" +:+ sg +:+ d, r)
              else Some ("", frac.2)
          | "" => Some ("", "")
          end;
    Some (sign +:+ int +:+ frac.1 +:+ exp.1, exp.2).

(** The outcome of a parser: a value and the text after it. *)
Inductive parsed (A : Type) : Type :=
| Parsed (a : A) (rest : string)
| BadSyntax
| OutOfFuel.
Arguments Parsed {_} _ _.
Arguments BadSyntax {_}.
Arguments OutOfFuel {_}.

Definition parse_scalar (s : string) : parsed json :=
  match s with
  | "" => BadSyntax
  | String c s1 =>
      if bool_decide (c = quote) then
        match unquote s1 with Some (v, r) => Parsed (JString v) r | None => BadSyntax end
      else if HasPrefix s "null" then Parsed JNull (drop_s 4 s)
      else if HasPrefix s "true" then Parsed (JBool true) (drop_s 4 s)
      else if HasPrefix s "false" then Parsed (JBool false) (drop_s 5 s)
      else match scan_number s with Some (n, r) => Parsed (JNumber n) r | None => BadSyntax end
  end.

#[global] Arguments parse_scalar : simpl never.

(** A value, the elements of an array after the first one or none, and the
    members of an object. *)
Fixpoint parse_value (fuel : nat) (s : string) : parsed json :=
  match fuel with
  | O => OutOfFuel
  | S fuel =>
      match skip_space s with
      | String c s1 =>
          if bool_decide (c = "["%char) then
            match skip_space s1 with
            | String d s2 =>
                if bool_decide (d = "]"%char) then Parsed (JArray []) s2
                else match parse_elements fuel s1 with
                     | Parsed l r => Parsed (JArray l) r
                     | BadSyntax => BadSyntax
                     | OutOfFuel => OutOfFuel
                     end
            | "" => BadSyntax
            end
          else if bool_decide (c = "{"%char) then
            match skip_space s1 with
            | String d s2 =>
                if bool_decide (d = "}"%char) then Parsed (JObject []) s2
                else match parse_members fuel s1 with
                     | Parsed l r => Parsed (JObject l) r
                     | BadSyntax => BadSyntax
                     | OutOfFuel => OutOfFuel
                     end
            | "" => BadSyntax
            end
          else parse_scalar (String c s1)
      | "" => BadSyntax
      end
  end
with parse_elements (fuel : nat) (s : string) : parsed (list json) :=
  match fuel with
  | O => OutOfFuel
  | S fuel =>
      match parse_value fuel s with
      | Parsed v r =>
          match skip_space r with
          | String c r1 =>
              if bool_decide (c = "]"%char) then Parsed [v] r1
              else if bool_decide (c = ","%char) then
                match parse_elements fuel r1 with
                | Parsed l r2 => Parsed (v :: l) r2
                | BadSyntax => BadSyntax
                | OutOfFuel => OutOfFuel
                end
              else BadSyntax
          | "" => BadSyntax
          end
      | BadSyntax => BadSyntax
      | OutOfFuel => OutOfFuel
      end
  end
with parse_members (fuel : nat) (s : string) : parsed (list (string * json)) :=
  match fuel with
  | O => OutOfFuel
  | S fuel =>
      match skip_space s with
      | String q s1 =>
          if bool_decide (q = quote) then
            match unquote s1 with
            | Some (k, r) =>
                match skip_space r with
                | String c r1 =>
                    if bool_decide (c = ":"%char) then
                      match parse_value fuel r1 with
                      | Parsed v r2 =>
                          match skip_space r2 with
                          | String c r3 =>
                              if bool_decide (c = "}"%char) then Parsed [(k, v)] r3
                              else if bool_decide (c = ","%char) then
                                match parse_members fuel r3 with
                                | Parsed l r4 => Parsed ((k, v) :: l) r4
                                | BadSyntax => BadSyntax
                                | OutOfFuel => OutOfFuel
                                end
                              else BadSyntax
                          | "" => BadSyntax
                          end
                      | BadSyntax => BadSyntax
                      | OutOfFuel => OutOfFuel
                      end
                    else BadSyntax
                | "" => BadSyntax
                end
            | None => BadSyntax
            end
          else BadSyntax
      | "" => BadSyntax
      end
  end.

(** Every call consumes a character, or is followed by one that does. *)
Definition json_fuel (s : string) : nat := S (2 * String.length s).

Definition json_parse (s : string) : result json :=
  match parse_value (json_fuel s) s with
  | Parsed v r => if bool_decide (skip_space r = "") then Ok v
                  else Err (StdError "json: invalid character after top-level value")
  | _ => Err (StdError "json: invalid syntax")
  end.

(** *** Into Go values *)

Definition mismatch : error := StdError "json: cannot unmarshal into this Go value".

(** A string: null leaves the zero value. *)
Definition to_string (j : json) : result string :=
  match j with JString s => Ok s | JNull => Ok "" | _ => Err mismatch end.
Definition to_list {A} (f : json → result A) (j : json) : result (list A) :=
  match j with
  | JNull => Ok []
  | JArray l => mapM f l
  | _ => Err mismatch
  end.
(** [map[string]string]: a later member replaces an earlier one. *)
Definition to_map (j : json) : result (gmap string string) :=
  match j with
  | JNull => Ok ∅
  | JObject l =>
      fold_result (λ m kv, v ← to_string kv.2; Ok (<[kv.1 := v]> m)) ∅ l
  | _ => Err mismatch
  end.

Definition Unmarshal_strings (s : string) : result (list string) :=
  json_parse s ≫= to_list to_string.
Definition Unmarshal_maps (s : string) : result (list (gmap string string)) :=
  json_parse s ≫= to_list to_map.

(** ** Encoding *)

Definition hex_digit (z : Z) : ascii :=
  default "0"%char (String.get (Z.to_nat z) "0123456789abcdef").
Definition u00 (v : Z) : string :=
  String backslash ("u00" +:+ String (hex_digit (v / 16)) (String (hex_digit (v mod 16)) "")).

(** A byte below 128. *)
Definition escape_ascii (c : ascii) : string :=
  let v := byte_val c in
  if (v =? 34) || (v =? 92) then String backslash (String c "")
  else if v =? 10 then String backslash "n"
  else if v =? 13 then String backslash "r"
  else if v =? 9 then String backslash "t"
  else if (v <? 32) || (v =? 60) || (v =? 62) || (v =? 38) then u00 v
  else String c "".

(** What is written for an encoded rune: the two line separators are escaped. *)
Definition bad_utf8 : string := String backslash "ufffd".
Definition escape_rune (enc : string) : string :=
  if bool_decide (enc = chs [226; 128; 168]%nat) then String backslash "u2028"
  else if bool_decide (enc = chs [226; 128; 169]%nat) then String backslash "u2029"
  else enc.
Fixpoint escape_fuel (fuel : nat) (s : string) : string :=
  match fuel, s with
  | O, _ | _, "" => ""
  | S fuel, String c s1 =>
      if byte_val c <? 128 then escape_ascii c +:+ escape_fuel fuel s1
      else
        let '(enc, r) := rune_value "" c s1 in
        (if bool_decide (enc = "") then bad_utf8 else escape_rune enc) +:+ escape_fuel fuel r
  end.
Definition escape (s : string) : string := escape_fuel (String.length s) s.

Definition Marshal_string (s : string) : string :=
  String quote (escape s +:+ String quote "").
Definition Marshal_list {A} (f : A → string) (l : list A) : string :=
  "[" +:+ Join (map f l) "," +:+ "]".
Definition Marshal_strings : list string → string := Marshal_list Marshal_string.
(** A struct of strings, its fields in order. *)
Definition Marshal_struct (fields : list (string * string)) : string :=
  "{" +:+ Join (map (λ kv, Marshal_string kv.1 +:+ ":" +:+ Marshal_string kv.2) fields) "," +:+ "}".

Example json_ex1 : Unmarshal_strings (Marshal_strings ["a\b"; chs [34; 10; 1; 60; 195; 169]%nat; ""])
  = Ok ["a\b"; chs [34; 10; 1; 60; 195; 169]%nat; ""].
Proof. vm_compute. reflexivity. Qed.
Example json_ex2 : Unmarshal_strings (" [ null," +:+ chs [34; 92]%nat +:+ "u00e9" +:+ chs [34]%nat +:+ "]")
  = Ok [""; chs [195; 169]%nat].
Proof. vm_compute. reflexivity. Qed.
Example json_ex3 : json_parse "{}x" = Err (StdError "json: invalid character after top-level value").
Proof. vm_compute. reflexivity. Qed.
Example json_ex4 : json_parse "[1.5e3, [true,{}], -0]"
  = Ok (JArray [JNumber "1.5e3"; JArray [JBool true; JObject []]; JNumber "-0"]).
Proof. vm_compute. reflexivity. Qed.

(** ** The fuel is enough *)

Lemma skip_space_le s : (String.length (skip_space s) ≤ String.length s)%nat.
Proof. induction s as [|c s IH]; simpl; [lia|]. destruct (is_space c); simpl; lia. Qed.

Lemma scan_digits_le s : (String.length (scan_digits s).2 ≤ String.length s)%nat.
Proof.
  induction s as [|c s IH]; simpl; [lia|]. destruct (is_digit c); simpl; [|lia].
  destruct (scan_digits s). simpl in *. lia.
Qed.
Lemma scan_digits_lt s : (scan_digits s).1 ≠ "" → (String.length (scan_digits s).2 < String.length s)%nat.
Proof.
  destruct s as [|c s]; simpl; [done|]. destruct (is_digit c); simpl; [|done].
  pose proof (scan_digits_le s). destruct (scan_digits s). simpl in *. lia.
Qed.

Lemma prepend_Some p r v t : prepend p r = Some (v, t) → ∃ v', r = Some (v', t).
Proof. destruct r as [[v' t']|]; simpl; [|done]. intros [= <- <-]. by exists v'. Qed.

Lemma escape_value_lt s1 p r : escape_value s1 = Some (p, r) → (String.length r < String.length s1)%nat.
Proof.
  unfold escape_value. destruct s1 as [|e s2]; [done|].
  destruct (simple_escape e); [intros [= _ <-]; simpl; lia|]. case_bool_decide; [|done].
  destruct s2 as [|a1 [|a2 [|a3 [|a4 s3]]]]; try done.
  destruct (hex4 a1 a2 a3 a4) as [x|]; [|done]. cbn [mbind option_bind].
  destruct (surrogate x); [|intros [= _ <-]; simpl; lia].
  assert (Hs3 : Some (replacement, s3) = Some (p, r) →
    (String.length r < String.length (String e (String a1 (String a2 (String a3 (String a4 s3))))))%nat)
    by (intros [= _ <-]; simpl; lia).
  destruct s3 as [|b [|u [|b1 [|b2 [|b3 [|b4 s4]]]]]]; try exact Hs3.
  destruct ((if bool_decide _ then _ else _) ≫= _) as [y|]; [|exact Hs3].
  intros [= _ <-]. simpl. lia.
Qed.

Lemma rune_value_le bad c s1 : (String.length (rune_value bad c s1).2 ≤ String.length s1)%nat.
Proof.
  unfold rune_value. destruct (utf8_class c) as [[[|[|[|[|]]]] [lo hi]]|]; simpl; try lia;
    destruct s1 as [|d [|e [|f s2]]]; simpl; try lia; destruct (in_range lo hi d); simpl; try lia;
    destruct (continuation e); simpl; try lia; destruct (continuation f); simpl; lia.
Qed.

Lemma unquote_char_le c s1 p r : unquote_char c s1 = Some (p, r) → (String.length r ≤ String.length s1)%nat.
Proof.
  unfold unquote_char. case_bool_decide; [intros H'%escape_value_lt; lia|].
  destruct (byte_val c <? 32); [done|]. destruct (byte_val c <? 128); [by intros [= _ <-]|].
  intros [= E]. pose proof (rune_value_le replacement c s1) as H'. by rewrite E in H'.
Qed.

Lemma unquote_fuel_lt n s v r : unquote_fuel n s = Some (v, r) → (String.length r < String.length s)%nat.
Proof.
  revert s v r. induction n as [|n IH]; intros s v r; [done|].
  destruct s as [|c s1]; [done|]. cbn [unquote_fuel]. case_bool_decide; [intros [= _ <-]; simpl; lia|].
  destruct (unquote_char c s1) as [[p r']|] eqn:E; [|done]. cbn [mbind option_bind].
  intros (v' & H')%prepend_Some. apply IH in H'. apply unquote_char_le in E. simpl in *. lia.
Qed.
Lemma unquote_lt s v r : unquote s = Some (v, r) → (String.length r < String.length s)%nat.
Proof. apply unquote_fuel_lt. Qed.

Lemma unquote_fuel_more n m s :
  (String.length s ≤ n)%nat → (String.length s ≤ m)%nat → unquote_fuel n s = unquote_fuel m s.
Proof.
  revert m s. induction n as [|n IH]; intros [|m] [|c s1]; simpl; try done; try lia.
  intros Hn Hm. case_bool_decide; [done|].
  destruct (unquote_char c s1) as [[p r]|] eqn:E; [|done]. cbn [mbind option_bind].
  apply unquote_char_le in E. simpl. by rewrite (IH m) by lia.
Qed.

Lemma unquote_cons c s1 :
  unquote (String c s1) =
    if bool_decide (c = quote) then Some ("", s1)
    else pr ← unquote_char c s1; prepend pr.1 (unquote pr.2).
Proof.
  unfold unquote. cbn [String.length unquote_fuel]. case_bool_decide; [done|].
  destruct (unquote_char c s1) as [[p r]|] eqn:E; [|done]. cbn [mbind option_bind fst snd].
  apply unquote_char_le in E. f_equal. apply unquote_fuel_more; lia.
Qed.

Lemma scan_number_lt s n r : scan_number s = Some (n, r) → (String.length r < String.length s)%nat.
Proof.
  unfold scan_number.
  set (p1 := match s with
             | "" => _
             | String c s' => if bool_decide (c = "-"%char) then _ else _ end).
  assert (H1 : (String.length p1.2 ≤ String.length s)%nat).
  { unfold p1. destruct s; [done|]. case_bool_decide; simpl; lia. }
  clearbody p1. destruct p1 as [sign s1]. simpl in H1.
  set (p2 := match s1 with
             | "" => _
             | String c s' => if bool_decide (c = "0"%char) then _ else _ end).
  assert (H2 : p2.1 ≠ "" → (String.length p2.2 < String.length s1)%nat).
  { unfold p2. destruct s1; [done|]. case_bool_decide; [simpl; lia|]. apply scan_digits_lt. }
  clearbody p2. destruct p2 as [int s2]. simpl in H2.
  case_bool_decide as Hi; [done|]. specialize (H2 Hi).
  set (p3 := match s2 with
             | "" => _
             | String c s' => if bool_decide (c = "."%char) then _ else _ end).
  assert (H3 : ∀ x, p3 = Some x → (String.length x.2 ≤ String.length s2)%nat).
  { intros x. unfold p3. destruct s2 as [|c s']; [by intros [= <-]|].
    case_bool_decide; [|by intros [= <-]].
    pose proof (scan_digits_le s'). destruct (scan_digits s'). case_bool_decide; [done|].
    intros [= <-]. simpl in *. lia. }
  clearbody p3. destruct p3 as [x|]; [|done]. specialize (H3 x eq_refl). cbn [mbind option_bind].
  set (p4 := match x.2 with
             | "" => _
             | String c s' => if bool_decide (c = "e"%char ∨ c = "E"%char) then _ else _ end).
  assert (H4 : ∀ y, p4 = Some y → (String.length y.2 ≤ String.length x.2)%nat).
  { intros y. unfold p4. destruct x.2 as [|c s']; [by intros [= <-]|].
    case_bool_decide; [|by intros [= <-]].
    set (p5 := match s' with "" => _ | String _ _ => _ end).
    assert (H5 : (String.length p5.2 ≤ String.length s')%nat).
    { unfold p5. destruct s'; [done|]. case_bool_decide; simpl; lia. }
    clearbody p5. destruct p5 as [sg s'']. simpl in H5.
    pose proof (scan_digits_le s''). destruct (scan_digits s''). case_bool_decide; [done|].
    intros [= <-]. simpl in *. lia. }
  clearbody p4. destruct p4 as [y|]; [|done]. specialize (H4 y eq_refl). cbn [mbind option_bind].
  intros [= _ <-]. lia.
Qed.

Lemma parse_scalar_lt s v r : parse_scalar s = Parsed v r → (String.length r < String.length s)%nat.
Proof.
  unfold parse_scalar. destruct s as [|c s1]; [done|].
  assert (Hd : ∀ n, (0 < n)%nat → (String.length (drop_s n (String c s1)) < String.length (String c s1))%nat).
  { intros n Hn. rewrite length_drop_s. simpl. lia. }
  case_bool_decide.
  { destruct (unquote s1) as [[u r']|] eqn:E; [|done]. intros [= <- <-].
    apply unquote_lt in E. simpl. lia. }
  destruct (HasPrefix _ "null"); [intros [= _ <-]; apply (Hd 4%nat); lia|].
  destruct (HasPrefix _ "true"); [intros [= _ <-]; apply (Hd 4%nat); lia|].
  destruct (HasPrefix _ "false"); [intros [= _ <-]; apply (Hd 5%nat); lia|].
  destruct (scan_number _) as [[n r']|] eqn:E; [|done]. intros [= <- <-].
  by apply scan_number_lt in E.
Qed.
Lemma parse_scalar_fuel s : parse_scalar s ≠ OutOfFuel.
Proof. unfold parse_scalar. by repeat case_match. Qed.

(** What a parser that was given enough fuel does. *)
Definition shortens {A} (s : string) (p : parsed A) : Prop :=
  match p with
  | Parsed _ r => (String.length r < String.length s)%nat
  | BadSyntax => True
  | OutOfFuel => False
  end.

Lemma shortens_le {A} s t (p : parsed A) :
  (String.length s ≤ String.length t)%nat → shortens s p → shortens t p.
Proof. destruct p; simpl; [lia|done..]. Qed.

Lemma parse_enough fuel s :
  ((2 * String.length s < fuel)%nat → shortens s (parse_value fuel s)) ∧
  ((2 * String.length s + 1 < fuel)%nat → shortens s (parse_elements fuel s)) ∧
  ((2 * String.length s < fuel)%nat → shortens s (parse_members fuel s)).
Proof.
  revert s. induction fuel as [|fuel IH]; intros s; [split_and!; intros; lia|].
  split_and!; intros Hf; cbn [parse_value parse_elements parse_members].
  - pose proof (skip_space_le s). destruct (skip_space s) as [|c s1]; [done|]. simpl in *.
    pose proof (skip_space_le s1).
    case_bool_decide; [|case_bool_decide].
    + destruct (skip_space s1) as [|d s2]; [done|]. simpl in *. case_bool_decide; [simpl; lia|].
      destruct (IH s1) as (_ & H' & _). specialize (H' ltac:(lia)).
      destruct (parse_elements fuel s1); simpl in *; [lia|done..].
    + destruct (skip_space s1) as [|d s2]; [done|]. simpl in *. case_bool_decide; [simpl; lia|].
      destruct (IH s1) as (_ & _ & H'). specialize (H' ltac:(lia)).
      destruct (parse_members fuel s1); simpl in *; [lia|done..].
    + pose proof (parse_scalar_lt (String c s1)) as Hl.
      pose proof (parse_scalar_fuel (String c s1)) as Hfuel.
      destruct (parse_scalar (String c s1)); simpl in *; [|done|by apply Hfuel].
      specialize (Hl _ _ eq_refl). lia.
  - destruct (IH s) as (H & _ & _). specialize (H ltac:(lia)).
    destruct (parse_value fuel s) as [v r| |]; simpl in *; [|done..].
    pose proof (skip_space_le r). destruct (skip_space r) as [|c r1]; [done|]. simpl in *.
    case_bool_decide; [simpl; lia|]. case_bool_decide; [|done].
    destruct (IH r1) as (_ & H' & _). specialize (H' ltac:(lia)).
    destruct (parse_elements fuel r1); simpl in *; [lia|done..].
  - pose proof (skip_space_le s). destruct (skip_space s) as [|q s1]; [done|]. simpl in *.
    case_bool_decide; [|done]. destruct (unquote s1) as [[k r]|] eqn:E; [|done].
    apply unquote_lt in E. pose proof (skip_space_le r).
    destruct (skip_space r) as [|c r1]; [done|]. simpl in *. case_bool_decide; [|done].
    destruct (IH r1) as (H' & _ & _). specialize (H' ltac:(lia)).
    destruct (parse_value fuel r1) as [v r2| |]; simpl in *; [|done..].
    pose proof (skip_space_le r2). destruct (skip_space r2) as [|c' r3]; [done|]. simpl in *.
    case_bool_decide; [simpl; lia|]. case_bool_decide; [|done].
    destruct (IH r3) as (_ & _ & H''). specialize (H'' ltac:(lia)).
    destruct (parse_members fuel r3); simpl in *; [lia|done..].
Qed.

(** The parser never stops for lack of fuel. *)
Lemma json_parse_fuel s : parse_value (json_fuel s) s ≠ OutOfFuel.
Proof.
  destruct (parse_enough (json_fuel s) s) as (H & _ & _).
  specialize (H ltac:(unfold json_fuel; lia)). by destruct (parse_value _ s).
Qed.

(** ** Round trips *)

(** Well-formed UTF-8. *)
Fixpoint utf8_fuel (fuel : nat) (s : string) : bool :=
  match fuel, s with
  | _, "" => true
  | O, _ => false
  | S fuel, String c s1 =>
      if byte_val c <? 128 then utf8_fuel fuel s1
      else let '(enc, r) := rune_value "" c s1 in
           negb (bool_decide (enc = "")) && utf8_fuel fuel r
  end.
Definition valid_utf8 (s : string) : bool := utf8_fuel (String.length s) s.

Lemma escape_ascii_back c :
  byte_val c < 128 →
  ∃ b s1, escape_ascii c = String b s1 ∧ b ≠ quote ∧
    ∀ t, unquote_char b (s1 +:+ t) = Some (String c "", t).
Proof.
  destruct c as [[] [] [] [] [] [] [] []]; intros H;
    first [by vm_compute in H
          |eexists _, _; split; [vm_compute; reflexivity|split; [by vm_compute|]];
           intros t; vm_compute; reflexivity].
Qed.

Lemma rune_value_ok c s1 enc r bad :
  rune_value "" c s1 = (enc, r) → enc ≠ "" →
  ∃ tl, enc = String c tl ∧ s1 = tl +:+ r ∧ ∀ t, rune_value bad c (tl +:+ t) = (enc, t).
Proof.
  unfold rune_value. destruct (utf8_class c) as [[[|[|[|[|]]]] [lo hi]]|]; try (intros; by simplify_eq).
  - destruct s1 as [|d s2]; [by intros [= <- <-]|].
    destruct (in_range lo hi d) eqn:E; intros [= <- <-] ?; [|done].
    exists (String d ""). split_and!; [done..|]. intros t. by rewrite app_cons_s, app_empty_s, E.
  - destruct s1 as [|d [|e s2]]; try by intros [= <- <-].
    destruct (in_range lo hi d && continuation e) eqn:E; intros [= <- <-] ?; [|done].
    exists (String d (String e "")). split_and!; [done..|].
    intros t. by rewrite !app_cons_s, app_empty_s, E.
  - destruct s1 as [|d [|e [|f s2]]]; try by intros [= <- <-].
    destruct (in_range lo hi d && continuation e && continuation f) eqn:E; intros [= <- <-] ?; [|done].
    exists (String d (String e (String f ""))). split_and!; [done..|].
    intros t. by rewrite !app_cons_s, app_empty_s, E.
Qed.

Lemma escape_back n s t :
  utf8_fuel n s = true → unquote (escape_fuel n s +:+ String quote t) = Some (s, t).
Proof.
  revert s. induction n as [|n IH]; intros [|c s1]; try done.
  cbn [utf8_fuel escape_fuel]. destruct (byte_val c <? 128) eqn:Hc.
  - intros H. apply Z.ltb_lt in Hc. destruct (escape_ascii_back c Hc) as (b & s' & -> & Hb & Hu).
    rewrite <- app_assoc_s, app_cons_s, unquote_cons, bool_decide_false by done.
    rewrite Hu. cbn [mbind option_bind fst snd]. by rewrite (IH s1).
  - destruct (rune_value "" c s1) as [enc r] eqn:E. intros [Hne H]%andb_true_iff.
    apply negb_true_iff in Hne. rewrite Hne. apply bool_decide_eq_false in Hne.
    destruct (rune_value_ok c s1 enc r replacement E Hne) as (tl & Henc & Hs1 & Hrv).
    rewrite Hs1, <- app_assoc_s.
    replace (String c (tl +:+ r)) with (enc +:+ r) by by rewrite Henc.
    set (k := escape_fuel n r +:+ String quote t).
    enough (unquote (escape_rune enc +:+ k) = prepend enc (unquote k)) as ->.
    { unfold k. rewrite (IH r) by done. done. }
    unfold escape_rune. clearbody k.
    case_bool_decide as E1; [by rewrite E1, app_cons_s, unquote_cons|].
    case_bool_decide as E2; [by rewrite E2, app_cons_s, unquote_cons|].
    assert (Hc' : ∀ d, byte_val d < 128 → c ≠ d).
    { intros d Hd ->. apply Z.ltb_ge in Hc. lia. }
    rewrite Henc at 1. rewrite app_cons_s, unquote_cons, bool_decide_false by by apply Hc'.
    unfold unquote_char. rewrite bool_decide_false by by apply Hc'.
    rewrite (proj2 (Z.ltb_ge (byte_val c) 32)) by (apply Z.ltb_ge in Hc; lia).
    by rewrite Hc, Hrv.
Qed.

Lemma skip_space_not d s : is_space d = false → skip_space (String d s) = String d s.
Proof. intros H. simpl. by rewrite H. Qed.

Lemma parse_Marshal_string s f t :
  valid_utf8 s = true → (1 ≤ f)%nat → parse_value f (Marshal_string s +:+ t) = Parsed (JString s) t.
Proof.
  intros Hs Hf. destruct f as [|f]; [lia|]. unfold Marshal_string. rewrite app_cons_s, <- app_assoc_s.
  cbn [parse_value]. rewrite skip_space_not by done. cbv iota.
  rewrite !bool_decide_false by done. unfold parse_scalar. rewrite bool_decide_true by done.
  rewrite app_cons_s, app_empty_s. unfold escape. by rewrite escape_back.
Qed.

(** The texts of the elements of a list start with a character that neither
    ends the list nor is blank. *)
Definition starts_value (s : string) : Prop :=
  ∃ d s', s = String d s' ∧ is_space d = false ∧ d ≠ "]"%char.


Lemma Join_cons_app p l sep : l ≠ [] → Join (p :: l) sep = p +:+ sep +:+ Join l sep.
Proof. by destruct l. Qed.

Section lists.
Context {A : Type} (ok : A → bool) (p : A → string) (j : A → json) (k : nat).
Hypothesis element : ∀ a f t, ok a = true → (k ≤ f)%nat → parse_value f (p a +:+ t) = Parsed (j a) t.
Hypothesis starts : ∀ a, starts_value (p a).

Lemma parse_elements_list l f t :
  l ≠ [] → forallb ok l = true → (k + length l ≤ f)%nat →
  parse_elements f (Join (map p l) "," +:+ "]" +:+ t) = Parsed (map j l) t.
Proof.
  revert f. induction l as [|a l IH]; intros f; [done|]. intros _ [Ha Hl]%andb_true_iff Hf.
  simpl in Hf. destruct f as [|f]; [lia|]. cbn [parse_elements map].
  destruct l as [|b l].
  - cbn [map Join]. rewrite element by (done || lia). done.
  - rewrite Join_cons_app by done. rewrite <- !app_assoc_s, element by (done || lia).
    rewrite !(app_cons_s ","), app_empty_s, skip_space_not by done. cbv iota.
    rewrite bool_decide_false, bool_decide_true by done.
    rewrite IH by (done || simpl in *; lia). done.
Qed.

Lemma parse_Marshal_list l f t :
  forallb ok l = true → (S (k + length l) ≤ f)%nat →
  parse_value f (Marshal_list p l +:+ t) = Parsed (JArray (map j l)) t.
Proof.
  intros Hl Hf. destruct f as [|f]; [lia|]. unfold Marshal_list.
  rewrite <- !app_assoc_s, app_cons_s, app_empty_s. cbn [parse_value].
  rewrite skip_space_not by done. cbv iota. rewrite bool_decide_true by done.
  destruct l as [|a l]; [done|].
  pose proof (parse_elements_list (a :: l) f t ltac:(done) Hl ltac:(lia)) as Hp.
  assert (starts_value (Join (map p (a :: l)) "," +:+ "]" +:+ t)) as (d & s' & Hd & Hsp & Hne).
  { destruct (starts a) as (d & s' & Hd & Hsp & Hne). cbn [map]. exists d.
    destruct l as [|b l]; [cbn [map Join]|rewrite (Join_cons_app _ (map p (b :: l))) by done];
      rewrite Hd, <- ?app_assoc_s, app_cons_s; eauto. }
  rewrite Hd in *. rewrite skip_space_not by done. cbv iota. rewrite bool_decide_false by done.
  by rewrite Hp.
Qed.
End lists.

Lemma length_Join l sep :
  Forall (λ s, s ≠ "") l → (length l ≤ String.length (Join l sep))%nat.
Proof.
  induction 1 as [|p l Hp Hl IH]; [simpl; lia|].
  assert (0 < String.length p)%nat by (destruct p; [done|simpl; lia]).
  destruct l as [|q l]; [simpl in *; lia|]. rewrite Join_cons_app by done.
  rewrite !length_app_s. simpl in *. lia.
Qed.

Lemma json_parse_list {A} (ok : A → bool) (p : A → string) (j : A → json) k l :
  (∀ a f t, ok a = true → (k ≤ f)%nat → parse_value f (p a +:+ t) = Parsed (j a) t) →
  (∀ a, starts_value (p a)) → (k ≤ 4)%nat → forallb ok l = true →
  json_parse (Marshal_list p l) = Ok (JArray (map j l)).
Proof.
  intros Hel Hst Hk Hl. unfold json_parse. rewrite <- (app_nil_s (Marshal_list p l)) at 2.
  rewrite (parse_Marshal_list ok p j k); [done..|]. unfold json_fuel, Marshal_list.
  rewrite !length_app_s. pose proof (length_Join (map p l) ",") as H.
  rewrite List.length_map in H. simpl. enough (length l ≤ String.length (Join (map p l) ","))%nat by lia.
  apply H, Forall_map, Forall_forall. intros a _. simpl.
  by destruct (Hst a) as (? & ? & -> & _).
Qed.

Lemma mapM_to_string l : mapM to_string (map JString l) = Ok l.
Proof. induction l as [|s l IH]; [done|]. simpl. by rewrite IH. Qed.

(** What [json.Marshal] writes for a list of strings, [json.Unmarshal] reads. *)
Lemma Unmarshal_Marshal_strings l :
  forallb valid_utf8 l = true → Unmarshal_strings (Marshal_strings l) = Ok l.
Proof.
  intros Hl. unfold Unmarshal_strings, Marshal_strings.
  rewrite (json_parse_list valid_utf8 _ JString 1); [|..|lia|done].
  - simpl. apply mapM_to_string.
  - intros a f t. apply parse_Marshal_string.
  - intros a. eexists _, _. split; [done|]. done.
Qed.

(** *** Structs of strings *)

Definition json_field (kv : string * string) : string * json := (kv.1, JString kv.2).
Definition valid_fields (fields : list (string * string)) : bool :=
  negb (bool_decide (fields = [])) &&
  forallb (λ kv, valid_utf8 kv.1 && valid_utf8 kv.2) fields.

Lemma unquote_Marshal k t :
  valid_utf8 k = true → unquote (escape k +:+ String quote t) = Some (k, t).
Proof. apply escape_back. Qed.

Lemma parse_members_fields fields f t :
  fields ≠ [] → forallb (λ kv, valid_utf8 kv.1 && valid_utf8 kv.2) fields = true →
  (S (length fields) ≤ f)%nat →
  parse_members f (Join (map (λ kv, Marshal_string kv.1 +:+ ":" +:+ Marshal_string kv.2) fields) ","
                   +:+ "}" +:+ t) = Parsed (map json_field fields) t.
Proof.
  revert f. induction fields as [|[k v] l IH]; intros f; [done|].
  intros _ [[Hk Hv]%andb_true_iff Hl]%andb_true_iff Hf. simpl in Hk, Hv, Hf.
  destruct f as [|f]; [lia|]. cbn [parse_members map].
  assert (Hone : ∀ rest, match skip_space ((Marshal_string k +:+ ":" +:+ Marshal_string v) +:+ rest) with
    | String q s1 => q = quote ∧ unquote s1 = Some (k, ":" +:+ Marshal_string v +:+ rest)
    | "" => False end).
  { intros rest. unfold Marshal_string at 1. rewrite !app_cons_s, skip_space_not by done.
    split; [done|]. rewrite <- !app_assoc_s, app_cons_s, app_empty_s. by apply unquote_Marshal. }
  set (rest := match l with
               | [] => "}" +:+ t
               | _ => "," +:+ Join (map (λ kv, Marshal_string kv.1 +:+ ":" +:+ Marshal_string kv.2) l) ","
                      +:+ "}" +:+ t
               end).
  replace (Join _ _ +:+ "}" +:+ t) with ((Marshal_string k +:+ ":" +:+ Marshal_string v) +:+ rest).
  2: { unfold rest. destruct l as [|b l]; [done|]. cbn [map fst snd].
       rewrite (Join_cons_app _ (_ :: _)) by done. by rewrite <- !app_assoc_s. }
  specialize (Hone rest). destruct (skip_space _) as [|q s1]; [done|]. destruct Hone as [-> Hq].
  rewrite bool_decide_true by done. rewrite Hq, app_cons_s, app_empty_s, skip_space_not by done.
  cbv iota. rewrite bool_decide_true by done. rewrite parse_Marshal_string by (done || lia).
  unfold rest. destruct l as [|b l].
  - rewrite app_cons_s, skip_space_not by done. cbv iota. by rewrite bool_decide_true.
  - rewrite app_cons_s, app_empty_s, skip_space_not by done. cbv iota.
    rewrite bool_decide_false, bool_decide_true by done.
    rewrite IH by (done || simpl in *; lia). done.
Qed.

Lemma parse_Marshal_struct fields f t :
  valid_fields fields = true → (S (S (length fields)) ≤ f)%nat →
  parse_value f (Marshal_struct fields +:+ t) = Parsed (JObject (map json_field fields)) t.
Proof.
  intros [Hne Hv]%andb_true_iff Hf. apply negb_true_iff, bool_decide_eq_false in Hne.
  destruct f as [|f]; [lia|]. unfold Marshal_struct.
  rewrite <- !app_assoc_s, app_cons_s, app_empty_s. cbn [parse_value].
  rewrite skip_space_not by done. cbv iota. rewrite bool_decide_false, bool_decide_true by done.
  pose proof (parse_members_fields fields f t Hne Hv ltac:(lia)) as Hp.
  assert (∃ s', Join (map (λ kv, Marshal_string kv.1 +:+ ":" +:+ Marshal_string kv.2) fields) ","
                +:+ "}" +:+ t = String quote s') as [s' Hs'].
  { destruct fields as [|a l]; [done|]. cbn [map].
    destruct l as [|b l]; [cbn [map Join]|rewrite (Join_cons_app _ (map _ (b :: l))) by done];
      unfold Marshal_string at 1; rewrite <- ?app_assoc_s, !app_cons_s; eauto. }
  rewrite Hs' in *. rewrite skip_space_not by done. cbv iota. rewrite bool_decide_false by done.
  by rewrite Hp.
Qed.

(** The map that a struct becomes. *)
Definition fields_map (fields : list (string * string)) : gmap string string :=
  foldl (λ m kv, <[kv.1 := kv.2]> m) ∅ fields.

Lemma to_map_fields fields : to_map (JObject (map json_field fields)) = Ok (fields_map fields).
Proof.
  unfold to_map, fields_map. generalize (∅ : gmap string string).
  induction fields as [|[k v] l IH]; intros m; [done|]. simpl. apply IH.
Qed.

(** A list of structs of at most two strings, as JSON. *)
Lemma json_parse_structs {A} (fields : A → list (string * string)) l :
  (∀ a, length (fields a) ≤ 2)%nat →
  forallb (λ a, valid_fields (fields a)) l = true →
  json_parse (Marshal_list (λ a, Marshal_struct (fields a)) l) =
    Ok (JArray (map (λ a, JObject (map json_field (fields a))) l)).
Proof.
  intros Hlen Hl. apply (json_parse_list (λ a, valid_fields (fields a)) _ _ 4); [|..|lia|done].
  - intros a f t Ha Hf. apply parse_Marshal_struct; [done|]. specialize (Hlen a). lia.
  - intros a. eexists _, _. split; [done|]. done.
Qed.

(** Such a list is read as the list of the structs' maps. *)
Lemma Unmarshal_Marshal_structs {A} (fields : A → list (string * string)) l :
  (∀ a, length (fields a) ≤ 2)%nat →
  forallb (λ a, valid_fields (fields a)) l = true →
  Unmarshal_maps (Marshal_list (λ a, Marshal_struct (fields a)) l) =
    Ok (map (λ a, fields_map (fields a)) l).
Proof.
  intros Hlen Hl. unfold Unmarshal_maps. rewrite json_parse_structs by done.
  simpl. clear Hl. induction l as [|a l IH]; [done|]. cbn [map mapM].
  rewrite to_map_fields. simpl. by rewrite IH.
Qed.
