(* ===== verification/JsonDecode.v ===== *)
(** * encoding/json: streams, structs by the names of their fields, and texts

    [json.Decoder] on the body of a response, the matching of members to fields, and the fact
    that every text that is decoded is well-formed UTF-8, whatever was sent. *)

From S2P Require Import Prelude GoStrings GoCodec GoJSON.
#[local] Open Scope Z_scope.
#[export] Set Default Goal Selector "!".

(** ** Decoding from a stream *)

(** What is read of a stream: its bytes, and the error that ends it when it is not its end. *)
Record Body := mkBody { data : string; read_error : option error }.
Definition ReadAll (b : Body) : result string :=
  match read_error b with Some err => Err err | None => Ok (data b) end.

(** [Decoder.Decode], into a [json]: the first value. Only the end of an object or an array is
    known without reading on. *)
Definition ends_itself (j : json) : bool := match j with JArray _ | JObject _ => true | _ => false end.
Definition Decode (b : Body) : result json :=
  match parse_value (json_fuel (data b)) (data b), read_error b with
  | Parsed v _, None => Ok v
  | Parsed v _, Some err => if ends_itself v then Ok v else Err err
  | _, Some err => Err err
  | _, None => Err (StdError (if bool_decide (skip_space (data b) = "") then "EOF" else "unexpected end or character"))
  end.

(** The names of fields are matched up to the case of letters, the long s and the kelvin sign
    included. *)
Definition lower_char (c : ascii) : ascii :=
  if (65 <=? byte_val c) && (byte_val c <=? 90) then ascii_of_N (N_of_ascii c + 32) else c.
Fixpoint fold_key (s : string) : string :=
  match s with
  | "" => ""
  | String c s1 =>
      match s1 with
      | String d s2 =>
          if bool_decide (byte_val c = 197 ∧ byte_val d = 191) then String "s" (fold_key s2)
          else match s2 with
               | String e s3 =>
                   if bool_decide (byte_val c = 226 ∧ byte_val d = 132 ∧ byte_val e = 170) then String "k" (fold_key s3)
                   else String (lower_char c) (fold_key s1)
               | "" => String (lower_char c) (fold_key s1)
               end
      | "" => String (lower_char c) ""
      end
  end.
Definition field_is (name key : string) : bool := bool_decide (fold_key key = name).

(** A struct, from the members of an object; null leaves the zero value. *)
Definition to_struct {T} (zero : T) (member : T → string * json → result T) (j : json) : result T :=
  match j with
  | JNull => Ok zero
  | JObject l => fold_result member zero l
  | _ => Err mismatch
  end.
(** A string member: null leaves what was there. *)
Definition to_field (before : string) (j : json) : result string :=
  match j with JString s => Ok s | JNull => Ok before | _ => Err mismatch end.

Example fold_key_ex : fold_key ("EtcdCluster" +:+ chs [197; 191; 226; 132; 170]%nat) = "etcdclustersk".
Proof. vm_compute. reflexivity. Qed.

(** ** Texts *)

Lemma utf8_fuel_mono n m s : (n ≤ m)%nat → utf8_fuel n s = true → utf8_fuel m s = true.
Proof.
  revert m s. induction n as [|n IH]; intros m [|c s1] Hm; [by destruct m|done|by destruct m|].
  destruct m as [|m]; [lia|]. cbn [utf8_fuel]. destruct (byte_val c <? 128); [apply IH; lia|].
  destruct (rune_value "" c s1) as [enc r]. rewrite !andb_true_iff. intros [? ?]. split; [done|]. apply IH; [lia|done].
Qed.
Lemma utf8_fuel_length n s : utf8_fuel n s = true → valid_utf8 s = true.
Proof.
  unfold valid_utf8. revert s. induction n as [|n IH]; intros [|c s1]; [done..|].
  cbn [utf8_fuel String.length]. destruct (byte_val c <? 128); [apply IH|].
  pose proof (rune_value_le "" c s1) as Hl. destruct (rune_value "" c s1) as [enc r]. rewrite !andb_true_iff.
  intros [? H%IH]. split; [done|]. by eapply utf8_fuel_mono.
Qed.

(** A text that may be put before any other. *)
Definition piece (p : string) : Prop := ∀ t, valid_utf8 t = true → valid_utf8 (p +:+ t) = true.

Lemma piece_ascii c : byte_val c < 128 → piece (String c "").
Proof.
  intros Hc t Ht. apply (utf8_fuel_length (S (String.length t))). rewrite app_cons_s, app_empty_s. cbn [utf8_fuel].
  by rewrite (proj2 (Z.ltb_lt _ _) Hc).
Qed.
Lemma piece_rune c tl : 128 ≤ byte_val c → (∀ t, rune_value "" c (tl +:+ t) = (String c tl, t)) → piece (String c tl).
Proof.
  intros Hc Hr t Ht. apply (utf8_fuel_length (S (String.length t))). rewrite app_cons_s. cbn [utf8_fuel].
  by rewrite (proj2 (Z.ltb_ge _ _) Hc), Hr.
Qed.
Lemma piece_enc bad c s1 enc r : 128 ≤ byte_val c → piece bad → rune_value bad c s1 = (enc, r) → piece enc.
Proof.
  intros Hc Hb E. assert (Hd : enc = bad ∨ rune_value "" c s1 = (enc, r) ∧ enc ≠ "").
  { unfold rune_value in *. repeat case_match; simplify_eq; auto. }
  destruct Hd as [->|[Hr Hne]]; [done|]. destruct (rune_value_ok c s1 enc r "" Hr Hne) as (tl & -> & _ & Ht).
  by apply piece_rune.
Qed.

Lemma byte_val_chr z : 0 ≤ z < 256 → byte_val (byte_chr z) = z.
Proof.
  intros Hz. unfold byte_val, byte_chr. rewrite N_ascii_embedding; rewrite Z.mod_small by lia; lia.
Qed.
Lemma in_range_chr lo hi z : 0 ≤ z < 256 → lo ≤ z ≤ hi → in_range lo hi (byte_chr z) = true.
Proof. intros Hz Hr. unfold in_range. rewrite byte_val_chr by done. apply andb_true_iff. lia. Qed.

Lemma utf8_class_chr z : 0 ≤ z < 256 → utf8_class (byte_chr z) =
  if (194 <=? z) && (z <=? 223) then Some (1%nat, (128, 191))
  else if z =? 224 then Some (2%nat, (160, 191))
  else if z =? 237 then Some (2%nat, (128, 159))
  else if (225 <=? z) && (z <=? 239) then Some (2%nat, (128, 191))
  else if z =? 240 then Some (3%nat, (144, 191))
  else if z =? 244 then Some (3%nat, (128, 143))
  else if (241 <=? z) && (z <=? 243) then Some (3%nat, (128, 191))
  else None.
Proof. intros Hz. unfold utf8_class. by rewrite byte_val_chr. Qed.

Lemma class_two z : 224 ≤ z ≤ 239 → utf8_class (byte_chr z) = Some (2%nat,
  (if bool_decide (z = 224) then 160 else 128, if bool_decide (z = 237) then 159 else 191)).
Proof.
  intros Hz. rewrite utf8_class_chr by lia.
  destruct (Z.leb_spec 194 z), (Z.leb_spec z 223), (Z.eqb_spec z 224), (Z.eqb_spec z 237), (Z.leb_spec 225 z), (Z.leb_spec z 239);
    simpl; try lia; repeat case_bool_decide; try lia; done.
Qed.
Lemma class_three z : 240 ≤ z ≤ 244 → utf8_class (byte_chr z) = Some (3%nat,
  (if bool_decide (z = 240) then 144 else 128, if bool_decide (z = 244) then 143 else 191)).
Proof.
  intros Hz. rewrite utf8_class_chr by lia.
  destruct (Z.leb_spec 194 z), (Z.leb_spec z 223), (Z.eqb_spec z 224), (Z.eqb_spec z 237), (Z.leb_spec 225 z), (Z.leb_spec z 239),
    (Z.eqb_spec z 240), (Z.eqb_spec z 244), (Z.leb_spec 241 z), (Z.leb_spec z 243);
    simpl; try lia; repeat case_bool_decide; try lia; done.
Qed.

(** The encodings of runes. *)
Lemma piece_encode r : 0 ≤ r < 1114112 → surrogate r = false → piece (utf8_encode r).
Proof.
  intros Hr Hs. unfold utf8_encode. destruct (Z.ltb_spec r 128).
  { apply piece_ascii. rewrite byte_val_chr; lia. }
  assert (Hsur : r < 55296 ∨ 57344 ≤ r).
  { unfold surrogate in Hs. apply andb_false_iff in Hs. rewrite Z.leb_gt, Z.ltb_ge in Hs. lia. }
  destruct (Z.ltb_spec r 2048); [|destruct (Z.ltb_spec r 65536)];
    (apply piece_rune; [rewrite byte_val_chr; Z.to_euclidean_division_equations; lia|]); intros t; unfold rune_value; cbn [string_of].
  - rewrite utf8_class_chr by (Z.to_euclidean_division_equations; lia).
    rewrite (proj2 (andb_true_iff _ _)) by (rewrite !Z.leb_le; Z.to_euclidean_division_equations; lia).
    rewrite app_cons_s, app_empty_s, in_range_chr; [done|Z.to_euclidean_division_equations; lia..].
  - assert (Hq : 0 ≤ r / 4096 ≤ 15 ∧ 0 ≤ r / 64 mod 64 < 64 ∧ 0 ≤ r mod 64 < 64 ∧
      (r / 4096 = 0 → 32 ≤ r / 64 mod 64) ∧ (r / 4096 = 13 → r / 64 mod 64 < 32))
      by (Z.to_euclidean_division_equations; lia).
    rewrite class_two by lia. rewrite !app_cons_s, app_empty_s. unfold continuation.
    rewrite !in_range_chr; [done|lia|lia|lia|]. repeat case_bool_decide; lia.
  - assert (Hq : 0 ≤ r / 262144 ≤ 4 ∧ 0 ≤ r / 4096 mod 64 < 64 ∧ 0 ≤ r / 64 mod 64 < 64 ∧ 0 ≤ r mod 64 < 64 ∧
      (r / 262144 = 0 → 16 ≤ r / 4096 mod 64) ∧ (r / 262144 = 4 → r / 4096 mod 64 < 16))
      by (Z.to_euclidean_division_equations; lia).
    rewrite class_three by lia. rewrite !app_cons_s, app_empty_s. unfold continuation.
    rewrite !in_range_chr; [done|lia|lia|lia|lia|lia|]. repeat case_bool_decide; lia.
Qed.
Lemma piece_replacement : piece replacement.
Proof. apply piece_encode; [lia|done]. Qed.

Lemma hex_digit_bounds c v : hex_value c = Some v → 0 ≤ v < 16.
Proof. unfold hex_value. repeat case_match; intros [= <-]; rewrite ?andb_true_iff, ?Z.leb_le in *; lia. Qed.
Lemma hex4_range a b c d r : hex4 a b c d = Some r → 0 ≤ r < 65536.
Proof.
  unfold hex4. destruct (hex_value a) as [va|] eqn:Ea; [|done]. destruct (hex_value b) as [vb|] eqn:Eb; [|done].
  destruct (hex_value c) as [vc|] eqn:Ec; [|done]. destruct (hex_value d) as [vd|] eqn:Ed; [|done].
  apply hex_digit_bounds in Ea, Eb, Ec, Ed. intros [= <-]. lia.
Qed.

Lemma simple_escape_ascii e c : simple_escape e = Some c → byte_val c < 128.
Proof.
  destruct e as [[] [] [] [] [] [] [] []]; vm_compute; intros E; first [discriminate E|injection E as <-; reflexivity].
Qed.
Lemma escape_value_piece s1 p r : escape_value s1 = Some (p, r) → piece p.
Proof.
  unfold escape_value. destruct s1 as [|e s2]; [done|].
  destruct (simple_escape e) as [c|] eqn:Ee; [intros [= <- _]; by apply piece_ascii, (simple_escape_ascii e)|].
  case_bool_decide; [|done]. destruct s2 as [|a1 [|a2 [|a3 [|a4 s3]]]]; try done.
  destruct (hex4 a1 a2 a3 a4) as [x|] eqn:Ex; [|done]. apply hex4_range in Ex. cbn [mbind option_bind].
  destruct (surrogate x) eqn:Hx; [|intros [= <- _]; apply piece_encode; [lia|done]].
  assert (Hrep : Some (replacement, s3) = Some (p, r) → piece p) by (intros [= <- _]; apply piece_replacement).
  destruct s3 as [|b [|u [|b1 [|b2 [|b3 [|b4 s4]]]]]]; try exact Hrep.
  destruct ((if bool_decide _ then _ else _) ≫= _) as [y|] eqn:Ey; [|exact Hrep]. intros [= <- _].
  assert (Hy : 65536 ≤ y < 1114112).
  { destruct (if bool_decide _ then _ else _) as [r2|]; [|done]. simpl in Ey. unfold utf16_pair in Ey.
    case_match eqn:Ec; [|done]. rewrite !andb_true_iff, !Z.leb_le, !Z.ltb_lt in Ec. injection Ey as <-. lia. }
  apply piece_encode; [lia|]. unfold surrogate. apply andb_false_iff. right. apply Z.ltb_ge. lia.
Qed.

Lemma unquote_char_piece c s1 p r : unquote_char c s1 = Some (p, r) → piece p.
Proof.
  unfold unquote_char. case_bool_decide; [apply escape_value_piece|].
  destruct (byte_val c <? 32); [done|]. destruct (Z.ltb_spec (byte_val c) 128).
  - intros [= <- _]. by apply piece_ascii.
  - destruct (rune_value replacement c s1) as [enc r'] eqn:E. intros [= <- _].
    eapply (piece_enc replacement); [done|apply piece_replacement|exact E].
Qed.
Lemma unquote_fuel_valid n : ∀ s v r, unquote_fuel n s = Some (v, r) → valid_utf8 v = true.
Proof.
  induction n as [|n IH]; intros [|c s1] v r; try done. cbn [unquote_fuel]. case_bool_decide; [by intros [= <- _]|].
  destruct (unquote_char c s1) as [[p s2]|] eqn:E; [|done]. apply unquote_char_piece in E. cbn [mbind option_bind fst snd].
  destruct (unquote_fuel n s2) as [[v' r']|] eqn:E2; simpl; [|done]. intros [= <- _]. apply E. by eapply IH.
Qed.

(** All texts of a value, keys included. *)
Fixpoint json_texts (j : json) : bool :=
  match j with
  | JString s => valid_utf8 s
  | JArray l => forallb json_texts l
  | JObject l => forallb (λ kv, valid_utf8 kv.1 && json_texts kv.2) l
  | _ => true
  end.

Lemma parse_scalar_texts s v r : parse_scalar s = Parsed v r → json_texts v = true.
Proof.
  unfold parse_scalar. destruct s as [|c s1]; [done|].
  case_bool_decide.
  { destruct (unquote s1) as [[u r']|] eqn:E; [|done]. intros [= <- _]. by apply unquote_fuel_valid in E. }
  repeat case_match; intros; by simplify_eq.
Qed.

Lemma parse_texts fuel : ∀ s,
  (∀ v r, parse_value fuel s = Parsed v r → json_texts v = true) ∧
  (∀ l r, parse_elements fuel s = Parsed l r → forallb json_texts l = true) ∧
  (∀ l r, parse_members fuel s = Parsed l r → forallb (λ kv, valid_utf8 kv.1 && json_texts kv.2) l = true).
Proof.
  induction fuel as [|fuel IH]; intros s; [by split_and!|].
  split_and!; intros x r0; cbn [parse_value parse_elements parse_members].
  - destruct (skip_space s) as [|c s1]; [done|]. case_bool_decide; [|case_bool_decide; [|apply parse_scalar_texts]].
    + destruct (skip_space s1) as [|d s2]; [done|]. case_bool_decide; [by intros [= <- _]|].
      destruct (parse_elements fuel s1) as [l r| |] eqn:E; [|done..]. intros [= <- _]. by eapply IH.
    + destruct (skip_space s1) as [|d s2]; [done|]. case_bool_decide; [by intros [= <- _]|].
      destruct (parse_members fuel s1) as [l r| |] eqn:E; [|done..]. intros [= <- _]. by eapply IH.
  - destruct (parse_value fuel s) as [v r| |] eqn:E; [|done..]. apply IH in E.
    destruct (skip_space r) as [|c r1]; [done|]. case_bool_decide; [intros [= <- _]; simpl; by rewrite E|].
    case_bool_decide; [|done]. destruct (parse_elements fuel r1) as [l r2| |] eqn:E2; [|done..]. apply IH in E2.
    intros [= <- _]. simpl. by rewrite E.
  - destruct (skip_space s) as [|q s1]; [done|]. case_bool_decide; [|done].
    destruct (unquote s1) as [[k r]|] eqn:E; [|done]. apply unquote_fuel_valid in E.
    destruct (skip_space r) as [|c r1]; [done|]. case_bool_decide; [|done].
    destruct (parse_value fuel r1) as [v r2| |] eqn:Ev; [|done..]. apply IH in Ev.
    destruct (skip_space r2) as [|c' r3]; [done|]. case_bool_decide; [intros [= <- _]; simpl; by rewrite E, Ev|].
    case_bool_decide; [|done]. destruct (parse_members fuel r3) as [l r4| |] eqn:E3; [|done..]. apply IH in E3.
    intros [= <- _]. simpl. by rewrite E, Ev.
Qed.

(** Whatever was sent, the texts decoded are well-formed. *)
Lemma Decode_texts b v : Decode b = Ok v → json_texts v = true.
Proof.
  unfold Decode. destruct (parse_value _ _) as [u r| |] eqn:E; [|by destruct (read_error b)..].
  apply parse_texts in E. destruct (read_error b); [destruct (ends_itself u)|]; intros; by simplify_eq.
Qed.
Lemma json_parse_texts s v : json_parse s = Ok v → json_texts v = true.
Proof.
  unfold json_parse. destruct (parse_value _ _) as [u r| |] eqn:E; [|done..].
  apply parse_texts in E. case_bool_decide; intros; by simplify_eq.
Qed.
