(* ===== verification/CertUtil.v ===== *)
(** * Keys and certificates as files: wraputil, certutil, csrutil

    [src/platform/util/wraputil], [src/platform/util/certutil] and
    [src/platform/util/csrutil], over the packages of [GoCrypto]. *)

From S2P Require Import Prelude GoStrings GoOS GoCodec GoCrypto.
#[export] Set Default Goal Selector "!".

Definition quote_s : string := String (ascii_of_nat 34) "".

(** ** wraputil/pem.go *)

Section pem.
Context `{Crypto}.

Definition LoadSinglePEMBlock (data : string) (expected_types : list string) : result string :=
  if negb (HasPrefix data "-----BEGIN ") then Err (ErrorString "Missing expected PEM header")
  else
    match pem_Decode data with
    | None => Err (ErrorString "Could not parse PEM data")
    | Some (pemBlock, remain) =>
        if negb (existsb (λ expected_type, bool_decide (pem_Type pemBlock = expected_type)) expected_types)
        then Err (ErrorString ("Found PEM block of type " +:+ quote_s +:+ pem_Type pemBlock +:+ quote_s +:+
                               " instead of types [" +:+ Join expected_types " " +:+ "]"))
        else if bool_decide (0 < len remain)
        then Err (ErrorString "Trailing data found after PEM data")
        else Ok (pem_Bytes pemBlock)
    end.

Definition IsPEMBlock (data : string) : bool :=
  if HasPrefix data "-----BEGIN " then
    match pem_Decode data with
    | Some (_, remain) => bool_decide (len remain = 0)
    | None => false
    end
  else false.

Definition LoadX509CertFromPEM (certdata : string) : result Certificate :=
  certblock ← LoadSinglePEMBlock certdata ["CERTIFICATE"];
  x509_ParseCertificate certblock.

Definition LoadX509CSRFromPEM (certdata : string) : result CertificateRequest :=
  pemBlock ← LoadSinglePEMBlock certdata ["CERTIFICATE REQUEST"];
  x509_ParseCertificateRequest pemBlock.

Definition LoadRSAKeyFromPEM (keydata : string) : result rsa_PrivateKey :=
  keyblock ← LoadSinglePEMBlock keydata ["RSA PRIVATE KEY"; "PRIVATE KEY"];
  match ParsePKCS1PrivateKey keyblock with
  | Ok privkey => Ok privkey
  | Err _ =>
      match ParsePKCS8PrivateKey keyblock with
      | Ok (Some privkey) => Ok privkey
      | Ok None => Err (ErrorString "non-RSA private key found in PKCS#8 block")
      | Err _ => Err (ErrorString "could not load PEM private key as PKCS#1 or PKCS#8")
      end
  end.

(** *** wraputil/ssh.go *)
Definition ParseSSHTextPubkey (content : string) : result ssh_PublicKey :=
  '(pubkey, rest) ← ssh_ParseAuthorizedKey content;
  if bool_decide (0 < len rest) then Err (ErrorString "extraneous trailing data after end of pubkey")
  else if bool_decide (0 < Count (Trim content newline) newline)
  then Err (ErrorString "extraneous leading data before pubkey")
  else Ok pubkey.
End pem.

(** A [tls.Certificate]: the chain, and the key. *)
Abbreviation tls_Certificate := (list string * rsa_PrivateKey)%type.

(** ** wraputil/file.go *)

Section files.
Context `{Crypto} {X : Type}.
Abbreviation MW := (M (World X)).

Definition LoadRSAKeyFromPath (path : string) : MW (result rsa_PrivateKey) :=
  cert ←? ReadFile path; mret (LoadRSAKeyFromPEM cert).
Definition LoadX509FromPath (path : string) : MW (result Certificate) :=
  cert ←? ReadFile path; mret (LoadX509CertFromPEM cert).

(** [tls.LoadX509KeyPair] *)
Definition tls_LoadX509KeyPair (certFile keyFile : string) : MW (result tls_Certificate) :=
  certPEMBlock ←? ReadFile certFile;
  keyPEMBlock ←? ReadFile keyFile;
  mret (tls_X509KeyPair certPEMBlock keyPEMBlock).
End files.

(** ** certutil *)

(** [email.go] *)
Definition OIDEmailAddress : list Z := [1; 2; 840; 113549; 1; 9; 1].
Fixpoint equal_from (a b : list Z) : bool :=
  match a, b with
  | [], _ => true
  | av :: a, bv :: b => if bool_decide (av ≠ bv) then false else equal_from a b
  | _ :: _, [] => false        (* not reached: the lengths are equal *)
  end.
Definition IsOIDEqual (a b : list Z) : bool :=
  if bool_decide (length a ≠ length b) then false else equal_from a b.

(** Conversions between 64-bit integers. *)
Definition uint64 (z : Z) : Z := z mod 18446744073709551616.
Definition int64 (z : Z) : Z :=
  let u := uint64 z in if u <? 9223372036854775808 then u else u - 18446744073709551616.
(** [time.Unix(s, 0)] and [Time.Unix]. *)
Definition Second : Z := 1000000000.
Definition time_Unix (s : Z) : Z := s * Second.
Definition Unix (t : Z) : Z := t / Second.

Section certutil.
Context `{Crypto}.

(** [expiration.go] *)
Definition CheckSSHCertExpiration (key : string) : result Z :=
  pubkey ← ParseSSHTextPubkey key;
  match pubkey with
  | SSHCertificate _ cert => Ok (time_Unix (int64 (ssh_ValidBefore cert)))
  | SSHKey _ _ => Err (ErrorString "found public key instead of certificate when checking expiration")
  end.

Definition CheckTLSCertExpiration (certdata : string) : result Z :=
  cert ← LoadX509CertFromPEM certdata; Ok (NotAfter cert).

Context {X : Type}.
Abbreviation MW := (M (World X)).

(** [privkey.go] *)
Definition GenerateRSA (bits : Z) : MW (result (rsa_PrivateKey * string)) :=
  r ← rand_chunk;
  mret (privkey ← rsa_GenerateKey r bits;
        Ok (privkey, pem_EncodeToMemory (mkPemBlock "RSA PRIVATE KEY" (MarshalPKCS1PrivateKey privkey)))).

(** [rand.Int(rand.Reader, 2^k)]: the bytes read, without the bits above. *)
Definition rand_Int_pow2 (k : Z) : MW (result Z) :=
  s ←? rand_Read (Z.to_nat ((k + 7) / 8));
  ok (foldl (λ acc b, acc * 256 + b) 0 (bytes_of s) mod 2 ^ k).

Definition with_serial (t : Certificate) (n : Z) : Certificate :=
  mkCert (Raw t) (PublicKeyAlgorithm_RSA t) (PublicKey t) n (Subject t) (NotBefore t) (NotAfter t)
    (KeyUsage t) (ExtKeyUsages t) (BasicConstraintsValid t) (IsCA t) (MaxPathLen t)
    (MaxPathLenZero t) (DNSNames t) (IPAddresses t) true.

(** [sign.go] *)
Definition FinishCertificate (template parent : Certificate) (pubkey : crypto_PublicKey)
    (signer : rsa_PrivateKey) : MW (result string) :=
  n ←? rand_Int_pow2 159;
  let template := with_serial template n in
  r ← rand_chunk;
  mret (signed_cert ← x509_CreateCertificate r template parent pubkey signer;
        Ok (pem_EncodeToMemory (mkPemBlock "CERTIFICATE" signed_cert))).

(** ** csrutil/csr.go *)
Definition BuildSSHCSR (key : string) : result string :=
  match ssh_ParsePrivateKey key with
  | Ok privkey => Ok (ssh_MarshalAuthorizedKey (signer_PublicKey privkey))
  | Err err =>
      match ParseSSHTextPubkey key with
      | Ok pubkey =>
          if Contains (ssh_Type pubkey) "cert"
          then Err (ErrorString ("Expected SSH pubkey file to not have certificate type " +:+ ssh_Type pubkey))
          else Ok (ssh_MarshalAuthorizedKey pubkey)
      | Err err2 =>
          Err (ErrorString ("could not parse key as pubkey or privkey: " +:+ Error err +:+
                            " (as privkey) / " +:+ Error err2 +:+ " (as pubkey)"))
      end
  end.

Definition BuildTLSCSR (privkey : string) : MW (result string) :=
  match LoadRSAKeyFromPEM privkey with
  | Err err => fail err
  | Ok key =>
      let template := mkCSR "" "invalid-cn-temporary-request" (RSAPublicKey (rsa_N key)) in
      r ← rand_chunk;
      mret (der ← x509_CreateCertificateRequest r template key;
            Ok (pem_EncodeToMemory (mkPemBlock "CERTIFICATE REQUEST" der)))
  end.
End certutil.

(** ** Facts *)

Section facts.
Context `{Crypto}.

(** A single PEM block as the program writes them is loaded as such. *)
Lemma LoadSinglePEMBlock_encoded t bytes types :
  pem_label t = true → t ∈ types →
  LoadSinglePEMBlock (pem_EncodeToMemory (mkPemBlock t bytes)) types = Ok bytes.
Proof.
  intros Ht Hin. unfold LoadSinglePEMBlock. rewrite pem_header, pem_roundtrip by done. cbn [negb].
  replace (existsb _ types) with true; [done|]. symmetry. apply existsb_exists.
  exists t. split; [by apply list_elem_of_In|]. by apply bool_decide_eq_true.
Qed.

(** What a successful load says about the data. *)
Lemma LoadSinglePEMBlock_inv data types bytes :
  LoadSinglePEMBlock data types = Ok bytes →
  HasPrefix data "-----BEGIN " = true ∧
  ∃ t, pem_Decode data = Some (mkPemBlock t bytes, "") ∧ t ∈ types.
Proof.
  unfold LoadSinglePEMBlock. destruct (HasPrefix data _) eqn:Hp; [|done]. cbn [negb].
  destruct (pem_Decode data) as [[[t b] rest]|]; [|done]. cbn [pem_Type pem_Bytes].
  destruct (existsb _ types) eqn:He; [|done]. cbn [negb].
  case_bool_decide as Hr; [done|]. intros [= <-]. split; [done|]. exists t.
  assert (rest = "") as -> by (destruct rest; [done|]; unfold len in Hr; simpl in Hr; lia).
  split; [done|]. apply existsb_exists in He as (x & Hx%list_elem_of_In & E%bool_decide_eq_true).
  congruence.
Qed.

(** A generated key is loaded from its PEM text. *)
Lemma load_generated_key r bits k :
  rsa_GenerateKey r bits = Ok k →
  LoadRSAKeyFromPEM (pem_EncodeToMemory (mkPemBlock "RSA PRIVATE KEY" (MarshalPKCS1PrivateKey k))) = Ok k.
Proof.
  intros Hk. unfold LoadRSAKeyFromPEM. rewrite LoadSinglePEMBlock_encoded; [|done|set_solver].
  simpl. by rewrite (rsa_roundtrip _ _ _ Hk).
Qed.

(** [IsOIDEqual] decides equality. *)
Lemma equal_from_eq a b : length a = length b → equal_from a b = bool_decide (a = b).
Proof.
  revert b. induction a as [|x a IH]; intros [|y b]; try done. simpl. intros [= Hl].
  case_bool_decide.
  - symmetry. apply bool_decide_eq_false. congruence.
  - rewrite IH by done. apply bool_decide_ext. naive_solver.
Qed.

Context {X : Type}.

Lemma GenerateRSA_text bits k (w w' : World X) :
  GenerateRSA bits w = (Return (Ok k), w') →
  LoadRSAKeyFromPEM k.2 = Ok k.1 ∧ all_chars pem_char k.2 = true ∧ os_only w w'.
Proof.
  unfold GenerateRSA. intros (r & w1 & E & Hr)%bind_inv. injection E as <- <-.
  destruct (rsa_GenerateKey _ bits) as [key|e] eqn:Hk; [|done]. injection Hr as <- <-. split_and!; simpl.
  - by eapply load_generated_key.
  - by apply pem_text.
  - done.
Qed.
Lemma BuildTLSCSR_inv privkey csr (w w' : World X) :
  BuildTLSCSR privkey w = (Return (Ok csr), w') →
  ∃ key req, LoadRSAKeyFromPEM privkey = Ok key ∧ LoadX509CSRFromPEM csr = Ok req ∧
    csr_PublicKey req = RSAPublicKey (rsa_N key).
Proof.
  unfold BuildTLSCSR. destruct (LoadRSAKeyFromPEM privkey) as [key|]; [|done].
  intros (r & w1 & E & Hr)%bind_inv. injection E as <- <-.
  destruct (x509_CreateCertificateRequest _ _ _) as [der|] eqn:Ed; [|done]. injection Hr as <- <-.
  apply request_parses in Ed as (req & Hp & _ & _ & Hk). exists key, req. split; [done|]. split; [|done].
  unfold LoadX509CSRFromPEM. rewrite LoadSinglePEMBlock_encoded; [done..|set_solver].
Qed.
Lemma GenerateRSA_returns bits : returns (@GenerateRSA _ X bits).
Proof. unfold GenerateRSA. os_frame. Qed.
Lemma GenerateRSA_os_only bits : keeps os_only (@GenerateRSA _ X bits).
Proof. unfold GenerateRSA. os_frame. Qed.
Lemma GenerateRSA_fs bits : keeps same_fs (@GenerateRSA _ X bits).
Proof. unfold GenerateRSA. os_frame. Qed.
Lemma GenerateRSA_later bits : keeps later (@GenerateRSA _ X bits).
Proof. unfold GenerateRSA. os_frame. Qed.
Lemma rand_Int_pow2_returns k : returns (@rand_Int_pow2 X k).
Proof. unfold rand_Int_pow2. os_frame. Qed.
Lemma rand_Int_pow2_os_only k : keeps os_only (@rand_Int_pow2 X k).
Proof. unfold rand_Int_pow2. os_frame. Qed.
Lemma rand_Int_pow2_fs k : keeps same_fs (@rand_Int_pow2 X k).
Proof. unfold rand_Int_pow2. os_frame. Qed.
Lemma rand_Int_pow2_later k : keeps later (@rand_Int_pow2 X k).
Proof. unfold rand_Int_pow2. os_frame. Qed.
End facts.

#[export] Hint Resolve GenerateRSA_returns GenerateRSA_os_only GenerateRSA_fs GenerateRSA_later
  rand_Int_pow2_returns rand_Int_pow2_os_only rand_Int_pow2_fs rand_Int_pow2_later : go.

Section frames.
Context `{Crypto} {X : Type}.

Lemma FinishCertificate_returns t p k s : returns (@FinishCertificate _ X t p k s).
Proof. unfold FinishCertificate. os_frame. Qed.
Lemma FinishCertificate_os_only t p k s : keeps os_only (@FinishCertificate _ X t p k s).
Proof. unfold FinishCertificate. os_frame. Qed.
Lemma FinishCertificate_fs t p k s : keeps same_fs (@FinishCertificate _ X t p k s).
Proof. unfold FinishCertificate. os_frame. Qed.
Lemma FinishCertificate_later t p k s : keeps later (@FinishCertificate _ X t p k s).
Proof. unfold FinishCertificate. os_frame. Qed.
Lemma BuildTLSCSR_returns k : returns (@BuildTLSCSR _ X k).
Proof. unfold BuildTLSCSR. os_frame. Qed.
Lemma BuildTLSCSR_os_only k : keeps os_only (@BuildTLSCSR _ X k).
Proof. unfold BuildTLSCSR. os_frame. Qed.
Lemma BuildTLSCSR_fs k : keeps same_fs (@BuildTLSCSR _ X k).
Proof. unfold BuildTLSCSR. os_frame. Qed.
Lemma BuildTLSCSR_later k : keeps later (@BuildTLSCSR _ X k).
Proof. unfold BuildTLSCSR. os_frame. Qed.
Lemma tls_LoadX509KeyPair_os_only c k : keeps os_only (tls_LoadX509KeyPair (X:=X) c k).
Proof. unfold tls_LoadX509KeyPair. os_frame. Qed.
Lemma tls_LoadX509KeyPair_later c k : keeps later (tls_LoadX509KeyPair (X:=X) c k).
Proof. unfold tls_LoadX509KeyPair. os_frame. Qed.
Lemma tls_LoadX509KeyPair_fs c k : keeps same_fs (tls_LoadX509KeyPair (X:=X) c k).
Proof. unfold tls_LoadX509KeyPair. os_frame. Qed.
Lemma tls_LoadX509KeyPair_returns c k : returns (tls_LoadX509KeyPair (X:=X) c k).
Proof. unfold tls_LoadX509KeyPair. os_frame. Qed.
End frames.

#[export] Hint Resolve FinishCertificate_returns FinishCertificate_os_only FinishCertificate_fs
  FinishCertificate_later BuildTLSCSR_returns BuildTLSCSR_os_only BuildTLSCSR_fs
  BuildTLSCSR_later : go.
#[export] Hint Resolve tls_LoadX509KeyPair_os_only tls_LoadX509KeyPair_later tls_LoadX509KeyPair_fs
  tls_LoadX509KeyPair_returns : go.
