(* ===== verification/Samples.v ===== *)
(** * Concrete inputs for the examples and the witnesses *)

From S2P Require Import Prelude GoStrings GoNet GoOS GoErrors GoCodec GoCrypto ToyCrypto CertUtil.
#[export] Set Default Goal Selector "!".

#[export] Existing Instance PkgErrorsImpl.impl.
#[export] Existing Instance Toy.crypto.

Definition ca_key : rsa_PrivateKey := mkRSA 77 "c".
Definition node_key : rsa_PrivateKey := mkRSA 78 "n".

Definition pem_key (k : rsa_PrivateKey) : string :=
  pem_EncodeToMemory (mkPemBlock "RSA PRIVATE KEY" (MarshalPKCS1PrivateKey k)).
Definition pem_cert (der : string) : string := pem_EncodeToMemory (mkPemBlock "CERTIFICATE" der).

(** A certificate of [k] for [cn], signed by [ca_key]. *)
Definition sample_template (cn : string) (nb na : Z) : Certificate :=
  mkCert "" false (OtherPublicKey "") 1 (mkName cn [] [] []) nb na 1 [ExtKeyUsageClientAuth] true false 0 true [] [] false.
Definition sample_der (k : rsa_PrivateKey) (cn : string) (nb na : Z) : string :=
  default "" (result_value (x509_CreateCertificate (Some "r") (sample_template cn nb na)
    (sample_template "ca" 0 1) (RSAPublicKey (rsa_N k)) ca_key)).
Definition sample_cert (k : rsa_PrivateKey) (cn : string) (nb na : Z) : Certificate :=
  default (sample_template "" 0 0) (result_value (x509_ParseCertificate (sample_der k cn nb na))).

Definition ca_cert : Certificate := sample_cert ca_key "ca" 0 1000000000000.

(** A machine at time [t] with a random source that never fails. *)
Definition os_random (t : Z) : OS :=
  with_entropy ["AAAAAAAAAAAAAAAAAAAA"; "r1"; "AAAAAAAAAAAAAAAAAAAA"; "r2"] (os0 t).

(** A request of [node_key]. *)
Definition sample_csr : string :=
  match BuildTLSCSR (pem_key node_key) (mkWorld (os_random 0) tt) with
  | (Return (Ok csr), _) => csr
  | _ => ""
  end.
Example sample_csr_ok : is_ok (LoadX509CSRFromPEM sample_csr) = true.
Proof. vm_compute. reflexivity. Qed.

Definition host_pubkey : string := ssh_MarshalAuthorizedKey (SSHKey "ssh-rsa" "h").

(** Did a run end with [Ok]? *)
Definition ran_ok {S A} (p : outcome (result A) * S) : bool :=
  match p with (Return (Ok _), _) => true | _ => false end.

(** Destructs a run that is computed to end with [Ok]. *)
Ltac run_ok E :=
  match goal with |- context [match ?run with (_, _) => _ end] =>
    let H := fresh in
    assert (H : ran_ok run = true) by (vm_compute; reflexivity);
    destruct run as [[[]| |] ] eqn:E; [|discriminate H..]; clear H
  end.

(** The same for a run whose result is not a [result]. *)
Definition returned {S A} (p : outcome A * S) : bool :=
  match p with (Return _, _) => true | _ => false end.
Ltac run_returned E :=
  match goal with |- context [match ?run with (_, _) => _ end] =>
    let H := fresh in
    assert (H : returned run = true) by (vm_compute; reflexivity);
    destruct run as [[] ] eqn:E; [|discriminate H..]; clear H
  end.
