(* ===== verification/GoHTTP.v ===== *)
(** * net/http: requests, response writers and ServeMux

    What the servers of the repository use of the standard library's HTTP
    server, as Go 1.14 does it. *)

From S2P Require Import Prelude GoStrings GoOS GoCodec GoCrypto.
#[export] Set Default Goal Selector "!".

(** The fields of [url.URL] that a server sees: the scheme and the host of a request for an
    absolute URL (empty otherwise), the decoded path, and what follows a question mark. *)
Record URL := mkURL { URL_Origin : string; u_Path : string; URL_Query : option string }.
Definition at_path (path : string) : URL := mkURL "" path None.

(** The fields of [*http.Request] that are read. The keys of the header are
    canonical, as the server makes them; [VerifiedChains] is that of the TLS
    state, None for a plain connection. *)
Record Request := mkRequest {
  Method : string;
  RequestURL : URL;
  RemoteAddr : string;
  Header : gmap string (list string);
  VerifiedChains : option (list (list Certificate));
  Body : result string
}.

Definition URL_Path (r : Request) : string := u_Path (RequestURL r).

(** [Header.Get] of a canonical key. *)
Definition Header_Get (h : gmap string (list string)) (key : string) : string :=
  default "" (head (default [] (h !! key))).

(** What a handler sent: the status once written, the redirect target, the body. *)
Record Response := mkResponse {
  status : option Z;
  location : string;
  sent : string
}.
Definition empty_response : Response := mkResponse None "" "".

(** *** URLs of redirections *)

Definition hex_upper (n : Z) : string := take_s 1 (drop_s (Z.to_nat n) "0123456789ABCDEF").
(** The byte as [%XX]. *)
Definition percent (c : ascii) : string := "%" +:+ hex_upper (byte_val c / 16) +:+ hex_upper (byte_val c mod 16).
Fixpoint map_chars (f : ascii → string) (s : string) : string :=
  match s with "" => "" | String c s => f c +:+ map_chars f s end.

(** [escape] of net/url, for a path. *)
Definition path_char (c : ascii) : bool :=
  let n := byte_val c in
  ((48 <=? n) && (n <=? 57)) || ((65 <=? n) && (n <=? 90)) || ((97 <=? n) && (n <=? 122)) ||
  bool_decide (c ∈ ["-"; "_"; "."; "~"; "$"; "&"; "+"; ","; "/"; ":"; ";"; "="; "@"]%char).
Definition escape_path (s : string) : string := map_chars (λ c, if path_char c then String c "" else percent c) s.
(** [URL.String], of an URL whose path is absolute and was set after it was parsed. *)
Definition URL_String (u : URL) : string :=
  URL_Origin u +:+ escape_path (u_Path u) +:+ match URL_Query u with Some q => "?" +:+ q | None => "" end.

(** The URL that [http.Redirect] sends: a relative one is cleaned, without its query and
    keeping a slash at its end. *)
Definition redirect_url (u : URL) : string :=
  if bool_decide (URL_Origin u = "") then
    let '(path, query) := match SplitN (URL_String u) "?"%char 2 with
                          | [path; query] => (path, "?" +:+ query)
                          | _ => (URL_String u, "")
                          end in
    let clean := path_Clean path in
    (if HasSuffix path "/" && negb (HasSuffix clean "/") then clean +:+ "/" else clean) +:+ query
  else URL_String u.
Definition hexEscapeNonASCII (s : string) : string :=
  map_chars (λ c, if byte_val c <? 128 then String c "" else percent c) s.
(** [htmlEscape] *)
Definition html_char (c : ascii) : string :=
  if bool_decide (c = "&"%char) then "&amp;" else if bool_decide (c = "<"%char) then "&lt;"
  else if bool_decide (c = ">"%char) then "&gt;" else if bool_decide (byte_val c = 34) then "&#34;"
  else if bool_decide (c = "'"%char) then "&#39;" else String c "".
Definition quote_mark : string := String (ascii_of_nat 34) "".
Definition moved_body (url : string) : string :=
  "<a href=" +:+ quote_mark +:+ map_chars html_char url +:+ quote_mark +:+ ">Moved Permanently</a>." +:+ newline +:+ newline.

Example redirect_ex :
  redirect_url (mkURL "" "/pub/a b/?" (Some "x=1")) = "/pub/a%20b/%3F?x=1" ∧
  hexEscapeNonASCII (redirect_url (mkURL "http://h" "/pub/" None)) = "http://h/pub/".
Proof. vm_compute. done. Qed.

(** A component whose state has the response being written. *)
Class HasWriter (X : Type) := {
  writer : X → Response;
  set_writer : Response → X → X;
  writer_set r x : writer (set_writer r x) = r
}.

Section responses.
Context {X : Type} `{!HasWriter X}.
Abbreviation MW := (M (World X)).

Definition update_writer (f : Response → Response) : MW unit :=
  modify (on_comp (λ x, set_writer (f (writer x)) x)).

(** [WriteHeader]: only the first one counts. *)
Definition WriteHeader (code : Z) : MW unit :=
  update_writer (λ r, mkResponse (Some (default code (status r))) (location r) (sent r)).

(** [Write]: the connection may be gone. *)
Definition writer_Write (data : string) : MW (result unit) :=
  _ ← WriteHeader 200;
  f ← next_fault;
  match f with
  | Some f => fail (fault_err f)
  | None => _ ← update_writer (λ r, mkResponse (status r) (location r) (sent r +:+ data)); ok tt
  end.

(** [http.Error] *)
Definition http_Error (msg : string) (code : Z) : MW unit :=
  _ ← WriteHeader code;
  _ ← writer_Write (msg +:+ newline);
  mret tt.

(** [http.Redirect], for an URL that parses, to a request without a content type set. *)
Definition http_Redirect (request : Request) (target : URL) : MW unit :=
  let url := redirect_url target in
  _ ← update_writer (λ r, mkResponse (status r) (hexEscapeNonASCII url) (sent r));
  _ ← WriteHeader 301;
  if bool_decide (Method request = "GET") then _ ← writer_Write (moved_body url); mret tt else mret tt.

Lemma update_writer_same {T} (g : X → T) f :
  (∀ r x, g (set_writer r x) = g x) → keeps (same (λ w, g (comp w))) (update_writer f).
Proof. intros Hg w. unfold same. simpl. by rewrite Hg. Qed.

Lemma WriteHeader_returns c : returns (WriteHeader c).
Proof. intros w. by eexists. Qed.
Lemma update_writer_returns f : returns (update_writer f).
Proof. intros w. by eexists. Qed.
Lemma writer_Write_returns d : returns (writer_Write d).
Proof.
  unfold writer_Write. apply returns_bind; [apply WriteHeader_returns|intros _].
  apply returns_bind; [apply next_fault_returns|]. intros [f|]; [apply returns_ret|].
  apply returns_bind; [apply update_writer_returns|intros _]. apply returns_ret.
Qed.
Lemma http_Error_returns m c : returns (http_Error m c).
Proof.
  unfold http_Error. apply returns_bind; [apply WriteHeader_returns|intros _].
  apply returns_bind; [apply writer_Write_returns|intros _]. apply returns_ret.
Qed.
Lemma http_Redirect_returns r u : returns (http_Redirect r u).
Proof.
  unfold http_Redirect. apply returns_bind; [apply update_writer_returns|intros _].
  apply returns_bind; [apply WriteHeader_returns|intros _]. case_bool_decide; [|apply returns_ret].
  apply returns_bind; [apply writer_Write_returns|intros _; apply returns_ret].
Qed.
End responses.

#[export] Hint Resolve WriteHeader_returns update_writer_returns writer_Write_returns
  http_Error_returns http_Redirect_returns : go.

(** ** ServeMux *)

Definition ends_slash (p : string) : bool := HasSuffix p "/".

(** [cleanPath] of net/http: keeps a trailing slash. *)
Definition http_cleanPath (p : string) : string :=
  if bool_decide (p = "") then "/"
  else
    let p := if HasPrefix p "/" then p else "/" +:+ p in
    let np := path_Clean p in
    if ends_slash p && negb (bool_decide (np = "/")) then np +:+ "/" else np.

Inductive mux_result :=
| MuxHandle (pattern : string)
| MuxRedirect (target : URL)
| MuxNotFound.

(** The pattern for a path: the path itself, or the longest that ends in a
    slash and is a prefix of it. *)
Definition longest (l : list string) : option string :=
  foldl (λ acc p, match acc with
                  | Some q => if bool_decide (String.length q < String.length p)%nat then Some p else Some q
                  | None => Some p end) None l.
Definition mux_match (patterns : list string) (path : string) : mux_result :=
  if bool_decide (path ∈ patterns) then MuxHandle path
  else match longest (List.filter (λ p, ends_slash p && HasPrefix path p) patterns) with
       | Some p => MuxHandle p
       | None => MuxNotFound
       end.
Definition should_redirect (patterns : list string) (path : string) : bool :=
  negb (bool_decide (path ∈ patterns)) && negb (bool_decide (path = "")) &&
  bool_decide ((path +:+ "/") ∈ patterns) && negb (ends_slash path).

(** A redirection that only adds a slash is relative and keeps a query that is not empty; one to
    the cleaned path keeps the rest of the URL. *)
Definition mux_Handler (patterns : list string) (method : string) (u : URL) : mux_result :=
  let path := u_Path u in
  let p := if bool_decide (method = "CONNECT") then path else http_cleanPath path in
  if should_redirect patterns p
  then MuxRedirect (mkURL "" (p +:+ "/") (match URL_Query u with Some "" => None | q => q end))
  else if bool_decide (p ≠ path) then MuxRedirect (mkURL (URL_Origin u) p (URL_Query u))
  else mux_match patterns path.

Example mux_ex1 : mux_Handler ["/apirequest"; "/pub/"; "/static/"] "GET" (at_path "/pub/a/b") = MuxHandle "/pub/".
Proof. vm_compute. reflexivity. Qed.
Example mux_ex2 : mux_Handler ["/apirequest"; "/pub/"; "/static/"] "GET" (at_path "/pub/../static/x") = MuxRedirect (at_path "/static/x").
Proof. vm_compute. reflexivity. Qed.
Example mux_ex3 : mux_Handler ["/apirequest"; "/pub/"; "/static/"] "GET" (at_path "/pub") = MuxRedirect (at_path "/pub/").
Proof. vm_compute. reflexivity. Qed.
