(* ===== verification/Authorities.v ===== *)
(** * Certificate authorities: keyserver/authorities

    [src/platform/keysystem/keyserver/authorities]: loading, verifying and
    signing with the TLS and the SSH authorities. *)

From S2P Require Import Prelude GoStrings GoNet GoOS GoErrors GoCodec GoCrypto CertUtil GoHTTP Samples.
#[export] Set Default Goal Selector "!".

(** ** State *)

Record TLSAuthority := mkTLSAuthority {
  tls_key : rsa_PrivateKey;
  tls_keyEncoded : string;
  tls_cert : Certificate;
  tls_certEncoded : string
}.
Record SSHAuthority := mkSSHAuthority { ssh_key : ssh_Signer; ssh_pubkey : string }.

(** The interface [Authority], and its two implementations. *)
Inductive Authority :=
| ATLS (t : TLSAuthority)
| ASSH (d : SSHAuthority).
Definition GetPublicKey (a : Authority) : string :=
  match a with ATLS t => tls_certEncoded t | ASSH d => ssh_pubkey d end.

(** ** TLS authorities *)

Section tls.
Context `{PkgErrors} `{Crypto}.

Definition TLSAuthority_Equal (t authority : TLSAuthority) : bool :=
  bool_decide (Raw (tls_cert t) = Raw (tls_cert authority)).

Definition LoadTLSAuthority (keydata certdata : string) : result Authority :=
  privkey ← LoadRSAKeyFromPEM keydata;
  cert ← LoadX509CertFromPEM certdata;
  match PublicKey cert with
  | RSAPublicKey n =>
      if negb (PublicKeyAlgorithm_RSA cert)
      then Err (errors_New "expected RSA public key in certificate")
      else if bool_decide (n ≠ rsa_N privkey)
      then Err (errors_New "mismatched RSA public and private keys")
      else Ok (ATLS (mkTLSAuthority privkey keydata cert certdata))
  | OtherPublicKey _ => Err (errors_New "expected RSA public key in certificate")
  end.

Definition ToCertPool (t : TLSAuthority) : list Certificate := [tls_cert t].
Definition GetPrivateKey (t : TLSAuthority) : string := tls_keyEncoded t.
(** [tls.Certificate]: the chain and the key. *)
Definition ToHTTPSCert (t : TLSAuthority) : list string * rsa_PrivateKey :=
  ([Raw (tls_cert t)], tls_key t).

Definition TLS_HasAttempt (request : Request) : bool :=
  match VerifiedChains request with
  | Some ((_ :: _) :: _) => true
  | _ => false
  end.

Fixpoint partitionDNSNamesAndIPs (names : list string) : list string * list IP :=
  match names with
  | [] => ([], [])
  | name :: names =>
      let '(dnses, ips) := partitionDNSNamesAndIPs names in
      match ParseIP name with
      | None => (name :: dnses, ips)
      | Some ip => (dnses, ip :: ips)
      end
  end.

Context {X : Type}.
Abbreviation MW := (M (World X)).

(** [errors.Wrap] of a nil error is nil: the principal is then empty. *)
Definition TLS_Verify (t : TLSAuthority) (request : Request) : MW (result string) :=
  if negb (TLS_HasAttempt request) then fail (errors_New "client certificate must be present")
  else
    match VerifiedChains request with
    | Some ((firstCert :: _) :: _) =>
        now ← time_Now;
        match x509_Verify firstCert (ToCertPool t) [ExtKeyUsageClientAuth] now with
        | Err err => fail (wrap err "certificate not valid under this authority")
        | Ok [] => ok ""
        | Ok (_ :: _) => ok (CommonName (Subject firstCert))
        end
    | _ => panic "index out of range"
    end.

Definition certTemplate (issueAt : Z) (ishost : bool) (lifespan : Z) (commonname : string)
    (names organizations : list string) : Certificate :=
  let '(dnsNames, IPs) := partitionDNSNamesAndIPs names in
  mkCert "" false (OtherPublicKey "") 0 (mkName commonname organizations [] []) issueAt (issueAt + lifespan)
    KeyUsageDigitalSignature
    (ExtKeyUsageClientAuth :: if ishost then [ExtKeyUsageServerAuth] else [])
    true false 0 true dnsNames IPs false.

Definition TLS_Sign (t : TLSAuthority) (request : string) (ishost : bool) (lifespan : Z)
    (commonname : string) (names organizations : list string) : MW (result string) :=
  match LoadX509CSRFromPEM request with
  | Err err => fail err
  | Ok csr =>
      match csr_CheckSignature csr with
      | Err err => fail err
      | Ok _ =>
          issueAt ← time_Now;
          let template := certTemplate issueAt ishost lifespan commonname names organizations in
          FinishCertificate template (tls_cert t) (csr_PublicKey csr) (tls_key t)
      end
  end.
End tls.

(** ** SSH authorities *)

Section ssh.
Context `{Crypto}.

Definition parseSingleSSHKey (data : string) : result ssh_PublicKey :=
  '(pubkey, rest) ← ssh_ParseAuthorizedKey data;
  if bool_decide (0 < len rest)
  then Err (ErrorString "trailing data after end of public key file")
  else Ok pubkey.

Definition arePublicKeysEqual (pk1 pk2 : ssh_PublicKey) : bool :=
  if bool_decide (ssh_Type pk1 ≠ ssh_Type pk2) then false
  else bool_decide (ssh_Marshal pk1 = ssh_Marshal pk2).

Definition LoadSSHAuthority (keydata pubkeydata : string) : result Authority :=
  pubkey ← parseSingleSSHKey pubkeydata;
  key ← ssh_ParsePrivateKey keydata;
  if negb (arePublicKeysEqual pubkey (signer_PublicKey key))
  then Err (ErrorString ("public SSH key does not match private SSH key: " +:+ ssh_Marshal pubkey +:+
                         " versus " +:+ ssh_Marshal (signer_PublicKey key)))
  else Ok (ASSH (mkSSHAuthority key pubkeydata)).

Definition certType (ishost : bool) : Z := if ishost then HostCert else UserCert.

Definition marshalSSHCert (key : ssh_PublicKey) (cert : ssh_CertBody) : string :=
  ssh_Type (SSHCertificate key cert) +:+ " " +:+
  base64_StdEncode (ssh_Marshal (SSHCertificate key cert)) +:+ newline.

Context {X : Type}.
Abbreviation MW := (M (World X)).

(** The clock is read once for each bound of the validity. *)
Definition SSH_Sign (d : SSHAuthority) (request : string) (ishost : bool) (lifespan : Z)
    (keyid : string) (principals : list string) : MW (result string) :=
  match parseSingleSSHKey request with
  | Err err => fail err
  | Ok pubkey =>
      if bool_decide (lifespan < Second)
      then fail (ErrorString "lifespan is too short (or nonpositive) for certificate signature")
      else if bool_decide (length principals = 0%nat)
      then fail (ErrorString "refusing to sign wildcard certificate")
      else
        serialNumber ←? rand_Int_pow2 64;
        t1 ← time_Now;
        t2 ← time_Now;
        let cert := mkSSHBody "" (uint64 serialNumber) (certType ishost) keyid principals
                      (uint64 (Unix t1)) (uint64 (Unix (t2 + lifespan))) [("permit-pty", "")] "" in
        r ← rand_chunk;
        match ssh_SignCert r pubkey cert (ssh_key d) with
        | Err err => fail err
        | Ok cert => ok (marshalSSHCert pubkey cert)
        end
  end.
End ssh.

(** ** Frames *)

Section frames.
Context `{PkgErrors} `{Crypto} {X : Type}.

Lemma TLS_Verify_os_only t r : keeps os_only (@TLS_Verify _ _ X t r).
Proof. unfold TLS_Verify. os_frame. Qed.
Lemma TLS_Verify_fs t r : keeps same_fs (@TLS_Verify _ _ X t r).
Proof. unfold TLS_Verify. os_frame. Qed.
Lemma TLS_Verify_returns t r : returns (@TLS_Verify _ _ X t r).
Proof.
  unfold TLS_Verify, TLS_HasAttempt.
  destruct (VerifiedChains r) as [[|[|c ch] chs]|]; cbn [negb]; os_frame.
Qed.
Lemma TLS_Sign_os_only t r h l c n o : keeps os_only (@TLS_Sign _ X t r h l c n o).
Proof. unfold TLS_Sign. os_frame. Qed.
Lemma TLS_Sign_fs t r h l c n o : keeps same_fs (@TLS_Sign _ X t r h l c n o).
Proof. unfold TLS_Sign. os_frame. Qed.
Lemma TLS_Sign_later t r h l c n o : keeps later (@TLS_Sign _ X t r h l c n o).
Proof. unfold TLS_Sign. os_frame. Qed.
Lemma TLS_Sign_returns t r h l c n o : returns (@TLS_Sign _ X t r h l c n o).
Proof. unfold TLS_Sign. os_frame. Qed.
Lemma SSH_Sign_os_only d r h l k p : keeps os_only (@SSH_Sign _ X d r h l k p).
Proof. unfold SSH_Sign. os_frame. Qed.
Lemma SSH_Sign_fs d r h l k p : keeps same_fs (@SSH_Sign _ X d r h l k p).
Proof. unfold SSH_Sign. os_frame. Qed.
Lemma SSH_Sign_later d r h l k p : keeps later (@SSH_Sign _ X d r h l k p).
Proof. unfold SSH_Sign. os_frame. Qed.
Lemma SSH_Sign_returns d r h l k p : returns (@SSH_Sign _ X d r h l k p).
Proof. unfold SSH_Sign. os_frame. Qed.
End frames.

#[export] Hint Resolve TLS_Verify_os_only TLS_Verify_fs TLS_Verify_returns TLS_Sign_os_only
  TLS_Sign_fs TLS_Sign_later TLS_Sign_returns SSH_Sign_os_only SSH_Sign_fs SSH_Sign_later
  SSH_Sign_returns : go.

(** ** What the authorities do *)

(** the names are split into the IP addresses and the others, each kept in
    order, and every name goes to exactly one side. *)
Theorem partitionDNSNamesAndIPs_spec names :
  partitionDNSNamesAndIPs names = (List.filter (λ n, negb (bool_decide (is_Some (ParseIP n)))) names, omap ParseIP names) ∧
  (length (partitionDNSNamesAndIPs names).1 + length (partitionDNSNamesAndIPs names).2 = length names)%nat.
Proof.
  induction names as [|n names [IH1 IH2]]; [done|]. cbn [partitionDNSNamesAndIPs List.filter].
  destruct (partitionDNSNamesAndIPs names) as [d i]. simplify_eq/=.
  destruct (ParseIP n) as [ip|] eqn:E; simpl.
  - by rewrite Nat.add_succ_r, IH2.
  - by rewrite IH2.
Qed.

(** A TLS authority that loads has an RSA certificate for the private key it
    was loaded with, and hands out the files themselves; a mismatched pair is
    refused. *)
Lemma LoadTLSAuthority_spec `{PkgErrors} `{Crypto} keydata certdata a :
  LoadTLSAuthority keydata certdata = Ok a ↔
  ∃ privkey cert,
    LoadRSAKeyFromPEM keydata = Ok privkey ∧ LoadX509CertFromPEM certdata = Ok cert ∧
    PublicKeyAlgorithm_RSA cert = true ∧ PublicKey cert = RSAPublicKey (rsa_N privkey) ∧
    a = ATLS (mkTLSAuthority privkey keydata cert certdata).
Proof.
  unfold LoadTLSAuthority. split.
  - destruct (LoadRSAKeyFromPEM keydata) as [k|]; [|done]. simpl.
    destruct (LoadX509CertFromPEM certdata) as [c|]; [|done]. simpl.
    destruct (PublicKey c) as [n|] eqn:Ep; [|done].
    destruct (PublicKeyAlgorithm_RSA c) eqn:Ea; [|done]. simpl.
    case_bool_decide as En; [done|]. intros [= <-]. exists k, c.
    split_and!; try done. rewrite Ep. f_equal. destruct (decide (n = rsa_N k)); [done|tauto].
  - intros (k & c & -> & -> & Ha & Hp & ->). simpl. rewrite Hp, Ha. simpl.
    by rewrite bool_decide_false by auto.
Qed.

Lemma rand_Int_pow2_bound {X} k (w w' : World X) n :
  0 ≤ k → rand_Int_pow2 k w = (Return (Ok n), w') → 0 ≤ n < 2 ^ k.
Proof.
  intros Hk Hr. unfold rand_Int_pow2 in Hr. run_inv. apply Z.mod_pos_bound. lia.
Qed.

(** [out] is the PEM form of [cert]. *)
Definition written `{Crypto} (out : string) (cert : Certificate) : Prop :=
  out = pem_EncodeToMemory (mkPemBlock "CERTIFICATE" (Raw cert)) ∧ x509_ParseCertificate (Raw cert) = Ok cert.
Lemma FinishCertificate_inv `{Crypto} {X} t p pub k (w w' : World X) out :
  encodable t → FinishCertificate t p pub k w = (Return (Ok out), w') →
  now (os w') = now (os w) ∧
  ∃ n cert, 0 ≤ n < 2 ^ 159 ∧ LoadX509CertFromPEM out = Ok cert ∧ written out cert ∧
    cert_contents cert = encoded_contents (with_serial t n) ∧
    extra_attrs (Names (Subject cert)) = ExtraNames (Subject t) ∧ PublicKey cert = pub ∧
    (PublicKey p = RSAPublicKey (rsa_N k) → x509_signed_by cert p = true).
Proof.
  intros Hx Hf. unfold FinishCertificate in Hf.
  apply try_bind_Ok_inv in Hf as (n & w1 & Hn & Hf).
  assert (now (os w1) = now (os w)) as Hnow.
  { unfold rand_Int_pow2 in Hn. apply try_bind_Ok_inv in Hn as (c & w2 & Hc & Hn). injection Hn as _ <-.
    unfold rand_Read in Hc. apply bind_inv in Hc as (o & w3 & H3 & Hc). injection H3 as _ <-.
    destruct o; [|done]. case_bool_decide; [|done]. by injection Hc as _ <-. }
  apply bind_inv in Hf as (r & w2 & Hr & Hf). injection Hr as _ <-. injection Hf as Hf <-. split; [done|].
  destruct (x509_CreateCertificate _ _ _ _ _) as [d|] eqn:E; [|done]. injection Hf as <-.
  apply create_parses in E as (cert & Hc & Hcc & Hxs & Hp & Hs); [|by destruct Hx].
  apply rand_Int_pow2_bound in Hn; [|lia].
  pose proof (parse_raw _ _ Hc) as Hraw.
  exists n, cert. split; [done|]. assert (written (pem_EncodeToMemory (mkPemBlock "CERTIFICATE" d)) cert) as Hwr
    by (unfold written; by rewrite Hraw).
  split; [|done]. unfold LoadX509CertFromPEM. rewrite LoadSinglePEMBlock_encoded; [done..|]. by apply list_elem_of_singleton.
Qed.

(** The names as the certificate has them: the DNS names, and the addresses as they are encoded. *)
Definition san_names (names : list string) : list string * list IP :=
  let '(dnses, ips) := partitionDNSNamesAndIPs names in (dnses, san_IP <$> ips).
Lemma certTemplate_encodable issueAt ishost lifespan commonname names organizations :
  encodable (certTemplate issueAt ishost lifespan commonname names organizations).
Proof.
  unfold certTemplate. pose proof (proj1 (partitionDNSNamesAndIPs_spec names)) as Hp.
  destruct (partitionDNSNamesAndIPs names) as [dns ips]. injection Hp as _ ->.
  split; simpl; [constructor|done|]. apply Forall_forall. intros ip (n & _ & Hn)%list_elem_of_omap.
  right. by destruct (ParseIP_bytes _ _ Hn).
Qed.

(** What was signed. *)
Lemma TLS_Sign_inv `{PkgErrors} `{Crypto} {X} t request ishost lifespan commonname names organizations
    (w w' : World X) out :
  PublicKey (tls_cert t) = RSAPublicKey (rsa_N (tls_key t)) →
  TLS_Sign t request ishost lifespan commonname names organizations w = (Return (Ok out), w') →
  ∃ csr cert issueAt,
    LoadX509CSRFromPEM request = Ok csr ∧ csr_CheckSignature csr = Ok tt ∧
    LoadX509CertFromPEM out = Ok cert ∧ written out cert ∧ PublicKey cert = csr_PublicKey csr ∧
    x509_signed_by cert (tls_cert t) = true ∧
    CommonName (Subject cert) = commonname ∧ Organization (Subject cert) = organizations ∧
    (DNSNames cert, IPAddresses cert) = san_names names ∧
    ExtKeyUsages cert = ExtKeyUsageClientAuth :: (if ishost then [ExtKeyUsageServerAuth] else []) ∧
    IsCA cert = false ∧ BasicConstraintsValid cert = true ∧
    now (os w) ≤ issueAt ∧ issueAt = now (os w') ∧
    Unix (NotBefore cert) = Unix issueAt ∧ Unix (NotAfter cert) = Unix (issueAt + lifespan) ∧
    0 ≤ SerialNumber cert < 2 ^ 159.
Proof.
  intros Hkey Hs. unfold TLS_Sign in Hs.
  destruct (LoadX509CSRFromPEM request) as [csr|] eqn:Ecsr; [|done].
  destruct (csr_CheckSignature csr) as [[]|] eqn:Esig; [|done].
  apply bind_inv in Hs as (issueAt & w1 & Hnow & Hs).
  apply FinishCertificate_inv in Hs as (Hl & n & cert & Hn & Hc & Hwr & Hcc & _ & Hp & Hsig);
    [|apply certTemplate_encodable].
  assert (now (os w) ≤ issueAt ∧ now (os w1) = issueAt) as [??].
  { unfold time_Now in Hnow. injection Hnow as <- <-. simpl. split; [lia|done]. }
  exists csr, cert, issueAt. unfold certTemplate in Hcc.
  unfold san_names. destruct (partitionDNSNamesAndIPs names) as [dns ips].
  unfold cert_contents, encoded_contents, cert_fields in Hcc.
  simpl in Hcc. injection Hcc as ? ? ? ? ? ? ? ? ? ?. simplify_eq. unfold Unix, Second.
  split_and!; try done; try lia; try congruence. by apply Hsig.
Qed.

(** C37: a certificate that [TLSAuthority.Sign] returns certifies the key of a
    request whose signature was checked, and nothing else of the request: its
    subject, its names (with the IPv4 addresses among them in their form of four
    bytes) and its usages are those of the grant; it is not an
    authority; it is valid from the moment of issue for the lifespan; it is
    signed with the authority's key; it always returns, and touches no
    file. *)
Theorem TLS_Sign_spec `{PkgErrors} `{Crypto} {X} t request ishost lifespan commonname names organizations
    (w : World X) :
  PublicKey (tls_cert t) = RSAPublicKey (rsa_N (tls_key t)) →
  ∃ r w', TLS_Sign t request ishost lifespan commonname names organizations w = (Return r, w') ∧
    comp w' = comp w ∧ fs (os w') = fs (os w) ∧ ∀ out, r = Ok out →
    ∃ csr cert issueAt,
      LoadX509CSRFromPEM request = Ok csr ∧ csr_CheckSignature csr = Ok tt ∧
      LoadX509CertFromPEM out = Ok cert ∧ written out cert ∧ PublicKey cert = csr_PublicKey csr ∧
      x509_signed_by cert (tls_cert t) = true ∧
      CommonName (Subject cert) = commonname ∧ Organization (Subject cert) = organizations ∧
      (DNSNames cert, IPAddresses cert) = san_names names ∧
      ExtKeyUsages cert = ExtKeyUsageClientAuth :: (if ishost then [ExtKeyUsageServerAuth] else []) ∧
      IsCA cert = false ∧ BasicConstraintsValid cert = true ∧
      now (os w) ≤ issueAt ∧ issueAt = now (os w') ∧
      Unix (NotBefore cert) = Unix issueAt ∧ Unix (NotAfter cert) = Unix (issueAt + lifespan) ∧
      0 ≤ SerialNumber cert < 2 ^ 159.
Proof.
  intros Hkey. destruct (TLS_Sign_returns t request ishost lifespan commonname names organizations w) as [r Hr].
  pose proof (TLS_Sign_os_only t request ishost lifespan commonname names organizations w) as Hos.
  pose proof (TLS_Sign_fs t request ishost lifespan commonname names organizations w) as Hfs.
  destruct (TLS_Sign _ _ _ _ _ _ _ w) as [o w'] eqn:E. simpl in *. subst o.
  exists r, w'. split_and!; [done..|]. intros out ->. by eapply TLS_Sign_inv.
Qed.

(** What was verified. *)
Lemma TLS_Verify_inv `{PkgErrors} `{Crypto} {X} t request (w w' : World X) principal :
  TLS_Verify t request w = (Return (Ok principal), w') →
  ∃ firstCert chain chains,
    VerifiedChains request = Some ((firstCert :: chain) :: chains) ∧
    (principal = "" ∧ x509_Verify firstCert [tls_cert t] [ExtKeyUsageClientAuth] (now (os w')) = Ok [] ∨
     principal = CommonName (Subject firstCert) ∧
     NotBefore firstCert ≤ now (os w') ≤ NotAfter firstCert ∧
     ExtKeyUsageClientAuth ∈ ExtKeyUsages firstCert ∧
     (x509_signed_by firstCert (tls_cert t) = true ∨ Raw firstCert = Raw (tls_cert t))).
Proof.
  unfold TLS_Verify, TLS_HasAttempt.
  destruct (VerifiedChains request) as [[|[|c ch] chs]|]; try done. cbn [negb].
  intros Hv. apply bind_inv in Hv as (n & w1 & Hn & Hv).
  assert (now (os w1) = n) as Hnow by (unfold time_Now in Hn; by injection Hn as <- <-).
  exists c, ch, chs. split; [done|]. unfold ToCertPool in Hv.
  destruct (x509_Verify c _ _ n) as [[|x xs]|e] eqn:Ev; [..|done]; injection Hv as <- <-.
  - left. by rewrite Hnow.
  - right. apply verify_sound in Ev as (Ht & (u & ->%list_elem_of_singleton & Hu) & r & ->%list_elem_of_singleton & Hr).
    rewrite Hnow. done.
Qed.

(** [TLSAuthority.Verify] names a principal only for the first certificate
    of the chain that the TLS layer verified, when that certificate is signed by
    this authority (or is its own), is within its validity and may
    authenticate clients; the principal is its common name. A plain connection
    is refused, and nothing but the clock moves. *)
Theorem TLS_Verify_spec `{PkgErrors} `{Crypto} {X} t request (w : World X) :
  ∃ r w', TLS_Verify t request w = (Return r, w') ∧ comp w' = comp w ∧ fs (os w') = fs (os w) ∧
    (VerifiedChains request = None → ∃ e, r = Err e) ∧ ∀ principal, r = Ok principal →
    ∃ firstCert chain chains,
      VerifiedChains request = Some ((firstCert :: chain) :: chains) ∧
      (principal = "" ∧ x509_Verify firstCert [tls_cert t] [ExtKeyUsageClientAuth] (now (os w')) = Ok [] ∨
       principal = CommonName (Subject firstCert) ∧
       NotBefore firstCert ≤ now (os w') ≤ NotAfter firstCert ∧
       ExtKeyUsageClientAuth ∈ ExtKeyUsages firstCert ∧
       (x509_signed_by firstCert (tls_cert t) = true ∨ Raw firstCert = Raw (tls_cert t))).
Proof.
  destruct (TLS_Verify_returns t request w) as [r Hr].
  pose proof (TLS_Verify_os_only t request w) as Hos. pose proof (TLS_Verify_fs t request w) as Hfs.
  assert (VerifiedChains request = None → ∃ e, r = Err e) as Hplain.
  { intros Hv. unfold TLS_Verify, TLS_HasAttempt in Hr. rewrite Hv in Hr. injection Hr as <-. by eexists. }
  destruct (TLS_Verify t request w) as [o w'] eqn:E. simpl in *. subst o.
  exists r, w'. split_and!; [done..|]. intros principal ->. by eapply TLS_Verify_inv.
Qed.

(** What an SSH certificate contains. *)
Lemma SSH_Sign_inv `{Crypto} {X} d request ishost lifespan keyid principals (w w' : World X) out :
  SSH_Sign d request ishost lifespan keyid principals w = (Return (Ok out), w') →
  Second ≤ lifespan ∧ principals ≠ [] ∧
  ∃ pubkey cert t1 t2,
    ssh_ParseAuthorizedKey request = Ok (pubkey, "") ∧
    ssh_ParseAuthorizedKey out = Ok (SSHCertificate pubkey cert, "") ∧
    ssh_ValidPrincipals cert = principals ∧ ssh_KeyId cert = keyid ∧
    ssh_CertType cert = certType ishost ∧ ssh_Extensions cert = [("permit-pty", "")] ∧
    now (os w) ≤ t1 ≤ t2 ∧ t2 ≤ now (os w') ∧
    ssh_ValidAfter cert = uint64 (Unix t1) ∧ ssh_ValidBefore cert = uint64 (Unix (t2 + lifespan)) ∧
    (0 ≤ Unix t1 → Unix (t2 + lifespan) < 2 ^ 64 → ssh_ValidAfter cert < ssh_ValidBefore cert) ∧
    0 ≤ ssh_Serial cert < 2 ^ 64.
Proof.
  intros Hs. unfold SSH_Sign, parseSingleSSHKey in Hs.
  destruct (ssh_ParseAuthorizedKey request) as [[pubkey rest]|] eqn:Ep; [|done]. simpl in Hs.
  case_bool_decide as Hrest; [done|]. assert (rest = "") as ->.
  { destruct rest; [done|]. unfold len in Hrest. simpl in Hrest. lia. }
  case_bool_decide as Hlife; [done|]. case_bool_decide as Hprin; [done|].
  split; [unfold Second in *; lia|]. split; [by intros ->|].
  apply try_bind_Ok_inv in Hs as (serial & w1 & Hser & Hs).
  pose proof (rand_Int_pow2_later 64 w) as Hl1. rewrite Hser in Hl1. unfold later in Hl1. simpl in Hl1.
  apply rand_Int_pow2_bound in Hser; [|lia].
  apply bind_inv in Hs as (t1 & w2 & Ht1 & Hs). apply bind_inv in Hs as (t2 & w3 & Ht2 & Hs).
  apply bind_inv in Hs as (r & w4 & Hr & Hs).
  assert (now (os w) ≤ t1 ≤ t2 ∧ t2 ≤ now (os w4)) as Ht.
  { unfold time_Now in Ht1, Ht2. injection Ht1 as <- <-. injection Ht2 as <- <-.
    injection Hr as _ <-. simpl. lia. }
  destruct (ssh_SignCert _ _ _ _) as [cert|] eqn:Ec; [|done]. injection Hs as <- <-.
  apply ssh_signed in Ec as [Hc Hparse]. unfold ssh_contents in Hc. simpl in Hc.
  injection Hc as ? ? ? ? ? ? ?. exists pubkey, cert, t1, t2.
  split_and!; try done; try lia.
  - intros Hlo Hhi.
    assert (Unix t1 < Unix (t2 + lifespan)).
    { unfold Unix, Second in *. Z.to_euclidean_division_equations. lia. }
    replace (ssh_ValidAfter cert) with (uint64 (Unix t1)) by done.
    replace (ssh_ValidBefore cert) with (uint64 (Unix (t2 + lifespan))) by done.
    unfold uint64. rewrite !Z.mod_small; lia.
  - replace (ssh_Serial cert) with (uint64 serial) by done. unfold uint64.
    apply Z.mod_pos_bound. lia.
  - replace (ssh_Serial cert) with (uint64 serial) by done. unfold uint64.
    pose proof (Z.mod_pos_bound serial 18446744073709551616 ltac:(lia)). lia.
Qed.

(** C38: an SSH certificate is signed only for at least a second and for at least
    one principal; what comes out parses as a certificate of the requested key,
    for exactly these principals, of the right kind, with no permission but a
    terminal, and is not valid before the moment of issue. *)
Theorem SSH_Sign_spec `{Crypto} {X} d request ishost lifespan keyid principals (w w' : World X) out :
  SSH_Sign d request ishost lifespan keyid principals w = (Return (Ok out), w') →
  Second ≤ lifespan ∧ principals ≠ [] ∧
  ∃ pubkey cert t1 t2,
    ssh_ParseAuthorizedKey request = Ok (pubkey, "") ∧
    ssh_ParseAuthorizedKey out = Ok (SSHCertificate pubkey cert, "") ∧
    ssh_ValidPrincipals cert = principals ∧ ssh_KeyId cert = keyid ∧
    ssh_CertType cert = certType ishost ∧ ssh_Extensions cert = [("permit-pty", "")] ∧
    now (os w) ≤ t1 ≤ t2 ∧ t2 ≤ now (os w') ∧
    ssh_ValidAfter cert = uint64 (Unix t1) ∧ ssh_ValidBefore cert = uint64 (Unix (t2 + lifespan)) ∧
    (0 ≤ Unix t1 → Unix (t2 + lifespan) < 2 ^ 64 → ssh_ValidAfter cert < ssh_ValidBefore cert) ∧
    0 ≤ ssh_Serial cert < 2 ^ 64.
Proof. apply SSH_Sign_inv. Qed.

(** ** Runs on concrete inputs *)

Definition sample_tls : TLSAuthority :=
  mkTLSAuthority ca_key (pem_key ca_key) ca_cert (pem_cert (Raw ca_cert)).
Definition sample_ssh : SSHAuthority := mkSSHAuthority (mkSigner (SSHKey "ssh-rsa" "ca") "PRIVATE ca") "ca.pub".

Example LoadTLSAuthority_ex :
  LoadTLSAuthority (pem_key ca_key) (pem_cert (Raw ca_cert)) = Ok (ATLS sample_tls).
Proof. vm_compute. reflexivity. Qed.
Example LoadTLSAuthority_mismatch :
  LoadTLSAuthority (pem_key node_key) (pem_cert (Raw ca_cert)) =
    Err (errors_New "mismatched RSA public and private keys").
Proof. vm_compute. reflexivity. Qed.

Lemma TLS_Sign_spec_witness :
  PublicKey (tls_cert sample_tls) = RSAPublicKey (rsa_N (tls_key sample_tls)) ∧
  match TLS_Sign sample_tls sample_csr true 5000000000 "cn" ["10.0.0.1"; "a.b"] ["org"]
          (mkWorld (os_random 7) tt) with
  | (Return (Ok out), _) =>
      ∃ cert, LoadX509CertFromPEM out = Ok cert ∧ CommonName (Subject cert) = "cn" ∧ Organization (Subject cert) = ["org"]
  | _ => False
  end.
Proof.
  split; [reflexivity|]. run_ok E.
  destruct (TLS_Sign_spec sample_tls sample_csr true 5000000000 "cn" ["10.0.0.1"; "a.b"] ["org"]
              (mkWorld (os_random 7) tt) eq_refl) as (r & w' & E' & _ & _ & Hok).
  rewrite E in E'. injection E' as <- <-.
  destruct (Hok _ eq_refl) as (csr & cert & t & _ & _ & Hc & _ & _ & _ & Hcn & Hsub & _).
  exists cert. split; [exact Hc|]. split; [exact Hcn|exact Hsub].
Defined.

Definition sample_request : Request :=
  mkRequest "POST" (at_path "/apirequest") "10.0.0.1:999" ∅
    (Some [[sample_cert node_key "node" 0 100000000000]]) (Ok "").

Example TLS_Verify_ex :
  fst (TLS_Verify sample_tls sample_request (mkWorld (os0 5) tt)) = Return (Ok "node").
Proof. vm_compute. reflexivity. Qed.

Lemma SSH_Sign_spec_witness :
  match SSH_Sign sample_ssh host_pubkey true 5000000000 "id" ["a"; "b"]
          (mkWorld (with_entropy ["AAAAAAAA"; "r"] (os0 7)) tt) with
  | (Return (Ok out), _) =>
      ∃ pubkey cert, ssh_ParseAuthorizedKey out = Ok (SSHCertificate pubkey cert, "") ∧
        ssh_ValidPrincipals cert = ["a"; "b"]
  | _ => False
  end.
Proof.
  run_ok E. destruct (SSH_Sign_spec sample_ssh _ _ _ _ _ _ _ _ E)
    as (_ & _ & pk & cert & t1 & t2 & _ & Hp & Hv & _).
  exists pk, cert. split; [exact Hp|exact Hv].
Defined.
