(* ===== verification/KsState.v ===== *)
(** * The memory of the key server

    The structs of [src/platform/keysystem/keyserver] that are shared by
    pointer, and the store that holds them: tokens and their [sync.Once] cells,
    accounts, groups, the context and the server. A pointer is a number, 0 is
    nil; dereferencing a pointer that is not allocated panics. *)

From S2P Require Import Prelude GoStrings GoNet GoOS GoErrors GoCrypto GoHTTP Authorities.
#[export] Set Default Goal Selector "!".

Abbreviation ptr := nat (only parsing).

(** ** Structs *)

(** token/scoped/token.go *)
Record ScopedToken := mkScopedToken {
  Token : string;
  tok_Subject : string;
  expires : Z;
  claimed : ptr              (* *sync.Once *)
}.

(** The closures that account/privileges.go makes, as their captured variables. *)
Inductive Privilege :=
| TLSGrantPrivilege (tauth : TLSAuthority) (ishost : bool) (lifespan : Z) (commonname : string)
    (dnsnames organizations : list string)
| SSHGrantPrivilege (tauth : SSHAuthority) (ishost : bool) (lifespan : Z) (keyid : string)
    (principals : list string)
| BootstrapPrivilege (allowed : ptr) (lifespan : Z) (registry : ptr)
| ImpersonatePrivilege (context : ptr) (scope : ptr)     (* getAccount is context.GetAccount *)
| ConfigurationPrivilege (contents : string)
| FetchKeyPrivilege (static : TLSAuthority).

(** account/account.go *)
Record Account := mkAccount {
  Principal : string;
  DisableDirectAuth : bool;
  LimitIP : option IP;
  Privileges : gmap string Privilege
}.
Record Group := mkGroup { AllMembers : list ptr }.

(** config/context.go; [TokenVerifier] holds a pointer to its registry. *)
Record Context := mkContext {
  Authorities : gmap string Authority;
  Accounts : gmap string ptr;
  TokenVerifier : ptr;
  AuthenticationAuthority : option TLSAuthority;
  ClusterCA : option TLSAuthority;
  StaticFiles : gmap string string;
  KeyserverDNS : string
}.

(** The served certificate: [tls.Certificate] with its parsed leaf. *)
Record ServedCert := mkServedCert {
  served_chain : list string;
  served_key : rsa_PrivateKey;
  served_leaf : Certificate
}.

(** keyapi/api.go *)
Record ConfiguredKeyserver := mkKeyserver {
  ks_Context : ptr;
  ServerKey : string;
  ServerCert : option ServedCert
}.

(** ** The store *)

Record Mem := mkMem {
  registries : gmap ptr (gmap string ScopedToken);
  onces : gmap ptr bool;
  accounts : gmap ptr Account;
  groups : gmap ptr Group;
  contexts : gmap ptr Context;
  servers : gmap ptr ConfiguredKeyserver;
  response : Response;
  next_ptr : ptr
}.
Definition mem0 : Mem := mkMem ∅ ∅ ∅ ∅ ∅ ∅ empty_response 1.

Definition with_registries f (m : Mem) : Mem :=
  mkMem (f (registries m)) (onces m) (accounts m) (groups m) (contexts m) (servers m) (response m) (next_ptr m).
Definition with_onces f (m : Mem) : Mem :=
  mkMem (registries m) (f (onces m)) (accounts m) (groups m) (contexts m) (servers m) (response m) (next_ptr m).
Definition with_accounts f (m : Mem) : Mem :=
  mkMem (registries m) (onces m) (f (accounts m)) (groups m) (contexts m) (servers m) (response m) (next_ptr m).
Definition with_groups f (m : Mem) : Mem :=
  mkMem (registries m) (onces m) (accounts m) (f (groups m)) (contexts m) (servers m) (response m) (next_ptr m).
Definition with_contexts f (m : Mem) : Mem :=
  mkMem (registries m) (onces m) (accounts m) (groups m) (f (contexts m)) (servers m) (response m) (next_ptr m).
Definition with_servers f (m : Mem) : Mem :=
  mkMem (registries m) (onces m) (accounts m) (groups m) (contexts m) (f (servers m)) (response m) (next_ptr m).
Definition with_response r (m : Mem) : Mem :=
  mkMem (registries m) (onces m) (accounts m) (groups m) (contexts m) (servers m) r (next_ptr m).
Definition with_next n (m : Mem) : Mem :=
  mkMem (registries m) (onces m) (accounts m) (groups m) (contexts m) (servers m) (response m) n.

#[export] Program Instance mem_writer : HasWriter Mem := {|
  writer := response;
  set_writer := with_response
|}.
Next Obligation. done. Qed.

Abbreviation KS := (M (World Mem)).

(** [*p] for a pointer into one part of the store. *)
Definition load {A} (part : Mem → gmap ptr A) (p : ptr) : KS A :=
  o ← gets (λ w, part (comp w) !! p);
  match o with
  | Some a => mret a
  | None => panic "invalid memory address or nil pointer dereference"
  end.

(** The address of a new object. *)
Definition fresh_ptr : KS ptr :=
  p ← gets (λ w, next_ptr (comp w));
  _ ← modify (on_comp (with_next (S p)));
  mret p.

Definition new_registry (t : gmap string ScopedToken) : KS ptr :=
  p ← fresh_ptr; _ ← modify (on_comp (with_registries (insert p t))); mret p.
Definition new_once : KS ptr :=
  p ← fresh_ptr; _ ← modify (on_comp (with_onces (insert p false))); mret p.
Definition new_account (a : Account) : KS ptr :=
  p ← fresh_ptr; _ ← modify (on_comp (with_accounts (insert p a))); mret p.
Definition new_group (g : Group) : KS ptr :=
  p ← fresh_ptr; _ ← modify (on_comp (with_groups (insert p g))); mret p.
Definition new_context (c : Context) : KS ptr :=
  p ← fresh_ptr; _ ← modify (on_comp (with_contexts (insert p c))); mret p.
Definition new_server (k : ConfiguredKeyserver) : KS ptr :=
  p ← fresh_ptr; _ ← modify (on_comp (with_servers (insert p k))); mret p.

(** ** Frames of the store *)

Definition mem_same {T} (f : Mem → T) : relation (World Mem) := same (λ w, f (comp w)).
#[export] Instance mem_same_equiv {T} (f : Mem → T) : Equivalence (mem_same f).
Proof. apply same_equiv. Qed.

Lemma os_only_mem {T A} (f : Mem → T) (m : KS A) : keeps os_only m → keeps (mem_same f) m.
Proof. intros H w. specialize (H w). unfold os_only, mem_same, same in *. by rewrite H. Qed.

(** Only the store changes. *)
Definition same_os : relation (World Mem) := same os.
#[export] Instance same_os_equiv : Equivalence same_os.
Proof. apply same_equiv. Qed.

Lemma same_os_later {A} (m : KS A) : keeps same_os m → keeps later m.
Proof. intros H w. unfold later. rewrite (H w). lia. Qed.
Lemma same_os_fs {A} (m : KS A) : keeps same_os m → keeps same_fs m.
Proof. intros H w. unfold same_fs, same. by rewrite (H w). Qed.

Lemma load_eq {A} (part : Mem → gmap ptr A) p w a :
  part (comp w) !! p = Some a → load part p w = (Return a, w).
Proof. intros H. unfold load, mbind, M_bind, gets. by rewrite H. Qed.
Lemma load_inv {A} (part : Mem → gmap ptr A) p w a w' :
  load part p w = (Return a, w') → part (comp w) !! p = Some a ∧ w' = w.
Proof.
  unfold load, mbind, M_bind, gets. destruct (part (comp w) !! p); [|done]. by intros [= <- <-].
Qed.
Lemma load_keeps {A} R `{!PreOrder R} (part : Mem → gmap ptr A) p : keeps R (load part p).
Proof. intros w. unfold load, mbind, M_bind, gets. by destruct (part (comp w) !! p). Qed.

#[export] Hint Extern 2 (keeps _ (load _ _)) => (apply load_keeps; exact _) : go.
#[export] Hint Extern 3 (keeps (mem_same _) (modify _)) =>
  (apply keeps_modify; intros ?; reflexivity) : go.
#[export] Hint Extern 3 (keeps same_os (modify _)) =>
  (apply keeps_modify; intros ?; reflexivity) : go.
#[export] Hint Extern 4 (keeps (mem_same _) _) =>
  (apply os_only_mem; solve [eauto 3 with go]) : go.
