(* ===== verification/Token.v ===== *)
(** * Bootstrap tokens: keyserver/token, keyserver/token/scoped, keyserver/verifier

    The registry of single-use tokens as sequential code, then the same code as
    the atomic steps of threads that run at the same time: the registry's mutex
    and the [sync.Once] of a token are what makes each step atomic. *)

From S2P Require Import Prelude GoStrings GoOS GoErrors GoCodec GoCrypto GoHTTP Authorities KsState Samples.
#[export] Set Default Goal Selector "!".

(** ** scoped/token.go *)

Definition HasExpired (t : ScopedToken) : KS bool :=
  n ← time_Now; mret (expires t <? n).

(** [o.Do(func() { hasClaimed = true })]: the value of [hasClaimed] after it. *)
Definition once_Do (o : ptr) : KS bool :=
  done ← load onces o;
  if (done : bool) then mret false
  else _ ← modify (on_comp (with_onces (insert o true))); mret true.

Definition Claim (t : ScopedToken) : KS (result unit) :=
  e ← HasExpired t;
  if (e : bool) then fail (ErrorString "cannot claim expired token")
  else
    hasClaimed ← once_Do (claimed t);
    if (hasClaimed : bool) then ok tt else fail (ErrorString "token already claimed").

(** The identifier made of 15 random bytes. *)
Definition token_id (out : string) : string :=
  let hash := base64_RawStdEncode out in
  let hashSha256 := sha256_Sum256 hash in
  hash +:+ take_s 2 (base64_RawStdEncode hashSha256).
Definition generateTokenID : KS string :=
  out ← rand_Read 15;
  match out with
  | Err err => panic (Error err)
  | Ok out => mret (token_id out)
  end.

Definition GenerateToken (subject : string) (duration : Z) : KS ScopedToken :=
  id ← generateTokenID;
  n ← time_Now;
  o ← new_once;
  mret (mkScopedToken id subject (n + duration) o).

(** ** registry.go *)

Definition LookupToken (r : ptr) (token : string) : KS (result ScopedToken) :=
  byToken ← load registries r;
  match byToken !! token with
  | None => fail (ErrorString "unrecognized token")
  | Some tokdata => ok tokdata
  end.

Definition set_registry (r : ptr) (byToken : gmap string ScopedToken) : KS unit :=
  modify (on_comp (with_registries (insert r byToken))).

Definition addToken (r : ptr) (token : ScopedToken) : KS unit :=
  byToken ← load registries r;
  match byToken !! Token token with
  | Some _ => panic "Token collision (is that even possible?)"
  | None => set_registry r (<[Token token := token]> byToken)
  end.

(** The loop over the entries; the clock is read for each. *)
Fixpoint expire_entries (r : ptr) (l : list (string * ScopedToken)) : KS unit :=
  match l with
  | [] => mret tt
  | (k, v) :: l =>
      e ← HasExpired v;
      _ ← (if (e : bool) then byToken ← load registries r; set_registry r (delete k byToken) else mret tt);
      expire_entries r l
  end.
Definition expireOldEntries (r : ptr) : KS unit :=
  byToken ← load registries r;
  expire_entries r (map_to_list byToken).

Definition GrantToken (r : ptr) (subject : string) (lifespan : Z) : KS string :=
  _ ← expireOldEntries r;
  token ← GenerateToken subject lifespan;
  _ ← addToken r token;
  mret (Token token).

Definition NewTokenRegistry : KS ptr := new_registry ∅.

(** ** verifier/token.go *)

Definition TokenHeader : string := "X-Bootstrap-Token".
(** A [TokenVerifier] is its registry. *)
Definition NewTokenVerifier : KS ptr := NewTokenRegistry.
Definition Token_HasAttempt (v : ptr) (request : Request) : bool :=
  negb (bool_decide (Header_Get (Header request) TokenHeader = "")).
Definition Token_Verify (v : ptr) (request : Request) : KS (result string) :=
  let tokens := Header_Get (Header request) TokenHeader in
  if bool_decide (tokens = "") then fail (ErrorString "no token authentication header provided")
  else
    tok ←? LookupToken v tokens;
    Claim tok ;?
    ok (tok_Subject tok).

(** ** Threads *)

(** Where a goroutine is in [Token_Verify] or in [GrantToken], between two of
    its critical sections. *)
Inductive thread :=
| VLookup (tokens : string)
| VExpiry (tok : ScopedToken)
| VOnce (tok : ScopedToken)
| VOk (tok : ScopedToken)            (* returned the subject of [tok] *)
| VErr (err : error)
| GExpire (subject : string) (lifespan : Z)
| GGenerate (subject : string) (lifespan : Z)
| GAdd (token : ScopedToken)
| GDone (token : string)
| GPanic (why : string).

(** One critical section of a thread. *)
Definition thread_step (r : ptr) (t : thread) : KS thread :=
  match t with
  | VLookup s =>
      res ← LookupToken r s;
      mret match res with Ok tok => VExpiry tok | Err e => VErr e end
  | VExpiry tok =>
      e ← HasExpired tok;
      mret (if (e : bool) then VErr (ErrorString "cannot claim expired token") else VOnce tok)
  | VOnce tok =>
      c ← once_Do (claimed tok);
      mret (if (c : bool) then VOk tok else VErr (ErrorString "token already claimed"))
  | GExpire s d => _ ← expireOldEntries r; mret (GGenerate s d)
  | GGenerate s d => tok ← GenerateToken s d; mret (GAdd tok)
  | GAdd tok => _ ← addToken r tok; mret (GDone (Token tok))
  | VOk _ | VErr _ | GDone _ | GPanic _ => mret t
  end.

(** A step of the program: one thread runs a critical section; a panic ends it.
    The machine may move on in between. *)
Inductive step (r : ptr) : World Mem * list thread → World Mem * list thread → Prop :=
| step_thread w l1 t l2 t' w' :
    thread_step r t w = (Return t', w') →
    step r (w, l1 ++ t :: l2) (w', l1 ++ t' :: l2)
| step_panic w l1 t l2 why w' :
    thread_step r t w = (Panic why, w') →
    step r (w, l1 ++ t :: l2) (w', l1 ++ GPanic why :: l2)
| step_os w ts o :
    now (os w) ≤ now o →
    step r (w, ts) (mkWorld o (comp w), ts)
| step_new w ts t :
    (∃ s, t = VLookup s) ∨ (∃ s d, t = GExpire s d) →
    step r (w, ts) (w, ts ++ [t]).

(** ** Frames *)

Lemma HasExpired_spec t w :
  HasExpired t w =
    let n := now (os w) + Z.of_N (default 0%N (head (ticks (os w)))) in
    (Return (expires t <? n), on_os (with_clock n (tail (ticks (os w)))) w).
Proof. reflexivity. Qed.

Lemma HasExpired_os_only t : keeps os_only (HasExpired t).
Proof. unfold HasExpired. os_frame. Qed.
Lemma HasExpired_later t : keeps later (HasExpired t).
Proof. unfold HasExpired. os_frame. Qed.
Lemma HasExpired_fs t : keeps same_fs (HasExpired t).
Proof. unfold HasExpired. os_frame. Qed.
#[export] Hint Resolve HasExpired_os_only HasExpired_later HasExpired_fs : go.

Lemma once_Do_same_os o : keeps same_os (once_Do o).
Proof. unfold once_Do. os_frame. Qed.
Lemma set_registry_same_os r m : keeps same_os (set_registry r m).
Proof. intros w. reflexivity. Qed.
#[export] Hint Resolve once_Do_same_os set_registry_same_os : go.
#[export] Hint Extern 4 (keeps later _) => (apply same_os_later; solve [eauto 3 with go]) : go.
#[export] Hint Extern 4 (keeps same_fs _) => (apply same_os_fs; solve [eauto 3 with go]) : go.

Lemma expire_entries_later r l : keeps later (expire_entries r l).
Proof. induction l as [|[k v] l IH]; simpl; os_frame. Qed.
Lemma expire_entries_fs r l : keeps same_fs (expire_entries r l).
Proof. induction l as [|[k v] l IH]; simpl; os_frame. Qed.
#[export] Hint Resolve expire_entries_later expire_entries_fs : go.
Lemma expireOldEntries_later r : keeps later (expireOldEntries r).
Proof. unfold expireOldEntries. os_frame. Qed.
Lemma expireOldEntries_fs r : keeps same_fs (expireOldEntries r).
Proof. unfold expireOldEntries. os_frame. Qed.
#[export] Hint Resolve expireOldEntries_later expireOldEntries_fs : go.

(** The parts of the store that the token code does not touch. *)
Definition tokens_only : relation (World Mem) :=
  λ w w', accounts (comp w') = accounts (comp w) ∧ groups (comp w') = groups (comp w) ∧
          contexts (comp w') = contexts (comp w) ∧ servers (comp w') = servers (comp w) ∧
          response (comp w') = response (comp w).
#[export] Instance tokens_only_preorder : PreOrder tokens_only.
Proof.
  split; [by intros w|]. intros w1 w2 w3 (? & ? & ? & ? & ?) (? & ? & ? & ? & ?).
  unfold tokens_only. split_and!; congruence.
Qed.
Lemma os_only_tokens {A} (m : KS A) : keeps os_only m → keeps tokens_only m.
Proof. intros H w. specialize (H w). unfold os_only, tokens_only, same in *. by rewrite H. Qed.
#[export] Hint Extern 4 (keeps tokens_only _) =>
  first [apply os_only_tokens; solve [eauto 3 with go]
        |apply keeps_modify; intros ?; by split_and!] : go.

Lemma set_registry_tokens r m : keeps tokens_only (set_registry r m).
Proof. intros w. by split_and!. Qed.
#[export] Hint Resolve set_registry_tokens : go.
Lemma new_once_tokens : keeps tokens_only new_once.
Proof. intros w. by split_and!. Qed.
#[export] Hint Resolve new_once_tokens : go.
Lemma expire_entries_tokens r l : keeps tokens_only (expire_entries r l).
Proof. induction l as [|[k v] l IH]; simpl; os_frame. Qed.
#[export] Hint Resolve expire_entries_tokens : go.
Lemma generateTokenID_os_only : keeps os_only generateTokenID.
Proof. unfold generateTokenID. os_frame. Qed.
Lemma generateTokenID_later : keeps later generateTokenID.
Proof. unfold generateTokenID. os_frame. Qed.
Lemma generateTokenID_fs : keeps same_fs generateTokenID.
Proof. unfold generateTokenID. os_frame. Qed.
#[export] Hint Resolve generateTokenID_os_only generateTokenID_later generateTokenID_fs : go.
Lemma new_once_same_os : keeps same_os new_once.
Proof. intros w. reflexivity. Qed.
#[export] Hint Resolve new_once_same_os : go.
Lemma GrantToken_tokens r s d : keeps tokens_only (GrantToken r s d).
Proof. unfold GrantToken, expireOldEntries, GenerateToken, addToken. os_frame. Qed.
Lemma GrantToken_later r s d : keeps later (GrantToken r s d).
Proof. unfold GrantToken, GenerateToken, addToken. os_frame. Qed.
Lemma GrantToken_fs r s d : keeps same_fs (GrantToken r s d).
Proof. unfold GrantToken, GenerateToken, addToken. os_frame. Qed.
Lemma Token_Verify_tokens r q : keeps tokens_only (Token_Verify r q).
Proof. unfold Token_Verify, LookupToken, Claim, once_Do. os_frame. Qed.
Lemma Token_Verify_later r q : keeps later (Token_Verify r q).
Proof. unfold Token_Verify, LookupToken, Claim. os_frame. Qed.
Lemma Token_Verify_fs r q : keeps same_fs (Token_Verify r q).
Proof. unfold Token_Verify, LookupToken, Claim. os_frame. Qed.
#[export] Hint Resolve GrantToken_tokens GrantToken_later GrantToken_fs Token_Verify_tokens
  Token_Verify_later Token_Verify_fs : go.

(** ** Expiry *)

(** The registry [r] after a computation, given the one before. *)
Definition registry_to (r : ptr) (w : World Mem) (reg' : gmap string ScopedToken) (w' : World Mem) : Prop :=
  registries (comp w') !! r = Some reg' ∧ onces (comp w') = onces (comp w) ∧
  next_ptr (comp w') = next_ptr (comp w) ∧ now (os w) ≤ now (os w').

Lemma HasExpired_inv t w e w' :
  HasExpired t w = (Return e, w') →
  comp w' = comp w ∧ now (os w) ≤ now (os w') ∧ e = (expires t <? now (os w')).
Proof. rewrite HasExpired_spec. intros [= <- <-]. simpl. split_and!; [done|lia|done]. Qed.

Lemma expire_entries_spec r l w reg :
  registries (comp w) !! r = Some reg →
  ∃ w' reg', expire_entries r l w = (Return tt, w') ∧ registry_to r w reg' w' ∧
    (∀ k, reg' !! k = reg !! k ∨ reg' !! k = None ∧ ∃ v, (k, v) ∈ l ∧ expires v < now (os w')) ∧
    (∀ k v, (k, v) ∈ l → expires v < now (os w) → reg' !! k = None).
Proof.
  revert w reg. induction l as [|[k v] l IH]; intros w reg Hr; cbn [expire_entries].
  - exists w, reg. split; [done|]. split; [by split_and!|]. split; [auto|].
    intros k v Hin. by apply elem_of_nil in Hin.
  - pose proof (HasExpired_spec v w) as Hv. cbv zeta in Hv. rewrite (bind_Return _ _ _ _ _ Hv).
    set (w1 := on_os _ w) in *. pose proof (HasExpired_inv _ _ _ _ Hv) as (Hc & Hle & He).
    set (n1 := now _ + _) in *. assert (now (os w1) = n1) as Hn1 by done. clearbody w1 n1.
    assert (∃ w2 reg2, ((if expires v <? n1 then byToken ← load registries r; set_registry r (delete k byToken)
                          else mret tt) : KS unit) w1 = (Return tt, w2) ∧ registry_to r w1 reg2 w2 ∧ os w2 = os w1 ∧
              reg2 = if expires v <? n1 then delete k reg else reg) as (w2 & reg2 & E2 & H2 & Hos & Hreg2).
    { destruct (expires v <? n1).
      - eexists _, (delete k reg). rewrite (bind_Return _ _ _ reg w1) by (apply load_eq; by rewrite Hc).
        split; [done|]. split; [|done]. split_and!; [|done..|simpl; lia].
        simpl. by rewrite lookup_insert_eq.
      - exists w1, reg. split; [done|]. split; [|done]. split_and!; [by rewrite Hc|done..|lia]. }
    rewrite (bind_Return _ _ _ _ _ E2). destruct H2 as (Hr2 & Ho2 & Hp2 & _).
    destruct (IH w2 reg2 Hr2) as (w' & reg' & E' & (Hr' & Ho' & Hp' & Hl') & Hsome & Hnone).
    exists w', reg'. split; [done|].
    assert (now (os w2) = n1) as Hn2 by (rewrite Hos; done).
    split; [split_and!; [done|by rewrite Ho', Ho2, Hc|by rewrite Hp', Hp2, Hc|lia]|].
    assert (Hn : now (os w) ≤ n1) by lia. split.
    + intros k'. destruct (Hsome k') as [Hk|(Hk & v' & Hin & Hexp)].
      2: { right. split; [done|]. exists v'. split; [by right|done]. }
      rewrite Hk, Hreg2. destruct (Z.ltb_spec (expires v) n1); [|by left].
      destruct (decide (k' = k)) as [->|Hne]; [right|left; by apply lookup_delete_ne].
      split; [apply lookup_delete_eq|]. exists v. split; [by left|lia].
    + intros k' v' [[= -> ->]|Hin]%elem_of_cons Hexp.
      * destruct (Hsome k) as [Hk|(Hk & _)]; [|done]. rewrite Hk, Hreg2.
        rewrite (proj2 (Z.ltb_lt _ _)) by lia. apply lookup_delete_eq.
      * apply (Hnone k' v' Hin). lia.
Qed.

(** [expireOldEntries] removes every token that had expired when it started
    and no token that has not expired when it ends; it changes nothing else. *)
Lemma expireOldEntries_run r w reg :
  registries (comp w) !! r = Some reg →
  ∃ w' reg', expireOldEntries r w = (Return tt, w') ∧ registry_to r w reg' w' ∧
    (∀ k, reg !! k = None → reg' !! k = None) ∧
    ∀ k tok, reg !! k = Some tok →
      (expires tok < now (os w) → reg' !! k = None) ∧
      (now (os w') ≤ expires tok → reg' !! k = Some tok) ∧
      (∀ tok', reg' !! k = Some tok' → tok' = tok ∧ now (os w) ≤ expires tok).
Proof.
  intros Hr. unfold expireOldEntries. rewrite (bind_Return _ _ _ reg w) by by apply load_eq.
  destruct (expire_entries_spec r (map_to_list reg) w reg Hr) as (w' & reg' & E & Hreg & Hsome & Hnone).
  exists w', reg'. split; [done|]. split; [done|].
  split; [intros k Hk; by destruct (Hsome k) as [->|[-> _]]|]. intros k tok Hk. split_and!.
  - intros He. apply (Hnone k tok); [by apply elem_of_map_to_list|done].
  - intros He. destruct (Hsome k) as [->|(_ & v & Hv%elem_of_map_to_list & Hlt)]; [done|].
    simplify_eq. lia.
  - intros tok' Hk'. destruct (Hsome k) as [Hs|[Hs _]]; [|congruence].
    assert (tok' = tok) as -> by congruence. split; [done|].
    destruct (Z.lt_ge_cases (expires tok) (now (os w))) as [Hlt|]; [|done].
    rewrite (Hnone k tok) in Hk'; [done|by apply elem_of_map_to_list|done].
Qed.

(** ** Granting *)

(** The once cells are below the next free address. *)
Definition onces_bounded (m : Mem) : Prop := ∀ p b, onces m !! p = Some b → (p < next_ptr m)%nat.

Lemma generateTokenID_inv w id w' :
  generateTokenID w = (Return id, w') →
  comp w' = comp w ∧ now (os w') = now (os w) ∧ ∃ out, String.length out = 15%nat ∧ id = token_id out.
Proof.
  unfold generateTokenID. intros ([out|e] & w1 & H1 & H2)%bind_inv; [|done].
  injection H2 as <- <-. unfold rand_Read in H1.
  apply bind_inv in H1 as ([c|] & w2 & H2 & H1); [|done].
  unfold rand_chunk in H2. injection H2 as H2 <-. case_bool_decide; [|done].
  injection H1 as -> <-. split_and!; [done..|]. by exists out.
Qed.

(** C32: a granted token is new: no unexpired token of the registry is lost or
    changed, the new one is unclaimed, for the subject asked for, and expires a
    lifespan after the call. Only expired entries go. A collision with a live
    token, or a random source that fails, is a panic and never a shared token. *)
Theorem GrantToken_spec r subject lifespan w reg s w' :
  onces_bounded (comp w) →
  registries (comp w) !! r = Some reg →
  GrantToken r subject lifespan w = (Return s, w') →
  ∃ reg' tok, registries (comp w') !! r = Some reg' ∧
    reg' !! s = Some tok ∧ Token tok = s ∧ tok_Subject tok = subject ∧
    now (os w) + lifespan ≤ expires tok ≤ now (os w') + lifespan ∧
    onces (comp w') !! claimed tok = Some false ∧ onces (comp w) !! claimed tok = None ∧
    (∃ out, String.length out = 15%nat ∧ s = token_id out) ∧
    (∀ t, reg !! s = Some t → expires t < now (os w')) ∧
    (∀ k t, k ≠ s → reg' !! k = Some t → reg !! k = Some t ∧ now (os w) ≤ expires t) ∧
    (∀ k t, k ≠ s → reg !! k = Some t → now (os w') ≤ expires t → reg' !! k = Some t).
Proof.
  intros Hb Hr H. unfold GrantToken in H. apply bind_inv in H as ([] & w1 & H1 & H).
  destruct (expireOldEntries_run r w reg Hr) as (w1' & reg1 & E1 & (Hr1 & Ho1 & Hp1 & Hl1) & Hnone1 & Hk1).
  rewrite E1 in H1. injection H1 as <-.
  apply bind_inv in H as (tok & w2 & H2 & H). unfold GenerateToken in H2.
  apply bind_inv in H2 as (id & w3 & (Hc3 & Hn3 & Hid)%generateTokenID_inv & H2).
  apply bind_inv in H2 as (n & w4 & H4 & H2). unfold time_Now in H4. injection H4 as Hn4 <-.
  apply bind_inv in H2 as (o & w5 & H5 & H2). injection H2 as <- <-.
  injection H5 as <- <-. simpl in *.
  apply bind_inv in H as ([] & w6 & H6 & H). injection H as <- <-. unfold addToken in H6.
  apply bind_inv in H6 as (reg6 & w7 & (Hr6 & ->)%load_inv & H6). simpl in Hr6.
  rewrite Hc3 in Hr6. assert (reg6 = reg1) as -> by congruence. simpl in H6.
  destruct (reg1 !! id) as [t0|] eqn:Hid1; [done|]. injection H6 as <-. simpl.
  rewrite Hc3. clear E1. eexists _, _. split; [apply lookup_insert_eq|].
  split; [apply lookup_insert_eq|]. simpl. rewrite Ho1, Hp1. split_and!; try done; try lia.
  - by rewrite lookup_insert_eq.
  - apply eq_None_not_Some. intros [b Hbb]. apply Hb in Hbb. lia.
  - intros t Ht. destruct (Hk1 _ _ Ht) as (_ & Hkeep & _).
    destruct (Z.lt_ge_cases (expires t) (now (os w1'))) as [|Hge]; [lia|].
    rewrite Hkeep in Hid1; [done|lia].
  - intros k t Hk. rewrite lookup_insert_ne by done. intros Ht.
    destruct (reg !! k) as [t0|] eqn:Hk0.
    + destruct (Hk1 _ _ Hk0) as (_ & _ & Hs). destruct (Hs t Ht) as [-> ?]. done.
    + rewrite Hnone1 in Ht; done.
  - intros k t Hk Ht Hlt. rewrite lookup_insert_ne by done. apply (Hk1 _ _ Ht). lia.
Qed.

(** ** Verifying *)

Lemma once_Do_inv o w b w' :
  once_Do o w = (Return b, w') →
  onces (comp w) !! o = Some (negb b) ∧
  comp w' = (if b then with_onces (insert o true) (comp w) else comp w) ∧ os w' = os w.
Proof.
  unfold once_Do. intros (d & w1 & (Hd & ->)%load_inv & H)%bind_inv.
  destruct d; injection H as <- <-; by split_and!.
Qed.

(** a bootstrap token authenticates its subject exactly when it is in the
    registry, has not expired and was not claimed; doing so claims it. *)
Lemma Token_Verify_inv v request w principal w' :
  Token_Verify v request w = (Return (Ok principal), w') →
  ∃ reg tok,
    Header_Get (Header request) TokenHeader ≠ "" ∧
    registries (comp w) !! v = Some reg ∧
    reg !! Header_Get (Header request) TokenHeader = Some tok ∧
    principal = tok_Subject tok ∧ now (os w') ≤ expires tok ∧
    onces (comp w) !! claimed tok = Some false ∧
    comp w' = with_onces (insert (claimed tok) true) (comp w).
Proof.
  unfold Token_Verify. case_bool_decide as Ht; [done|].
  intros (tok & w1 & H1 & H)%try_bind_Ok_inv.
  apply try_bind_Ok_inv in H as ([] & w2 & H2 & H). injection H as <- <-.
  unfold LookupToken in H1. apply bind_inv in H1 as (reg & w3 & (Hr & ->)%load_inv & H1).
  destruct (reg !! _) as [tok'|] eqn:Hk; [|done]. injection H1 as -> <-.
  unfold Claim in H2. apply bind_inv in H2 as (e & w4 & (Hc4 & Hl4 & He)%HasExpired_inv & H2).
  destruct e; [done|]. apply bind_inv in H2 as (b & w5 & (Ho & Hc5 & Hos)%once_Do_inv & H2).
  destruct b; [|done]. injection H2 as <-. exists reg, tok. rewrite Hc5, Hos, <- Hc4.
  split_and!; try done.
  - by rewrite Hc4.
  - symmetry in He. apply Z.ltb_ge in He. done.
Qed.

(** *** What is refused *)
Lemma Token_Verify_claimed v request w reg tok :
  registries (comp w) !! v = Some reg →
  reg !! Header_Get (Header request) TokenHeader = Some tok →
  onces (comp w) !! claimed tok = Some true →
  ∃ e w', Token_Verify v request w = (Return (Err e), w').
Proof.
  intros Hr Hk Ho. unfold Token_Verify. case_bool_decide; [by eexists _, _|].
  assert (El : LookupToken v (Header_Get (Header request) TokenHeader) w = (Return (Ok tok), w)).
  { unfold LookupToken. rewrite (bind_Return _ _ _ reg w) by by apply load_eq. by rewrite Hk. }
  assert (∃ e w', Claim tok w = (Return (Err e), w')) as (e & w' & Ec).
  { unfold Claim. rewrite (bind_Return _ _ _ _ _ (HasExpired_spec tok w)).
    destruct (expires tok <? _); [by eexists _, _|]. unfold once_Do.
    set (w1 := on_os _ w). assert (El1 : load onces (claimed tok) w1 = (Return true, w1)) by by apply load_eq.
    eexists _, _. erewrite bind_Return; [|by rewrite (bind_Return _ _ _ _ _ El1)]. done. }
  exists e, w'. rewrite (try_bind_Ok _ _ _ _ _ El). by apply try_bind_Err.
Qed.

(** ** The threads refine the sequential code *)

Definition verified (t : thread) : result string :=
  match t with
  | VOk tok => Ok (tok_Subject tok)
  | VErr e => Err e
  | _ => Err (ErrorString "")
  end.

(** a verifying thread that is not interrupted does, in its three critical
    sections, what [TokenVerifier.Verify] does: the same answer and the same
    state, panics included. *)
Theorem Verify_thread_refines v request w :
  Header_Get (Header request) TokenHeader ≠ "" →
  (t1 ← thread_step v (VLookup (Header_Get (Header request) TokenHeader));
   t2 ← thread_step v t1;
   t3 ← thread_step v t2;
   mret (verified t3)) w = Token_Verify v request w.
Proof.
  intros Ht. unfold Token_Verify. rewrite bool_decide_false by done.
  set (s := Header_Get _ _). clearbody s. clear Ht. cbn [thread_step].
  unfold LookupToken, Claim, try_bind, load, gets, mbind, M_bind, mret, M_ret.
  destruct (registries (comp w) !! v) as [reg|]; [|done].
  destruct (reg !! s) as [tok|]; [|done]. cbn [thread_step].
  unfold mbind, M_bind, mret, M_ret. rewrite HasExpired_spec. cbv zeta.
  destruct (expires tok <? _); [done|]. cbn [thread_step].
  unfold mbind, M_bind, mret, M_ret.
  by destruct (once_Do (claimed tok) _) as [[[]| |] ?].
Qed.

(** ** Interleavings *)

Definition claims (p : ptr) (t : thread) : bool :=
  match t with VOk tok => bool_decide (claimed tok = p) | _ => false end.
Definition count_claims (p : ptr) (ts : list thread) : nat := length (List.filter (claims p) ts).

Lemma count_claims_app p l1 t l2 :
  count_claims p (l1 ++ t :: l2) =
    (count_claims p (l1 ++ l2) + if claims p t then 1 else 0)%nat.
Proof.
  unfold count_claims. rewrite !List.filter_app, !List.length_app. simpl.
  destruct (claims p t); simpl; lia.
Qed.

(** The invariant: a cell that a thread claimed is set, and by one thread. *)
Definition claims_inv (c : World Mem * list thread) : Prop :=
  onces_bounded (comp c.1) ∧
  ∀ p, (count_claims p c.2 ≤ 1)%nat ∧
       ((0 < count_claims p c.2)%nat → onces (comp c.1) !! p = Some true).

(** Cells are made and set, never reset or dropped. *)
Definition onces_grow : relation (World Mem) := λ w w',
  (onces_bounded (comp w) → onces_bounded (comp w')) ∧
  (onces_bounded (comp w) → ∀ p, onces (comp w) !! p = Some true → onces (comp w') !! p = Some true).
#[export] Instance onces_grow_preorder : PreOrder onces_grow.
Proof. split; [by intros w|]. intros w1 w2 w3 [H1 H2] [H3 H4]. split; auto. Qed.
Lemma os_only_onces {A} (m : KS A) : keeps os_only m → keeps onces_grow m.
Proof. intros H w. specialize (H w). unfold os_only, same in H. unfold onces_grow. by rewrite <- H. Qed.
Lemma set_registry_onces r m : keeps onces_grow (set_registry r m).
Proof. intros w. by split. Qed.
Lemma new_once_onces : keeps onces_grow new_once.
Proof.
  intros w. unfold onces_grow, new_once, onces_bounded. simpl. split.
  - intros Hb p b. rewrite lookup_insert_Some. intros [[<- _]|[_ H]]; [lia|]. apply Hb in H. lia.
  - intros Hb p H. pose proof (Hb _ _ H). rewrite lookup_insert_ne by lia. done.
Qed.
Lemma once_Do_onces o : keeps onces_grow (once_Do o).
Proof.
  intros w. unfold once_Do, load, gets, mbind, M_bind.
  destruct (onces (comp w) !! o) as [[]|] eqn:E; [by split| |by split].
  unfold onces_grow, onces_bounded. simpl. split.
  - intros Hb p b. rewrite lookup_insert_Some. intros [[<- _]|[_ H]]; [by apply Hb in E|].
    by apply Hb in H.
  - intros _ p H. destruct (decide (p = o)) as [->|]; [apply lookup_insert_eq|].
    by rewrite lookup_insert_ne.
Qed.
#[export] Hint Resolve set_registry_onces new_once_onces once_Do_onces : go.
#[export] Hint Extern 4 (keeps onces_grow _) => (apply os_only_onces; solve [eauto 3 with go]) : go.

Lemma expire_entries_onces r l : keeps onces_grow (expire_entries r l).
Proof. induction l as [|[k v] l IH]; simpl; os_frame. Qed.
#[export] Hint Resolve expire_entries_onces : go.

Lemma GrantToken_onces r s d : keeps onces_grow (GrantToken r s d).
Proof. unfold GrantToken, expireOldEntries, GenerateToken, addToken. os_frame. Qed.
Lemma Token_Verify_onces r q : keeps onces_grow (Token_Verify r q).
Proof. unfold Token_Verify, LookupToken, Claim. os_frame. Qed.
#[export] Hint Resolve GrantToken_onces Token_Verify_onces : go.

Lemma thread_step_onces r t : keeps onces_grow (thread_step r t).
Proof.
  unfold thread_step, LookupToken, expireOldEntries, GenerateToken, addToken. os_frame.
Qed.

(** Only the step that runs the [sync.Once] makes a claim. *)
Lemma thread_step_claims r t w t' w' p :
  thread_step r t w = (Return t', w') →
  claims p t' = claims p t ∨
  onces (comp w) !! p = Some false ∧ onces (comp w') !! p = Some true ∧ claims p t = false.
Proof.
  destruct t; cbn [thread_step]; intros H;
    try (apply bind_inv in H as (x & w1 & Hx & H); injection H as <- <-); simplify_eq; try by left.
  - left. by destruct x.
  - left. by destruct x.
  - destruct x; [|by left]. apply once_Do_inv in Hx as (Ho & Hc & _). simpl in *.
    case_bool_decide as Hp; [|by left]. subst p. right. rewrite Hc. simpl.
    by rewrite lookup_insert_eq.
  - injection H as <- <-. by left.
  - injection H as <- <-. by left.
  - injection H as <- <-. by left.
  - injection H as <- <-. by left.
Qed.

Lemma count_claims_step p l1 t t' l2 :
  claims p t' = claims p t → count_claims p (l1 ++ t' :: l2) = count_claims p (l1 ++ t :: l2).
Proof. intros H. by rewrite !count_claims_app, H. Qed.

Lemma step_claims_inv r c c' : step r c c' → claims_inv c → claims_inv c'.
Proof.
  intros Hs [Hb Hc]. destruct Hs as [w l1 t l2 t' w' H|w l1 t l2 why w' H|w ts o Ho|w ts t Ht]; simpl in *.
  - pose proof (thread_step_onces r t w) as [Hb' Hg]. rewrite H in Hb', Hg. simpl in *.
    split; [by apply Hb'|]. intros p. simpl. destruct (Hc p) as [Hle Hset].
    destruct (thread_step_claims _ _ _ _ _ p H) as [He|(Hf & Ht & Hnot)].
    + rewrite (count_claims_step p l1 t t' l2 He). auto.
    + rewrite count_claims_app in *. rewrite Hnot in *. split; [|done].
      destruct (count_claims p (l1 ++ l2)) eqn:E; [destruct (claims p t'); lia|].
      exfalso. assert (onces (comp w) !! p = Some true) by (apply Hset; lia). congruence.
  - pose proof (thread_step_onces r t w) as [Hb' Hg]. rewrite H in Hb', Hg. simpl in *.
    split; [by apply Hb'|]. intros p. simpl. destruct (Hc p) as [Hle Hset].
    rewrite count_claims_app in *. simpl. split; [destruct (claims p t); lia|].
    intros Hpos. apply Hg; [done|]. apply Hset. destruct (claims p t); lia.
  - done.
  - split; [done|]. intros p. simpl. destruct (Hc p) as [Hle Hset].
    rewrite count_claims_app, app_nil_r.
    destruct Ht as [[s ->]|(s & d & ->)]; simpl; rewrite Nat.add_0_r; auto.
Qed.

Lemma claims_distinct p ts i j t1 t2 :
  (count_claims p ts ≤ 1)%nat → ts !! i = Some t1 → ts !! j = Some t2 →
  claims p t1 = true → claims p t2 = true → i = j.
Proof.
  revert i j. induction ts as [|t ts IH]; intros i j Hc Hi Hj H1 H2; [done|].
  unfold count_claims in *. simpl in Hc.
  assert (Hin : ∀ k t', ts !! k = Some t' → claims p t' = true →
    (0 < length (List.filter (claims p) ts))%nat).
  { intros k t' Hk Ht. destruct (List.filter (claims p) ts) eqn:E; [|simpl; lia].
    assert (In t' (List.filter (claims p) ts)) as Hin'.
    { apply filter_In. split; [|done]. apply list_elem_of_In. by eapply list_elem_of_lookup_2. }
    by rewrite E in Hin'. }
  destruct i as [|i], j as [|j]; simpl in *; [done|..].
  - simplify_eq. rewrite H1 in Hc. pose proof (Hin _ _ Hj H2). simpl in Hc. lia.
  - simplify_eq. rewrite H2 in Hc. pose proof (Hin _ _ Hi H1). simpl in Hc. lia.
  - f_equal. apply (IH i j); try done. destruct (claims p t); simpl in *; lia.
Qed.

(** C3: tokens are single-use under every interleaving: whatever the order in
    which the critical sections of any number of verifying and granting
    threads run, and however the clock moves, no two threads that verified a
    token hold the same token. *)
Theorem single_use r w w' ts :
  onces_bounded (comp w) →
  rtc (step r) (w, []) (w', ts) →
  ∀ i j t1 t2, ts !! i = Some (VOk t1) → ts !! j = Some (VOk t2) →
    claimed t1 = claimed t2 → i = j.
Proof.
  intros Hb Hr i j t1 t2 Hi Hj He.
  assert (claims_inv (w', ts)) as [_ Hc].
  { assert (claims_inv (w, [])) as H0 by (split; [done|intros p; unfold count_claims; simpl; lia]).
    revert H0. generalize dependent (w', ts). clear. intros c Hr.
    induction Hr as [c|c c1 c2 Hs _ IH]; [done|]. intros H. apply IH. by eapply step_claims_inv. }
  apply (claims_distinct (claimed t1) ts i j (VOk t1) (VOk t2)); try done.
  - apply Hc.
  - simpl. by apply bool_decide_eq_true.
  - simpl. by apply bool_decide_eq_true.
Qed.

(** every token has 22 characters: 20 that carry its 120 random bits, and
    two that are a checksum, a function of the first 20. *)
Theorem token_id_shape out :
  String.length out = 15%nat →
  String.length (token_id out) = 22%nat ∧
  token_id out = take_s 20 (token_id out) +:+
    take_s 2 (base64_RawStdEncode (sha256_Sum256 (take_s 20 (token_id out)))).
Proof.
  intros Hout. unfold token_id. set (h := base64_RawStdEncode out).
  assert (Hh : String.length h = 20%nat).
  { apply (base64_triples_length false 5). by rewrite length_bytes_of. }
  rewrite length_app_s, length_take_s, Hh.
  assert (2 ≤ String.length (base64_RawStdEncode (sha256_Sum256 h)))%nat.
  { apply base64_two. intros E. apply (f_equal length) in E.
    rewrite length_bytes_of in E. unfold sha256_Sum256 in E. rewrite length_string_of in E.
    rewrite digest_length in E. done. }
  split; [lia|]. by rewrite <- Hh, take_app_s.
Qed.

Lemma token_id_shape_witness :
  String.length "123456789012345" = 15%nat ∧ String.length (token_id "123456789012345") = 22%nat.
Proof. split; [reflexivity|]. apply (token_id_shape "123456789012345" eq_refl). Defined.

(** ** Runs on concrete inputs *)

(** A server with an empty registry at address 1. *)
Definition sample_mem : Mem := with_next 2 (with_registries (insert 1%nat ∅) mem0).
Definition sample_world : World Mem :=
  mkWorld (with_entropy ["123456789012345"; "abcdefghijklmno"] (os0 1000)) sample_mem.
Definition token_request (s : string) : Request :=
  mkRequest "POST" (at_path "/apirequest") "10.0.0.1:999" {[ TokenHeader := [s] ]} None (Ok "").
(** The world after a token was granted, and the token. *)
Definition granted : World Mem := (GrantToken 1 "node" 60 sample_world).2.
Definition granted_token : string :=
  match GrantToken 1 "node" 60 sample_world with (Return s, _) => s | _ => "" end.

Example verify_twice :
  let '(r1, w1) := Token_Verify 1 (token_request granted_token) granted in
  let '(r2, w2) := Token_Verify 1 (token_request granted_token) w1 in
  r1 = Return (Ok "node") ∧ r2 = Return (Err (ErrorString "token already claimed")).
Proof. vm_compute. done. Qed.

Lemma sample_bounded : onces_bounded (comp sample_world).
Proof. intros p b H. vm_compute in H. discriminate H. Qed.

Lemma GrantToken_spec_witness :
  match GrantToken 1 "node" 60 sample_world with
  | (Return s, w') =>
      ∃ reg' tok, registries (comp w') !! 1%nat = Some reg' ∧ reg' !! s = Some tok ∧ tok_Subject tok = "node"
  | _ => False
  end.
Proof.
  run_returned E. rename a into s, w into w'.
  destruct (GrantToken_spec 1 "node" 60 sample_world ∅ s w' sample_bounded eq_refl E)
    as (reg' & tok & Hr & Hk & _ & Hs & _).
  exists reg', tok. split; [exact Hr|]. split; [exact Hk|exact Hs].
Defined.

Lemma Verify_thread_refines_witness :
  Header_Get (Header (token_request "t")) TokenHeader ≠ "" ∧
  (t1 ← thread_step 1 (VLookup "t"); t2 ← thread_step 1 t1; t3 ← thread_step 1 t2;
   mret (verified t3)) granted = Token_Verify 1 (token_request "t") granted.
Proof.
  split; [discriminate|]. apply (Verify_thread_refines 1 (token_request "t") granted). discriminate.
Defined.

(** A schedule: which thread runs its next critical section. *)
Fixpoint run_schedule (r : ptr) (sched : list nat) (c : World Mem * list thread)
    : World Mem * list thread :=
  match sched with
  | [] => c
  | i :: sched =>
      match c.2 !! i with
      | Some t =>
          match thread_step r t c.1 with
          | (Return t', w') => run_schedule r sched (w', take i c.2 ++ t' :: drop (S i) c.2)
          | _ => c
          end
      | None => c
      end
  end.
Lemma run_schedule_steps r sched c : rtc (step r) c (run_schedule r sched c).
Proof.
  revert c. induction sched as [|i sched IH]; intros [w ts]; [done|]. cbn [run_schedule fst snd].
  destruct (ts !! i) as [t|] eqn:Hi; [|done].
  destruct (thread_step r t w) as [[t'| |] w'] eqn:E; [|done..].
  eapply rtc_l; [|apply IH]. rewrite <- (take_drop_middle ts i t Hi) at 1. by apply step_thread.
Qed.

(** Two threads that present the same token at the same time: both see it
    unclaimed and unexpired, and one gets it. *)
Definition racing : World Mem * list thread :=
  run_schedule 1 [0; 1; 0; 1; 1; 0]%nat (granted, [VLookup granted_token; VLookup granted_token]).

Example racing_ends :
  (λ t, match t with VOk tok => Some (tok_Subject tok) | _ => None end) <$> racing.2 = [None; Some "node"].
Proof. vm_compute. reflexivity. Qed.

Lemma single_use_witness :
  onces_bounded (comp granted) ∧ rtc (step 1) (granted, []) racing ∧
  ∀ i j t1 t2, racing.2 !! i = Some (VOk t1) → racing.2 !! j = Some (VOk t2) →
    claimed t1 = claimed t2 → i = j.
Proof.
  assert (onces_bounded (comp granted)) as Hb.
  { apply (GrantToken_onces 1 "node" 60 sample_world). exact sample_bounded. }
  assert (rtc (step 1) (granted, []) racing) as Hr.
  { eapply rtc_l; [apply (step_new 1 granted [] (VLookup granted_token)); left; eexists; reflexivity|].
    eapply rtc_l; [apply (step_new 1 granted [_] (VLookup granted_token)); left; eexists; reflexivity|].
    apply run_schedule_steps. }
  split; [exact Hb|]. split; [exact Hr|].
  rewrite (surjective_pairing racing) in Hr.
  exact (single_use 1 granted racing.1 racing.2 Hb Hr).
Defined.
