(* ===== verification/Operation.v ===== *)
(** * Accounts, privileges and operations

    [src/platform/keysystem/keyserver/account], [operation/operation.go] and the
    lookup of config/context.go: what an authenticated request may do. *)

From S2P Require Import Prelude GoStrings GoNet GoOS GoErrors GoJSON GoCrypto GoHTTP Authorities KsState Token Samples.
#[export] Set Default Goal Selector "!".

(** ** account/account.go *)

(** The loop of [HasMember] over the members left. *)
Fixpoint any_member (members : list ptr) (user : string) : KS bool :=
  match members with
  | [] => mret false
  | m :: members =>
      member ← load accounts m;
      if bool_decide (Principal member = user) then mret true else any_member members user
  end.
Definition HasMember (g : ptr) (user : string) : KS bool :=
  grp ← load groups g; any_member (AllMembers grp) user.

(** ** config/context.go *)

Definition GetAccount (ctx : ptr) (principal : string) : KS (result ptr) :=
  c ← load contexts ctx;
  match Accounts c !! principal with
  | None => fail (ErrorString ("cannot find account for principal " +:+ principal))
  | Some a =>
      ac ← load accounts a;
      if bool_decide (Principal ac ≠ principal)
      then fail (ErrorString "mismatched principal during lookup")
      else ok a
  end.

(** ** account/privileges.go *)

Definition NewTLSGrantPrivilege (tauth : TLSAuthority) (ishost : bool) (lifespan : Z)
    (commonname : string) (dnsnames organizations : list string) : Privilege :=
  TLSGrantPrivilege tauth ishost lifespan commonname dnsnames organizations.
Definition NewSSHGrantPrivilege (tauth : SSHAuthority) (ishost : bool) (lifespan : Z)
    (keyid : string) (principals : list string) : Privilege :=
  SSHGrantPrivilege tauth ishost lifespan keyid principals.
Definition NewBootstrapPrivilege (allowed : ptr) (lifespan : Z) (registry : ptr) : outcome Privilege :=
  if bool_decide (registry = 0%nat) then Panic "expected registry to exist"
  else Return (BootstrapPrivilege allowed lifespan registry).
Definition NewImpersonatePrivilege (getAccount : ptr) (scope : ptr) : Privilege :=
  ImpersonatePrivilege getAccount scope.
Definition NewConfigurationPrivilege (contents : string) : Privilege := ConfigurationPrivilege contents.
Definition NewFetchKeyPrivilege (static : TLSAuthority) : Privilege := FetchKeyPrivilege static.

Section privileges.
Context `{PkgErrors} `{Crypto}.

Definition bootstrap (allowed : ptr) (lifespan : Z) (registry : ptr) (encodedPrincipal : string)
    : KS (result string) :=
  let principal := encodedPrincipal in
  m ← HasMember allowed principal;
  if negb m
  then fail (ErrorString ("principal not allowed to be bootstrapped: " +:+ encodedPrincipal))
  else generatedToken ← GrantToken registry principal lifespan; ok generatedToken.

(** The account that the request continues as, when it may. *)
Definition impersonate (context scope : ptr) (newPrincipal : string) : KS (result ptr) :=
  m ← HasMember scope newPrincipal;
  if negb m then fail (ErrorString "attempt to impersonate outside of allowed scope")
  else
    account ←? GetAccount context newPrincipal;
    ac ← load accounts account;
    if bool_decide (Principal ac ≠ newPrincipal) then fail (ErrorString "wrong account returned")
    else ok account.

(** A call of a privilege: its answer, and [ctx.Account] after it. *)
Definition call_privilege (priv : Privilege) (ctx : ptr) (param : string)
    : KS (result string * ptr) :=
  match priv with
  | TLSGrantPrivilege tauth ishost lifespan commonname dnsnames organizations =>
      r ← TLS_Sign tauth param ishost lifespan commonname dnsnames organizations; mret (r, ctx)
  | SSHGrantPrivilege tauth ishost lifespan keyid principals =>
      r ← SSH_Sign tauth param ishost lifespan keyid principals; mret (r, ctx)
  | BootstrapPrivilege allowed lifespan registry =>
      r ← bootstrap allowed lifespan registry param; mret (r, ctx)
  | ImpersonatePrivilege context scope =>
      r ← impersonate context scope param;
      mret match r with
           | Ok account => (Ok "", account)
           | Err err => (Err err, ctx)
           end
  | ConfigurationPrivilege contents =>
      mret (if bool_decide (len param ≠ 0)
            then Err (ErrorString "expected empty request to configuration endpoint")
            else Ok contents, ctx)
  | FetchKeyPrivilege static =>
      mret (if bool_decide (len param ≠ 0)
            then Err (ErrorString "expected empty request to fetch-key endpoint")
            else Ok (GetPrivateKey static), ctx)
  end.

(** ** operation/operation.go *)

Definition InvokeAPIOperation (ctx : ptr) (API requestBody : string) : KS (result string * ptr) :=
  if bool_decide (ctx = 0%nat) then mret (Err (ErrorString "missing account during request"), ctx)
  else
    account ← load accounts ctx;
    match Privileges account !! API with
    | None => mret (Err (OperationForbiddenError (Principal account) API), ctx)
    | Some priv =>
        _ ← log_Print ("attempting to perform API operation " +:+ API +:+ " for " +:+ Principal account);
        '(response, ctx') ← call_privilege priv ctx requestBody;
        account' ← load accounts ctx';
        match response with
        | Err err =>
            _ ← log_Print ("operation " +:+ API +:+ " for " +:+ Principal account' +:+
                           " failed with error: " +:+ Error err);
            mret (Err err, ctx')
        | Ok response =>
            _ ← log_Print ("operation " +:+ API +:+ " for " +:+ Principal account' +:+ " succeeded");
            mret (Ok response, ctx')
        end
    end.

(** The loop over the operations left, with the results so far. *)
Fixpoint invoke_operations (ctx : ptr) (ops : list (gmap string string)) (results : list string)
    : KS (result (list string)) :=
  match ops with
  | [] => ok results
  | operation :: ops =>
      match operation !! "api" with
      | None => fail (ErrorString "missing API request in JSON")
      | Some api =>
          match operation !! "body" with
          | None => fail (ErrorString "missing body request in JSON")
          | Some body =>
              '(result, ctx) ← InvokeAPIOperation ctx api body;
              match result with
              | Err err => fail err
              | Ok result => invoke_operations ctx ops (results ++ [result])
              end
          end
      end
  end.
Definition InvokeAPIOperationSet (a : ptr) (requestBody : string) : KS (result string) :=
  match Unmarshal_maps requestBody with
  | Err err => fail err
  | Ok ops =>
      results ←? invoke_operations a ops [];
      ok (Marshal_strings results)
  end.
End privileges.

(** ** Frames: a request reads the configuration and never changes it *)

Section frames.
Context `{PkgErrors} `{Crypto}.

Lemma any_member_keeps R `{!PreOrder R} l u : keeps R (any_member l u).
Proof. induction l as [|m l IH]; simpl; go_frame. Qed.
Lemma HasMember_keeps R `{!PreOrder R} g u : keeps R (HasMember g u).
Proof. unfold HasMember. go_frame. by apply any_member_keeps. Qed.
Lemma GetAccount_keeps R `{!PreOrder R} c p : keeps R (GetAccount c p).
Proof. unfold GetAccount. go_frame. Qed.
End frames.

#[export] Hint Extern 2 (keeps _ (HasMember _ _)) => (apply HasMember_keeps; exact _) : go.
#[export] Hint Extern 2 (keeps _ (GetAccount _ _)) => (apply GetAccount_keeps; exact _) : go.

Ltac keep_ret := apply keeps_ret; exact _.

Section frames2.
Context `{PkgErrors} `{Crypto}.

Lemma impersonate_keeps R `{!PreOrder R} c s p : keeps R (impersonate c s p).
Proof. unfold impersonate. go_frame. Qed.

(** What every part of a request keeps: the time goes forward, no file is
    touched, the configuration stays, and once cells are never reset. *)
Definition serving : relation (World Mem) := λ w w',
  later w w' ∧ same_fs w w' ∧ tokens_only w w' ∧ onces_grow w w'.
#[export] Instance serving_preorder : PreOrder serving.
Proof.
  split; [intros w; split_and!; reflexivity|].
  intros w1 w2 w3 (? & ? & ? & ?) (? & ? & ? & ?). split_and!; by etrans.
Qed.
Lemma keeps_serving {A} (m : KS A) :
  keeps later m → keeps same_fs m → keeps tokens_only m → keeps onces_grow m → keeps serving m.
Proof. intros H1 H2 H3 H4 w. split_and!; auto. Qed.

Lemma bootstrap_serving a l r p : keeps serving (bootstrap a l r p).
Proof. unfold bootstrap. apply keeps_serving; go_frame. Qed.
Lemma call_privilege_serving p c q : keeps serving (call_privilege p c q).
Proof.
  unfold call_privilege. destruct p;
    first [apply keeps_bind; [exact _| |intros ?; keep_ret] | keep_ret].
  - apply keeps_serving; go_frame.
  - apply keeps_serving; go_frame.
  - apply bootstrap_serving.
  - apply impersonate_keeps, _.
Qed.
Lemma InvokeAPIOperation_serving c a b : keeps serving (InvokeAPIOperation c a b).
Proof.
  unfold InvokeAPIOperation. destruct (bool_decide _); [keep_ret|].
  apply keeps_bind; [exact _|apply load_keeps; exact _|]. intros ac.
  destruct (Privileges ac !! a) as [p|]; [|keep_ret].
  assert (Hlog : ∀ s, keeps serving (@log_Print Mem s)) by (intros s; apply keeps_serving; go_frame).
  apply keeps_bind; [exact _|apply Hlog|intros _].
  apply keeps_bind; [exact _|apply call_privilege_serving|]. intros [r c'].
  apply keeps_bind; [exact _|apply load_keeps; exact _|]. intros ac'.
  destruct r; (apply keeps_bind; [exact _|apply Hlog|intros _; keep_ret]).
Qed.
Lemma invoke_operations_serving c l r : keeps serving (invoke_operations c l r).
Proof.
  revert c r. induction l as [|op l IH]; intros c r; cbn [invoke_operations]; [keep_ret|].
  destruct (op !! "api"); [|keep_ret]. destruct (op !! "body"); [|keep_ret].
  apply keeps_bind; [exact _|apply InvokeAPIOperation_serving|]. intros [[] c']; [apply IH|keep_ret].
Qed.
Lemma InvokeAPIOperationSet_serving a b : keeps serving (InvokeAPIOperationSet a b).
Proof.
  unfold InvokeAPIOperationSet. destruct (Unmarshal_maps b); [|keep_ret].
  apply keeps_try; [exact _|apply invoke_operations_serving|]. intros l. keep_ret.
Qed.
End frames2.

(** ** What a set of operations does *)

Section spec.
Context `{PkgErrors} `{Crypto}.

Definition logging (s : string) (w : World Mem) : World Mem :=
  on_os (λ o, with_log (s :: logged o) o) w.
Definition attempt_line (API principal : string) : string :=
  "attempting to perform API operation " +:+ API +:+ " for " +:+ principal.
Definition outcome_line (API principal : string) (r : result string) : string :=
  match r with
  | Ok _ => "operation " +:+ API +:+ " for " +:+ principal +:+ " succeeded"
  | Err err => "operation " +:+ API +:+ " for " +:+ principal +:+ " failed with error: " +:+ Error err
  end.
(** The member that an operation lacks, if any, as its error. *)
Definition missing (op : gmap string string) : option string :=
  match op !! "api", op !! "body" with
  | None, _ => Some "missing API request in JSON"
  | _, None => Some "missing body request in JSON"
  | _, _ => None
  end.

(** What was performed: as which account, which of its privileges, on what. *)
Record performed := mkPerformed { p_as : ptr; p_priv : Privilege; p_body : string }.

(** One operation that the account at [ctx] may perform: the call, between two
    lines of the log. *)
Definition ran (ctx : ptr) (api body : string) (w : World Mem) (priv : Privilege)
    (r : result string) (ctx' : ptr) (w' : World Mem) : Prop :=
  ∃ ac ac' w1,
    ctx ≠ 0%nat ∧ accounts (comp w) !! ctx = Some ac ∧ Privileges ac !! api = Some priv ∧
    call_privilege priv ctx body (logging (attempt_line api (Principal ac)) w) = (Return (r, ctx'), w1) ∧
    accounts (comp w1) !! ctx' = Some ac' ∧
    w' = logging (outcome_line api (Principal ac') r) w1.

(** The specification: the operations are run one after the other, each with
    the privileges of the account that the one before left, up to the first
    that fails. *)
Inductive ops_run : ptr → list (gmap string string) → World Mem →
    list performed → result (list string) → World Mem → Prop :=
| run_nil ctx w : ops_run ctx [] w [] (Ok []) w
| run_missing ctx op ops w m :
    missing op = Some m → ops_run ctx (op :: ops) w [] (Err (ErrorString m)) w
| run_nobody op ops w :
    missing op = None →
    ops_run 0%nat (op :: ops) w [] (Err (ErrorString "missing account during request")) w
| run_forbidden ctx op ops w api body ac :
    op !! "api" = Some api → op !! "body" = Some body → ctx ≠ 0%nat →
    accounts (comp w) !! ctx = Some ac → Privileges ac !! api = None →
    ops_run ctx (op :: ops) w [] (Err (OperationForbiddenError (Principal ac) api)) w
| run_failed ctx op ops w api body priv e ctx' w' :
    op !! "api" = Some api → op !! "body" = Some body →
    ran ctx api body w priv (Err e) ctx' w' →
    ops_run ctx (op :: ops) w [mkPerformed ctx priv body] (Err e) w'
| run_next ctx op ops w api body priv r ctx' w1 tr res w2 :
    op !! "api" = Some api → op !! "body" = Some body →
    ran ctx api body w priv (Ok r) ctx' w1 →
    ops_run ctx' ops w1 tr res w2 →
    ops_run ctx (op :: ops) w (mkPerformed ctx priv body :: tr) (cons r <$> res) w2.

Lemma InvokeAPIOperation_inv ctx api body w r ctx' w' :
  InvokeAPIOperation ctx api body w = (Return (r, ctx'), w') →
  ctx = 0%nat ∧ r = Err (ErrorString "missing account during request") ∧ w' = w ∨
  (∃ ac, ctx ≠ 0%nat ∧ accounts (comp w) !! ctx = Some ac ∧ Privileges ac !! api = None ∧
     r = Err (OperationForbiddenError (Principal ac) api) ∧ w' = w) ∨
  ∃ priv, ran ctx api body w priv r ctx' w'.
Proof.
  unfold InvokeAPIOperation. case_bool_decide as Hz; [intros [= <- _ <-]; by left|].
  intros (ac & w1 & (Hac & ->)%load_inv & Hi)%bind_inv. right.
  destruct (Privileges ac !! api) as [priv|] eqn:Hp; [right|left].
  2: { injection Hi as <- _ <-. by exists ac. }
  apply bind_inv in Hi as ([] & w2 & Hlog & Hi). injection Hlog as <-.
  apply bind_inv in Hi as ([r1 c1] & w3 & Hcall & Hi).
  apply bind_inv in Hi as (ac' & w4 & (Hac' & ->)%load_inv & Hi).
  exists priv, ac, ac', w3.
  destruct r1 as [s|e]; (apply bind_inv in Hi as ([] & w5 & Hlog & Hi); injection Hlog as <-;
    injection Hi as <- <- <-; by split_and!).
Qed.

Lemma InvokeAPIOperation_ran ctx api body w priv r ctx' w' :
  ran ctx api body w priv r ctx' w' →
  InvokeAPIOperation ctx api body w = (Return (r, ctx'), w').
Proof.
  intros (ac & ac' & w1 & Hz & Hac & Hp & Hcall & Hac' & ->). unfold InvokeAPIOperation.
  rewrite bool_decide_false by done. rewrite (bind_Return _ _ _ _ _ (load_eq _ _ _ _ Hac)), Hp.
  erewrite bind_Return by reflexivity. rewrite (bind_Return _ _ _ _ _ Hcall).
  rewrite (bind_Return _ _ _ _ _ (load_eq _ _ _ _ Hac')). by destruct r.
Qed.

Lemma invoke_operations_run ctx ops results w res w' :
  invoke_operations ctx ops results w = (Return res, w') →
  ∃ tr res0, ops_run ctx ops w tr res0 w' ∧ res = (app results <$> res0).
Proof.
  revert ctx results w. induction ops as [|op ops IH]; intros ctx results w; cbn [invoke_operations].
  { intros [= <- <-]. exists [], (Ok []). split; [constructor|]. simpl. by rewrite app_nil_r. }
  destruct (op !! "api") as [api|] eqn:Ha.
  2: { intros [= <- <-]. eexists [], (Err _). split; [|done]. constructor. unfold missing. by rewrite Ha. }
  destruct (op !! "body") as [body|] eqn:Hb.
  2: { intros [= <- <-]. eexists [], (Err _). split; [|done]. constructor. unfold missing. by rewrite Ha, Hb. }
  intros ([r ctx'] & w1 & Hi & Hrest)%bind_inv.
  apply InvokeAPIOperation_inv in Hi as [(-> & -> & ->)|[(ac & Hz & Hac & Hp & -> & ->)|(priv & Hran)]].
  + injection Hrest as <- <-. eexists [], (Err _). split; [|done]. apply run_nobody.
    unfold missing. by rewrite Ha, Hb.
  + injection Hrest as <- <-. eexists [], (Err _). split; [|done]. by eapply run_forbidden.
  + destruct r as [r|e].
    * apply IH in Hrest as (tr & res0 & Hrun & ->).
      exists (mkPerformed ctx priv body :: tr), (cons r <$> res0). split; [by eapply run_next|].
      destruct res0; [|done]. simpl. by rewrite <- app_assoc.
    * injection Hrest as <- <-. eexists _, (Err e). split; [|done]. by eapply run_failed.
Qed.

(** ** Impersonation *)

(** [b] is an account that [a] may become by one operation. *)
Definition may_become (m : Mem) (a b : ptr) : Prop :=
  ∃ ac api context scope g c bac,
    accounts m !! a = Some ac ∧ Privileges ac !! api = Some (ImpersonatePrivilege context scope) ∧
    groups m !! scope = Some g ∧ contexts m !! context = Some c ∧
    Accounts c !! Principal bac = Some b ∧ accounts m !! b = Some bac ∧
    ∃ x xac, x ∈ AllMembers g ∧ accounts m !! x = Some xac ∧ Principal xac = Principal bac.

(** What was performed, given the configuration: each time, a privilege of an
    account that the first one may have become. *)
Definition confined (m : Mem) (a : ptr) (p : performed) : Prop :=
  rtc (may_become m) a (p_as p) ∧
  ∃ ac api, accounts m !! p_as p = Some ac ∧ Privileges ac !! api = Some (p_priv p).

Lemma any_member_inv l user w b w' :
  any_member l user w = (Return b, w') →
  w' = w ∧ (b = true → ∃ x xac, x ∈ l ∧ accounts (comp w) !! x = Some xac ∧ Principal xac = user).
Proof.
  induction l as [|x l IH]; simpl; [by intros [= <- <-]|].
  intros (xac & w1 & (Hx & ->)%load_inv & Hrest)%bind_inv. case_bool_decide as Hu.
  - injection Hrest as <- <-. split; [done|]. intros _. exists x, xac. split; [by left|done].
  - apply IH in Hrest as [-> Hin]. split; [done|]. intros Hb.
    destruct (Hin Hb) as (y & yac & ? & ? & ?). exists y, yac. split; [by right|done].
Qed.

Lemma HasMember_inv g user w b w' :
  HasMember g user w = (Return b, w') →
  w' = w ∧ ∃ grp, groups (comp w) !! g = Some grp ∧
    (b = true → ∃ x xac, x ∈ AllMembers grp ∧ accounts (comp w) !! x = Some xac ∧ Principal xac = user).
Proof.
  unfold HasMember. intros (grp & w1 & (Hg & ->)%load_inv & Hm)%bind_inv.
  apply any_member_inv in Hm as [-> Hm]. split; [done|]. by exists grp.
Qed.

Lemma impersonate_inv context scope newPrincipal w b w' :
  impersonate context scope newPrincipal w = (Return (Ok b), w') →
  w' = w ∧ ∃ g c bac, groups (comp w) !! scope = Some g ∧ contexts (comp w) !! context = Some c ∧
    Accounts c !! newPrincipal = Some b ∧ accounts (comp w) !! b = Some bac ∧
    Principal bac = newPrincipal ∧
    ∃ x xac, x ∈ AllMembers g ∧ accounts (comp w) !! x = Some xac ∧ Principal xac = newPrincipal.
Proof.
  unfold impersonate. intros (m & w1 & Hm & Hrest)%bind_inv.
  apply HasMember_inv in Hm as (-> & g & Hg & Hin). destruct m; [|done]. simpl in Hrest.
  apply try_bind_Ok_inv in Hrest as (acc & w2 & Hget & Hrest).
  unfold GetAccount in Hget. apply bind_inv in Hget as (c & w3 & (Hc & ->)%load_inv & Hget).
  destruct (Accounts c !! newPrincipal) as [a|] eqn:Ha; [|done].
  apply bind_inv in Hget as (ac & w4 & (Hac & ->)%load_inv & Hget).
  case_bool_decide; [done|]. injection Hget as -> <-.
  apply bind_inv in Hrest as (ac' & w5 & (Hac' & ->)%load_inv & Hrest).
  case_bool_decide as Hp; [done|]. injection Hrest as <- <-. split; [done|].
  exists g, c, ac'. split_and!; try done. by apply Hin.
Qed.

(** The account changes only by impersonation. *)
Lemma call_privilege_account priv ctx body w r ctx' w' ac api :
  call_privilege priv ctx body w = (Return (Ok r, ctx'), w') →
  accounts (comp w) !! ctx = Some ac → Privileges ac !! api = Some priv →
  rtc (may_become (comp w)) ctx ctx'.
Proof.
  intros Hcall Hac Hp. destruct priv as [| | |context scope| |]; simpl in Hcall;
    try (apply bind_inv in Hcall as (x & w1 & Hx & Hcall)); try (injection Hcall as ? <- ?; done).
  destruct x as [b|e]; [|done]. injection Hcall as _ <- _.
  apply impersonate_inv in Hx as (_ & g & c & bac & Hg & Hc & Hb & Hbac & <- & Hin).
  apply rtc_once. by exists ac, api, context, scope, g, c, bac.
Qed.

Lemma may_become_same m m' a b :
  accounts m' = accounts m → groups m' = groups m → contexts m' = contexts m →
  rtc (may_become m') a b → rtc (may_become m) a b.
Proof.
  intros Ha Hg Hc Hr. eapply rtc_subrel; [|exact Hr].
  intros x y (ac & api & ctx & sc & g & c & bac & Hx). rewrite Ha, Hg, Hc in Hx.
  by exists ac, api, ctx, sc, g, c, bac.
Qed.

Lemma ops_run_confined ctx ops w tr res w' :
  ops_run ctx ops w tr res w' → Forall (confined (comp w) ctx) tr.
Proof.
  induction 1 as [ctx w|ctx op ops w m Hm|op ops w Hm|ctx op ops w api body ac Ha Hb Hz Hac Hp
      |ctx op ops w api body priv e ctx' w' Ha Hb Hran
      |ctx op ops w api body priv r ctx' w1 tr res w2 Ha Hb Hran Hrun IH]; [constructor..| |].
  - constructor; [|constructor]. destruct Hran as (ac & ac' & w1 & _ & Hac & Hp & _).
    split; [done|]. by exists ac, api.
  - destruct Hran as (ac & ac' & w3 & _ & Hac & Hp & Hcall & Hac' & ->).
    constructor; [split; [done|]; by exists ac, api|].
    pose proof (call_privilege_serving priv ctx body (logging (attempt_line api (Principal ac)) w)) as Hs.
    rewrite Hcall in Hs. destruct Hs as (_ & _ & (Haccs & Hgs & Hcs & _) & _). simpl in *.
    pose proof (call_privilege_account _ _ _ _ _ _ _ ac api Hcall Hac Hp) as Hto. simpl in Hto.
    eapply Forall_impl; [exact IH|]. intros p [Hreach (pac & papi & Hpac & Hpp)]. simpl in *.
    split.
    + etrans; [exact Hto|]. by eapply may_become_same in Hreach.
    + exists pac, papi. by rewrite <- Haccs.
Qed.

Lemma ops_run_length ctx ops w tr rs w' :
  ops_run ctx ops w tr (Ok rs) w' → length rs = length ops ∧ length tr = length ops.
Proof.
  intros Hr. remember (Ok rs) as res eqn:Hres. revert rs Hres.
  induction Hr as [ctx w|ctx op ops w m Hm|op ops w Hm|ctx op ops w api body ac Ha Hb Hz Hac Hp
      |ctx op ops w api body priv e ctx' w' Ha Hb Hran
      |ctx op ops w api body priv r ctx' w1 tr res w2 Ha Hb Hran Hrun IH]; intros rs Hres; try done.
  - by injection Hres as <-.
  - destruct res as [rs'|]; [|done]. injection Hres as <-. simpl.
    destruct (IH rs' eq_refl) as [-> ->]. done.
Qed.

(** C2: a request that is answered performed one operation per element of its
    body, each a privilege of an account that the authenticated one may have
    become through the impersonations that the configuration allows; nobody
    acts with a privilege that it was not granted. *)
Theorem InvokeAPIOperationSet_confined a body w out w' :
  InvokeAPIOperationSet a body w = (Return (Ok out), w') →
  ∃ ops results tr,
    Unmarshal_maps body = Ok ops ∧ out = Marshal_strings results ∧
    length results = length ops ∧ length tr = length ops ∧
    Forall (confined (comp w) a) tr ∧ ops_run a ops w tr (Ok results) w'.
Proof.
  unfold InvokeAPIOperationSet. destruct (Unmarshal_maps body) as [ops|] eqn:Ho; [|done].
  intros (results & w1 & Hrun & Hret)%try_bind_Ok_inv. injection Hret as <- <-.
  apply invoke_operations_run in Hrun as (tr & res0 & Hrun & Hres).
  destruct res0 as [rs|]; [|done]. simpl in Hres. injection Hres as ->.
  destruct (ops_run_length _ _ _ _ _ _ Hrun) as [Hl1 Hl2].
  exists ops, rs, tr. split_and!; try done. by eapply ops_run_confined.
Qed.
(** Why the operation [op] was refused to the account [ctx], and what that left. *)
Definition refusal (ctx : ptr) (op : gmap string string) (w : World Mem) (e : error) (w' : World Mem) : Prop :=
  (∃ m, missing op = Some m ∧ e = ErrorString m ∧ w' = w) ∨
  ∃ api body, op !! "api" = Some api ∧ op !! "body" = Some body ∧
    (ctx = 0%nat ∧ e = ErrorString "missing account during request" ∧ w' = w ∨
     (∃ ac, accounts (comp w) !! ctx = Some ac ∧ Privileges ac !! api = None ∧
        e = OperationForbiddenError (Principal ac) api ∧ w' = w) ∨
     ∃ priv ctx', ran ctx api body w priv (Err e) ctx' w').

(** Each operation of a run, in its order, with the account that it left. *)
Inductive ran_all : ptr → list (gmap string string) → World Mem → list performed → ptr → World Mem → Prop :=
| ran_none ctx w : ran_all ctx [] w [] ctx w
| ran_one ctx op ops w api body priv r ctx1 w1 tr ctx2 w2 :
    op !! "api" = Some api → op !! "body" = Some body → ran ctx api body w priv (Ok r) ctx1 w1 →
    ran_all ctx1 ops w1 tr ctx2 w2 →
    ran_all ctx (op :: ops) w (mkPerformed ctx priv body :: tr) ctx2 w2.

Lemma ran_serving ctx api body w priv r ctx' w' : ran ctx api body w priv r ctx' w' → serving w w'.
Proof.
  intros Hran%InvokeAPIOperation_ran. pose proof (InvokeAPIOperation_serving ctx api body w) as Hs.
  by rewrite Hran in Hs.
Qed.
Lemma ran_account ctx api body w priv r ctx' w' :
  ran ctx api body w priv (Ok r) ctx' w' → rtc (may_become (comp w)) ctx ctx'.
Proof.
  intros (ac & ac' & w1 & _ & Hac & Hp & Hcall & _). pose proof (call_privilege_account _ _ _ _ _ _ _ ac api Hcall Hac Hp). done.
Qed.

Lemma ran_all_confined ctx ops w tr ctx' w' :
  ran_all ctx ops w tr ctx' w' →
  Forall (confined (comp w) ctx) tr ∧ rtc (may_become (comp w)) ctx ctx' ∧ length tr = length ops ∧ serving w w'.
Proof.
  induction 1 as [ctx w|ctx op ops w api body priv r ctx1 w1 tr ctx2 w2 Ha Hb Hran Hrest (IH & Hto & Hl & Hsv)];
    [by split_and!|].
  pose proof (ran_account _ _ _ _ _ _ _ _ Hran) as Hstep. pose proof (ran_serving _ _ _ _ _ _ _ _ Hran) as Hs.
  pose proof Hs as (_ & _ & (Haccs & Hgs & Hcs & _) & _).
  split_and!; [|etrans; [exact Hstep|by eapply may_become_same in Hto]|by simpl; rewrite Hl|by etrans].
  constructor.
  - destruct Hran as (ac & _ & _ & _ & Hac & Hp & _). split; [done|]. by exists ac, api.
  - eapply Forall_impl; [exact IH|]. intros p [Hreach (pac & papi & Hpac & Hpp)].
    split; [etrans; [exact Hstep|by eapply may_become_same in Hreach]|]. exists pac, papi. by rewrite <- Haccs.
Qed.

(** A run that fails is a run of the operations before one that is refused. *)
Lemma ops_run_refused ctx ops w tr e w' :
  ops_run ctx ops w tr (Err e) w' →
  ∃ done op rest tr1 ctx1 w1, ops = done ++ op :: rest ∧ ran_all ctx done w tr1 ctx1 w1 ∧ refusal ctx1 op w1 e w'.
Proof.
  intros Hr. remember (Err e) as res eqn:Hres. revert Hres.
  induction Hr as [ctx w|ctx op ops w m Hm|op ops w Hm|ctx op ops w api body ac Ha Hb Hz Hac Hp
      |ctx op ops w api body priv e' ctx' w' Ha Hb Hran
      |ctx op ops w api body priv r ctx' w1 tr res w2 Ha Hb Hran Hrun IH]; intros Hres; try done.
  - injection Hres as <-. exists [], op, ops, [], ctx, w. split_and!; [done|constructor|]. left. by exists m.
  - injection Hres as <-. exists [], op, ops, [], 0%nat, w. split_and!; [done|constructor|]. right.
    unfold missing in Hm. destruct (op !! "api") as [api|]; [|done]. destruct (op !! "body") as [body|]; [|done].
    exists api, body. split_and!; [done..|]. by left.
  - injection Hres as <-. exists [], op, ops, [], ctx, w. split_and!; [done|constructor|]. right.
    exists api, body. split_and!; [done..|]. right. left. by exists ac.
  - injection Hres as <-. exists [], op, ops, [], ctx, w. split_and!; [done|constructor|]. right.
    exists api, body. split_and!; [done..|]. right. right. by exists priv, ctx'.
  - destruct res as [|e']; [done|]. injection Hres as ->.
    destruct (IH eq_refl) as (done & op' & rest & tr1 & ctx1 & w1' & -> & Hall & Href).
    exists (op :: done), op', rest, (mkPerformed ctx priv body :: tr1), ctx1, w1'.
    split_and!; [done| |done]. by eapply ran_one.
Qed.

(** C7: what a refused set of operations leaves behind. Either its body does not decode, and
    nothing was done; or there is a first operation that was refused, and exactly the
    operations before it were performed, in order, each with a privilege of an account that
    the authenticated one may have become. Their effects are kept, although the caller gets
    only the error (design/key-infrastructure.md says that a set is performed only if all
    of it is allowed). The refused operation lacks a member, has no account, names an
    operation that its account was not granted, and then changed nothing; or it failed
    when it was called. No operation after it was looked at. *)
Theorem InvokeAPIOperationSet_refused a body w e w' :
  InvokeAPIOperationSet a body w = (Return (Err e), w') →
  Unmarshal_maps body = Err e ∧ w' = w ∨
  ∃ done op rest tr ctx w1, Unmarshal_maps body = Ok (done ++ op :: rest) ∧
    ran_all a done w tr ctx w1 ∧ Forall (confined (comp w) a) tr ∧ rtc (may_become (comp w)) a ctx ∧
    refusal ctx op w1 e w'.
Proof.
  unfold InvokeAPIOperationSet. destruct (Unmarshal_maps body) as [ops|err] eqn:Ho; [|intros [= <- <-]; by left].
  intros [(results & w1 & _ & Hret)|Hrun]%try_bind_Err_inv; [done|]. right.
  apply invoke_operations_run in Hrun as (tr & res0 & Hrun & Hres). destruct res0 as [|e0]; [done|].
  injection Hres as <-. apply ops_run_refused in Hrun as (done & op & rest & tr1 & ctx & w1 & -> & Hall & Href).
  destruct (ran_all_confined _ _ _ _ _ _ Hall) as (Hc & Hto & _). by exists done, op, rest, tr1, ctx, w1.
Qed.
End spec.

(** ** Runs on concrete inputs *)

(** An administrator (2) who may bootstrap the node (4) of a group (3) with the
    registry at 1. *)
Definition admin_account : Account :=
  mkAccount "admin" true None {[ "bootstrap" := BootstrapPrivilege 3 60 1 ]}.
Definition operation_world : World Mem :=
  mkWorld (with_entropy ["123456789012345"; "abcdefghijklmno"] (os0 1000))
    (mkMem {[ 1%nat := ∅ ]} ∅ {[ 2%nat := admin_account; 4%nat := mkAccount "node" false None ∅ ]}
       {[ 3%nat := mkGroup [4%nat] ]} ∅ ∅ empty_response 5).
Definition operations_json (l : list (string * string)) : string :=
  Marshal_list (λ ab, Marshal_struct [("api", ab.1); ("body", ab.2)]) l.

Lemma InvokeAPIOperationSet_confined_witness :
  match InvokeAPIOperationSet 2 (operations_json [("bootstrap", "node")]) operation_world with
  | (Return (Ok out), _) =>
      ∃ ops results tr, Unmarshal_maps (operations_json [("bootstrap", "node")]) = Ok ops ∧
        out = Marshal_strings results ∧ length results = length ops ∧
        Forall (confined (comp operation_world) 2) tr
  | _ => False
  end.
Proof.
  run_ok E. destruct (InvokeAPIOperationSet_confined 2 _ _ _ _ E)
    as (ops & rs & tr & Ho & Hout & Hl & _ & Hc & _).
  exists ops, rs, tr. split; [exact Ho|]. split; [exact Hout|]. split; [exact Hl|exact Hc].
Defined.

(** Of the state that a set of operations leaves: what it answered, and how
    many tokens are registered. *)
Definition tokens_after (p : outcome (result string) * World Mem) : outcome (result string) * option nat :=
  (p.1, size <$> registries (comp p.2) !! 1%nat).

(** a set of operations is not all or nothing: when a later operation is
    forbidden, what the earlier ones did stays done, here a token that was
    granted and that the caller is not told. *)
Theorem InvokeAPIOperationSet_not_atomic :
  ∃ body w, registries (comp w) !! 1%nat = Some ∅ ∧
    tokens_after (InvokeAPIOperationSet 2 body w) =
      (Return (Err (OperationForbiddenError "admin" "grant-ssh-host")), Some 1%nat).
Proof.
  exists (operations_json [("bootstrap", "node"); ("grant-ssh-host", "")]), operation_world.
  split; [reflexivity|]. vm_compute. reflexivity.
Qed.

(** A token was granted before the forbidden operation, and stays registered. *)
Definition forbidden_body : string := operations_json [("bootstrap", "node"); ("grant-ssh-host", "")].
Lemma InvokeAPIOperationSet_refused_witness :
  match InvokeAPIOperationSet 2 forbidden_body operation_world with
  | (Return (Err e), w') => size <$> registries (comp w') !! 1%nat = Some 1%nat ∧
      ∃ done op rest tr ctx w1, Unmarshal_maps forbidden_body = Ok (done ++ op :: rest) ∧
        ran_all 2 done operation_world tr ctx w1 ∧ refusal ctx op w1 e w'
  | _ => False
  end.
Proof.
  assert (Ha := eq_refl : tokens_after (InvokeAPIOperationSet 2 forbidden_body operation_world) =
    (Return (Err (OperationForbiddenError "admin" "grant-ssh-host")), Some 1%nat)).
  destruct (InvokeAPIOperationSet 2 forbidden_body operation_world) as [o w'] eqn:E. injection Ha as -> Hs.
  split; [exact Hs|]. destruct (InvokeAPIOperationSet_refused 2 _ _ _ _ E) as [[Hu _]|(done & op & rest & tr & ctx & w1 & Hu & Hall & _ & _ & Href)].
  - assert (Hok : is_ok (Unmarshal_maps forbidden_body) = true) by (vm_compute; reflexivity). rewrite Hu in Hok. discriminate Hok.
  - exists done, op, rest, tr, ctx, w1. split; [exact Hu|]. split; [exact Hall|exact Href].
Defined.
