(* ===== verification/WorldConfig.v ===== *)
(** * The configuration of the key server: keyserver/config, worldconfig

    [config/config.go], [worldconfig/spiresetup.go], [worldconfig/keyserver.go],
    [worldconfig/apis.go] and the paths: which authorities are loaded, which
    accounts exist and what each may do. *)

From S2P Require Import Prelude GoStrings GoNet GoOS FileUtil Paths GoErrors GoCrypto CertUtil GoHTTP Authorities KsState Token Operation Samples.
#[export] Set Default Goal Selector "!".

(** ** config/config.go *)

Inductive AuthorityType := InvalidAuthorityType | TLSAuthorityType | SSHAuthorityType.
Record ConfigAuthority := mkConfigAuthority { ca_Type : AuthorityType; ca_Name : string }.

Definition Filenames (t : ConfigAuthority) : outcome (string * string) :=
  match ca_Type t with
  | TLSAuthorityType => Return (ca_Name t +:+ ".key", ca_Name t +:+ ".pem")
  | SSHAuthorityType => Return (ca_Name t, ca_Name t +:+ ".pub")
  | InvalidAuthorityType => Panic "invalid authority type in Filenames"
  end.
Definition config_TLSAuthority (name : string) : ConfigAuthority := mkConfigAuthority TLSAuthorityType name.
Definition config_SSHAuthority (name : string) : ConfigAuthority := mkConfigAuthority SSHAuthorityType name.

(** ** worldconfig/apis.go *)

Definition KeygrantingAuthority : string := "keygranting".
Definition KubernetesAuthority : string := "kubernetes".
Definition ClusterCAAuthority : string := "clusterca".
Definition SSHHostAuthority : string := "ssh-host".
Definition SSHUserAuthority : string := "ssh-user".
Definition ServiceAccountAuthority : string := "serviceaccount".
Definition EtcdServerAuthority : string := "etcd-server".
Definition EtcdClientAuthority : string := "etcd-client".

Definition ClusterConfStatic : string := "cluster.conf".

Definition BootstrapKeyserverTokenAPI : string := "bootstrap-keyinit".
Definition RenewKeygrantAPI : string := "renew-keygrant".
Definition ImpersonateKerberosAPI : string := "auth-to-kerberos".
Definition LocalConfAPI : string := "get-local-config".

Definition FetchServiceAccountKeyAPI : string := "fetch-serviceaccount-key".
Definition SignKubernetesWorkerAPI : string := "grant-kubernetes-worker".
Definition SignKubernetesMasterAPI : string := "grant-kubernetes-master".
Definition SignKubernetesSupervisorAPI : string := "grant-kubernetes-supervisor".
Definition SignKubernetesCtrlMgrAPI : string := "grant-kubernetes-ctrl-mgr".
Definition SignKubernetesProxyAPI : string := "grant-kubernetes-proxy".
Definition SignKubernetesSchedulerAPI : string := "grant-kubernetes-scheduler".
Definition SignSSHHostKeyAPI : string := "grant-ssh-host".
Definition SignRegistryHostAPI : string := "grant-registry-host".
Definition SignEtcdServerAPI : string := "grant-etcd-server".
Definition SignEtcdClientAPI : string := "grant-etcd-client".

Definition AccessSSHAPI : string := "access-ssh".
Definition AccessEtcdAPI : string := "access-etcd".
Definition AccessKubernetesAPI : string := "access-kubernetes".

(** ** worldconfig/spiresetup.go *)

Definition kind_Supervisor : string := "supervisor".
Definition kind_Master : string := "master".
Definition kind_Worker : string := "worker".

(** A node; of the setup that [setup] points to, its external domain, the one
    field that is read through the pointer. *)
Record SpireNode := mkSpireNode {
  Hostname : string;
  node_IP : string;
  netIP : option IP;
  node_setup : option string;
  Kind : string
}.
Definition IsSupervisor (s : SpireNode) : bool := bool_decide (Kind s = kind_Supervisor).
Definition IsMaster (s : SpireNode) : bool := bool_decide (Kind s = kind_Master).
Definition IsWorker (s : SpireNode) : bool := bool_decide (Kind s = kind_Worker).

Definition DNS (s : SpireNode) : outcome string :=
  match node_setup s with
  | None => Panic "uninitialized"
  | Some ExternalDomain => Return (Hostname s +:+ "." +:+ ExternalDomain)
  end.
Definition NetIP (s : SpireNode) : outcome IP :=
  match netIP s with None => Panic "uninitialized" | Some ip => Return ip end.

(** The parsed setup.yaml. An element of the list of nodes may be null. *)
Record SpireSetup := mkSpireSetup {
  ExternalDomain : string;
  InternalDomain : string;
  KerberosRealm : string;
  ServiceAPI : string;
  Nodes : list (option SpireNode);
  spire_supervisor : option SpireNode;
  RootAdmins : list string
}.
Definition Supervisor (s : SpireSetup) : outcome SpireNode :=
  match spire_supervisor s with None => Panic "uninitialized" | Some n => Return n end.

(** gopkg.in/yaml.v2: a parameter. The unexported fields are not decoded. *)
Class Yaml := {
  yaml_Unmarshal : string → result SpireSetup;
  yaml_unexported s conf :
    yaml_Unmarshal s = Ok conf →
    spire_supervisor conf = None ∧
    Forall (λ n, match n with Some n => netIP n = None ∧ node_setup n = None | None => True end) (Nodes conf)
}.

(** [*node] *)
Definition node_deref (n : option SpireNode) : outcome SpireNode :=
  match n with
  | Some n => Return n
  | None => Panic "invalid memory address or nil pointer dereference"
  end.

(** One round of the validation loop: the nodes seen so far, the supervisor
    found last and the number of supervisors. *)
Definition validate_node (domain : string) (acc : list (option SpireNode) * option SpireNode * Z)
    (node : option SpireNode) : outcome (result (list (option SpireNode) * option SpireNode * Z)) :=
  let '(seen, supervisor, supervisors) := acc in
  node ← node_deref node;
  if negb (IsSupervisor node || IsMaster node || IsWorker node)
  then fail (ErrorString ("unrecognized kind of node: " +:+ Kind node))
  else
    match ParseIP (node_IP node) with
    | None => fail (ErrorString ("could not parse IP: " +:+ node_IP node))
    | Some ip =>
        let node := mkSpireNode (Hostname node) (node_IP node) (Some ip) (Some domain) (Kind node) in
        if IsSupervisor node
        then ok (seen ++ [Some node], Some node, supervisors + 1)
        else ok (seen ++ [Some node], supervisor, supervisors)
    end.

Fixpoint check_admins (admins : list string) (dupcheck : gset string) `{PkgErrors} : result unit :=
  match admins with
  | [] => Ok tt
  | rootadmin :: admins =>
      if bool_decide (rootadmin = "") then Err (errors_New "invalid root admin name ''")
      else if bool_decide (rootadmin ∈ dupcheck)
      then Err (ErrorString ("duplicate root admin: " +:+ rootadmin))
      else check_admins admins ({[ rootadmin ]} ∪ dupcheck)
  end.

Section config.
Context `{PkgErrors} `{Crypto} `{Yaml}.

Definition validate_setup (setup : SpireSetup) : outcome (result SpireSetup) :=
  '(nodes, supervisor, supervisors) ←?
    fold_each (validate_node (ExternalDomain setup)) ([], spire_supervisor setup, 0) (Nodes setup);
  if bool_decide (supervisors ≠ 1)
  then fail (ErrorString ("expected exactly 1 declared supervisor, not " +:+ FormatInt supervisors))
  else
    match check_admins (RootAdmins setup) ∅ with
    | Err err => fail err
    | Ok _ => ok (mkSpireSetup (ExternalDomain setup) (InternalDomain setup) (KerberosRealm setup)
                    (ServiceAPI setup) nodes supervisor (RootAdmins setup))
    end.

Definition LoadSpireSetup {X} (path : string) : M (World X) (result SpireSetup) :=
  content ←? ReadFile path;
  match yaml_Unmarshal content with
  | Err err => fail err
  | Ok setup => liftO (validate_setup setup)
  end.

(** ** [ConfigAuthority.Load] *)

Definition Load (a : ConfigAuthority) (dir : string) : KS (result Authority) :=
  if bool_decide (dir = "") then fail (ErrorString "empty directory path")
  else
    '(keyfile, certfile) ← liftO (Filenames a);
    keydata ←? ReadFile (path_Join [dir; keyfile]);
    certdata ←? ReadFile (path_Join [dir; certfile]);
    match ca_Type a with
    | TLSAuthorityType => mret (LoadTLSAuthority keydata certdata)
    | SSHAuthorityType => mret (LoadSSHAuthority keydata certdata)
    | InvalidAuthorityType => panic "invalid authority type in ConfigAuthority.Load"
    end.
End config.

(** ** worldconfig/keyserver.go *)

Definition Hour : Z := 3600 * Second.
Definition OneDay : Z := 24 * Hour.
Definition OneWeek : Z := 7 * OneDay.

(** The two groups, by address. *)
Record Groups := mkGroups { KerberosAccounts : ptr; NodesGroup : ptr }.

(** The authorities, each of its type. *)
Record AuthoritySet := mkAuthoritySet {
  Keygranting : TLSAuthority;
  auth_ClusterCA : TLSAuthority;
  SshUser : SSHAuthority;
  SshHost : SSHAuthority;
  EtcdServer : TLSAuthority;
  EtcdClient : TLSAuthority;
  Kubernetes : TLSAuthority;
  ServiceAccount : TLSAuthority
}.

Definition ListAuthorities : list ConfigAuthority :=
  [config_TLSAuthority KeygrantingAuthority;
   config_TLSAuthority ClusterCAAuthority;
   config_SSHAuthority SSHUserAuthority;
   config_SSHAuthority SSHHostAuthority;
   config_TLSAuthority KubernetesAuthority;
   config_TLSAuthority EtcdServerAuthority;
   config_TLSAuthority EtcdClientAuthority;
   config_TLSAuthority ServiceAccountAuthority].

(** The grants are made from [c.TokenVerifier.Registry]. *)
Definition GrantsForRootAdminAccount (registry : ptr) (groups : Groups) (auth : AuthoritySet)
    (principal : string) : outcome (gmap string Privilege) :=
  let grants : gmap string Privilege := ∅ in
  let grants := <[AccessSSHAPI := NewSSHGrantPrivilege (SshUser auth) false (4 * Hour)
                    ("temporary-ssh-grant-" +:+ principal) ["root"]]> grants in
  let grants := <[AccessEtcdAPI := NewTLSGrantPrivilege (EtcdClient auth) false (4 * Hour)
                    ("temporary-etcd-grant-" +:+ principal) [] []]> grants in
  let grants := <[AccessKubernetesAPI := NewTLSGrantPrivilege (Kubernetes auth) false (4 * Hour)
                    ("root:" +:+ principal) [] ["system:masters"]]> grants in
  bootstrap ← NewBootstrapPrivilege (NodesGroup groups) Hour registry;
  let grants := <["bootstrap" := bootstrap]> grants in
  Return grants.

Definition GenerateLocalConf (conf : SpireSetup) (node : SpireNode) : outcome string :=
  let scheduleWork := IsWorker node in
  dns ← DNS node;
  Return ("# generated automatically by keyserver" +:+ newline +:+
          "HOST_NODE=" +:+ Hostname node +:+ newline +:+
          "HOST_DNS=" +:+ dns +:+ newline +:+
          "HOST_IP=" +:+ node_IP node +:+ newline +:+
          "SCHEDULE_WORK=" +:+ FormatBool scheduleWork +:+ newline +:+
          "KIND=" +:+ Kind node).

Definition GrantsForNodeAccount (context registry : ptr) (conf : SpireSetup) (groups : Groups)
    (auth : AuthoritySet) (principal : string) (node : SpireNode) : outcome (gmap string Privilege) :=
  let grants : gmap string Privilege := ∅ in
  (* membership in the cluster *)
  grants ←
    (if IsSupervisor node then
       bootstrap ← NewBootstrapPrivilege (NodesGroup groups) Hour registry;
       Return (<[ImpersonateKerberosAPI := NewImpersonatePrivilege context (KerberosAccounts groups)]>
               (<[BootstrapKeyserverTokenAPI := bootstrap]> grants))
     else Return grants);
  let grants := <[RenewKeygrantAPI :=
    NewTLSGrantPrivilege (Keygranting auth) false (OneDay * 40) principal [] []]> grants in
  (* configuration endpoint *)
  localconf ← GenerateLocalConf conf node;
  let grants := <[LocalConfAPI := NewConfigurationPrivilege localconf]> grants in
  (* server certificates *)
  dns ← DNS node;
  let own := [dns; Hostname node; node_IP node] in
  let grants := <[SignSSHHostKeyAPI :=
    NewSSHGrantPrivilege (SshHost auth) true (OneDay * 60) ("admitted-" +:+ principal) own]> grants in
  let grants :=
    if IsMaster node then
      <[SignEtcdServerAPI :=
        NewTLSGrantPrivilege (EtcdServer auth) true (30 * OneDay) ("etcd-server-" +:+ Hostname node) own []]>
      (<[SignKubernetesMasterAPI :=
        NewTLSGrantPrivilege (Kubernetes auth) true (30 * OneDay) ("apiserver:" +:+ Hostname node)
          [dns; Hostname node; "kubernetes"; "kubernetes.default"; "kubernetes.default.svc";
           "kubernetes.default.svc." +:+ InternalDomain conf; node_IP node; ServiceAPI conf] []]> grants)
    else grants in
  let grants :=
    if IsSupervisor node then
      <[SignRegistryHostAPI :=
        NewTLSGrantPrivilege (auth_ClusterCA auth) true (30 * OneDay) ("homeworld-supervisor-" +:+ Hostname node)
          ["homeworld.private"] []]> grants
    else grants in
  (* client certificates *)
  let grants :=
    if IsSupervisor node then
      <[SignKubernetesSupervisorAPI :=
        NewTLSGrantPrivilege (Kubernetes auth) false (30 * OneDay) ("supervisor:" +:+ Hostname node) []
          ["system:masters"]]> grants
    else
      <[SignKubernetesProxyAPI :=
        NewTLSGrantPrivilege (Kubernetes auth) false (30 * OneDay) "system:kube-proxy" [] []]>
      (<[SignKubernetesWorkerAPI :=
        NewTLSGrantPrivilege (Kubernetes auth) true (30 * OneDay) ("system:node:" +:+ Hostname node) own
          ["system:nodes"]]> grants) in
  let grants :=
    if IsMaster node then
      <[FetchServiceAccountKeyAPI := NewFetchKeyPrivilege (ServiceAccount auth)]>
      (<[SignEtcdClientAPI :=
        NewTLSGrantPrivilege (EtcdClient auth) false (30 * OneDay) ("etcd-client-" +:+ Hostname node) own []]>
      (<[SignKubernetesSchedulerAPI :=
        NewTLSGrantPrivilege (Kubernetes auth) false (30 * OneDay) "system:kube-scheduler" [] []]>
      (<[SignKubernetesCtrlMgrAPI :=
        NewTLSGrantPrivilege (Kubernetes auth) false (30 * OneDay) "system:kube-controller-manager" [] []]>
       grants)))
    else grants in
  Return grants.

(** Writes through pointers. *)
Definition update_account (p : ptr) (f : Account → Account) : KS unit :=
  a ← load accounts p; modify (on_comp (with_accounts (insert p (f a)))).
Definition append_member (g a : ptr) : KS unit :=
  grp ← load groups g;
  modify (on_comp (with_groups (insert g (mkGroup (AllMembers grp ++ [a]))))).
Definition set_Privileges (v : gmap string Privilege) (a : Account) : Account :=
  mkAccount (Principal a) (DisableDirectAuth a) (LimitIP a) v.
Definition update_context (c : ptr) (f : Context → Context) : KS unit :=
  x ← load contexts c; modify (on_comp (with_contexts (insert c (f x)))).
Definition set_Account (k : string) (a : ptr) (c : Context) : Context :=
  mkContext (Authorities c) (<[k := a]> (Accounts c)) (TokenVerifier c) (AuthenticationAuthority c)
    (ClusterCA c) (StaticFiles c) (KeyserverDNS c).

Section accounts.
Context (context : ptr) (conf : SpireSetup) (auth : AuthoritySet) (grps : Groups).

(** The bodies of the three loops of [GenerateAccounts]; each returns the
    account that it appends to [accounts]. *)
Definition node_account (node : option SpireNode) : KS ptr :=
  node ← liftO (node_deref node);
  dns ← liftO (DNS node);
  ip ← liftO (NetIP node);
  acc ← new_account (mkAccount dns false (Some ip) ∅);
  _ ← append_member (NodesGroup grps) acc;
  c ← load contexts context;
  grants ← liftO (GrantsForNodeAccount context (TokenVerifier c) conf grps auth dns node);
  _ ← update_account acc (set_Privileges grants);
  mret acc.

Definition admin_account_for (rootAdmin : string) : KS ptr :=
  acc ← new_account (mkAccount rootAdmin true None ∅);
  _ ← append_member (KerberosAccounts grps) acc;
  c ← load contexts context;
  grants ← liftO (GrantsForRootAdminAccount (TokenVerifier c) grps auth rootAdmin);
  _ ← update_account acc (set_Privileges grants);
  mret acc.

Definition host_account (node : option SpireNode) : KS (option ptr) :=
  node ← liftO (node_deref node);
  if IsSupervisor node then
    dns ← liftO (DNS node);
    let principal := "host/" +:+ dns +:+ "@" +:+ KerberosRealm conf in
    acc ← new_account (mkAccount principal true None ∅);
    _ ← append_member (KerberosAccounts grps) acc;
    _ ← update_account acc (set_Privileges ∅);
    mret (Some acc)
  else mret None.

(** [for ... range] with the values appended. *)
Fixpoint collect {A B} (f : A → KS B) (l : list A) : KS (list B) :=
  match l with
  | [] => mret []
  | a :: l => b ← f a; bs ← collect f l; mret (b :: bs)
  end.

Definition register_account (a : ptr) : KS unit :=
  ac ← load accounts a;
  update_context context (set_Account (Principal ac) a).
End accounts.

Definition metrics_admin : string := "metrics@NONEXISTENT.REALM.INVALID".

Definition GenerateAccounts (context : ptr) (conf : SpireSetup) (auth : AuthoritySet) : KS unit :=
  kerberos ← new_group (mkGroup []);
  nodes ← new_group (mkGroup []);
  let grps := mkGroups kerberos nodes in
  l1 ← collect (node_account context conf auth grps) (Nodes conf);
  let allAdmins := metrics_admin :: RootAdmins conf in
  l2 ← collect (admin_account_for context auth grps) allAdmins;
  l3 ← (if bool_decide (0 < Z.of_nat (length (RootAdmins conf)))
        then collect (host_account conf grps) (Nodes conf)
        else mret []);
  for_all (register_account context) (l1 ++ l2 ++ omap id l3).

Definition AuthorityKeyDirectory : string := "/etc/homeworld/keyserver/authorities/".
Definition ClusterConfigPath : string := "/etc/homeworld/keyserver/static/cluster.conf".

(** The files of a map, in the order of [map_to_list]. *)
Definition ValidateStaticFiles (context : ptr) : KS (result unit) :=
  c ← load contexts context;
  for_each (λ static : string * string,
    info ←? os_Stat static.2;
    match info with
    | Dir => fail (ErrorString ("static file at " +:+ static.2 +:+ " is directory"))
    | File _ _ _ => ok tt
    end) (map_to_list (StaticFiles c)).

Definition set_Authority (k : string) (a : Authority) (c : Context) : Context :=
  mkContext (<[k := a]> (Authorities c)) (Accounts c) (TokenVerifier c) (AuthenticationAuthority c)
    (ClusterCA c) (StaticFiles c) (KeyserverDNS c).
Definition set_serving (a ca : TLSAuthority) (c : Context) : Context :=
  mkContext (Authorities c) (Accounts c) (TokenVerifier c) (Some a) (Some ca) (StaticFiles c) (KeyserverDNS c).

(** [context.Authorities[name].( *authorities.TLSAuthority)] *)
Definition assert_TLS (c : Context) (name : string) : outcome TLSAuthority :=
  match Authorities c !! name with
  | Some (ATLS t) => Return t
  | _ => Panic "interface conversion"
  end.
Definition assert_SSH (c : Context) (name : string) : outcome SSHAuthority :=
  match Authorities c !! name with
  | Some (ASSH d) => Return d
  | _ => Panic "interface conversion"
  end.

Definition authority_set (c : Context) : outcome AuthoritySet :=
  keygranting ← assert_TLS c KeygrantingAuthority;
  clusterca ← assert_TLS c ClusterCAAuthority;
  etcdclient ← assert_TLS c EtcdClientAuthority;
  etcdserver ← assert_TLS c EtcdServerAuthority;
  kubernetes ← assert_TLS c KubernetesAuthority;
  serviceaccount ← assert_TLS c ServiceAccountAuthority;
  sshhost ← assert_SSH c SSHHostAuthority;
  sshuser ← assert_SSH c SSHUserAuthority;
  Return (mkAuthoritySet keygranting clusterca sshuser sshhost etcdserver etcdclient kubernetes serviceaccount).

Definition GenerateConfig `{PkgErrors} `{Crypto} `{Yaml} : KS (result ptr) :=
  conf ←? LoadSpireSetup SpireSetupPath;
  verifier ← NewTokenVerifier;
  supervisor ← liftO (Supervisor conf);
  dns ← liftO (DNS supervisor);
  context ← new_context (mkContext ∅ ∅ verifier None None {[ ClusterConfStatic := ClusterConfigPath ]} dns);
  ValidateStaticFiles context ;?
  for_each (λ authority,
    loaded ←? Load authority AuthorityKeyDirectory;
    _ ← update_context context (set_Authority (ca_Name authority) loaded); ok tt) ListAuthorities ;?
  c ← load contexts context;
  auth ← liftO (authority_set c);
  _ ← update_context context (set_serving (Keygranting auth) (auth_ClusterCA auth));
  _ ← GenerateAccounts context conf auth;
  ok context.

(** ** A valid setup *)

Definition valid_node (domain : string) (n : SpireNode) : Prop :=
  (IsSupervisor n || IsMaster n || IsWorker n) = true ∧
  node_setup n = Some domain ∧ netIP n = ParseIP (node_IP n) ∧ is_Some (netIP n).
Record valid_setup (conf : SpireSetup) : Prop := {
  valid_nodes : Forall (λ n, ∃ node, n = Some node ∧ valid_node (ExternalDomain conf) node) (Nodes conf);
  one_supervisor :
    length (List.filter (λ n, match n with Some n => IsSupervisor n | None => false end) (Nodes conf)) = 1%nat;
  the_supervisor : ∃ s, spire_supervisor conf = Some s ∧ Some s ∈ Nodes conf ∧ IsSupervisor s = true;
  admins_named : Forall (λ a, a ≠ "") (RootAdmins conf);
  admins_distinct : NoDup (RootAdmins conf)
}.

Definition supervisor_count (l : list (option SpireNode)) : Z :=
  Z.of_nat (length (List.filter (λ n, match n with Some n => IsSupervisor n | None => false end) l)).

Lemma validate_nodes_inv domain nodes seen sup n res :
  fold_each (validate_node domain) (seen, sup, n) nodes = Return (Ok res) →
  Forall (λ x, ∃ node, x = Some node ∧ valid_node domain node) seen →
  n = supervisor_count seen →
  (∀ s, sup = Some s → Some s ∈ seen ∧ IsSupervisor s = true) → (0 < n → is_Some sup) →
  let '(seen', sup', n') := res in
  Forall (λ x, ∃ node, x = Some node ∧ valid_node domain node) seen' ∧
  n' = supervisor_count seen' ∧
  (∀ s, sup' = Some s → Some s ∈ seen' ∧ IsSupervisor s = true) ∧ (0 < n' → is_Some sup').
Proof.
  revert seen sup n. induction nodes as [|node nodes IH]; intros seen sup n Hf Hseen Hn Hsup Hpos.
  { injection Hf as <-. done. }
  cbn [fold_each] in Hf. unfold try_bind, validate_node in Hf.
  destruct node as [node|]; [|done]. simpl in Hf.
  destruct (IsSupervisor node || IsMaster node || IsWorker node) eqn:Hkind; [|done]. simpl in Hf.
  destruct (ParseIP (node_IP node)) as [ip|] eqn:Hip; [|done].
  set (node' := mkSpireNode _ _ _ _ _) in Hf.
  assert (Hv : valid_node domain node').
  { unfold valid_node. simpl. split_and!; [exact Hkind|done|by rewrite Hip|by eexists]. }
  assert (Hs : Forall (λ x, ∃ node, x = Some node ∧ valid_node domain node) (seen ++ [Some node'])).
  { apply Forall_app. split; [done|]. constructor; [by eexists|constructor]. }
  assert (Hcount : supervisor_count (seen ++ [Some node']) =
    supervisor_count seen + if IsSupervisor node' then 1 else 0).
  { unfold supervisor_count. rewrite List.filter_app, List.length_app. simpl.
    destruct (IsSupervisor node'); simpl; lia. }
  destruct (IsSupervisor node') eqn:Hsv; simpl in Hf; apply IH in Hf; try done.
  - lia.
  - intros s [= <-]. split; [set_solver|done].
  - lia.
  - intros s Hs'. destruct (Hsup s Hs') as [??]. split; [set_solver|done].
Qed.

Lemma check_admins_inv `{PkgErrors} admins dup :
  check_admins admins dup = Ok tt →
  Forall (λ a, a ≠ "") admins ∧ NoDup admins ∧ Forall (λ a, a ∉ dup) admins.
Proof.
  revert dup. induction admins as [|a admins IH]; intros dup; simpl.
  { intros _. split_and!; constructor. }
  case_bool_decide as Ha; [done|]. case_bool_decide as Hd; [done|].
  intros (H1 & H2 & H3)%IH. split_and!; [by constructor|constructor; [|done]|constructor; [done|]].
  - intros Hin. rewrite Forall_forall in H3. apply H3 in Hin. set_solver.
  - eapply Forall_impl; [exact H3|]. intros x. set_solver.
Qed.

(** A setup that loads is valid. *)
Lemma LoadSpireSetup_valid_setup `{PkgErrors} `{Yaml} {X} path (w : World X) conf w' :
  LoadSpireSetup path w = (Return (Ok conf), w') → valid_setup conf.
Proof.
  unfold LoadSpireSetup. intros (content & w1 & _ & Hl)%try_bind_Ok_inv.
  destruct (yaml_Unmarshal content) as [setup|] eqn:Hy; [|done].
  apply yaml_unexported in Hy as [Hsup _].
  assert (validate_setup setup = Return (Ok conf)) as Hv by (unfold liftO in Hl; congruence).
  unfold validate_setup, try_bind in Hv. rewrite Hsup in Hv.
  destruct (fold_each _ _ _) as [[res|]| |] eqn:Hf; [|done..].
  apply validate_nodes_inv in Hf; [|constructor|done|done|lia].
  destruct res as [[nodes sup] n]. destruct Hf as (Hnodes & Hn & Hs & Hpos). simpl in Hv.
  case_bool_decide as Hone; [done|]. assert (n = 1) as -> by (destruct (decide (n = 1)); [done|tauto]).
  destruct (check_admins (RootAdmins setup) ∅) as [[]|] eqn:Ha; [|done].
  apply check_admins_inv in Ha as (Ha1 & Ha2 & _). injection Hv as <-.
  destruct Hpos as [s Hsome]; [lia|]. split; simpl; try done.
  - unfold supervisor_count in Hn. lia.
  - exists s. destruct (Hs s Hsome). done.
Qed.

(** *** Which setups load *)

Definition acceptable_node (n : SpireNode) : bool :=
  (IsSupervisor n || IsMaster n || IsWorker n) && bool_decide (is_Some (ParseIP (node_IP n))).
(** The node as the loop leaves it. *)
Definition annotated (domain : string) (n : SpireNode) : SpireNode :=
  mkSpireNode (Hostname n) (node_IP n) (ParseIP (node_IP n)) (Some domain) (Kind n).
Definition supervisors_of (l : list SpireNode) : list SpireNode := List.filter IsSupervisor l.
Definition acceptable_admins (admins : list string) : bool :=
  bool_decide (NoDup admins) && bool_decide ("" ∉ admins).

Lemma fold_validate_ok domain nodes seen sup n :
  forallb acceptable_node nodes = true →
  fold_each (validate_node domain) (seen, sup, n) (Some <$> nodes) =
    Return (Ok (seen ++ (Some ∘ annotated domain <$> nodes),
                from_option Some sup (last (supervisors_of (annotated domain <$> nodes))),
                n + Z.of_nat (length (supervisors_of nodes)))).
Proof.
  revert seen sup n. induction nodes as [|x nodes IH]; intros seen sup n Hall.
  { simpl. by rewrite app_nil_r, Z.add_0_r. }
  simpl in Hall. apply andb_true_iff in Hall as [Hx Hall]. unfold acceptable_node in Hx.
  apply andb_true_iff in Hx as [Hk [ip Hip]%bool_decide_eq_true].
  assert (Hstep : validate_node domain (seen, sup, n) (Some x) =
    Return (Ok (seen ++ [Some (annotated domain x)],
                if IsSupervisor x then Some (annotated domain x) else sup,
                n + if IsSupervisor x then 1 else 0))).
  { unfold validate_node. simpl. rewrite Hk. unfold annotated. rewrite Hip. simpl.
    change (IsSupervisor (mkSpireNode _ _ _ _ (Kind x))) with (IsSupervisor x).
    destruct (IsSupervisor x); by rewrite ?Z.add_0_r. }
  rewrite !fmap_cons. cbn [fold_each]. unfold try_bind at 1. rewrite Hstep.
  cbn [mbind outcome_bind]. rewrite IH by done. rewrite <- app_assoc.
  unfold supervisors_of. cbn [List.filter].
  change (IsSupervisor (annotated domain x)) with (IsSupervisor x).
  destruct (IsSupervisor x); cbn [length]; do 2 f_equal; [|f_equal; lia].
  rewrite last_cons. f_equal; [|lia]. f_equal. by destruct (last _).
Qed.
Lemma fold_validate_bad domain nodes acc :
  forallb acceptable_node nodes = false →
  ∃ e, fold_each (validate_node domain) acc (Some <$> nodes) = Return (Err e).
Proof.
  revert acc. induction nodes as [|x nodes IH]; intros [[seen sup] n] Hbad; [done|].
  simpl in Hbad. rewrite fmap_cons. cbn [fold_each]. unfold try_bind, validate_node. simpl.
  unfold acceptable_node in Hbad. destruct (_ || IsWorker x); [|by eexists]. simpl in *.
  destruct (ParseIP (node_IP x)); [|by eexists]. rewrite bool_decide_true in Hbad by done.
  destruct (IsSupervisor _); by apply IH.
Qed.
Lemma check_admins_spec `{PkgErrors} admins dup :
  is_ok (check_admins admins dup) = true ↔
    NoDup admins ∧ ("" ∉ admins) ∧ (∀ a, a ∈ admins → a ∉ dup).
Proof.
  revert dup. induction admins as [|a admins IH]; intros dup; simpl.
  { split; [intros _|done]. split_and!; [constructor|set_solver..]. }
  rewrite NoDup_cons, not_elem_of_cons. case_bool_decide as Ha; [naive_solver|].
  case_bool_decide as Hd; [split; [done|intros (_ & _ & Hno); set_solver]|]. rewrite IH.
  split; intros (H1 & H2 & H3); split_and!; [| |naive_solver|done|intros b|naive_solver..| ].
  all: set_solver.
Qed.

(** C29: a setup without null nodes loads if and only if every node has a known kind and an
    address that parses, exactly one node is the supervisor and the administrators
    have distinct, non-empty names; what is loaded is the setup with its nodes'
    addresses parsed, their back pointers set and the supervisor remembered. *)
Theorem validate_setup_spec `{PkgErrors} setup nodes :
  Nodes setup = Some <$> nodes → spire_supervisor setup = None →
  if (forallb acceptable_node nodes && bool_decide (length (supervisors_of nodes) = 1%nat) &&
      acceptable_admins (RootAdmins setup))%bool
  then validate_setup setup =
    Return (Ok (mkSpireSetup (ExternalDomain setup) (InternalDomain setup) (KerberosRealm setup)
                  (ServiceAPI setup) (Some ∘ annotated (ExternalDomain setup) <$> nodes)
                  (annotated (ExternalDomain setup) <$> head (supervisors_of nodes)) (RootAdmins setup)))
  else ∃ e, validate_setup setup = Return (Err e).
Proof.
  intros Hn Hs. unfold validate_setup, try_bind. rewrite Hn, Hs.
  destruct (forallb acceptable_node nodes) eqn:Hall; simpl.
  2: { destruct (fold_validate_bad (ExternalDomain setup) nodes ([], None, 0) Hall) as [e ->]. by exists e. }
  rewrite fold_validate_ok by done. simpl.
  pose proof (check_admins_spec (RootAdmins setup) ∅) as Hadm.
  destruct (decide (length (supervisors_of nodes) = 1%nat)) as [H1|H1].
  2: { rewrite bool_decide_false by done. simpl. rewrite bool_decide_true by lia. by eexists. }
  rewrite bool_decide_true by done. rewrite bool_decide_false by lia. simpl.
  unfold acceptable_admins. destruct (check_admins (RootAdmins setup) ∅) as [[]|e]; simpl in Hadm.
  - destruct Hadm as [(Ha & Hb & _) _]; [done|]. rewrite !bool_decide_true by done. simpl.
    do 3 f_equal.
    assert (supervisors_of (annotated (ExternalDomain setup) <$> nodes) =
            annotated (ExternalDomain setup) <$> supervisors_of nodes) as ->.
    { clear. induction nodes as [|x l IH]; [done|]. unfold supervisors_of in *.
      rewrite fmap_cons. cbn [List.filter]. change (IsSupervisor (annotated _ x)) with (IsSupervisor x).
      destruct (IsSupervisor x); [rewrite fmap_cons|]; by rewrite IH. }
    by destruct (supervisors_of nodes) as [|s [|]].
  - case_bool_decide; [|by eexists]. case_bool_decide; [|by eexists].
    assert (false = true); [|done]. apply Hadm. split_and!; [done|done|set_solver].
Qed.

(** ** What a node may do *)

(** The names of the operations for each kind of node. *)
Definition common_apis : list string := [RenewKeygrantAPI; LocalConfAPI; SignSSHHostKeyAPI].
Definition supervisor_apis : list string :=
  common_apis ++ [BootstrapKeyserverTokenAPI; ImpersonateKerberosAPI; SignRegistryHostAPI;
                  SignKubernetesSupervisorAPI].
Definition worker_apis : list string := common_apis ++ [SignKubernetesWorkerAPI; SignKubernetesProxyAPI].
Definition master_apis : list string :=
  worker_apis ++ [SignKubernetesMasterAPI; SignEtcdServerAPI; SignKubernetesCtrlMgrAPI;
                  SignKubernetesSchedulerAPI; SignEtcdClientAPI; FetchServiceAccountKeyAPI].
Definition kind_apis (n : SpireNode) : list string :=
  if IsSupervisor n then supervisor_apis else if IsMaster n then master_apis else worker_apis.

(** The policy: what each operation may be granted for, to a node. *)
Section policy.
Context (context registry : ptr) (conf : SpireSetup) (groups : Groups) (auth : AuthoritySet) (dns : string) (n : SpireNode).

Definition days (d : Z) : Z := d * (24 * 3600 * Second).
Definition client_cert (a : TLSAuthority) (cn : string) (names orgs : list string) : Privilege :=
  TLSGrantPrivilege a false (days 30) cn names orgs.
Definition server_cert (a : TLSAuthority) (cn : string) (names orgs : list string) : Privilege :=
  TLSGrantPrivilege a true (days 30) cn names orgs.
(** The names of the node, those of the API server, and the description of the node that it may fetch. *)
Definition own_names : list string := [dns; Hostname n; node_IP n].
Definition apiserver_names : list string :=
  [dns; Hostname n; "kubernetes"; "kubernetes.default"; "kubernetes.default.svc";
   "kubernetes.default.svc." +:+ InternalDomain conf; node_IP n; ServiceAPI conf].
Definition own_conf : string :=
  Join ["# generated automatically by keyserver"; "HOST_NODE=" +:+ Hostname n; "HOST_DNS=" +:+ dns;
        "HOST_IP=" +:+ node_IP n; "SCHEDULE_WORK=" +:+ FormatBool (IsWorker n); "KIND=" +:+ Kind n] newline.

Definition policy : gmap string Privilege := list_to_map
  [(BootstrapKeyserverTokenAPI, BootstrapPrivilege (NodesGroup groups) (3600 * Second) registry);
   (ImpersonateKerberosAPI, ImpersonatePrivilege context (KerberosAccounts groups));
   (RenewKeygrantAPI, TLSGrantPrivilege (Keygranting auth) false (days 40) dns [] []);
   (LocalConfAPI, ConfigurationPrivilege own_conf);
   (SignSSHHostKeyAPI, SSHGrantPrivilege (SshHost auth) true (days 60) ("admitted-" +:+ dns) own_names);
   (SignRegistryHostAPI, server_cert (auth_ClusterCA auth) ("homeworld-supervisor-" +:+ Hostname n) ["homeworld.private"] []);
   (SignKubernetesSupervisorAPI, client_cert (Kubernetes auth) ("supervisor:" +:+ Hostname n) [] ["system:masters"]);
   (SignKubernetesWorkerAPI, server_cert (Kubernetes auth) ("system:node:" +:+ Hostname n) own_names ["system:nodes"]);
   (SignKubernetesProxyAPI, client_cert (Kubernetes auth) "system:kube-proxy" [] []);
   (SignKubernetesMasterAPI, server_cert (Kubernetes auth) ("apiserver:" +:+ Hostname n) apiserver_names []);
   (SignKubernetesCtrlMgrAPI, client_cert (Kubernetes auth) "system:kube-controller-manager" [] []);
   (SignKubernetesSchedulerAPI, client_cert (Kubernetes auth) "system:kube-scheduler" [] []);
   (SignEtcdServerAPI, server_cert (EtcdServer auth) ("etcd-server-" +:+ Hostname n) own_names []);
   (SignEtcdClientAPI, client_cert (EtcdClient auth) ("etcd-client-" +:+ Hostname n) own_names []);
   (FetchServiceAccountKeyAPI, FetchKeyPrivilege (ServiceAccount auth))].
End policy.

Lemma kind_cases n :
  (IsSupervisor n || IsMaster n || IsWorker n) = true →
  IsSupervisor n = true ∧ IsMaster n = false ∧ IsWorker n = false ∨
  IsSupervisor n = false ∧ IsMaster n = true ∧ IsWorker n = false ∨
  IsSupervisor n = false ∧ IsMaster n = false ∧ IsWorker n = true.
Proof.
  unfold IsSupervisor, IsMaster, IsWorker, kind_Supervisor, kind_Master, kind_Worker.
  repeat case_bool_decide; simpl; intros ?; first [by auto|exfalso; congruence].
Qed.

Ltac grants_inserts := repeat (apply map_Forall_insert_2; [|]); [..|apply map_Forall_empty].

(** C14: the operations that a node is granted are those of its kind, no more and no less,
    and each under the terms of the policy: the authority that signs, whether the
    certificate serves, how long it is valid, its common name, the names and the
    organizations that it carries; the group, registry and key of the others. *)
Theorem GrantsForNodeAccount_spec context registry conf groups auth dns node :
  registry ≠ 0%nat → valid_node (ExternalDomain conf) node →
  DNS node = Return dns →
  ∃ g, GrantsForNodeAccount context registry conf groups auth dns node = Return g ∧
    dom g = list_to_set (kind_apis node) ∧
    ∀ api, api ∈ kind_apis node → g !! api = policy context registry conf groups auth dns node !! api.
Proof.
  intros Hreg (Hkind & Hset & _) Hdns.
  unfold GrantsForNodeAccount, GenerateLocalConf, NewBootstrapPrivilege.
  rewrite Hdns, bool_decide_false by done. unfold kind_apis.
  destruct (kind_cases node Hkind) as [(Hs & Hm & Hw)|[(Hs & Hm & Hw)|(Hs & Hm & Hw)]];
    unfold policy, own_conf; rewrite ?Hs, ?Hm, ?Hw; eexists; (split; [reflexivity|]);
    (split; [vm_compute; reflexivity|]);
    (intros api Hapi; repeat (apply elem_of_cons in Hapi as [->|Hapi]; [vm_compute; reflexivity|]); by apply elem_of_nil in Hapi).
Qed.

Lemma grants_return context registry conf groups auth dns node :
  registry ≠ 0%nat → DNS node = Return dns →
  ∃ g, GrantsForNodeAccount context registry conf groups auth dns node = Return g.
Proof.
  intros Hreg Hdns. unfold GrantsForNodeAccount, GenerateLocalConf, NewBootstrapPrivilege.
  rewrite Hdns, bool_decide_false by done. destruct (IsSupervisor node); by eexists.
Qed.

(** ** The accounts that are generated *)

Section generate.
Context (context : ptr) (conf : SpireSetup) (auth : AuthoritySet) (grps : Groups) (c0 : Context).
Hypothesis distinct_groups : KerberosAccounts grps ≠ NodesGroup grps.
Hypothesis real_registry : TokenVerifier c0 ≠ 0%nat.

(** The account at [p] is that of [node]. *)
Definition is_node_account (m : Mem) (node : option SpireNode) (p : ptr) : Prop :=
  ∃ n dns ip g, node = Some n ∧ DNS n = Return dns ∧ netIP n = Some ip ∧
    GrantsForNodeAccount context (TokenVerifier c0) conf grps auth dns n = Return g ∧
    accounts m !! p = Some (mkAccount dns false (Some ip) g).
(** The Kerberos principal of the supervisor's host. *)
Definition host_principals (n : SpireNode) : list string :=
  if IsSupervisor n
  then ["host/" +:+ (Hostname n +:+ "." +:+ ExternalDomain conf) +:+ "@" +:+ KerberosRealm conf] else [].
(** The account at [p] is for Kerberos only: it is not authenticated directly, it is granted
    what an administrator is, or nothing if it is a host's, and cannot impersonate. *)
Definition is_kerberos_account (m : Mem) (principal : string) (p : ptr) : Prop :=
  ∃ g, accounts m !! p = Some (mkAccount principal true None g) ∧
    map_Forall (λ _ priv, match priv with ImpersonatePrivilege _ _ => False | _ => True end) g ∧
    (GrantsForRootAdminAccount (TokenVerifier c0) grps auth principal = Return g ∨
     g = ∅ ∧ ∃ n, valid_node (ExternalDomain conf) n ∧ principal ∈ host_principals n).

(** The memory after the accounts [ns] for [nodes] and [ks] for [principals]
    were made. *)
Record generated (m : Mem) (nodes : list (option SpireNode)) (ns : list ptr)
    (principals : list string) (ks : list ptr) : Prop := {
  gen_context : contexts m !! context = Some c0;
  gen_nodes : groups m !! NodesGroup grps = Some (mkGroup ns);
  gen_kerberos : groups m !! KerberosAccounts grps = Some (mkGroup ks);
  gen_ns : Forall2 (is_node_account m) nodes ns;
  gen_ks : Forall2 (is_kerberos_account m) principals ks;
  gen_fresh : ∀ p, is_Some (accounts m !! p) → (p < next_ptr m)%nat;
  gen_all : ∀ p, is_Some (accounts m !! p) → p ∈ ns ++ ks
}.

(** A new account, in a group, with its privileges. *)
Definition made (w w' : World Mem) (p g : ptr) (members : list ptr) (a : Account) : Prop :=
  p = next_ptr (comp w) ∧
  accounts (comp w') = <[p := a]> (accounts (comp w)) ∧
  groups (comp w') = <[g := mkGroup (members ++ [p])]> (groups (comp w)) ∧
  contexts (comp w') = contexts (comp w) ∧ next_ptr (comp w') = S (next_ptr (comp w)).

Lemma append_member_eq g a w grp :
  groups (comp w) !! g = Some grp →
  append_member g a w =
    (Return tt, on_comp (with_groups (insert g (mkGroup (AllMembers grp ++ [a])))) w).
Proof. intros Hg. unfold append_member. by rewrite (bind_Return _ _ _ _ _ (load_eq _ _ _ _ Hg)). Qed.
Lemma update_account_eq p f w a :
  accounts (comp w) !! p = Some a →
  update_account p f w = (Return tt, on_comp (with_accounts (insert p (f a))) w).
Proof. intros Hp. unfold update_account. by rewrite (bind_Return _ _ _ _ _ (load_eq _ _ _ _ Hp)). Qed.

Lemma same_accounts_node m m' node p :
  accounts m' !! p = accounts m !! p → is_node_account m node p → is_node_account m' node p.
Proof. intros He (n & dns & ip & g & ? & ? & ? & ? & ?). exists n, dns, ip, g. by rewrite He. Qed.
Lemma same_accounts_kerberos m m' s p :
  accounts m' !! p = accounts m !! p → is_kerberos_account m s p → is_kerberos_account m' s p.
Proof. intros He (g & ? & ? & ?). exists g. by rewrite He. Qed.

Lemma Forall2_same {A} (P Q : A → ptr → Prop) l1 l2 :
  Forall2 P l1 l2 → (∀ a p, p ∈ l2 → P a p → Q a p) → Forall2 Q l1 l2.
Proof.
  induction 1 as [|a p l1 l2 Hp Hl IH]; intros HPQ; constructor.
  - apply HPQ; [by left|done].
  - apply IH. intros a' p' Hin. apply HPQ. by right.
Qed.

(** Every account made so far is below the next free address. *)
Lemma generated_old m nodes ns principals ks p :
  generated m nodes ns principals ks → p ∈ ns ++ ks → (p < next_ptr m)%nat.
Proof.
  intros Hg Hin. apply (gen_fresh _ _ _ _ _ Hg). apply elem_of_app in Hin as [Hin|Hin].
  - apply list_elem_of_lookup in Hin as [i Hi].
    destruct (Forall2_lookup_r _ _ _ _ _ (gen_ns _ _ _ _ _ Hg) Hi)
      as (x & _ & n & dns & ip & g & _ & _ & _ & _ & Ha). by eexists.
  - apply list_elem_of_lookup in Hin as [i Hi].
    destruct (Forall2_lookup_r _ _ _ _ _ (gen_ks _ _ _ _ _ Hg) Hi) as (x & _ & g & Ha & _). by eexists.
Qed.

Lemma generated_node w w' nodes ns principals ks node p a :
  generated (comp w) nodes ns principals ks → made w w' p (NodesGroup grps) ns a →
  is_node_account (comp w') node p →
  generated (comp w') (nodes ++ [node]) (ns ++ [p]) principals ks.
Proof.
  intros Hg (Hp & Ha & Hgr & Hc & Hn) Hnode.
  assert (Hold : ∀ q, q ∈ ns ++ ks → accounts (comp w') !! q = accounts (comp w) !! q).
  { intros q Hq%(generated_old _ _ _ _ _ _ Hg). rewrite Ha, lookup_insert_ne by lia. done. }
  destruct Hg as [H1 H2 H3 H4 H5 H6 H7]. split.
  - by rewrite Hc.
  - by rewrite Hgr, lookup_insert_eq.
  - by rewrite Hgr, lookup_insert_ne.
  - apply Forall2_app; [|by constructor; [|constructor]].
    apply (Forall2_same _ _ _ _ H4). intros x q Hq. apply same_accounts_node, Hold, elem_of_app. by left.
  - apply (Forall2_same _ _ _ _ H5). intros x q Hq. apply same_accounts_kerberos, Hold, elem_of_app. by right.
  - intros q. rewrite Ha, Hn, lookup_insert_is_Some. intros [->|[_ Hq]]; [lia|]. apply H6 in Hq. lia.
  - intros q. rewrite Ha, lookup_insert_is_Some. intros [->|[_ Hq%H7]]; rewrite !elem_of_app in *.
    + left. right. by left.
    + tauto.
Qed.
Lemma generated_kerberos w w' nodes ns principals ks s p a :
  generated (comp w) nodes ns principals ks → made w w' p (KerberosAccounts grps) ks a →
  is_kerberos_account (comp w') s p →
  generated (comp w') nodes ns (principals ++ [s]) (ks ++ [p]).
Proof.
  intros Hg (Hp & Ha & Hgr & Hc & Hn) Hnode.
  assert (Hold : ∀ q, q ∈ ns ++ ks → accounts (comp w') !! q = accounts (comp w) !! q).
  { intros q Hq%(generated_old _ _ _ _ _ _ Hg). rewrite Ha, lookup_insert_ne by lia. done. }
  destruct Hg as [H1 H2 H3 H4 H5 H6 H7]. split.
  - by rewrite Hc.
  - by rewrite Hgr, lookup_insert_ne.
  - by rewrite Hgr, lookup_insert_eq.
  - apply (Forall2_same _ _ _ _ H4). intros x q Hq. apply same_accounts_node, Hold, elem_of_app. by left.
  - apply Forall2_app; [|by constructor; [|constructor]].
    apply (Forall2_same _ _ _ _ H5). intros x q Hq. apply same_accounts_kerberos, Hold, elem_of_app. by right.
  - intros q. rewrite Ha, Hn, lookup_insert_is_Some. intros [->|[_ Hq]]; [lia|]. apply H6 in Hq. lia.
  - intros q. rewrite Ha, lookup_insert_is_Some. intros [->|[_ Hq%H7]]; rewrite !elem_of_app in *.
    + right. right. by left.
    + tauto.
Qed.

(** Making one account and filling in its privileges. *)
Lemma make_account {A} g members a (K : ptr → KS A) w :
  groups (comp w) !! g = Some (mkGroup members) →
  ∃ w1, os w1 = os w ∧ contexts (comp w1) = contexts (comp w) ∧
    (acc ← new_account a; _ ← append_member g acc; K acc) w = K (next_ptr (comp w)) w1 ∧
    ∀ grants, ∃ w2, os w2 = os w ∧
      update_account (next_ptr (comp w)) (set_Privileges grants) w1 = (Return tt, w2) ∧
      made w w2 (next_ptr (comp w)) g members (set_Privileges grants a).
Proof.
  intros Hg. eexists. split; [|split; [|split]].
  3: { erewrite bind_Return by reflexivity.
       erewrite bind_Return; [reflexivity|]. by apply append_member_eq. }
  - done.
  - done.
  - intros grants. eexists. split; [|split].
    2: { apply update_account_eq. simpl. apply lookup_insert_eq. }
    + done.
    + split_and!; try done. simpl. by rewrite insert_insert_eq.
Qed.

Lemma node_account_step n nodes ns principals ks w :
  generated (comp w) nodes ns principals ks → valid_node (ExternalDomain conf) n →
  ∃ p w', node_account context conf auth grps (Some n) w = (Return p, w') ∧ os w' = os w ∧
    generated (comp w') (nodes ++ [Some n]) (ns ++ [p]) principals ks.
Proof.
  intros Hg Hv. pose proof Hv as (_ & Hset & Hnet & [ip Hip]).
  assert (DNS n = Return (Hostname n +:+ "." +:+ ExternalDomain conf)) as Hdns by (unfold DNS; by rewrite Hset).
  set (dns := Hostname n +:+ _) in Hdns.
  destruct (grants_return context (TokenVerifier c0) conf grps auth dns n real_registry Hdns) as (g & Hgrants).
  destruct (make_account (NodesGroup grps) ns (mkAccount dns false (Some ip) ∅)
    (λ acc, c ← load contexts context;
            grants ← liftO (GrantsForNodeAccount context (TokenVerifier c) conf grps auth dns n);
            _ ← update_account acc (set_Privileges grants); mret acc) w (gen_nodes _ _ _ _ _ Hg))
    as (w1 & Hos & Hc & Hrun & Hfill).
  destruct (Hfill g) as (w2 & Hos2 & Hup & Hmade).
  exists (next_ptr (comp w)), w2. split; [|split; [done|]].
  - unfold node_account. erewrite bind_Return by reflexivity.
    rewrite Hdns. erewrite bind_Return by reflexivity.
    unfold NetIP. rewrite Hip. erewrite bind_Return by reflexivity.
    etrans; [exact Hrun|]. erewrite bind_Return; [|apply load_eq; rewrite Hc; apply (gen_context _ _ _ _ _ Hg)].
    rewrite Hgrants. erewrite bind_Return by reflexivity.
    by rewrite (bind_Return _ _ _ _ _ Hup).
  - eapply generated_node; [done|done|]. exists n, dns, ip, g. split_and!; try done.
    destruct Hmade as (_ & -> & _). apply lookup_insert_eq.
Qed.

Lemma admin_account_step admin nodes ns principals ks w :
  generated (comp w) nodes ns principals ks →
  ∃ p w', admin_account_for context auth grps admin w = (Return p, w') ∧ os w' = os w ∧
    generated (comp w') nodes ns (principals ++ [admin]) (ks ++ [p]).
Proof.
  intros Hg.
  assert (∃ g, GrantsForRootAdminAccount (TokenVerifier c0) grps auth admin = Return g ∧
    map_Forall (λ _ priv, match priv with ImpersonatePrivilege _ _ => False | _ => True end) g)
    as (g & Hgrants & Hno).
  { unfold GrantsForRootAdminAccount, NewBootstrapPrivilege. rewrite bool_decide_false by done.
    eexists. split; [reflexivity|]. by grants_inserts. }
  destruct (make_account (KerberosAccounts grps) ks (mkAccount admin true None ∅)
    (λ acc, c ← load contexts context;
            grants ← liftO (GrantsForRootAdminAccount (TokenVerifier c) grps auth admin);
            _ ← update_account acc (set_Privileges grants); mret acc) w (gen_kerberos _ _ _ _ _ Hg))
    as (w1 & Hos & Hc & Hrun & Hfill).
  destruct (Hfill g) as (w2 & Hos2 & Hup & Hmade).
  exists (next_ptr (comp w)), w2. split; [|split; [done|]].
  - unfold admin_account_for.
    etrans; [exact Hrun|]. erewrite bind_Return; [|apply load_eq; rewrite Hc; apply (gen_context _ _ _ _ _ Hg)].
    rewrite Hgrants. erewrite bind_Return by reflexivity.
    by rewrite (bind_Return _ _ _ _ _ Hup).
  - eapply generated_kerberos; [done|done|]. exists g. split_and!; [|done|by left].
    destruct Hmade as (_ & -> & _). apply lookup_insert_eq.
Qed.

Lemma host_account_step n nodes ns principals ks w :
  generated (comp w) nodes ns principals ks → valid_node (ExternalDomain conf) n →
  ∃ p w', host_account conf grps (Some n) w = (Return p, w') ∧ os w' = os w ∧
    generated (comp w') nodes ns (principals ++ host_principals n) (ks ++ option_list p).
Proof.
  intros Hg Hv. pose proof Hv as (_ & Hset & _). unfold host_account. erewrite bind_Return by reflexivity.
  destruct (IsSupervisor n) eqn:Hs.
  2: { unfold host_principals. rewrite Hs. exists None, w. split; [done|]. split; [done|]. simpl. by rewrite !app_nil_r. }
  assert (Hh : host_principals n = ["host/" +:+ (Hostname n +:+ "." +:+ ExternalDomain conf) +:+ "@" +:+ KerberosRealm conf])
    by (unfold host_principals; by rewrite Hs).
  rewrite Hh. unfold DNS. rewrite Hset. erewrite bind_Return by reflexivity.
  set (principal := "host/" +:+ _).
  destruct (make_account (KerberosAccounts grps) ks (mkAccount principal true None ∅)
    (λ acc, _ ← update_account acc (set_Privileges ∅); mret (Some acc)) w (gen_kerberos _ _ _ _ _ Hg))
    as (w1 & Hos & Hc & Hrun & Hfill).
  destruct (Hfill ∅) as (w2 & Hos2 & Hup & Hmade).
  exists (Some (next_ptr (comp w))), w2. split; [|split; [done|]].
  - etrans; [exact Hrun|]. by rewrite (bind_Return _ _ _ _ _ Hup).
  - eapply generated_kerberos; [done|done|]. exists ∅. split_and!; [|apply map_Forall_empty|].
    + destruct Hmade as (_ & -> & _). apply lookup_insert_eq.
    + right. split; [done|]. exists n. split; [done|]. rewrite Hh. by left.
Qed.

(** *** The loops *)

Lemma collect_nodes l nodes ns principals ks w :
  generated (comp w) nodes ns principals ks →
  Forall (λ n, ∃ node, n = Some node ∧ valid_node (ExternalDomain conf) node) l →
  ∃ ps w', collect (node_account context conf auth grps) l w = (Return ps, w') ∧ os w' = os w ∧
    generated (comp w') (nodes ++ l) (ns ++ ps) principals ks.
Proof.
  intros Hg Hl. revert nodes ns w Hg. induction Hl as [|x l (n & -> & Hn) Hl IH]; intros nodes ns w Hg.
  { exists [], w. by rewrite !app_nil_r. }
  destruct (node_account_step n nodes ns principals ks w Hg Hn) as (p & w1 & E1 & Ho1 & Hg1).
  destruct (IH _ _ _ Hg1) as (ps & w2 & E2 & Ho2 & Hg2).
  exists (p :: ps), w2. cbn [collect]. rewrite (bind_Return _ _ _ _ _ E1), (bind_Return _ _ _ _ _ E2).
  split; [done|]. split; [congruence|]. by rewrite <- !app_assoc in Hg2.
Qed.
Lemma collect_admins l nodes ns principals ks w :
  generated (comp w) nodes ns principals ks →
  ∃ ps w', collect (admin_account_for context auth grps) l w = (Return ps, w') ∧ os w' = os w ∧
    generated (comp w') nodes ns (principals ++ l) (ks ++ ps).
Proof.
  intros Hg. revert principals ks w Hg. induction l as [|x l IH]; intros principals ks w Hg.
  { exists [], w. by rewrite !app_nil_r. }
  destruct (admin_account_step x nodes ns principals ks w Hg) as (p & w1 & E1 & Ho1 & Hg1).
  destruct (IH _ _ _ Hg1) as (ps & w2 & E2 & Ho2 & Hg2).
  exists (p :: ps), w2. cbn [collect]. rewrite (bind_Return _ _ _ _ _ E1), (bind_Return _ _ _ _ _ E2).
  split; [done|]. split; [congruence|]. by rewrite <- !app_assoc in Hg2.
Qed.
Definition hosts_of (l : list (option SpireNode)) : list string :=
  mjoin (map (λ n, match n with Some n => host_principals n | None => [] end) l).
Lemma collect_hosts l nodes ns principals ks w :
  generated (comp w) nodes ns principals ks →
  Forall (λ n, ∃ node, n = Some node ∧ valid_node (ExternalDomain conf) node) l →
  ∃ ps w', collect (host_account conf grps) l w = (Return ps, w') ∧ os w' = os w ∧
    generated (comp w') nodes ns (principals ++ hosts_of l) (ks ++ omap id ps).
Proof.
  intros Hg Hl. revert principals ks w Hg.
  induction Hl as [|x l (n & -> & Hn) Hl IH]; intros principals ks w Hg.
  { exists [], w. simpl. by rewrite !app_nil_r. }
  destruct (host_account_step n nodes ns principals ks w Hg Hn) as (p & w1 & E1 & Ho1 & Hg1).
  destruct (IH _ _ _ Hg1) as (ps & w2 & E2 & Ho2 & Hg2).
  exists (p :: ps), w2. cbn [collect]. rewrite (bind_Return _ _ _ _ _ E1), (bind_Return _ _ _ _ _ E2).
  split; [done|]. split; [congruence|]. unfold hosts_of. simpl. rewrite <- !app_assoc in Hg2.
  by destruct p.
Qed.
End generate.

(** *** Registration *)

Definition principal_of (m : Mem) (p : ptr) : string :=
  match accounts m !! p with Some a => Principal a | None => "" end.
Definition registered (m : Mem) (l : list ptr) (acc : gmap string ptr) : gmap string ptr :=
  foldl (λ acc p, <[principal_of m p := p]> acc) acc l.
Definition with_Accounts (acc : gmap string ptr) (c : Context) : Context :=
  mkContext (Authorities c) acc (TokenVerifier c) (AuthenticationAuthority c) (ClusterCA c)
    (StaticFiles c) (KeyserverDNS c).

Lemma register_all context l w c :
  contexts (comp w) !! context = Some c → Forall (λ p, is_Some (accounts (comp w) !! p)) l →
  ∃ w', for_all (register_account context) l w = (Return tt, w') ∧ os w' = os w ∧
    accounts (comp w') = accounts (comp w) ∧ groups (comp w') = groups (comp w) ∧
    registries (comp w') = registries (comp w) ∧ onces (comp w') = onces (comp w) ∧
    contexts (comp w') !! context = Some (with_Accounts (registered (comp w) l (Accounts c)) c).
Proof.
  intros Hc Hl. revert w c Hc Hl. induction l as [|p l IH]; intros w c Hc Hl.
  { exists w. split; [done|]. split_and!; try done. rewrite Hc. by destruct c. }
  apply Forall_cons in Hl as [[ac Hac] Hl]. cbn [for_all].
  assert (E : register_account context p w =
    (Return tt, on_comp (with_contexts (insert context (set_Account (Principal ac) p c))) w)).
  { unfold register_account, update_context.
    rewrite (bind_Return _ _ _ _ _ (load_eq _ _ _ _ Hac)).
    by rewrite (bind_Return _ _ _ _ _ (load_eq _ _ _ _ Hc)). }
  rewrite (bind_Return _ _ _ _ _ E).
  set (w1 := on_comp _ w). assert (contexts (comp w1) !! context = Some (set_Account (Principal ac) p c)) as Hc1
    by apply lookup_insert_eq.
  destruct (IH w1 _ Hc1 Hl) as (w' & E' & Hos & Ha & Hg & Hr & Ho & Hc').
  exists w'. split; [done|]. split_and!; try done. rewrite Hc'. unfold registered. simpl.
  by rewrite <- (ltac:(unfold principal_of; by rewrite Hac) : principal_of (comp w) p = Principal ac).
Qed.

Lemma registered_lookup m l acc k p :
  registered m l acc !! k = Some p →
  p ∈ l ∧ principal_of m p = k ∨ acc !! k = Some p ∧ ∀ q, q ∈ l → principal_of m q ≠ k.
Proof.
  revert acc. induction l as [|x l IH]; intros acc; simpl.
  { intros Hk. right. split; [done|]. intros q Hq. by apply elem_of_nil in Hq. }
  intros [[Hp Hk]|[Hk Hq]]%IH; [left; split; [by right|done]|].
  apply lookup_insert_Some in Hk as [[Hk <-]|[Hne Hk]].
  - left. split; [by left|done].
  - right. split; [done|]. intros q [->|Hin]%elem_of_cons; [done|by apply Hq].
Qed.
Lemma registered_some m l acc k :
  (∃ p, p ∈ l ∧ principal_of m p = k) ∨ is_Some (acc !! k) → is_Some (registered m l acc !! k).
Proof.
  revert acc. induction l as [|x l IH]; intros acc; simpl.
  { intros [(p & Hp & _)|?]; [by apply elem_of_nil in Hp|done]. }
  intros [(p & [->|Hp]%elem_of_cons & Hk)|Hk]; apply IH.
  - right. rewrite Hk, lookup_insert_eq. by eexists.
  - left. by exists p.
  - right. apply lookup_insert_is_Some'. by right.
Qed.
Lemma registered_app m l1 l2 acc : registered m (l1 ++ l2) acc = registered m l2 (registered m l1 acc).
Proof. apply foldl_app. Qed.

(** ** The configuration that [GenerateAccounts] leaves *)

Definition kerberos_principals (conf : SpireSetup) : list string :=
  (metrics_admin :: RootAdmins conf) ++
  (if bool_decide (0 < Z.of_nat (length (RootAdmins conf))) then hosts_of conf (Nodes conf) else []).

(** One account per node, in the group of nodes; one per Kerberos principal,
    in the other group; the context finds each account under its principal, and
    a Kerberos principal is never found as a node. *)
Record configured (m : Mem) (context : ptr) (conf : SpireSetup) (auth : AuthoritySet) (grps : Groups)
    (c : Context) (ns ks : list ptr) : Prop := {
  cfg_context : contexts m !! context = Some c;
  cfg_nodes_group : groups m !! NodesGroup grps = Some (mkGroup ns);
  cfg_kerberos_group : groups m !! KerberosAccounts grps = Some (mkGroup ks);
  cfg_nodes : Forall2 (is_node_account context conf auth grps c m) (Nodes conf) ns;
  cfg_kerberos : Forall2 (is_kerberos_account conf auth grps c m) (kerberos_principals conf) ks;
  cfg_only : ∀ p, is_Some (accounts m !! p) → p ∈ ns ++ ks;
  cfg_found : ∀ k p, Accounts c !! k = Some p → p ∈ ns ++ ks ∧ principal_of m p = k;
  cfg_all : ∀ p, p ∈ ns ++ ks → is_Some (Accounts c !! principal_of m p);
  cfg_separate : ∀ p, p ∈ ks → ∃ q, q ∈ ks ∧ Accounts c !! principal_of m p = Some q;
  cfg_valid : valid_setup conf;
  cfg_registry : TokenVerifier c ≠ 0%nat
}.

Lemma generated_some context conf auth grps c0 m nodes ns principals ks p :
  generated context conf auth grps c0 m nodes ns principals ks → p ∈ ns ++ ks → is_Some (accounts m !! p).
Proof.
  intros Hg Hin. apply elem_of_app in Hin as [Hin|Hin];
    apply list_elem_of_lookup in Hin as [i Hi].
  - destruct (Forall2_lookup_r _ _ _ _ _ (gen_ns _ _ _ _ _ _ _ _ _ _ Hg) Hi)
      as (x & _ & n & dns & ip & g & _ & _ & _ & _ & Ha). by eexists.
  - destruct (Forall2_lookup_r _ _ _ _ _ (gen_ks _ _ _ _ _ _ _ _ _ _ Hg) Hi) as (x & _ & g & Ha & _). by eexists.
Qed.

(** The accounts of the hosts are made only where there are root administrators. *)
Lemma collect_kerberos context conf auth grps c0 ns ks w :
  KerberosAccounts grps ≠ NodesGroup grps → TokenVerifier c0 ≠ 0%nat → valid_setup conf →
  generated context conf auth grps c0 (comp w) (Nodes conf) ns (metrics_admin :: RootAdmins conf) ks →
  ∃ l w', ((if bool_decide (0 < Z.of_nat (length (RootAdmins conf)))
     then collect (host_account conf grps) (Nodes conf) else mret []) : KS (list (option ptr))) w = (Return l, w') ∧
    os w' = os w ∧
    generated context conf auth grps c0 (comp w') (Nodes conf) ns (kerberos_principals conf) (ks ++ omap id l).
Proof.
  intros Hdist Hreg Hconf Hg. unfold kerberos_principals. case_bool_decide.
  - apply (collect_hosts _ _ _ _ _ Hdist Hreg (Nodes conf) _ _ _ _ _ Hg (valid_nodes _ Hconf)).
  - exists [], w. by rewrite !app_nil_r.
Qed.

(** Registering every account that was made completes the configuration. *)
Lemma registered_configured context conf auth grps c0 m m' ns ks :
  valid_setup conf → TokenVerifier c0 ≠ 0%nat → Accounts c0 = ∅ →
  generated context conf auth grps c0 m (Nodes conf) ns (kerberos_principals conf) ks →
  accounts m' = accounts m → groups m' = groups m →
  contexts m' !! context = Some (with_Accounts (registered m (ns ++ ks) (Accounts c0)) c0) →
  configured m' context conf auth grps (with_Accounts (registered m (ns ++ ks) (Accounts c0)) c0) ns ks.
Proof.
  intros Hconf Hreg Hacc0 [_ G2 G3 G4 G5 G6 G7] Ha Hgr Hc.
  assert (Hprin : ∀ p, principal_of m' p = principal_of m p)
    by (intros p; unfold principal_of; by rewrite Ha).
  split; simpl; [exact Hc|by rewrite Hgr..| | | | | | |done|done].
  - eapply Forall2_same; [exact G4|]. intros x p _ Hx.
    change (is_node_account context conf auth grps c0 m' x p).
    eapply same_accounts_node; [|exact Hx]. by rewrite Ha.
  - eapply Forall2_same; [exact G5|]. intros x p _ Hx.
    change (is_kerberos_account conf auth grps c0 m' x p).
    eapply same_accounts_kerberos; [|exact Hx]. by rewrite Ha.
  - intros p. rewrite Ha. apply G7.
  - intros key p. rewrite Hprin, Hacc0. intros [?|[Hk _]]%registered_lookup; [done|]. by apply lookup_empty_Some in Hk.
  - intros p Hp. rewrite Hprin. apply registered_some. left. by exists p.
  - intros p Hp. rewrite Hprin, registered_app.
    destruct (registered_some m ks (registered m ns (Accounts c0)) (principal_of m p))
      as [q Hq]; [left; by exists p|].
    exists q. split; [|done]. apply registered_lookup in Hq as [[? _]|[_ Hno]]; [done|]. by destruct (Hno p Hp).
Qed.

Lemma generate_configured context conf auth w c0 :
  valid_setup conf → contexts (comp w) !! context = Some c0 → TokenVerifier c0 ≠ 0%nat →
  Accounts c0 = ∅ → accounts (comp w) = ∅ →
  ∃ w' grps c ns ks, GenerateAccounts context conf auth w = (Return tt, w') ∧ os w' = os w ∧
    configured (comp w') context conf auth grps c ns ks ∧
    TokenVerifier c = TokenVerifier c0 ∧ AuthenticationAuthority c = AuthenticationAuthority c0 ∧
    ClusterCA c = ClusterCA c0 ∧ Authorities c = Authorities c0 ∧ StaticFiles c = StaticFiles c0 ∧
    KeyserverDNS c = KeyserverDNS c0.
Proof.
  intros Hconf Hc Hreg Hacc0 Hnone. unfold GenerateAccounts.
  set (k := next_ptr (comp w)).
  erewrite bind_Return by reflexivity. erewrite bind_Return by reflexivity.
  match goal with |- context [collect (node_account _ _ _ ?g)] => set (grps := g) end.
  match goal with |- ∃ w' _ _ _ _, _ ?w0 = _ ∧ _ => set (w0' := w0) end.
  assert (Hdist : KerberosAccounts grps ≠ NodesGroup grps) by (simpl; lia).
  assert (Hgen : generated context conf auth grps c0 (comp w0') [] [] [] []).
  { split; simpl; try done.
    - by rewrite lookup_insert_eq.
    - rewrite lookup_insert_ne by lia. by rewrite lookup_insert_eq.
    - intros p [a Ha]. by rewrite Hnone in Ha.
    - intros p [a Ha]. by rewrite Hnone in Ha. }
  pose proof (valid_nodes _ Hconf) as Hnodes.
  destruct (collect_nodes _ _ _ _ _ Hdist Hreg (Nodes conf) _ _ _ _ _ Hgen Hnodes) as (ns & w1 & E1 & Ho1 & Hg1).
  rewrite (bind_Return _ _ _ _ _ E1).
  destruct (collect_admins _ _ _ _ _ Hdist Hreg (metrics_admin :: RootAdmins conf) _ _ _ _ _ Hg1)
    as (ks1 & w2 & E2 & Ho2 & Hg2).
  rewrite (bind_Return _ _ _ _ _ E2). rewrite !app_nil_l in *.
  destruct (collect_kerberos _ _ _ _ _ _ _ _ Hdist Hreg Hconf Hg2) as (l3 & w3 & E3 & Ho3 & Hg3).
  rewrite (bind_Return _ _ _ _ _ E3). set (ks := ks1 ++ omap id l3) in *.
  assert (Hsome : ∀ p, p ∈ ns ++ ks → is_Some (accounts (comp w3) !! p))
    by (intros p; eapply generated_some, Hg3).
  pose proof (gen_context _ _ _ _ _ _ _ _ _ _ Hg3) as Hc3.
  destruct (register_all context (ns ++ ks) w3 c0 Hc3) as (w' & E' & Ho' & Ha' & Hgr' & _ & _ & Hc').
  { apply Forall_forall. done. }
  exists w', grps, (with_Accounts (registered (comp w3) (ns ++ ks) (Accounts c0)) c0), ns, ks. split; [exact E'|].
  split; [by rewrite Ho', Ho3, Ho2, Ho1|]. split; [|by split_and!].
  by apply registered_configured.
Qed.

(** ** Impersonation in a generated configuration *)

Section impersonation.
Context (m : Mem) (context : ptr) (conf : SpireSetup) (auth : AuthoritySet) (grps : Groups)
  (c : Context) (ns ks : list ptr).
Hypothesis cfg : configured m context conf auth grps c ns ks.

Lemma configured_account p :
  is_Some (accounts m !! p) →
  (∃ node, node ∈ Nodes conf ∧ is_node_account context conf auth grps c m node p) ∨
  (∃ s, s ∈ kerberos_principals conf ∧ is_kerberos_account conf auth grps c m s p).
Proof.
  intros Hp%(cfg_only _ _ _ _ _ _ _ _ cfg). apply elem_of_app in Hp as [Hin|Hin];
    apply list_elem_of_lookup in Hin as [i Hi].
  - destruct (Forall2_lookup_r _ _ _ _ _ (cfg_nodes _ _ _ _ _ _ _ _ cfg) Hi) as (x & Hx & Ha).
    left. exists x. split; [by eapply list_elem_of_lookup_2|done].
  - destruct (Forall2_lookup_r _ _ _ _ _ (cfg_kerberos _ _ _ _ _ _ _ _ cfg) Hi) as (x & Hx & Ha).
    right. exists x. split; [by eapply list_elem_of_lookup_2|done].
Qed.

Lemma kerberos_only_in_ks p : p ∈ ks → ∃ s, s ∈ kerberos_principals conf ∧ is_kerberos_account conf auth grps c m s p.
Proof.
  intros [i Hi]%list_elem_of_lookup.
  destruct (Forall2_lookup_r _ _ _ _ _ (cfg_kerberos _ _ _ _ _ _ _ _ cfg) Hi) as (x & Hx & Ha).
  exists x. split; [by eapply list_elem_of_lookup_2|done].
Qed.

(** An impersonation privilege is the supervisor's, over the Kerberos group. *)
Lemma grants_impersonate registry dns n g :
  registry ≠ 0%nat → valid_node (ExternalDomain conf) n → DNS n = Return dns →
  GrantsForNodeAccount context registry conf grps auth dns n = Return g →
  map_Forall (λ _ p, match p with
                     | ImpersonatePrivilege cx scope =>
                         IsSupervisor n = true ∧ cx = context ∧ scope = KerberosAccounts grps
                     | _ => True end) g.
Proof.
  intros Hreg (Hkind & _) Hdns. unfold GrantsForNodeAccount, GenerateLocalConf, NewBootstrapPrivilege.
  rewrite Hdns, bool_decide_false by done.
  destruct (kind_cases n Hkind) as [(Hs & Hm & Hw)|[(Hs & Hm & Hw)|(Hs & Hm & Hw)]];
    rewrite ?Hs, ?Hm, ?Hw; intros [= <-];
    unfold NewTLSGrantPrivilege, NewSSHGrantPrivilege; by grants_inserts.
Qed.

Lemma impersonate_privilege a ac api cx scope :
  accounts m !! a = Some ac → Privileges ac !! api = Some (ImpersonatePrivilege cx scope) →
  (∃ n, Some n ∈ Nodes conf ∧ IsSupervisor n = true ∧
        is_node_account context conf auth grps c m (Some n) a) ∧
  cx = context ∧ scope = KerberosAccounts grps.
Proof.
  intros Ha Hp. destruct (configured_account a) as [(node & Hin & Hn)|(s & _ & g & Hg & Hno & _)]; [by eexists|..].
  - pose proof Hn as (n & dns & ip & g & -> & Hdns & _ & Hg & Hacc).
    assert (ac = mkAccount dns false (Some ip) g) as -> by congruence. simpl in Hp.
    pose proof (valid_nodes _ (cfg_valid _ _ _ _ _ _ _ _ cfg)) as Hv.
    rewrite Forall_forall in Hv. destruct (Hv _ Hin) as (n' & [= <-] & Hvn).
    pose proof (grants_impersonate _ _ _ _ (cfg_registry _ _ _ _ _ _ _ _ cfg) Hvn Hdns Hg) as Hall.
    destruct (Hall _ _ Hp) as (Hs & -> & ->). split; [|done]. by exists n.
  - assert (ac = mkAccount s true None g) as -> by congruence. by destruct (Hno _ _ Hp).
Qed.

Lemma may_become_kerberos a b :
  may_become m a b →
  (∃ n, Some n ∈ Nodes conf ∧ IsSupervisor n = true ∧
        is_node_account context conf auth grps c m (Some n) a) ∧
  (∃ s, s ∈ kerberos_principals conf ∧ is_kerberos_account conf auth grps c m s b) ∧
  ∀ b', ¬ may_become m b b'.
Proof.
  intros (ac & api & cx & scope & g & c' & bac & Ha & Hp & Hg & Hc & Hb & Hbac & x & xac & Hx & Hxac & Hname).
  destruct (impersonate_privilege a ac api cx scope Ha Hp) as (Hsup & -> & ->).
  rewrite (cfg_kerberos_group _ _ _ _ _ _ _ _ cfg) in Hg. injection Hg as <-. simpl in Hx.
  rewrite (cfg_context _ _ _ _ _ _ _ _ cfg) in Hc. injection Hc as <-.
  destruct (cfg_separate _ _ _ _ _ _ _ _ cfg x Hx) as (q & Hq & Hfound).
  assert (q = b) as ->.
  { unfold principal_of in Hfound. rewrite Hxac, Hname in Hfound. congruence. }
  pose proof (kerberos_only_in_ks b Hq) as Hk. split; [done|]. split; [done|].
  intros b' (ac' & api' & cx & scope & g & c' & bac' & Ha' & Hp' & _).
  destruct Hk as (s & _ & gs & Hgs & Hno & _).
  assert (ac' = mkAccount s true None gs) as -> by congruence. by destruct (Hno _ _ Hp').
Qed.
End impersonation.

(** C8: in the memory that [GenerateAccounts] leaves, only a supervisor may become
    another account, only one that is for Kerberos principals, and an account that
    was reached by impersonation cannot impersonate further. *)
Theorem GenerateAccounts_impersonation context conf auth w c0 w' a b :
  valid_setup conf → contexts (comp w) !! context = Some c0 → TokenVerifier c0 ≠ 0%nat →
  Accounts c0 = ∅ → accounts (comp w) = ∅ →
  GenerateAccounts context conf auth w = (Return tt, w') → may_become (comp w') a b →
  (∃ n dns ip g, Some n ∈ Nodes conf ∧ IsSupervisor n = true ∧ DNS n = Return dns ∧
     accounts (comp w') !! a = Some (mkAccount dns false (Some ip) g)) ∧
  (∃ s g, s ∈ kerberos_principals conf ∧ accounts (comp w') !! b = Some (mkAccount s true None g)) ∧
  ∀ b', ¬ may_become (comp w') b b'.
Proof.
  intros Hconf Hc Hreg Hacc Hnone Hrun Hmay.
  destruct (generate_configured context conf auth w c0 Hconf Hc Hreg Hacc Hnone)
    as (w1 & grps & c & ns & ks & Hrun' & _ & Hcfg & _).
  assert (w1 = w') as -> by congruence.
  destruct (may_become_kerberos _ _ _ _ _ _ _ _ Hcfg a b Hmay)
    as ((n & Hin & Hs & n' & dns & ip & g & [= <-] & Hdns & _ & _ & Ha) & (s & Hks & gs & Hb & _) & Hno).
  split; [by exists n, dns, ip, g|]. split; [by exists s, gs|done].
Qed.

(** ** Loading the authorities *)

Definition has_type (t : AuthorityType) (a : option Authority) : Prop :=
  match t, a with
  | TLSAuthorityType, Some (ATLS _) | SSHAuthorityType, Some (ASSH _) => True
  | _, _ => False
  end.

Section loading.
Context `{PkgErrors} `{Crypto}.

Lemma Load_os_only a dir : keeps os_only (Load a dir).
Proof. unfold Load. os_frame. Qed.
Lemma Load_fs a dir : keeps same_fs (Load a dir).
Proof. unfold Load. os_frame. Qed.
Lemma Load_later a dir : keeps later (Load a dir).
Proof. unfold Load. os_frame. Qed.
Lemma Load_returns a dir : ca_Type a ≠ InvalidAuthorityType → returns (Load a dir).
Proof.
  intros Ht. unfold Load. destruct (bool_decide _); [apply returns_ret|].
  apply returns_bind.
  - intros w. unfold liftO, Filenames. destruct (ca_Type a); [done|by eexists..].
  - intros [kf cf]. os_frame; destruct (ca_Type a); done || os_frame.
Qed.
Lemma LoadTLSAuthority_type k c x : LoadTLSAuthority k c = Ok x → has_type TLSAuthorityType (Some x).
Proof.
  unfold LoadTLSAuthority. destruct (LoadRSAKeyFromPEM k); [|done]. simpl.
  destruct (LoadX509CertFromPEM c); [|done]. simpl. destruct (PublicKey _); [|done].
  destruct (negb _); [done|]. case_bool_decide; [done|]. by intros [= <-].
Qed.
Lemma LoadSSHAuthority_type k c x : LoadSSHAuthority k c = Ok x → has_type SSHAuthorityType (Some x).
Proof.
  unfold LoadSSHAuthority. destruct (parseSingleSSHKey c); [|done]. simpl.
  destruct (ssh_ParsePrivateKey k); [|done]. simpl. destruct (negb _); [done|]. by intros [= <-].
Qed.
(** What the files of an authority hold. *)
Definition loaded_from {X} (w : World X) (a : ConfigAuthority) (x : Authority) : Prop :=
  ∃ keyfile certfile keydata certdata km kt cm ct, Filenames a = Return (keyfile, certfile) ∧
    node_at w (path_Join [AuthorityKeyDirectory; keyfile]) = Some (File keydata km kt) ∧
    node_at w (path_Join [AuthorityKeyDirectory; certfile]) = Some (File certdata cm ct) ∧
    match ca_Type a with
    | TLSAuthorityType => LoadTLSAuthority keydata certdata = Ok x
    | SSHAuthorityType => LoadSSHAuthority keydata certdata = Ok x
    | InvalidAuthorityType => False
    end.
Lemma loaded_type {X} (w : World X) a x : loaded_from w a x → has_type (ca_Type a) (Some x).
Proof.
  intros (? & ? & ? & ? & ? & ? & ? & ? & _ & _ & _ & Hx).
  destruct (ca_Type a); [done|by eapply LoadTLSAuthority_type|by eapply LoadSSHAuthority_type].
Qed.
Lemma node_at_same {X Y} (w : World X) (w' : World Y) p : fs (os w') = fs (os w) → node_at w' p = node_at w p.
Proof. unfold node_at. by intros ->. Qed.
Lemma loaded_from_same {X Y} (w : World X) (w' : World Y) a x : fs (os w') = fs (os w) → loaded_from w' a x → loaded_from w a x.
Proof.
  intros Hfs (kf & cf & kd & cd & km & kt & cm & ct & HF & Hk & Hc & Hx). exists kf, cf, kd, cd, km, kt, cm, ct.
  by rewrite !(node_at_same w' w) by done.
Qed.
Lemma Load_loaded a w x w' : Load a AuthorityKeyDirectory w = (Return (Ok x), w') → loaded_from w a x.
Proof.
  unfold Load. rewrite bool_decide_false by done. intros ([kf cf] & w1 & HF & Hl)%bind_inv.
  assert (HF' : Filenames a = Return (kf, cf)) by (unfold liftO in HF; congruence).
  assert (w1 = w) as -> by (unfold liftO in HF; congruence).
  apply try_bind_Ok_inv in Hl as (kd & w2 & Ek & Hl). apply try_bind_Ok_inv in Hl as (cd & w3 & Ec & Hl).
  pose proof (ReadFile_fs (path_Join [AuthorityKeyDirectory; kf]) w) as Hfs. rewrite Ek in Hfs.
  apply ReadFile_inv in Ek as (km & kt & Ek). apply ReadFile_inv in Ec as (cm & ct & Ec).
  rewrite (node_at_same w w2) in Ec by (symmetry; exact Hfs).
  exists kf, cf, kd, cd, km, kt, cm, ct. split_and!; [done..|]. destruct (ca_Type a); [done|injection Hl as Hl _..]; done.
Qed.
(** Where nothing fails, an authority whose files are sound loads. *)
Lemma Load_none a w x :
  faults (os w) = [] → loaded_from w a x → Load a AuthorityKeyDirectory w = (Return (Ok x), w).
Proof.
  intros Hf (kf & cf & kd & cd & km & kt & cm & ct & HF & Hk & Hc & Hx). unfold Load. rewrite bool_decide_false by done.
  rewrite HF. erewrite bind_Return by reflexivity. cbv beta iota.
  pose proof (ReadFile_none w (path_Join [AuthorityKeyDirectory; kf]) Hf) as Rk. rewrite Hk in Rk.
  pose proof (ReadFile_none w (path_Join [AuthorityKeyDirectory; cf]) Hf) as Rc. rewrite Hc in Rc.
  rewrite (try_bind_Ok _ _ _ _ _ Rk), (try_bind_Ok _ _ _ _ _ Rc). destruct (ca_Type a); [done|by rewrite Hx..].
Qed.

(** The store, but for the contexts. *)
Definition but_contexts (m : Mem) := (registries m, onces m, accounts m, groups m, servers m, response m, next_ptr m).

Definition load_one (context : ptr) (authority : ConfigAuthority) : KS (result unit) :=
  loaded ←? Load authority AuthorityKeyDirectory;
  _ ← update_context context (set_Authority (ca_Name authority) loaded); ok tt.

Lemma load_all context l w c :
  contexts (comp w) !! context = Some c → Forall (λ a, ca_Type a ≠ InvalidAuthorityType) l →
  NoDup (ca_Name <$> l) →
  ∃ r w' au, for_each (load_one context) l w = (Return r, w') ∧
    but_contexts (comp w') = but_contexts (comp w) ∧ fs (os w') = fs (os w) ∧
    contexts (comp w') !! context =
      Some (mkContext au (Accounts c) (TokenVerifier c) (AuthenticationAuthority c) (ClusterCA c)
              (StaticFiles c) (KeyserverDNS c)) ∧
    match r with
    | Ok _ => Forall (λ a, ∃ x, au !! ca_Name a = Some x ∧ loaded_from w a x) l ∧
              ∀ k, k ∉ ca_Name <$> l → au !! k = Authorities c !! k
    | Err _ => faults (os w) = [] → ¬ Forall (λ a, ∃ x, loaded_from w a x) l
    end.
Proof.
  revert w c. induction l as [|a l IH]; intros w c Hc Ht Hnd.
  { exists (Ok tt), w, (Authorities c). split_and!; try done. by destruct c. }
  apply Forall_cons in Ht as [Ha Ht]. apply NoDup_cons in Hnd as [Hna Hnd]. cbn [for_each].
  destruct (Load_returns a AuthorityKeyDirectory Ha w) as [r Hr].
  destruct (Load a AuthorityKeyDirectory w) as [o w1] eqn:E. simpl in Hr. subst o.
  pose proof (Load_os_only a AuthorityKeyDirectory w) as Hos. rewrite E in Hos. unfold os_only, same in Hos. simpl in Hos.
  pose proof (Load_fs a AuthorityKeyDirectory w) as Hfs. rewrite E in Hfs. unfold same_fs, same in Hfs. simpl in Hfs.
  destruct r as [x|e].
  - assert (Eone : load_one context a w =
      (Return (Ok tt), on_comp (with_contexts (insert context (set_Authority (ca_Name a) x c))) w1)).
    { unfold load_one. rewrite (try_bind_Ok _ _ _ _ _ E). unfold update_context.
      erewrite bind_Return; [done|]. erewrite bind_Return; [done|]. apply load_eq. by rewrite <- Hos. }
    rewrite (try_bind_Ok _ _ _ _ _ Eone). set (w2 := on_comp _ w1).
    destruct (IH w2 (set_Authority (ca_Name a) x c)) as (r & w' & au & Erun & Hbut & Hfs' & Hc' & Hok);
      [simpl; apply lookup_insert_eq|done..|].
    exists r, w', au. split; [done|]. split; [rewrite Hbut, Hos; done|]. split; [rewrite Hfs'; done|].
    split; [done|]. destruct r as [[]|e]; [destruct Hok as [Hall Hrest]; split|].
    + constructor.
      * exists x. rewrite Hrest by done. simpl. rewrite lookup_insert_eq. split; [done|by eapply Load_loaded].
      * eapply Forall_impl; [exact Hall|]. intros b (y & Hy & Hb). exists y. split; [done|].
        eapply loaded_from_same; [|exact Hb]. simpl. congruence.
    + intros k Hk. rewrite fmap_cons, not_elem_of_cons in Hk. destruct Hk as [Hk1 Hk2].
      rewrite Hrest by done. simpl. by rewrite lookup_insert_ne.
    + intros Hnf [_ Hl]%Forall_cons.
      assert (Ew : w1 = w) by (apply Load_loaded in E as Hx; rewrite (Load_none _ _ _ Hnf Hx) in E; congruence).
      apply Hok; [simpl; by rewrite Ew|]. eapply Forall_impl; [exact Hl|]. intros b (y & Hb). exists y.
      eapply loaded_from_same; [|exact Hb]. simpl. by rewrite Ew.
  - assert (Eone : load_one context a w = (Return (Err e), w1))
      by (unfold load_one; by apply try_bind_Err).
    rewrite (try_bind_Err _ _ _ _ _ Eone). exists (Err e), w1, (Authorities c).
    rewrite <- Hos. split_and!; try done; [rewrite Hc; by destruct c|].
    intros Hnf [[x Hx] _]%Forall_cons. rewrite (Load_none _ _ _ Hnf Hx) in E. done.
Qed.

Lemma has_TLS x : has_type TLSAuthorityType x → ∃ t, x = Some (ATLS t).
Proof. destruct x as [[]|]; [by eexists|done..]. Qed.
Lemma has_SSH x : has_type SSHAuthorityType x → ∃ t, x = Some (ASSH t).
Proof. destruct x as [[]|]; [done|by eexists|done]. Qed.

(** The table of the authorities by name. *)
Definition authority_map (auth : AuthoritySet) : gmap string Authority := list_to_map
  [("keygranting", ATLS (Keygranting auth)); ("clusterca", ATLS (auth_ClusterCA auth)); ("ssh-user", ASSH (SshUser auth));
   ("ssh-host", ASSH (SshHost auth)); ("kubernetes", ATLS (Kubernetes auth)); ("etcd-server", ATLS (EtcdServer auth));
   ("etcd-client", ATLS (EtcdClient auth)); ("serviceaccount", ATLS (ServiceAccount auth))].

Lemma authority_set_total c :
  Forall (λ a, has_type (ca_Type a) (Authorities c !! ca_Name a)) ListAuthorities →
  (∀ k, k ∉ ca_Name <$> ListAuthorities → Authorities c !! k = None) →
  ∃ auth, authority_set c = Return auth ∧ Authorities c = authority_map auth.
Proof.
  intros Hall Hrest. revert Hall. unfold ListAuthorities, config_TLSAuthority, config_SSHAuthority. rewrite !Forall_cons. cbn [ca_Type ca_Name].
  intros (? & ? & ? & ? & ? & ? & ? & ? & _).
  repeat match goal with
  | Hx : has_type TLSAuthorityType _ |- _ => apply has_TLS in Hx as [? ?]
  | Hx : has_type SSHAuthorityType _ |- _ => apply has_SSH in Hx as [? ?]
  end.
  unfold authority_set, assert_TLS, assert_SSH.
  repeat match goal with Hx : Authorities c !! _ = _ |- _ => rewrite ?Hx; revert Hx end. intros. simpl.
  eexists. split; [reflexivity|]. apply map_eq. intros k.
  destruct (decide (k ∈ ca_Name <$> ListAuthorities)) as [Hin|Hn].
  - unfold ListAuthorities in Hin. simpl in Hin.
    repeat (apply elem_of_cons in Hin as [->|Hin]; [etrans; [eassumption|vm_compute; reflexivity]|]). by apply elem_of_nil in Hin.
  - rewrite Hrest by done. symmetry. apply not_elem_of_list_to_map_1. exact Hn.
Qed.
End loading.

(** ** The whole configuration *)

Section whole.
Context `{PkgErrors} `{Crypto} `{Yaml}.

(** Whether the validation reaches a null node. *)
Fixpoint null_reached (nodes : list (option SpireNode)) : bool :=
  match nodes with
  | [] => false
  | None :: _ => true
  | Some n :: nodes => acceptable_node n && null_reached nodes
  end.
Lemma fold_validate_returns domain nodes acc :
  if null_reached nodes then ∃ why, fold_each (validate_node domain) acc nodes = Panic why
  else ∃ r, fold_each (validate_node domain) acc nodes = Return r.
Proof.
  revert acc. induction nodes as [|x nodes IH]; intros acc; [by eexists|]. cbn [fold_each null_reached].
  destruct x as [x|]; unfold try_bind, validate_node; destruct acc as [[seen sup] k]; simpl; [|by eexists].
  unfold acceptable_node. destruct (_ || IsWorker x); [|by eexists]. simpl.
  destruct (ParseIP _) as [ip|]; [|rewrite bool_decide_false by (by intros [? ?]); by eexists].
  rewrite bool_decide_true by done. simpl. destruct (IsSupervisor _); apply IH.
Qed.
Lemma validate_setup_returns setup :
  if null_reached (Nodes setup) then ∃ why, validate_setup setup = Panic why else ∃ r, validate_setup setup = Return r.
Proof.
  unfold validate_setup, try_bind.
  pose proof (fold_validate_returns (ExternalDomain setup) (Nodes setup) ([], spire_supervisor setup, 0)) as Hf.
  destruct (null_reached _); destruct Hf as [r ->]; simpl; [by eexists|]. destruct r as [[[nodes sup] k]|]; [|by eexists].
  destruct (bool_decide _); [by eexists|]. destruct (check_admins _ _); by eexists.
Qed.

(** What the file of the setup holds. *)
Definition setup_in {X} (w : World X) (path : string) (setup : SpireSetup) : Prop :=
  ∃ content m t, node_at w path = Some (File content m t) ∧ yaml_Unmarshal content = Ok setup.
(** How the setup is loaded: as it is in the file, and with a panic exactly where the validation
    reaches a null node. *)
Lemma LoadSpireSetup_cases {X} path (w : World X) :
  match (LoadSpireSetup path w).1 with
  | Return (Ok conf) => ∃ setup, setup_in w path setup ∧ validate_setup setup = Return (Ok conf)
  | Return (Err _) => faults (os w) = [] → ∀ setup, setup_in w path setup → ∃ e, validate_setup setup = Return (Err e)
  | Panic _ => ∃ setup, setup_in w path setup ∧ null_reached (Nodes setup) = true
  | Exit _ => False
  end.
Proof.
  unfold LoadSpireSetup. destruct (ReadFile_returns path w) as [r Hr]. destruct (ReadFile path w) as [o w1] eqn:E. simpl in Hr. subst o.
  destruct r as [content|e].
  - rewrite (try_bind_Ok _ _ _ _ _ E). apply ReadFile_inv in E as (m & t & Hn).
    assert (Hin : ∀ setup, setup_in w path setup → yaml_Unmarshal content = Ok setup).
    { intros setup (c & m' & t' & Hn' & Hy). rewrite Hn in Hn'. by injection Hn' as <- <- <-. }
    destruct (yaml_Unmarshal content) as [setup|e] eqn:Hy; [|by intros _ setup Hs%Hin].
    assert (Hset : setup_in w path setup) by (by exists content, m, t).
    pose proof (validate_setup_returns setup) as Hv. unfold liftO. destruct (null_reached (Nodes setup)) eqn:Hz; destruct Hv as [r Hr]; rewrite Hr; simpl.
    + by exists setup.
    + destruct r as [conf|e]; [by exists setup|]. intros _ s' [= <-]%Hin. by exists e.
  - rewrite (try_bind_Err _ _ _ _ _ E). simpl. intros Hf setup (c & m & t & Hn & _).
    rewrite (ReadFile_none _ _ Hf), Hn in E. done.
Qed.
Lemma LoadSpireSetup_none {X} path (w : World X) : faults (os w) = [] → (LoadSpireSetup path w).2 = w.
Proof.
  intros Hf. pose proof (ReadFile_none w path Hf) as E. unfold LoadSpireSetup.
  destruct (match node_at w path with Some _ => _ | None => _ end) as [c|e];
    [rewrite (try_bind_Ok _ _ _ _ _ E)|by rewrite (try_bind_Err _ _ _ _ _ E)].
  by destruct (yaml_Unmarshal c).
Qed.
Lemma LoadSpireSetup_os_only {X} path : keeps os_only (LoadSpireSetup (X:=X) path).
Proof. unfold LoadSpireSetup. os_frame. Qed.
Lemma LoadSpireSetup_fs {X} path : keeps same_fs (LoadSpireSetup (X:=X) path).
Proof. unfold LoadSpireSetup. os_frame. Qed.

(** The one static file is looked for, and nothing else is done. *)
Lemma ValidateStaticFiles_cases context w c :
  contexts (comp w) !! context = Some c → StaticFiles c = {[ ClusterConfStatic := ClusterConfigPath ]} →
  ∃ r w', ValidateStaticFiles context w = (Return r, w') ∧ comp w' = comp w ∧ fs (os w') = fs (os w) ∧
    (faults (os w) = [] → w' = w) ∧
    match r with
    | Ok _ => is_file (node_at w ClusterConfigPath) = true
    | Err _ => faults (os w) = [] → is_file (node_at w ClusterConfigPath) = false
    end.
Proof.
  intros Hc Hs. unfold ValidateStaticFiles. rewrite (bind_Return _ _ _ _ _ (load_eq _ _ _ _ Hc)), Hs, map_to_list_singleton.
  cbn [for_each snd]. pose proof (os_Stat_none w ClusterConfigPath) as Hnf.
  pose proof (os_Stat_os_only ClusterConfigPath w) as Hos. pose proof (os_Stat_fs ClusterConfigPath w) as Hfs.
  pose proof (os_Stat_inv ClusterConfigPath w) as Hst.
  destruct (os_Stat_returns ClusterConfigPath w) as [r Hr].
  destruct (os_Stat ClusterConfigPath w) as [o w1] eqn:E. simpl in *. subst o. unfold os_only, same_fs, same in *.
  exists (match r with Ok Dir => Err (ErrorString ("static file at " +:+ ClusterConfigPath +:+ " is directory"))
                     | Ok _ => Ok tt | Err e => Err e end), w1. split; [|split_and!; [done|done| |]].
  - unfold try_bind, mbind, M_bind. rewrite E. by destruct r as [[]|].
  - intros Hf. by injection (Hnf Hf) as _ ->.
  - destruct r as [[]|e]; [by rewrite (Hst _ _ eq_refl)|by rewrite (Hst _ _ eq_refl)|].
    intros Hf. injection (Hnf Hf) as E' _. by destruct (node_at _ _).
Qed.

Lemma collect_keeps {A B} R `{!PreOrder R} (f : A → KS B) l :
  (∀ a, keeps R (f a)) → keeps R (collect f l).
Proof.
  intros Hf. induction l as [|a l IH]; [apply keeps_ret; exact _|]. cbn [collect].
  apply keeps_bind; [exact _|apply Hf|intros ?]. apply keeps_bind; [exact _|exact IH|intros ?].
  apply keeps_ret; exact _.
Qed.
Lemma GenerateAccounts_registries context conf auth :
  keeps (mem_same registries) (GenerateAccounts context conf auth).
Proof.
  unfold GenerateAccounts, new_group, fresh_ptr. go_frame;
    (apply collect_keeps || apply keeps_for_all); try exact _; intros ?;
    unfold node_account, admin_account_for, host_account, register_account, append_member,
      update_account, update_context, new_account, fresh_ptr; go_frame.
Qed.

(** The state after a context was made, validated, and given its authorities. *)
Definition fresh_context (dns : string) (au : gmap string Authority) : Context :=
  mkContext au ∅ 1%nat None None {[ ClusterConfStatic := ClusterConfigPath ]} dns.

(** What the context [c] of the memory [m] serves, made from the machine [w]: the authorities are
    those of the files, each under its name; one authenticates, one is the server's. *)
Definition served_by (w : World Mem) (m : Mem) (conf : SpireSetup) (auth : AuthoritySet) (c : Context) : Prop :=
  (∃ s, spire_supervisor conf = Some s ∧ DNS s = Return (KeyserverDNS c)) ∧
  Authorities c = authority_map auth ∧
  Forall (λ a, ∃ x, authority_map auth !! ca_Name a = Some x ∧ loaded_from w a x) ListAuthorities ∧
  AuthenticationAuthority c = Some (Keygranting auth) ∧
  ClusterCA c = Some (auth_ClusterCA auth) ∧
  StaticFiles c = {[ ClusterConfStatic := ClusterConfigPath ]} ∧
  is_file (node_at w ClusterConfigPath) = true ∧
  registries m !! TokenVerifier c = Some ∅.

Lemma supervisor_named conf : valid_setup conf → ∃ s dns, spire_supervisor conf = Some s ∧ DNS s = Return dns.
Proof.
  intros Hvalid. destruct (the_supervisor _ Hvalid) as (s & Hs & Hin & _).
  pose proof (valid_nodes _ Hvalid) as Hv. rewrite Forall_forall in Hv.
  destruct (Hv _ Hin) as (? & [= <-] & _ & Hset & _).
  exists s. unfold DNS. rewrite Hset. by eexists.
Qed.

(** What [GenerateConfig] does once the authorities are loaded: the context is
    given its serving authorities and the accounts are made. *)
Lemma authorities_configured w0 context conf s dns au w :
  valid_setup conf → spire_supervisor conf = Some s → DNS s = Return dns →
  contexts (comp w) !! context = Some (fresh_context dns au) →
  Forall (λ a, ∃ x, au !! ca_Name a = Some x ∧ loaded_from w0 a x) ListAuthorities →
  (∀ k, k ∉ ca_Name <$> ListAuthorities → au !! k = None) →
  is_file (node_at w0 ClusterConfigPath) = true →
  accounts (comp w) = ∅ → registries (comp w) !! 1%nat = Some ∅ →
  ∃ auth w1 w2 grps c ns ks, authority_set (fresh_context dns au) = Return auth ∧
    update_context context (set_serving (Keygranting auth) (auth_ClusterCA auth)) w = (Return tt, w1) ∧
    GenerateAccounts context conf auth w1 = (Return tt, w2) ∧ os w2 = os w ∧
    configured (comp w2) context conf auth grps c ns ks ∧ served_by w0 (comp w2) conf auth c.
Proof.
  intros Hvalid Hs Hdns Hc Hau Hrest Hst0 Hacc Hreg.
  destruct (authority_set_total (fresh_context dns au)) as (auth & Ha & Hmap).
  { eapply Forall_impl; [exact Hau|]. simpl. intros a (x & -> & Hx). by eapply loaded_type. }
  { exact Hrest. }
  simpl in Hmap. subst au.
  set (c1 := set_serving (Keygranting auth) (auth_ClusterCA auth) (fresh_context dns (authority_map auth))).
  set (w1 := on_comp (with_contexts (insert context c1)) w).
  destruct (generate_configured context conf auth w1 c1 Hvalid)
    as (w2 & grps & c & ns & ks & E & Ho & Hcfg & Htv & Haa & Hcc & Hauth & Hst & Hdn);
    [apply lookup_insert_eq|done..|].
  exists auth, w1, w2, grps, c, ns, ks. split; [exact Ha|]. split.
  { unfold update_context. by rewrite (bind_Return _ _ _ _ _ (load_eq _ _ _ _ Hc)). }
  split; [exact E|]. split; [exact Ho|]. split; [exact Hcfg|].
  unfold served_by. rewrite Htv, Haa, Hcc, Hauth, Hst, Hdn. split_and!; try done; [by exists s|].
  pose proof (GenerateAccounts_registries context conf auth w1) as Hsame. rewrite E in Hsame.
  unfold mem_same, same in Hsame. simpl in Hsame. by rewrite <- Hsame.
Qed.

(** Whether the machine has all that the configuration is made from. *)
Definition configurable (w : World Mem) (setup conf : SpireSetup) : Prop :=
  setup_in w SpireSetupPath setup ∧ validate_setup setup = Return (Ok conf) ∧
  is_file (node_at w ClusterConfigPath) = true ∧ Forall (λ a, ∃ x, loaded_from w a x) ListAuthorities.

(** The run once the setup is loaded. *)
Lemma config_loaded conf w :
  valid_setup conf → comp w = mem0 →
  ∃ r w', (verifier ← NewTokenVerifier;
     supervisor ← liftO (Supervisor conf);
     dns ← liftO (DNS supervisor);
     context ← new_context (mkContext ∅ ∅ verifier None None {[ ClusterConfStatic := ClusterConfigPath ]} dns);
     ValidateStaticFiles context ;?
     for_each (load_one context) ListAuthorities ;?
     c ← load contexts context;
     auth ← liftO (authority_set c);
     _ ← update_context context (set_serving (Keygranting auth) (auth_ClusterCA auth));
     _ ← GenerateAccounts context conf auth;
     ok context) w = (Return r, w') ∧ fs (os w') = fs (os w) ∧
    match r with
    | Ok context => ∃ auth grps c ns ks, configured (comp w') context conf auth grps c ns ks ∧ served_by w (comp w') conf auth c
    | Err _ => faults (os w) = [] → is_file (node_at w ClusterConfigPath) = true →
        ¬ Forall (λ a, ∃ x, loaded_from w a x) ListAuthorities
    end.
Proof.
  intros Hvalid Hw. destruct (supervisor_named _ Hvalid) as (s & dns & Hs & Hdns).
  erewrite bind_Return by reflexivity.
  unfold Supervisor. rewrite Hs. erewrite bind_Return by reflexivity.
  rewrite Hdns. erewrite bind_Return by reflexivity. erewrite bind_Return by reflexivity.
  rewrite Hw. cbn -[ValidateStaticFiles ListAuthorities GenerateAccounts authority_set].
  match goal with |- ∃ r w', _ ?w0 = _ ∧ _ => set (w2 := w0) end.
  assert (Hos2 : os w2 = os w) by done.
  assert (Hn2 : ∀ p, node_at w2 p = node_at w p) by done.
  assert (Hc2 : contexts (comp w2) !! 2%nat = Some (fresh_context dns ∅)) by apply lookup_insert_eq.
  destruct (ValidateStaticFiles_cases 2%nat w2 _ Hc2) as (r3 & w3 & E3 & Hcomp3 & Hfs3 & Hnf3 & Hr3); [done|].
  rewrite Hos2, Hn2 in *. destruct r3 as [[]|e3].
  2: { rewrite (try_bind_Err _ _ _ _ _ E3). exists (Err e3), w3. split_and!; [done|done|]. intros Hf Hst. by rewrite Hr3 in Hst. }
  rewrite (try_bind_Ok _ _ _ _ _ E3). rewrite <- Hcomp3 in Hc2.
  destruct (load_all 2%nat ListAuthorities w3 _ Hc2) as (r4 & w4 & au & E4 & Hbut & Hfs4 & Hc4 & Hok).
  { unfold ListAuthorities. by repeat constructor. }
  { apply (bool_decide_eq_true_1 (NoDup _)). vm_compute. reflexivity. }
  destruct r4 as [[]|e4].
  2: { rewrite (try_bind_Err _ _ _ _ _ E4). exists (Err e4), w4. split_and!; [done|congruence|]. intros Hf _ Hl.
       apply Hok; [by rewrite Hnf3, Hos2|]. eapply Forall_impl; [exact Hl|]. intros a (x & Hx). exists x.
       eapply loaded_from_same; [|exact Hx]. by rewrite Hfs3. }
  rewrite (try_bind_Ok _ _ _ _ _ E4). destruct Hok as [Hau Hrest].
  change (mkContext au _ _ _ _ _ _) with (fresh_context dns au) in Hc4.
  rewrite (bind_Return _ _ _ _ _ (load_eq _ _ _ _ Hc4)).
  rewrite Hcomp3 in Hbut. injection Hbut as Hr4 _ Ha4 _ _ _ _.
  destruct (authorities_configured w 2%nat conf s dns au w4 Hvalid Hs Hdns Hc4)
    as (auth & w5 & w6 & grps & c & ns & ks & Ha & E5 & E6 & Ho6 & Hcfg & Hserved); [|intros key Hk; by rewrite Hrest|exact Hr3|by rewrite Ha4, Hw|by rewrite Hr4, lookup_insert_eq|].
  { eapply Forall_impl; [exact Hau|]. intros a (x & Hax & Hx). exists x. split; [done|].
    eapply loaded_from_same; [|exact Hx]. by rewrite Hfs3. }
  rewrite Ha. erewrite bind_Return by reflexivity.
  rewrite (bind_Return _ _ _ _ _ E5), (bind_Return _ _ _ _ _ E6). exists (Ok 2%nat), w6.
  split; [done|]. split; [rewrite Ho6; congruence|]. by exists auth, grps, c, ns, ks.
Qed.

(** C13: From a fresh process, [GenerateConfig] writes no file, and it ends in one of three ways.
    It returns a context that the setup on the disk calls for: the accounts and groups of
    [configured], with the privileges of each; every authority loaded from its own files and
    used under its own name, that of keygranting to authenticate and that of the cluster to
    serve; the name of the supervisor; and no token outstanding. Or it returns an error, and
    then, if no call to the system failed, the setup is not valid, or the static file or a
    sound authority is missing. Or it panics, only where the setup has a null node behind
    acceptable ones. *)
Theorem GenerateConfig_spec w :
  comp w = mem0 →
  ∃ o w', GenerateConfig w = (o, w') ∧ fs (os w') = fs (os w) ∧
    match o with
    | Return (Ok context) => ∃ setup conf auth grps c ns ks,
        setup_in w SpireSetupPath setup ∧ validate_setup setup = Return (Ok conf) ∧
        configured (comp w') context conf auth grps c ns ks ∧ served_by w (comp w') conf auth c
    | Return (Err _) => faults (os w) = [] → ∀ setup conf, ¬ configurable w setup conf
    | Panic _ => ∃ setup, setup_in w SpireSetupPath setup ∧ null_reached (Nodes setup) = true
    | Exit _ => False
    end.
Proof.
  intros Hw. unfold GenerateConfig. pose proof (LoadSpireSetup_cases SpireSetupPath w) as Hcases.
  pose proof (LoadSpireSetup_none SpireSetupPath w) as Hnf.
  pose proof (LoadSpireSetup_os_only SpireSetupPath w) as Hos. pose proof (LoadSpireSetup_fs SpireSetupPath w) as Hfs.
  destruct (LoadSpireSetup SpireSetupPath w) as [o w1] eqn:E. simpl in *.
  unfold os_only, same_fs, same in Hos, Hfs. rewrite Hw in Hos.
  destruct o as [[conf|e]|why|st]; [| | |done].
  - rewrite (try_bind_Ok _ _ _ _ _ E). apply LoadSpireSetup_valid_setup in E as Hvalid. destruct Hcases as (setup & Hset & Hv).
    destruct (config_loaded conf w1 Hvalid (eq_sym Hos)) as (r & w' & E' & Hfs' & Hr).
    exists (Return r), w'. split; [exact E'|]. split; [congruence|]. destruct r as [context|e].
    + destruct Hr as (auth & grps & c & ns & ks & Hcfg & Hs1 & Hs2 & Hs3 & Hs4). exists setup, conf, auth, grps, c, ns, ks.
      split_and!; [done..|]. unfold served_by. rewrite <- (node_at_same w w1) by done. split_and!; [done|done| |apply Hs4..].
      eapply Forall_impl; [exact Hs3|]. intros a (x & Hax & Hx). exists x. split; [done|]. by eapply loaded_from_same.
    + intros Hf setup' conf' (_ & _ & Hst & Hl). specialize (Hnf Hf). subst w1. by apply Hr.
  - rewrite (try_bind_Err _ _ _ _ _ E). exists (Return (Err e)), w1. split_and!; [done|done|].
    intros Hf setup conf (Hset & Hv & _). destruct (Hcases Hf _ Hset) as [? He]. congruence.
  - exists (Panic why), w1. split_and!; [|done|done]. unfold try_bind, mbind, M_bind. by rewrite E.
Qed.
End whole.

(** ** A small cluster *)

Definition sample_node (host ip kind : string) : SpireNode := mkSpireNode host ip None None kind.
Definition sample_nodes : list SpireNode :=
  [sample_node "sup" "10.0.0.1" "supervisor"; sample_node "m" "10.0.0.2" "master";
   sample_node "w" "10.0.0.3" "worker"].
Definition sample_setup : SpireSetup :=
  mkSpireSetup "ext" "int" "REALM" "10.1.0.1" (Some <$> sample_nodes) None ["root@REALM"].
Definition sample_conf `{PkgErrors} : SpireSetup :=
  match validate_setup sample_setup with Return (Ok c) => c | _ => sample_setup end.

#[export] Program Instance toy_yaml : Yaml := {|
  yaml_Unmarshal s := if bool_decide (s = "setup") then Ok sample_setup else Err (StdError "yaml")
|}.
Next Obligation.
  intros s conf Hs. cbv beta in Hs. case_bool_decide; [|done]. injection Hs as <-.
  split; [done|]. by repeat constructor.
Qed.

Lemma validate_setup_spec_witness :
  validate_setup sample_setup =
    Return (Ok (mkSpireSetup "ext" "int" "REALM" "10.1.0.1" (Some ∘ annotated "ext" <$> sample_nodes)
                  (annotated "ext" <$> head (supervisors_of sample_nodes)) ["root@REALM"])).
Proof. exact (validate_setup_spec sample_setup sample_nodes eq_refl eq_refl). Defined.

Definition sample_master : SpireNode := annotated "ext" (sample_node "m" "10.0.0.2" "master").
Definition sample_auth : AuthoritySet :=
  mkAuthoritySet sample_tls sample_tls sample_ssh sample_ssh sample_tls sample_tls sample_tls sample_tls.

Lemma GrantsForNodeAccount_spec_witness :
  ∃ g, GrantsForNodeAccount 2 1 sample_conf (mkGroups 3 4) sample_auth "m.ext" sample_master = Return g ∧
    dom g = list_to_set master_apis ∧
    g !! SignEtcdServerAPI = Some (TLSGrantPrivilege sample_tls true (30 * OneDay) "etcd-server-m" ["m.ext"; "m"; "10.0.0.2"] []).
Proof.
  destruct (GrantsForNodeAccount_spec 2 1 sample_conf (mkGroups 3 4) sample_auth "m.ext" sample_master)
    as (g & E & Hd & Hg); [done| |reflexivity|].
  { split_and!; [reflexivity..|by eexists]. }
  exists g. split; [exact E|]. split; [exact Hd|]. etrans; [apply Hg|vm_compute; reflexivity].
  apply (bool_decide_unpack _). vm_compute. exact I.
Defined.

Lemma sample_valid : valid_setup sample_conf.
Proof.
  assert (E : fst (LoadSpireSetup "s" (mkWorld (with_fs {[ "s" := File "setup" 0 0 ]} (os0 0)) mem0)) =
              Return (Ok sample_conf)) by (vm_compute; reflexivity).
  destruct (LoadSpireSetup _ _) as [o w'] eqn:E'. simpl in E. subst o.
  exact (LoadSpireSetup_valid_setup _ _ _ _ E').
Qed.
Definition sample_start : World Mem :=
  mkWorld (os0 0) (with_next 3 (with_contexts (insert 2%nat (fresh_context "sup.ext" ∅)) mem0)).
Definition sample_cluster : World Mem := (GenerateAccounts 2 sample_conf sample_auth sample_start).2.

Definition may_become_by (api : string) (m : Mem) (a b : ptr) : bool :=
  match accounts m !! a, accounts m !! b with
  | Some ac, Some bac =>
      match Privileges ac !! api with
      | Some (ImpersonatePrivilege context scope) =>
          match groups m !! scope, contexts m !! context with
          | Some g, Some c =>
              bool_decide (Accounts c !! Principal bac = Some b) && bool_decide (b ∈ AllMembers g)
          | _, _ => false
          end
      | _ => false
      end
  | _, _ => false
  end.
Lemma may_become_by_sound api m a b : may_become_by api m a b = true → may_become m a b.
Proof.
  unfold may_become_by. destruct (accounts m !! a) as [ac|] eqn:Ha; [|done].
  destruct (accounts m !! b) as [bac|] eqn:Hb; [|done].
  destruct (Privileges ac !! api) as [[]|] eqn:Hp; try done.
  destruct (groups m !! _) as [g|] eqn:Hg; [|done]. destruct (contexts m !! _) as [c|] eqn:Hc; [|done].
  intros [Hf%bool_decide_eq_true Hin%bool_decide_eq_true]%andb_true_iff.
  exists ac, api, context, scope, g, c, bac. split_and!; try done. by exists b, bac.
Qed.

(** The accounts 5, 6, 7 are the nodes', 10 is the supervisor's Kerberos account. *)
Lemma GenerateAccounts_impersonation_witness :
  match GenerateAccounts 2 sample_conf sample_auth sample_start with
  | (Return tt, w') =>
      (∃ n dns ip g, Some n ∈ Nodes sample_conf ∧ IsSupervisor n = true ∧ DNS n = Return dns ∧
         accounts (comp w') !! 5%nat = Some (mkAccount dns false (Some ip) g)) ∧
      (∃ s g, s ∈ kerberos_principals sample_conf ∧ accounts (comp w') !! 10%nat = Some (mkAccount s true None g)) ∧
      ∀ b', ¬ may_become (comp w') 10%nat b'
  | _ => False
  end.
Proof.
  run_returned E.
  match type of E with _ = (Return ?u, ?w') => destruct u; assert (Hw : sample_cluster = w')
    by (exact (f_equal snd E)) end.
  apply (GenerateAccounts_impersonation 2 sample_conf sample_auth sample_start
           (fresh_context "sup.ext" ∅) _ 5 10 sample_valid); [apply lookup_insert_eq|done..|exact E|].
  rewrite <- Hw. apply (may_become_by_sound ImpersonateKerberosAPI). vm_compute. reflexivity.
Defined.

Definition ssh_private : string := "PRIVATE h".
Definition ssh_public : string := host_pubkey.
Definition sample_files : gmap string node :=
  {[ SpireSetupPath := File "setup" 0 0; ClusterConfigPath := File "conf" 0 0 ]} ∪
  list_to_map (mjoin (map (λ a,
    match ca_Type a with
    | TLSAuthorityType => [(path_Join [AuthorityKeyDirectory; ca_Name a +:+ ".key"], File (pem_key ca_key) 0 0);
                           (path_Join [AuthorityKeyDirectory; ca_Name a +:+ ".pem"], File (pem_cert (Raw ca_cert)) 0 0)]
    | _ => [(path_Join [AuthorityKeyDirectory; ca_Name a], File ssh_private 0 0);
            (path_Join [AuthorityKeyDirectory; ca_Name a +:+ ".pub"], File ssh_public 0 0)]
    end) ListAuthorities)).
Definition sample_machine : World Mem := mkWorld (with_fs sample_files (os0 0)) mem0.

Lemma GenerateConfig_spec_witness :
  match GenerateConfig sample_machine with
  | (Return (Ok context), w') =>
      ∃ setup conf auth grps c ns ks, setup_in sample_machine SpireSetupPath setup ∧ validate_setup setup = Return (Ok conf) ∧
        configured (comp w') context conf auth grps c ns ks ∧ served_by sample_machine (comp w') conf auth c
  | _ => False
  end.
Proof.
  run_ok E. destruct (GenerateConfig_spec sample_machine eq_refl) as (o & w' & E' & _ & Hok).
  rewrite E in E'. injection E' as <- <-. exact Hok.
Defined.
