(* ===== verification/KeyApi.v ===== *)
(** * The server: keyserver/keyapi

    [keyapi/api.go] and [keyapi/keyserver.go]: authentication of a request, the
    three handlers and how their errors become HTTP statuses, the certificate
    that the server serves, and its start. *)

From S2P Require Import Prelude GoStrings GoNet GoOS GoErrors GoJSON GoCrypto CertUtil GoHTTP Authorities KsState Token Operation WorldConfig Samples.
#[export] Set Default Goal Selector "!".

(** ** verifier/verifier.go: what a verifier promises *)

Record Verifier := mkVerifier {
  HasAttempt : Request → bool;
  Verify : Request → KS (result string)
}.

(** ** keyapi/api.go *)

Definition verifyAccountIP (a : Account) (request : Request) : outcome (result unit) :=
  ip ←? ParseRemoteAddressFromRequest (RemoteAddr request);
  match LimitIP a with
  | Some allowedIp =>
      if negb (IP_Equal allowedIp ip)
      then fail (ErrorString ("attempt to interact with API from wrong IP address: " +:+ IP_String ip +:+
                              " instead of " +:+ IP_String allowedIp))
      else ok tt
  | None => ok tt
  end.

Section api.
Context `{PkgErrors} `{Crypto}.

Definition token_verifier (registry : ptr) : Verifier :=
  mkVerifier (Token_HasAttempt registry) (Token_Verify registry).
(** The authority is a pointer: its [HasAttempt] does not read it. *)
Definition tls_verifier (authority : option TLSAuthority) : Verifier :=
  mkVerifier TLS_HasAttempt (λ request,
    match authority with
    | Some t => TLS_Verify t request
    | None => panic "invalid memory address or nil pointer dereference"
    end).

(** The loop over the verifiers: the first one with an attempt decides. *)
Fixpoint attempt_each (context : ptr) (request : Request) (verifiers : list Verifier) : KS (result ptr) :=
  match verifiers with
  | [] => fail (errors_New "no authentication method found in request")
  | verif :: verifiers =>
      if HasAttempt verif request then
        principal ←? Verify verif request;
        ac ←? GetAccount context principal;
        a ← load accounts ac;
        if DisableDirectAuth a
        then fail (ErrorString ("account has disabled direct authentication: " +:+ principal))
        else
          liftO (verifyAccountIP a request) ;?
          ok ac
      else attempt_each context request verifiers
  end.
Definition attemptAuthentication (context : ptr) (request : Request) : KS (result ptr) :=
  c ← load contexts context;
  attempt_each context request [token_verifier (TokenVerifier c); tls_verifier (AuthenticationAuthority c)].

Definition GetClientCAs (k : ptr) : KS (list Certificate) :=
  ks ← load servers k;
  c ← load contexts (ks_Context ks);
  match AuthenticationAuthority c with
  | Some t => mret (ToCertPool t)
  | None => panic "invalid memory address or nil pointer dereference"
  end.

Definition RenewalMargin : Z := 300 * Second.
Definition ValidityInterval : Z := 24 * Hour.

Definition still_valid (cert : option ServedCert) : KS bool :=
  match cert with
  | None => mret false
  | Some s => n ← time_Now; mret (n + RenewalMargin <? NotAfter (served_leaf s))
  end.
Definition set_ServerCert (k : ptr) (s : ServedCert) : KS unit :=
  ks ← load servers k;
  modify (on_comp (with_servers (insert k (mkKeyserver (ks_Context ks) (ServerKey ks) (Some s))))).

(** What follows when there is no certificate that is still valid. *)
Definition sign_new_cert (k : ptr) (ks : ConfiguredKeyserver) : KS (result ServedCert) :=
  csr ←[λ e, wrap e "while generating CSR"] BuildTLSCSR (ServerKey ks);
  c ← load contexts (ks_Context ks);
  match ClusterCA c with
  | None => panic "invalid memory address or nil pointer dereference"
  | Some ca =>
      cert ←[λ e, wrap e "while signing CSR"]
        TLS_Sign ca csr true ValidityInterval "keyserver-autogen-tls" [KeyserverDNS c] [];
      match tls_X509KeyPair cert (ServerKey ks) with
      | Err err => fail (wrap err "while reloading certificate")
      | Ok (chain, key) =>
          match chain with
          | [] => panic "index out of range"
          | first :: _ =>
              match x509_ParseCertificate first with
              | Err err => fail (wrap err "while pre-parsing certificate")
              | Ok leaf =>
                  let pair := mkServedCert chain key leaf in
                  _ ← set_ServerCert k pair;
                  _ ← log_Print ("New certificate will be valid until " +:+ FormatInt (NotAfter leaf));
                  ok pair
              end
          end
      end
  end.
Definition GetValidServerCert (k : ptr) : KS (result ServedCert) :=
  ks ← load servers k;
  valid ← still_valid (ServerCert ks);
  match valid, ServerCert ks with
  | true, Some s => ok s
  | _, _ => _ ← log_Print "Signing new certificate for serving requests..."; sign_new_cert k ks
  end.

Definition HandleAPIRequest (k : ptr) (request : Request) : KS (result unit) :=
  match Body request with
  | Err err => fail err
  | Ok requestBody =>
      ks ← load servers k;
      ac ←? attemptAuthentication (ks_Context ks) request;
      response ←? InvokeAPIOperationSet ac requestBody;
      writer_Write response
  end.

Definition HandlePubRequest (k : ptr) (authorityName : string) : KS (result unit) :=
  ks ← load servers k;
  c ← load contexts (ks_Context ks);
  match Authorities c !! authorityName with
  | None => fail (ErrorString ("no such authority " +:+ authorityName))
  | Some authority => writer_Write (GetPublicKey authority)
  end.

Definition HandleStaticRequest (k : ptr) (staticName : string) : KS (result unit) :=
  ks ← load servers k;
  c ← load contexts (ks_Context ks);
  match StaticFiles c !! staticName with
  | None => fail (ErrorString ("no such static file " +:+ staticName))
  | Some path =>
      if bool_decide (path = "")
      then fail (ErrorString ("no such static file " +:+ staticName))
      else contents ←? ReadFile path; writer_Write contents
  end.

(** ** keyapi/keyserver.go *)

Definition api_handler (k : ptr) (request : Request) : KS unit :=
  err ← HandleAPIRequest k request;
  match err with
  | Ok _ => mret tt
  | Err e =>
      _ ← log_Print ("API request failed with error: " +:+ Error e);
      match e with
      | OperationForbiddenError _ _ => http_Error "Particular operation forbidden." 403
      | _ => http_Error "Request processing failed. See server logs for details." 400
      end
  end.
Definition path_handler (pattern what : string) (handle : string → KS (result unit)) (request : Request) : KS unit :=
  name ← liftO (slice (URL_Path request) (len pattern) (len (URL_Path request)));
  err ← handle name;
  match err with
  | Ok _ => mret tt
  | Err e =>
      _ ← log_Print (what +:+ Error e);
      http_Error ("Request processing failed: " +:+ Error e) 404
  end.
Definition handlers (k : ptr) : list (string * (Request → KS unit)) :=
  [("/apirequest", api_handler k);
   ("/pub/", path_handler "/pub/" "Public key request failed with error: " (HandlePubRequest k));
   ("/static/", path_handler "/static/" "Static request failed with error: " (HandleStaticRequest k))].

(** The handler that [apiToHTTP] makes, on one request. *)
Definition apiToHTTP (k : ptr) (request : Request) : KS unit :=
  match mux_Handler (map fst (handlers k)) (Method request) (RequestURL request) with
  | MuxHandle pattern =>
      match List.find (λ h, bool_decide (h.1 = pattern)) (handlers k) with
      | Some h => h.2 request
      | None => http_Error "404 page not found" 404
      end
  | MuxRedirect target => http_Redirect request target
  | MuxNotFound => http_Error "404 page not found" 404
  end.

Context `{Yaml}.

Definition TemporaryCertificateBits : Z := 4096.

Definition LoadConfiguredKeyserver : KS (result ptr) :=
  ctx ←? GenerateConfig;
  key ←? GenerateRSA TemporaryCertificateBits;
  k ← new_server (mkKeyserver ctx key.2 None);
  ok k.

(** What the server is started with: the server and the client authorities of
    its TLS configuration. Listening may fail; serving is [serve_one]. *)
Definition Run (addr : string) : KS (result (ptr * list Certificate)) :=
  ks ←? LoadConfiguredKeyserver;
  cas ← GetClientCAs ks;
  syscall (ok tt) ;?
  ok (ks, cas).
End api.

(** ** Authentication *)

Section authentication.
Context `{PkgErrors} `{Crypto}.

Lemma GetAccount_inv ctx principal w a w' :
  GetAccount ctx principal w = (Return (Ok a), w') →
  w' = w ∧ ∃ c ac, contexts (comp w) !! ctx = Some c ∧ Accounts c !! principal = Some a ∧
    accounts (comp w) !! a = Some ac ∧ Principal ac = principal.
Proof.
  unfold GetAccount. intros (c & w1 & (Hc & ->)%load_inv & Hg)%bind_inv.
  destruct (Accounts c !! principal) as [p|] eqn:Hp; [|done].
  apply bind_inv in Hg as (ac & w2 & (Hac & ->)%load_inv & Hg). case_bool_decide as Hn; [done|].
  injection Hg as <- <-. split; [done|]. by exists c, ac.
Qed.

(** The request comes from the address that the account is limited to. *)
Definition from_right_address (a : Account) (request : Request) : Prop :=
  ∃ ip, ParseRemoteAddressFromRequest (RemoteAddr request) = Return (Ok ip) ∧
    ∀ allowed, LimitIP a = Some allowed → IP_Equal allowed ip = true.

Lemma verifyAccountIP_inv a request :
  verifyAccountIP a request = Return (Ok tt) ↔ from_right_address a request.
Proof.
  unfold verifyAccountIP, from_right_address, try_bind.
  destruct (ParseRemoteAddressFromRequest _) as [[ip|e]| |]; simpl.
  2-4: split; [done|by intros (ip & ? & _)].
  destruct (LimitIP a) as [allowed|].
  - destruct (IP_Equal allowed ip) eqn:E; simpl; split; try done.
    + intros _. exists ip. split; [done|]. by intros ? [= <-].
    + intros (ip' & [= <-] & Hall). specialize (Hall _ eq_refl). congruence.
  - split; [|done]. intros _. by exists ip.
Qed.

(** What the loop accepts, for any verifiers: the first that the request tries
    named a principal, whose account may be used directly and from there. *)
Lemma attempt_each_inv context request verifiers w a w' :
  attempt_each context request verifiers w = (Return (Ok a), w') →
  ∃ l1 v l2 principal c ac, verifiers = l1 ++ v :: l2 ∧
    Forall (λ v, HasAttempt v request = false) l1 ∧ HasAttempt v request = true ∧
    Verify v request w = (Return (Ok principal), w') ∧
    contexts (comp w') !! context = Some c ∧ Accounts c !! principal = Some a ∧
    accounts (comp w') !! a = Some ac ∧ Principal ac = principal ∧
    DisableDirectAuth ac = false ∧ from_right_address ac request.
Proof.
  induction verifiers as [|v l IH]; cbn [attempt_each]; [done|].
  destruct (HasAttempt v request) eqn:Hv.
  2: { intros (l1 & v' & l2 & Hrest)%IH. destruct Hrest as (p & c & ac & -> & Hl1 & Hrest).
       exists (v :: l1), v', l2, p, c, ac. split; [done|]. split; [by constructor|done]. }
  intros (principal & w1 & Hver & Ha)%try_bind_Ok_inv.
  apply try_bind_Ok_inv in Ha as (p & w2 & (-> & c & ac & Hc & Hp & Hac & Hn)%GetAccount_inv & Ha).
  apply bind_inv in Ha as (ac' & w3 & (Hac' & ->)%load_inv & Ha).
  assert (ac' = ac) as -> by congruence. destruct (DisableDirectAuth ac) eqn:Hd; [done|].
  apply try_bind_Ok_inv in Ha as ([] & w4 & Hip & Ha). injection Ha as <- <-.
  unfold liftO in Hip. injection Hip as Hip <-. apply verifyAccountIP_inv in Hip.
  by exists [], v, l, principal, c, ac.
Qed.

Definition by_token (c : Context) (request : Request) (principal : string) (w w' : World Mem) : Prop :=
  ∃ reg tok, registries (comp w) !! TokenVerifier c = Some reg ∧
    Header_Get (Header request) TokenHeader ≠ "" ∧
    reg !! Header_Get (Header request) TokenHeader = Some tok ∧
    principal = tok_Subject tok ∧ now (os w') ≤ expires tok ∧
    onces (comp w) !! claimed tok = Some false ∧
    comp w' = with_onces (insert (claimed tok) true) (comp w).
Definition by_certificate (c : Context) (request : Request) (principal : string) (w w' : World Mem) : Prop :=
  ∃ t firstCert chain chains, AuthenticationAuthority c = Some t ∧
    Header_Get (Header request) TokenHeader = "" ∧ comp w' = comp w ∧
    VerifiedChains request = Some ((firstCert :: chain) :: chains) ∧
    (principal = "" ∧ x509_Verify firstCert [tls_cert t] [ExtKeyUsageClientAuth] (now (os w')) = Ok [] ∨
     principal = CommonName (Subject firstCert) ∧
     NotBefore firstCert ≤ now (os w') ≤ NotAfter firstCert ∧
     ExtKeyUsageClientAuth ∈ ExtKeyUsages firstCert ∧
     (x509_signed_by firstCert (tls_cert t) = true ∨ Raw firstCert = Raw (tls_cert t))).

Lemma attemptAuthentication_inv context request w a w' :
  attemptAuthentication context request w = (Return (Ok a), w') →
  ∃ c ac, contexts (comp w) !! context = Some c ∧ accounts (comp w) !! a = Some ac ∧
    Accounts c !! Principal ac = Some a ∧ DisableDirectAuth ac = false ∧ from_right_address ac request ∧
    (by_token c request (Principal ac) w w' ∨ by_certificate c request (Principal ac) w w').
Proof.
  unfold attemptAuthentication. intros (c & w1 & (Hc & ->)%load_inv & Ha)%bind_inv.
  apply attempt_each_inv in Ha as (l1 & v & l2 & principal & c' & ac & Hl & Hno & Hyes & Hver & Hc' & Hp & Hac & Hn & Hd & Hip).
  destruct l1 as [|v1 [|v2 [|? ?]]]; simplify_eq/=.
  - apply Token_Verify_inv in Hver as (reg & tok & Hh & Hr & Hk & Hs & He & Ho & Hcomp).
    rewrite Hcomp in Hc', Hac. simpl in Hc', Hac. assert (c' = c) as -> by congruence.
    exists c, ac. split_and!; try done. left. by exists reg, tok.
  - apply Forall_cons in Hno as [Hno _]. simpl in Hno. unfold Token_HasAttempt in Hno.
    case_bool_decide as Hh; [|done].
    destruct (AuthenticationAuthority c) as [t|] eqn:Ht; [|done].
    pose proof (TLS_Verify_os_only t request w) as Hos. rewrite Hver in Hos. unfold os_only, same in Hos. simpl in Hos.
    apply TLS_Verify_inv in Hver as (f & ch & chs & Hv & Hor). rewrite <- Hos in Hc', Hac.
    assert (c' = c) as -> by congruence. exists c, ac. split_and!; try done.
    right. by exists t, f, ch, chs.
Qed.

(** ** Frames of the handlers *)

Lemma TLS_Verify_later {X} t r : keeps later (@TLS_Verify _ _ X t r).
Proof. unfold TLS_Verify. os_frame. Qed.
Lemma attemptAuthentication_serving context request : keeps serving (attemptAuthentication context request).
Proof.
  unfold attemptAuthentication. apply keeps_bind; [exact _|apply load_keeps; exact _|intros c].
  assert (Hv : ∀ v, v ∈ [token_verifier (TokenVerifier c); tls_verifier (AuthenticationAuthority c)] →
                    keeps serving (Verify v request)).
  { intros v [->|[->|[]%elem_of_nil]%elem_of_cons]%elem_of_cons; simpl.
    - apply keeps_serving; go_frame.
    - destruct (AuthenticationAuthority c); [|intros w; reflexivity].
      pose proof (TLS_Verify_later (X:=Mem) t request). apply keeps_serving; go_frame. }
  revert Hv. generalize [token_verifier (TokenVerifier c); tls_verifier (AuthenticationAuthority c)] as l.
  induction l as [|v l IH]; intros Hv; cbn [attempt_each]; [keep_ret|].
  destruct (HasAttempt v request); [|apply IH; intros; apply Hv; by right].
  apply keeps_try; [exact _|apply Hv; by left|intros p].
  go_frame.
Qed.

(** ** What a request to the API does *)

(** A response that was not begun. *)
Definition unanswered (w : World Mem) : Prop := response (comp w) = empty_response.
Definition answered_with (code : Z) (data : string) (w : World Mem) : Prop :=
  response (comp w) = mkResponse (Some code) "" data.

Lemma writer_Write_inv data w r w' :
  unanswered w → writer_Write data w = (Return r, w') →
  match r with
  | Ok _ => answered_with 200 data w'
  | Err e => answered_with 200 "" w' ∧ ∃ f, mjoin (head (faults (os w))) = Some f ∧ e = fault_err f
  end.
Proof.
  unfold unanswered, answered_with, writer_Write, WriteHeader, update_writer, next_fault.
  intros Hw Hrun. apply bind_inv in Hrun as ([] & w1 & H1 & Hrun). injection H1 as <-.
  apply bind_inv in Hrun as (f & w2 & H2 & Hrun). injection H2 as Hf <-. simpl in Hf.
  destruct f as [f|].
  - injection Hrun as <- <-. simpl. rewrite Hw. split; [done|]. by exists f.
  - apply bind_inv in Hrun as ([] & w3 & H3 & Hrun). injection H3 as <-. injection Hrun as <- <-.
    simpl. by rewrite Hw.
Qed.
(** [http.Error] does not change a status that was sent. *)
Lemma http_Error_status msg code w w' :
  http_Error msg code w = (Return tt, w') →
  status (response (comp w')) = Some (default code (status (response (comp w)))).
Proof.
  unfold http_Error, writer_Write, WriteHeader, update_writer, next_fault. intros Hrun.
  apply bind_inv in Hrun as ([] & w1 & H1 & Hrun). injection H1 as <-.
  apply bind_inv in Hrun as (r & w2 & H2 & Hrun). injection Hrun as <-.
  apply bind_inv in H2 as ([] & w3 & H3 & H2). injection H3 as <-.
  apply bind_inv in H2 as (f & w4 & H4 & H2). injection H4 as _ <-. destruct f.
  - injection H2 as _ <-. done.
  - apply bind_inv in H2 as ([] & w5 & H5 & H2). injection H5 as <-. injection H2 as _ <-. done.
Qed.
Lemma http_Error_frame msg code (w : World Mem) :
  let w' := (http_Error msg code w).2 in
  with_response empty_response (comp w') = with_response empty_response (comp w) ∧
  fs (os w') = fs (os w) ∧ now (os w') = now (os w) ∧ entropy (os w') = entropy (os w).
Proof.
  unfold http_Error, writer_Write, WriteHeader, update_writer, next_fault, mbind, M_bind, modify. simpl.
  by destruct (mjoin _).
Qed.

(** The request was authenticated as [a] and its operations were run. *)
Definition api_run (k : ptr) (request : Request) (w : World Mem) (res : result (list string)) (w2 : World Mem) : Prop :=
  ∃ ks c ac a w1 body ops tr,
    servers (comp w) !! k = Some ks ∧ contexts (comp w) !! ks_Context ks = Some c ∧
    accounts (comp w) !! a = Some ac ∧ Accounts c !! Principal ac = Some a ∧
    DisableDirectAuth ac = false ∧ from_right_address ac request ∧
    (by_token c request (Principal ac) w w1 ∨ by_certificate c request (Principal ac) w w1) ∧
    Body request = Ok body ∧ Unmarshal_maps body = Ok ops ∧
    ops_run a ops w1 tr res w2 ∧ Forall (confined (comp w) a) tr.

Lemma InvokeAPIOperationSet_inv a body w r w' :
  InvokeAPIOperationSet a body w = (Return r, w') →
  (∃ e, r = Err e ∧ w' = w) ∨
  ∃ ops tr res, Unmarshal_maps body = Ok ops ∧ ops_run a ops w tr res w' ∧
    Forall (confined (comp w) a) tr ∧ r = (Marshal_strings <$> res).
Proof.
  unfold InvokeAPIOperationSet. destruct (Unmarshal_maps body) as [ops|e].
  2: { intros [= <- <-]. left. by exists e. }
  intros (res & w1 & Hrun & Hret)%bind_inv.
  apply invoke_operations_run in Hrun as (tr & res0 & Hrun & ->). right. exists ops, tr, res0.
  pose proof (ops_run_confined _ _ _ _ _ _ Hrun) as Hc.
  destruct res0; simpl in Hret; injection Hret as <- <-; by split_and!.
Qed.

Lemma HandleAPIRequest_inv k request w r w' :
  HandleAPIRequest k request w = (Return r, w') →
  (∃ e, r = Err e ∧ response (comp w') = response (comp w)) ∨
  ∃ res w2, api_run k request w res w2 ∧ response (comp w2) = response (comp w) ∧
    match res with
    | Ok results => writer_Write (Marshal_strings results) w2 = (Return r, w')
    | Err e => r = Err e ∧ w' = w2
    end.
Proof.
  unfold HandleAPIRequest. destruct (Body request) as [body|e] eqn:Hb.
  2: { intros [= <- <-]. left. by exists e. }
  intros (ks & w0 & (Hks & ->)%load_inv & Hh)%bind_inv. unfold try_bind at 1 in Hh.
  apply bind_inv in Hh as (ra & w1 & Hatt & Hh).
  pose proof (attemptAuthentication_serving (ks_Context ks) request w) as Hs1. rewrite Hatt in Hs1.
  destruct Hs1 as (_ & _ & (Hacc & Hgr & Hctx & _ & Hresp1) & _). simpl in *.
  destruct ra as [a|e]; [|injection Hh as <- <-; left; by exists e].
  unfold try_bind in Hh. apply bind_inv in Hh as (rs & w2 & Hset & Hh).
  pose proof (InvokeAPIOperationSet_serving a body w1) as Hs2. rewrite Hset in Hs2.
  destruct Hs2 as (_ & _ & (_ & _ & _ & _ & Hresp2) & _). simpl in *.
  apply InvokeAPIOperationSet_inv in Hset as [(e & -> & ->)|(ops & tr & res & Ho & Hrun & Hconf & ->)].
  { injection Hh as <- <-. left. by exists e. }
  apply attemptAuthentication_inv in Hatt as (c & ac & Hc & Hac & Hp & Hd & Hip & Hby).
  right. exists res, w2. split; [|split].
  - exists ks, c, ac, a, w1, body, ops, tr. split_and!; try done.
    eapply Forall_impl; [exact Hconf|]. intros p [Hr (pac & api & Hpac & Hpp)]. split.
    + by eapply may_become_same in Hr.
    + exists pac, api. by rewrite <- Hacc.
  - congruence.
  - destruct res; simpl in Hh; [exact Hh|]. by injection Hh as <- <-.
Qed.

Lemma api_path k request w :
  URL_Path request = "/apirequest" → apiToHTTP k request w = api_handler k request w.
Proof.
  intros Hpath. unfold apiToHTTP. change (map fst (handlers k)) with ["/apirequest"; "/pub/"; "/static/"].
  unfold mux_Handler. change (u_Path (RequestURL request)) with (URL_Path request). rewrite Hpath.
  destruct (bool_decide (Method request = "CONNECT")); reflexivity.
Qed.

(** C1: an answer of the API is 200, 403 or 400. It is 200 only when the request was
    authenticated, by a live unused token for the account or by a client
    certificate of the authority, for an account that may be used directly and
    from the address it is limited to, and all its operations were performed,
    within what that account may become; the body is then their results. The
    other codes report an error, 403 a forbidden operation. *)
Theorem apiToHTTP_authorized k request w w' :
  unanswered w → URL_Path request = "/apirequest" → apiToHTTP k request w = (Return tt, w') →
  (status (response (comp w')) = Some 200 ∧
   ∃ results w2, api_run k request w (Ok results) w2 ∧
     (faults (os w2) = [] → sent (response (comp w')) = Marshal_strings results)) ∨
  (∃ e, fst (HandleAPIRequest k request w) = Return (Err e) ∧
     status (response (comp w')) =
       Some (match e with OperationForbiddenError _ _ => 403 | _ => 400 end)).
Proof.
  intros Hw Hpath. rewrite (api_path _ _ _ Hpath). unfold api_handler. intros (r & w1 & Hh & Hrest)%bind_inv.
  pose proof Hh as Hinv. apply HandleAPIRequest_inv in Hinv as [(e & -> & Hresp)|(res & w2 & Hrun & Hresp & Hres)].
  - right. exists e. rewrite Hh. split; [done|].
    apply bind_inv in Hrest as ([] & w3 & Hlog & Hrest). injection Hlog as <-.
    assert (Hst : status (response (comp w1)) = None) by (rewrite Hresp, Hw; done).
    destruct e; apply http_Error_status in Hrest; simpl in Hrest; by rewrite Hst in Hrest.
  - assert (Hw2 : unanswered w2) by (unfold unanswered; by rewrite Hresp).
    destruct res as [results|e]; [left|right].
    + pose proof (writer_Write_inv _ _ _ _ Hw2 Hres) as Hwr.
      destruct r as [[]|e].
      * injection Hrest as <-. unfold answered_with in Hwr. rewrite Hwr. split; [done|]. exists results, w2. split; [done|]. by intros _.
      * destruct Hwr as (Hwr & f & Hf & ->).
        apply bind_inv in Hrest as ([] & w3 & Hlog & Hrest). injection Hlog as <-.
        assert (Hst : status (response (comp w')) = Some 200).
        { destruct (fault_err f); apply http_Error_status in Hrest; simpl in Hrest; by rewrite Hwr in Hrest. }
        split; [exact Hst|]. exists results, w2. split; [done|]. intros Hno. by rewrite Hno in Hf.
    + destruct Hres as [-> ->]. exists e. rewrite Hh. split; [done|].
      apply bind_inv in Hrest as ([] & w3 & Hlog & Hrest). injection Hlog as <-.
      assert (Hst : status (response (comp w2)) = None) by (by rewrite Hw2).
      destruct e; apply http_Error_status in Hrest; simpl in Hrest; by rewrite Hst in Hrest.
Qed.

(** a request without a token and without a client certificate is refused, and
    changes nothing but its own response. *)
Theorem apiToHTTP_unauthenticated k ks c request body w :
  servers (comp w) !! k = Some ks → contexts (comp w) !! ks_Context ks = Some c →
  unanswered w → URL_Path request = "/apirequest" → Body request = Ok body →
  Header_Get (Header request) TokenHeader = "" → TLS_HasAttempt request = false →
  ∃ w', apiToHTTP k request w = (Return tt, w') ∧ status (response (comp w')) = Some 400 ∧
    with_response empty_response (comp w') = with_response empty_response (comp w) ∧
    fs (os w') = fs (os w) ∧ now (os w') = now (os w) ∧ entropy (os w') = entropy (os w).
Proof.
  intros Hks Hc Hw Hpath Hbody Htok Htls. rewrite (api_path _ _ _ Hpath). unfold api_handler.
  set (e := errors_New "no authentication method found in request").
  assert (HandleAPIRequest k request w = (Return (Err e), w)) as E.
  { unfold HandleAPIRequest. rewrite Hbody, (bind_Return _ _ _ _ _ (load_eq _ _ _ _ Hks)).
    apply try_bind_Err. unfold attemptAuthentication.
    rewrite (bind_Return _ _ _ _ _ (load_eq _ _ _ _ Hc)). cbn [attempt_each HasAttempt token_verifier tls_verifier].
    unfold Token_HasAttempt. rewrite Htok, Htls. done. }
  rewrite (bind_Return _ _ _ _ _ E). erewrite bind_Return by reflexivity.
  set (w1 := on_os _ w).
  assert (∀ w2 : World Mem, http_Error "Request processing failed. See server logs for details." 400 w1 = (Return tt, w2) →
    ∃ w', http_Error "Request processing failed. See server logs for details." 400 w1 = (Return tt, w') ∧
     status (response (comp w')) = Some 400 ∧
     with_response empty_response (comp w') = with_response empty_response (comp w) ∧
     fs (os w') = fs (os w) ∧ now (os w') = now (os w) ∧ entropy (os w') = entropy (os w)) as Hdone.
  { intros w2 H2. exists w2. split; [done|]. pose proof (http_Error_status _ _ _ _ H2) as Hst.
    simpl in Hst. rewrite Hw in Hst. split; [exact Hst|].
    pose proof (http_Error_frame "Request processing failed. See server logs for details." 400 w1) as Hf.
    rewrite H2 in Hf. exact Hf. }
  assert (∃ w2, http_Error "Request processing failed. See server logs for details." 400 w1 = (Return tt, w2)) as [w2 E2].
  { destruct (http_Error_returns (X:=Mem) "Request processing failed. See server logs for details." 400 w1) as [[] Hr].
    destruct (http_Error _ _ w1) as [o w2]. exists w2. simpl in Hr. by rewrite Hr. }
  destruct e eqn:He; try exact (Hdone w2 E2).
  pose proof (errors_New_foreign "no authentication method found in request") as Hno.
  fold e in Hno. rewrite He in Hno. done.
Qed.
End authentication.

(** ** The certificate that is served *)

Section served.
Context `{PkgErrors} `{Crypto}.

(** A certificate as the server makes them: for its own name, signed by the
    cluster's authority, usable by a server, and the only one of its chain. *)
Definition own_certificate (c : Context) (ca : TLSAuthority) (s : ServedCert) : Prop :=
  served_chain s = [Raw (served_leaf s)] ∧
  x509_signed_by (served_leaf s) (tls_cert ca) = true ∧
  (DNSNames (served_leaf s), IPAddresses (served_leaf s)) = san_names [KeyserverDNS c] ∧
  ExtKeyUsageServerAuth ∈ ExtKeyUsages (served_leaf s) ∧ IsCA (served_leaf s) = false.

Definition server_cert_frame : relation (World Mem) := λ w w',
  with_servers (const ∅) (comp w') = with_servers (const ∅) (comp w) ∧ fs (os w') = fs (os w) ∧
  now (os w) ≤ now (os w').

(** Signing anew. *)
Lemma sign_server_cert k ks c ca w :
  servers (comp w) !! k = Some ks → contexts (comp w) !! ks_Context ks = Some c → ClusterCA c = Some ca →
  PublicKey (tls_cert ca) = RSAPublicKey (rsa_N (tls_key ca)) →
  ∃ r w', sign_new_cert k ks w = (Return r, w') ∧ server_cert_frame w w' ∧
    match r with
    | Ok s => own_certificate c ca s ∧ Unix (NotAfter (served_leaf s)) = Unix (now (os w') + ValidityInterval) ∧
        servers (comp w') = <[k := mkKeyserver (ks_Context ks) (ServerKey ks) (Some s)]> (servers (comp w))
    | Err _ => servers (comp w') = servers (comp w)
    end.
Proof.
  intros Hks Hc Hca Hkey. unfold sign_new_cert.
  pose proof (BuildTLSCSR_later (ServerKey ks) w) as Hl1.
  destruct (BuildTLSCSR_returns (ServerKey ks) w) as [r1 Hr1].
  pose proof (BuildTLSCSR_os_only (ServerKey ks) w) as Hos1. pose proof (BuildTLSCSR_fs (ServerKey ks) w) as Hfs1.
  destruct (BuildTLSCSR (ServerKey ks) w) as [o w1] eqn:E1. simpl in Hr1, Hos1, Hfs1, Hl1. subst o.
  unfold os_only, same_fs, later, same in Hos1, Hfs1, Hl1. unfold try_bind_with at 1. rewrite (bind_Return _ _ _ _ _ E1).
  destruct r1 as [csr|e].
  2: { exists (Err (wrap e "while generating CSR")), w1. split; [done|]. unfold server_cert_frame. by rewrite <- Hos1, Hfs1. }
  rewrite Hos1 in Hc. rewrite (bind_Return _ _ _ _ _ (load_eq _ _ _ _ Hc)), Hca.
  set (args := TLS_Sign ca csr true ValidityInterval "keyserver-autogen-tls" [KeyserverDNS c] []).
  destruct (TLS_Sign_returns ca csr true ValidityInterval "keyserver-autogen-tls" [KeyserverDNS c] [] w1) as [r2 Hr2].
  pose proof (TLS_Sign_os_only ca csr true ValidityInterval "keyserver-autogen-tls" [KeyserverDNS c] [] w1) as Hos2.
  pose proof (TLS_Sign_fs ca csr true ValidityInterval "keyserver-autogen-tls" [KeyserverDNS c] [] w1) as Hfs2.
  pose proof (TLS_Sign_later ca csr true ValidityInterval "keyserver-autogen-tls" [KeyserverDNS c] [] w1) as Hl2.
  fold args in Hr2, Hos2, Hfs2, Hl2. destruct (args w1) as [o w2] eqn:E2. simpl in Hr2, Hos2, Hfs2, Hl2. subst o.
  unfold os_only, same_fs, later, same in Hos2, Hfs2, Hl2. unfold try_bind_with. rewrite (bind_Return _ _ _ _ _ E2).
  assert (Hframe : comp w2 = comp w ∧ fs (os w2) = fs (os w) ∧ now (os w) ≤ now (os w2))
    by (split_and!; [congruence..|lia]).
  destruct Hframe as (Hcomp & Hfs & Hl).
  destruct r2 as [cert|e].
  2: { exists (Err (wrap e "while signing CSR")), w2. split; [done|]. unfold server_cert_frame. by rewrite Hcomp, Hfs. }
  apply TLS_Sign_inv in E2 as (q & leaf & issueAt & _ & _ & _ & [-> Hparse] & _ & Hsig & _ & _ & Hnames & Hext & Hisca & _ & _ & Hnow & _ & Hafter & _);
    [|done].
  destruct (tls_X509KeyPair _ (ServerKey ks)) as [[chain key]|e] eqn:Ep.
  2: { exists (Err (wrap e "while reloading certificate")), w2. split; [done|]. unfold server_cert_frame. by rewrite Hcomp, Hfs. }
  apply keypair_leaf in Ep as ->. rewrite Hparse. cbv zeta.
  set (pair := mkServedCert [Raw leaf] key leaf).
  set (w3 := on_comp (with_servers (insert k (mkKeyserver (ks_Context ks) (ServerKey ks) (Some pair)))) w2).
  assert (E3 : set_ServerCert k pair w2 = (Return tt, w3)).
  { unfold set_ServerCert. rewrite <- Hcomp in Hks. by rewrite (bind_Return _ _ _ _ _ (load_eq _ _ _ _ Hks)). }
  rewrite (bind_Return _ _ _ _ _ E3). erewrite bind_Return by reflexivity.
  eexists (Ok pair), _. split; [reflexivity|]. split; [|split; [|split]].
  - unfold server_cert_frame. simpl. by rewrite Hcomp, Hfs.
  - unfold own_certificate. simpl. rewrite Hext. split_and!; try done. right. by left.
  - simpl. by rewrite Hafter, Hnow.
  - simpl. by rewrite Hcomp.
Qed.

(** C30: [GetValidServerCert] always returns; a certificate that it returns is the
    server's own, stays valid for at least the renewal margin, and is kept for the
    next handshake; one that is kept and still valid is served again, without
    signing. Nothing else of the server changes. *)
Theorem GetValidServerCert_spec k ks c ca w :
  servers (comp w) !! k = Some ks → contexts (comp w) !! ks_Context ks = Some c → ClusterCA c = Some ca →
  PublicKey (tls_cert ca) = RSAPublicKey (rsa_N (tls_key ca)) →
  (∀ s, ServerCert ks = Some s → own_certificate c ca s) →
  ∃ r w', GetValidServerCert k w = (Return r, w') ∧ server_cert_frame w w' ∧
    match r with
    | Ok s => own_certificate c ca s ∧ now (os w') + RenewalMargin < NotAfter (served_leaf s) ∧
        servers (comp w') !! k = Some (mkKeyserver (ks_Context ks) (ServerKey ks) (Some s)) ∧
        (∀ s', ServerCert ks = Some s' → now (os w') + RenewalMargin < NotAfter (served_leaf s') →
               s = s' ∧ entropy (os w') = entropy (os w))
    | Err _ => servers (comp w') = servers (comp w)
    end.
Proof.
  intros Hks Hc Hca Hkey Hinv. unfold GetValidServerCert.
  rewrite (bind_Return _ _ _ _ _ (load_eq _ _ _ _ Hks)).
  set (valid := match ServerCert ks with
                | Some s => now (os (still_valid (ServerCert ks) w).2) + RenewalMargin <? NotAfter (served_leaf s)
                | None => false end).
  assert (∃ w1, still_valid (ServerCert ks) w = (Return valid, w1) ∧ comp w1 = comp w ∧
    fs (os w1) = fs (os w) ∧ entropy (os w1) = entropy (os w) ∧ now (os w) ≤ now (os w1)) as (w1 & E1 & Hcomp & Hfs & Hent & Hl).
  { subst valid. unfold still_valid. destruct (ServerCert ks) as [s|]; eexists; (split; [reflexivity|]); simpl; split_and!; try done; lia. }
  assert (Hvalid : valid = match ServerCert ks with
                | Some s => now (os w1) + RenewalMargin <? NotAfter (served_leaf s) | None => false end)
    by (subst valid; by rewrite E1).
  rewrite (bind_Return _ _ _ _ _ E1). clearbody valid. subst valid.
  destruct (sign_server_cert k ks c ca (logging "Signing new certificate for serving requests..." w1))
    as (r & w2 & E2 & (Hf1 & Hf2 & Hf3) & Hr); [by rewrite <- Hcomp in Hks|by rewrite <- Hcomp in Hc|done..|].
  simpl in Hf1, Hf2, Hf3, Hr. rewrite Hcomp in Hf1, Hr.
  assert (Hframe : server_cert_frame w w2) by (split_and!; [done|congruence|lia]).
  assert (Hsign : (match ServerCert ks with
                   | Some s => (now (os w1) + RenewalMargin <? NotAfter (served_leaf s)) = false | None => True end) →
    match r with
    | Ok s => own_certificate c ca s ∧ now (os w2) + RenewalMargin < NotAfter (served_leaf s) ∧
        servers (comp w2) !! k = Some (mkKeyserver (ks_Context ks) (ServerKey ks) (Some s)) ∧
        (∀ s', ServerCert ks = Some s' → now (os w2) + RenewalMargin < NotAfter (served_leaf s') →
               s = s' ∧ entropy (os w2) = entropy (os w))
    | Err _ => servers (comp w2) = servers (comp w)
    end).
  { intros Hold. destruct r as [s|e]; [|done]. destruct Hr as (Hown & Hafter & Hsrv).
    split; [done|]. split; [|split].
    - unfold Unix, Second, ValidityInterval, RenewalMargin, Hour in *. Z.to_euclidean_division_equations. unfold Second in *. lia.
    - rewrite Hsrv. apply lookup_insert_eq.
    - intros s' Hs' Hlt. rewrite Hs' in Hold. apply Z.ltb_ge in Hold. lia. }
  destruct (ServerCert ks) as [s|] eqn:Es; [destruct (_ <? _) eqn:Ev|].
  - apply Z.ltb_lt in Ev. exists (Ok s), w1. split; [done|]. split; [split_and!; [by rewrite Hcomp|done|lia]|].
    split; [by apply Hinv|]. split; [done|]. split; [by rewrite Hcomp, Hks, <- Es; destruct ks|].
    by intros s' [= <-].
  - exists r, w2. erewrite bind_Return by reflexivity. split; [exact E2|]. by split; [|apply Hsign].
  - exists r, w2. erewrite bind_Return by reflexivity. split; [exact E2|]. by split; [|apply Hsign].
Qed.
End served.

(** ** What anybody may read *)

Section public.
Context `{PkgErrors} `{Crypto}.

(** The specification of everything but the API: the public keys of the
    authorities and the configured files, by name. *)
Inductive answer := Found (data : string) | Moved (location body : string) | Missing.
Definition public_answer (c : Context) (files : gmap string node) (request : Request) : answer :=
  match mux_Handler ["/apirequest"; "/pub/"; "/static/"] (Method request) (RequestURL request) with
  | MuxHandle pattern =>
      let name := drop_s (String.length pattern) (URL_Path request) in
      if bool_decide (pattern = "/pub/")
      then match Authorities c !! name with Some a => Found (GetPublicKey a) | None => Missing end
      else match StaticFiles c !! name with
           | Some path =>
               match files !! path_Clean path with
               | Some (File contents _ _) => if bool_decide (path = "") then Missing else Found contents
               | _ => Missing
               end
           | None => Missing
           end
  | MuxRedirect target =>
      let url := redirect_url target in
      Moved (hexEscapeNonASCII url) (if bool_decide (Method request = "GET") then moved_body url else "")
  | MuxNotFound => Missing
  end.
Definition answers (a : answer) (r : Response) : Prop :=
  match a with
  | Found data => r = mkResponse (Some 200) "" data
  | Moved location body => r = mkResponse (Some 301) location body
  | Missing => status r = Some 404
  end.

Lemma longest_in l p : longest l = Some p → p ∈ l.
Proof.
  unfold longest. assert (∀ acc, foldl (λ acc p, match acc with
                  | Some q => if bool_decide (String.length q < String.length p)%nat then Some p else Some q
                  | None => Some p end) acc l = Some p → p ∈ l ∨ acc = Some p) as Hall.
  { induction l as [|q l IH]; simpl; [by right|]. intros acc [Hin|Hacc]%IH; [left; by right|].
    destruct acc as [x|]; [case_bool_decide|]; simplify_eq; [left; by left|by right|left; by left]. }
  intros [?|?]%Hall; done.
Qed.
Lemma mux_Handler_pattern patterns method path p :
  mux_Handler patterns method path = MuxHandle p →
  p ∈ patterns ∧ HasPrefix (u_Path path) p = true ∧ (p = u_Path path ∨ ends_slash p = true).
Proof.
  unfold mux_Handler, mux_match. destruct (should_redirect _ _); [done|].
  destruct (bool_decide (_ ≠ u_Path path)); [done|]. case_bool_decide as Hin; intros Heq.
  - injection Heq as <-. split; [done|]. split; [|by left].
    apply HasPrefix_spec. exists "". by rewrite app_nil_s.
  - destruct (longest _) as [q|] eqn:Hl; [|done]. injection Heq as <-. apply longest_in in Hl.
    apply list_elem_of_In, List.filter_In in Hl as [Hq Hb]. apply andb_true_iff in Hb as [Hs Hb].
    split; [by apply list_elem_of_In|]. split; [done|by right].
Qed.
Lemma slice_rest l t : slice (l +:+ t) (len l) (len (l +:+ t)) = Return t.
Proof.
  pose proof (len_nonneg l). pose proof (len_nonneg t).
  rewrite slice_Return; rewrite ?len_app; [|lia..].
  replace (Z.to_nat (len l)) with (String.length l) by (unfold len; lia). rewrite drop_app_s.
  replace (Z.to_nat _) with (String.length t) by (unfold len; lia). by rewrite take_all_s.
Qed.

(** Reading a file on a machine where nothing fails. *)
Lemma no_fault (w : World Mem) : faults (os w) = [] → next_fault w = (Return None, w).
Proof.
  intros Hf. unfold next_fault. rewrite Hf. simpl. f_equal. destruct w as [[] ?]. simpl in *. by subst.
Qed.
Lemma ReadFile_honest path (w : World Mem) :
  faults (os w) = [] → path_Clean path ≠ "/" → path_Clean path ≠ "." →
  match fs (os w) !! path_Clean path with
  | Some (File contents _ _) => ReadFile path w = (Return (Ok contents), w)
  | _ => ∃ e, ReadFile path w = (Return (Err e), w)
  end.
Proof.
  intros Hf H1 H2.
  assert (Hl : lookup_node path w = (Return (fs (os w) !! path_Clean path), w)).
  { unfold lookup_node, gets. rewrite bool_decide_false by tauto. done. }
  unfold ReadFile, syscall. rewrite (bind_Return _ _ _ _ _ (no_fault w Hf)), (bind_Return _ _ _ _ _ Hl).
  destruct (fs (os w) !! path_Clean path) as [[c m t|]|]; [|by eexists..].
  by rewrite (bind_Return _ _ _ _ _ (no_fault w Hf)).
Qed.

(** On a machine where nothing fails. *)
Lemma writer_Write_Ok data w :
  unanswered w → faults (os w) = [] →
  ∃ w', writer_Write data w = (Return (Ok tt), w') ∧ response (comp w') = mkResponse (Some 200) "" data ∧
    with_response empty_response (comp w') = with_response empty_response (comp w) ∧ fs (os w') = fs (os w).
Proof.
  intros Hw Hf. unfold writer_Write, WriteHeader, update_writer, next_fault, mbind, M_bind, modify. simpl.
  rewrite Hf. simpl. eexists. split; [reflexivity|]. simpl. by rewrite Hw.
Qed.
Lemma http_Error_404 msg w :
  unanswered w → ∃ w', http_Error msg 404 w = (Return tt, w') ∧ status (response (comp w')) = Some 404 ∧
    with_response empty_response (comp w') = with_response empty_response (comp w) ∧ fs (os w') = fs (os w).
Proof.
  intros Hw. destruct (http_Error_returns (X:=Mem) msg 404 w) as [[] Hr].
  pose proof (http_Error_frame msg 404 w) as (H1 & H2 & _).
  destruct (http_Error msg 404 w) as [o w'] eqn:E. simpl in *. subst o. exists w'.
  apply http_Error_status in E. rewrite Hw in E. by split_and!.
Qed.

Definition handled (a : answer) (w w' : World Mem) : Prop :=
  answers a (response (comp w')) ∧
  with_response empty_response (comp w') = with_response empty_response (comp w) ∧ fs (os w') = fs (os w).

(** A handler by name that found something, or nothing. *)
Lemma path_handler_spec pattern what handle request w a name :
  URL_Path request = pattern +:+ name → unanswered w →
  match a with
  | Found data => handle name w = writer_Write data w
  | _ => ∃ e w1, handle name w = (Return (Err e), w1) ∧ comp w1 = comp w ∧ fs (os w1) = fs (os w)
  end → (∀ l b, a ≠ Moved l b) → faults (os w) = [] →
  ∃ w', path_handler pattern what handle request w = (Return tt, w') ∧ handled a w w'.
Proof.
  intros Hpath Hw Ha Hmoved Hf. unfold path_handler. rewrite Hpath, slice_rest.
  erewrite bind_Return by reflexivity. destruct a as [data|l b|]; [|by destruct (Hmoved l b)|].
  - destruct (writer_Write_Ok data w Hw Hf) as (w' & E & H1 & H2 & H3). rewrite <- Ha in E.
    rewrite (bind_Return _ _ _ _ _ E). exists w'. by split_and!.
  - destruct Ha as (e & w1 & E & Hc & Hfs). rewrite (bind_Return _ _ _ _ _ E).
    erewrite bind_Return by reflexivity. set (w2 := on_os _ w1).
    destruct (http_Error_404 ("Request processing failed: " +:+ Error e) w2) as (w' & E' & H1 & H2 & H3).
    { unfold unanswered. simpl. by rewrite Hc. }
    exists w'. simpl in H2, H3. rewrite Hc in H2. rewrite Hfs in H3. by split_and!.
Qed.

Lemma http_Redirect_moved request target w :
  unanswered w → faults (os w) = [] →
  ∃ w', http_Redirect request target w = (Return tt, w') ∧
    handled (let url := redirect_url target in
      Moved (hexEscapeNonASCII url) (if bool_decide (Method request = "GET") then moved_body url else "")) w w'.
Proof.
  intros Hw Hf. unfold http_Redirect, handled. cbn [answers]. case_bool_decide.
  - unfold writer_Write, WriteHeader, update_writer, next_fault, mbind, M_bind, modify. simpl. rewrite Hf. simpl.
    eexists. split; [reflexivity|]. simpl. by rewrite Hw.
  - eexists. split; [reflexivity|]. simpl. by rewrite Hw.
Qed.

(** C31: for every path but that of the API, the server answers what the
    specification says: with a public key of an authority, a configured static
    file, a redirection to the cleaned path (whose URL is escaped and keeps its query, and
    whose body for GET is the page that net/http writes), or an error, and never with anything
    else of its memory or disk; it changes nothing. *)
Theorem apiToHTTP_public k ks c request w :
  servers (comp w) !! k = Some ks → contexts (comp w) !! ks_Context ks = Some c →
  unanswered w → faults (os w) = [] → URL_Path request ≠ "/apirequest" →
  (∀ n p, StaticFiles c !! n = Some p → path_Clean p ≠ "/" ∧ path_Clean p ≠ ".") →
  ∃ w', apiToHTTP k request w = (Return tt, w') ∧ handled (public_answer c (fs (os w)) request) w w'.
Proof.
  intros Hks Hc Hw Hf Hpath Hroot. unfold apiToHTTP, public_answer.
  change (map fst (handlers k)) with ["/apirequest"; "/pub/"; "/static/"].
  destruct (mux_Handler _ _ _) as [pattern|target|] eqn:Em.
  - apply mux_Handler_pattern in Em as (Hin & Hpre & Hor). apply HasPrefix_spec in Hpre as [name Hname].
    change (u_Path (RequestURL request)) with (URL_Path request) in *. rewrite Hname, drop_app_s.
    repeat (apply elem_of_cons in Hin as [->|Hin]); [| | |by apply elem_of_nil in Hin].
    + destruct Hor as [Hor|Hor]; [by destruct Hpath|done].
    + apply path_handler_spec with (name := name); [done|done| | |done].
      * rewrite bool_decide_true by done. unfold HandlePubRequest.
        rewrite (bind_Return _ _ _ _ _ (load_eq _ _ _ _ Hks)), (bind_Return _ _ _ _ _ (load_eq _ _ _ _ Hc)).
        destruct (Authorities c !! name); [done|]. by eexists _, _.
      * intros l b. rewrite bool_decide_true by done. by destruct (Authorities c !! name).
    + apply path_handler_spec with (name := name); [done|done| | |done]; rewrite bool_decide_false by done.
      * unfold HandleStaticRequest.
        rewrite (bind_Return _ _ _ _ _ (load_eq _ _ _ _ Hks)), (bind_Return _ _ _ _ _ (load_eq _ _ _ _ Hc)).
        destruct (StaticFiles c !! name) as [p|] eqn:Hp; [|by eexists _, _].
        destruct (Hroot _ _ Hp) as [Hr1 Hr2]. pose proof (ReadFile_honest p w Hf Hr1 Hr2) as Hread.
        destruct (fs (os w) !! path_Clean p) as [[contents m t|]|].
        1: case_bool_decide; [by eexists _, _|]; by rewrite (try_bind_Ok _ _ _ _ _ Hread).
        1-2: case_bool_decide; [by eexists _, _|]; destruct Hread as [e Hread];
          exists e, w; by rewrite (try_bind_Err _ _ _ _ _ Hread).
      * intros l b. destruct (StaticFiles c !! name) as [q|]; [|done].
        destruct (fs (os w) !! path_Clean q) as [[]|]; [|done..]. by case_bool_decide.
  - by apply http_Redirect_moved.
  - by apply http_Error_404.
Qed.
End public.

(** ** A server, started and asked *)

Definition started : outcome (result (ptr * list Certificate)) * World Mem :=
  Run ":20557" (on_os (with_entropy ["s"; "q"; "AAAAAAAAAAAAAAAAAAAA"; "r"]) sample_machine).
Definition server : ptr := match started.1 with Return (Ok r) => r.1 | _ => 0%nat end.
Definition server_world : World Mem := started.2.

(** The worker asks for its configuration, with its certificate. *)
Definition worker_request : Request :=
  mkRequest "POST" (at_path "/apirequest") "10.0.0.3:999" ∅
    (Some [[sample_cert node_key "w.ext" 0 100000000000]]) (Ok (operations_json [("get-local-config", "")])).

Definition server_state : ConfiguredKeyserver :=
  default (mkKeyserver 0 "" None) (servers (comp server_world) !! server).
Definition server_context : Context :=
  default (mkContext ∅ ∅ 0 None None ∅ "") (contexts (comp server_world) !! ks_Context server_state).
Lemma server_state_eq : servers (comp server_world) !! server = Some server_state.
Proof. vm_compute. reflexivity. Qed.
Lemma server_context_eq : contexts (comp server_world) !! ks_Context server_state = Some server_context.
Proof. vm_compute. reflexivity. Qed.
Lemma server_unanswered : unanswered server_world.
Proof. vm_compute. reflexivity. Qed.

Lemma apiToHTTP_authorized_witness :
  match apiToHTTP server worker_request server_world with
  | (Return tt, w') =>
      (status (response (comp w')) = Some 200 ∧
       ∃ results w2, api_run server worker_request server_world (Ok results) w2 ∧
         (faults (os w2) = [] → sent (response (comp w')) = Marshal_strings results)) ∨
      (∃ e, fst (HandleAPIRequest server worker_request server_world) = Return (Err e) ∧
         status (response (comp w')) =
           Some (match e with OperationForbiddenError _ _ => 403 | _ => 400 end))
  | _ => False
  end.
Proof.
  run_returned E. match type of E with _ = (Return ?u, _) => destruct u end.
  exact (apiToHTTP_authorized server worker_request server_world _ server_unanswered eq_refl E).
Defined.

Lemma apiToHTTP_unauthenticated_witness :
  ∃ w', apiToHTTP server (mkRequest "POST" (at_path "/apirequest") "10.0.0.3:999" ∅ None (Ok "[]")) server_world = (Return tt, w') ∧
    status (response (comp w')) = Some 400 ∧
    with_response empty_response (comp w') = with_response empty_response (comp server_world) ∧
    fs (os w') = fs (os server_world) ∧ now (os w') = now (os server_world) ∧
    entropy (os w') = entropy (os server_world).
Proof.
  exact (apiToHTTP_unauthenticated server server_state server_context
    (mkRequest "POST" (at_path "/apirequest") "10.0.0.3:999" ∅ None (Ok "[]")) "[]" server_world
    server_state_eq server_context_eq server_unanswered eq_refl eq_refl eq_refl eq_refl).
Defined.

Lemma GetValidServerCert_spec_witness :
  match GetValidServerCert server server_world with
  | (Return (Ok s), w') => own_certificate server_context sample_tls s ∧
      now (os w') + RenewalMargin < NotAfter (served_leaf s)
  | _ => False
  end.
Proof.
  run_ok E.
  destruct (GetValidServerCert_spec server server_state server_context sample_tls server_world
    server_state_eq server_context_eq) as (r & w' & E' & _ & Hr);
    [vm_compute; reflexivity|vm_compute; reflexivity|intros s Hs; vm_compute in Hs; discriminate Hs|].
  rewrite E in E'. injection E' as <- <-. destruct Hr as (H1 & H2 & _). split; [exact H1|exact H2].
Defined.

Lemma apiToHTTP_public_witness :
  ∃ w', apiToHTTP server (mkRequest "GET" (at_path "/static/cluster.conf") "10.0.0.9:1" ∅ None (Ok "")) server_world = (Return tt, w') ∧
    handled (Found "conf") server_world w'.
Proof.
  destruct (apiToHTTP_public server server_state server_context
    (mkRequest "GET" (at_path "/static/cluster.conf") "10.0.0.9:1" ∅ None (Ok "")) server_world
    server_state_eq server_context_eq server_unanswered) as (w' & E & Hh).
  - vm_compute; reflexivity.
  - discriminate.
  - assert (StaticFiles server_context = {[ ClusterConfStatic := ClusterConfigPath ]}) as -> by (vm_compute; reflexivity).
    intros n p [<- <-]%lookup_singleton_Some. split; discriminate.
  - exists w'. split; [exact E|].
    assert (public_answer server_context (fs (os server_world))
      (mkRequest "GET" (at_path "/static/cluster.conf") "10.0.0.9:1" ∅ None (Ok "")) = Found "conf") as Ha by (vm_compute; reflexivity).
    rewrite Ha in Hh. exact Hh.
Defined.
