(* ===== verification/Api.v ===== *)
(** * The client of the key server: api/endpoint, api/server, api/reqtarget, api/knc

    [src/platform/keysystem/api]: what the programs of a node and of an
    administrator use to talk to the key server. The network is a parameter:
    every theorem holds for every network, and [ClientServer] takes the server
    itself for it. *)

From S2P Require Import Prelude GoStrings GoNet GoOS Paths StrUtil GoErrors GoJSON GoCrypto CertUtil Samples.
#[export] Set Default Goal Selector "!".

(** ** net/url and the HTTP client *)


(** What a client is built from: [http.Transport] and its TLS configuration. *)
Record http_Client := mkClient {
  client_RootCAs : list Certificate;
  client_Certificates : list tls_Certificate;
  client_Timeout : Z
}.
Record http_ClientRequest := mkClientRequest {
  rq_Method : string;
  rq_URL : string;
  rq_Header : gmap string (list string);
  rq_Body : string
}.

(** The network: [url.Parse], for the host of an URL, and one exchange: an error,
    or a status and what reading the body gives. *)
Class Network (X : Type) := {
  url_Hostname : string → result string;
  client_Do : http_Client → http_ClientRequest → M (World X) (result (Z * result string))
}.

(** [Header.Set]; the keys that the program uses are in canonical form. *)
Definition Header_Set (h : gmap string (list string)) (k v : string) : gmap string (list string) :=
  <[k := [v]]> h.

(** ** endpoint/endpoint.go *)

Record ServerEndpoint := mkEndpoint {
  rootCAs : list Certificate;
  baseURL : string;
  extraHeaders : gmap string string;
  certificates : list tls_Certificate;
  timeout : Z;
  client : option http_Client
}.
Definition buildClient (s : ServerEndpoint) : ServerEndpoint :=
  mkEndpoint (rootCAs s) (baseURL s) (extraHeaders s) (certificates s) (timeout s)
    (Some (mkClient (rootCAs s) (certificates s) (timeout s))).

Section endpoint.
Context `{PkgErrors}.

Definition NewServerEndpoint (url : string) (authorities : list Certificate) : result ServerEndpoint :=
  if bool_decide (url = "") then Err (errors_New "empty base URL")
  else if negb (HasSuffix url "/") then Err (errors_New "base URL must end in a slash")
  else Ok (buildClient (mkEndpoint authorities url ∅ [] (30 * Second) None)).

Definition BaseURL (s : ServerEndpoint) : string := baseURL s.
(** The headers and the certificates are copied: the endpoint that it is called on
    keeps its own. *)
Definition WithHeader (s : ServerEndpoint) (key value : string) : ServerEndpoint :=
  buildClient (mkEndpoint (rootCAs s) (baseURL s) (<[key := value]> (extraHeaders s))
                 (certificates s) (timeout s) (client s)).
Definition WithCertificate (s : ServerEndpoint) (cert : tls_Certificate) : ServerEndpoint :=
  buildClient (mkEndpoint (rootCAs s) (baseURL s) (extraHeaders s)
                 (certificates s ++ [cert]) (timeout s) (client s)).

Context {X : Type} `{!Network X}.
Abbreviation MW := (M (World X)).

(** [http.NewRequest] fails when the URL does not parse. *)
Definition http_NewRequest (method url body : string) : result http_ClientRequest :=
  match url_Hostname url with
  | Err err => Err err
  | Ok _ => Ok (mkClientRequest method url ∅ body)
  end.
Definition add_headers (extra : gmap string string) (req : http_ClientRequest) : http_ClientRequest :=
  mkClientRequest (rq_Method req) (rq_URL req)
    (foldr (λ kv h, Header_Set h kv.1 kv.2) (rq_Header req) (map_to_list extra)) (rq_Body req).

Definition endpoint_Request (s : ServerEndpoint) (path method reqbody : string) : MW (result string) :=
  c ← liftO (byte_at path 0);
  if bool_decide (c ≠ "/"%char)
  then fail (errors_New "while validating request: path must be absolute")
  else
    rest ← liftO (slice path 1 (len path));
    match http_NewRequest method (baseURL s +:+ rest) reqbody with
    | Err err => fail (wrap err "while preparing request")
    | Ok req =>
        match client s with
        | None => panic "invalid memory address or nil pointer dereference"
        | Some cl =>
            response ←[λ e, wrap e "while processing request"]
              client_Do cl (add_headers (extraHeaders s) req);
            let '(StatusCode, body) := response in
            if bool_decide (StatusCode ≠ 200)
            then
              if bool_decide (StatusCode = 403) then fail OperationForbidden
              else fail (ErrorString ("unexpected status code: " +:+ FormatInt StatusCode))
            else
              match body with
              | Err err => fail (wrap err "while receiving response")
              | Ok body => ok body
              end
        end
    end.

Definition endpoint_Get (s : ServerEndpoint) (path : string) : MW (result string) :=
  endpoint_Request s path "GET" "".

(** [PostJSON] of a value that is written as [input] and of an output that
    [unmarshal] reads. *)
Definition PostJSON {O} (s : ServerEndpoint) (path : string) (input : string)
    (unmarshal : string → result O) : MW (result O) :=
  body ←[λ e, wrap e "while posting request"] endpoint_Request s path "POST" input;
  match unmarshal body with
  | Err err => fail (wrap err "while unmarshalling json from response")
  | Ok output => ok output
  end.
End endpoint.

(** ** reqtarget: requests and their targets *)

Record reqtarget_Request := mkReq { API : string; req_Body : string }.
Definition marshal_request (r : reqtarget_Request) : string :=
  Marshal_struct [("api", API r); ("body", req_Body r)].
Definition marshal_requests : list reqtarget_Request → string := Marshal_list marshal_request.

(** The interface [RequestTarget]: where requests are sent. *)
Record RequestTarget (X : Type) := mkTarget {
  SendRequests : list reqtarget_Request → M (World X) (result (list string))
}.
Arguments SendRequests {_} _ _.
Arguments mkTarget {_} _.

Section reqtarget.
Context `{PkgErrors} {X : Type}.
Abbreviation MW := (M (World X)).

Definition SendRequest (a : RequestTarget X) (api body : string) : MW (result string) :=
  strs ←? SendRequests a [mkReq api body];
  match strs with
  | [s] => ok s
  | _ => fail (ErrorString ("wrong number of results: " +:+ FormatInt (Z.of_nat (length strs)) +:+ " != 1"))
  end.

Definition impersonatedTarget (BaseTarget : RequestTarget X) (ImpersonationAPI User : string) : RequestTarget X :=
  mkTarget (λ reqs,
    let new_requests := mkReq ImpersonationAPI User :: reqs in
    responses ←? SendRequests BaseTarget new_requests;
    if bool_decide (length responses ≠ length new_requests)
    then fail (errors_New "count mismatch during impersonation response verification")
    else ok (tail responses)).

Definition Impersonate (rt : RequestTarget X) (api user : string) : MW (result (RequestTarget X)) :=
  if bool_decide (api = "") then fail (errors_New "invalid API call")
  else if bool_decide (user = "") then fail (errors_New "invalid user")
  else
    let rt2 := impersonatedTarget rt api user in
    _ ←[λ e, wrap e "while verifying impersonation functionality"] SendRequests rt2 [];
    ok rt2.
End reqtarget.

(** ** knc/knc.go *)

Record KncServer := mkKnc { knc_Hostname : string; KerberosTicketCache : string }.

Section knc.
Context `{PkgErrors} {X : Type}.
Abbreviation MW := (M (World X)).

Definition kncRequest (k : KncServer) (data : string) : MW (result string) :=
  env ← os_Environ;
  let Env := if bool_decide (KerberosTicketCache k ≠ "")
             then Some (ModifiedEnviron env "KRB5CCNAME" (KerberosTicketCache k)) else None in
  (* the pipe to the command's standard input *)
  syscall (ok tt) ;?
  response ← exec_Command (mkCommand ["/usr/bin/knc"; "host@" +:+ knc_Hostname k; "20575"] Env data);
  match response with
  | Succeeded output => ok output
  | ExitError msg stderr =>
      if bool_decide (0 < len stderr)
      then fail (ErrorString (msg +:+ newline +:+ "--- knc stderr start ---" +:+ newline +:+ stderr +:+
                              newline +:+ "--- knc stderr end ---" +:+ newline))
      else fail (ForeignError msg)
  | NotStarted err => fail err
  end.

Definition knc_SendRequests (k : KncServer) : RequestTarget X :=
  mkTarget (λ reqs,
    let raw_reqs := marshal_requests reqs in
    raw_resps ←[λ e, wrap e "while performing request"] kncRequest k raw_reqs;
    if bool_decide (len raw_resps = 0)
    then fail (errors_New "empty response, likely because the server does not recognize your Kerberos identity")
    else
      match Unmarshal_strings raw_resps with
      | Err err => fail (wrap err ("while unpacking json ('" +:+ raw_reqs +:+ "' -> '" +:+ raw_resps +:+ "')"))
      | Ok resps =>
          if bool_decide (length resps ≠ length reqs) then fail (errors_New "wrong number of results")
          else ok resps
      end).
End knc.

(** ** server/api.go, server/apiauth.go *)

Section server.
Context `{PkgErrors} `{Crypto}.

(** A [Keyserver] is its endpoint. *)
Definition NewKeyserver (authority hostname : string) : result ServerEndpoint :=
  match LoadX509CertFromPEM authority with
  | Err err => Err (wrap err "while parsing authority certificate")
  | Ok cert => NewServerEndpoint ("https://" +:+ hostname +:+ "/") [cert]
  end.

Context {X : Type} `{!Network X}.
Abbreviation MW := (M (World X)).

Definition GetStatic (k : ServerEndpoint) (staticname : string) : MW (result string) :=
  if bool_decide (staticname = "") then fail (errors_New "static filename is empty")
  else endpoint_Get k ("/static/" +:+ staticname).
Definition GetPubkey (k : ServerEndpoint) (authorityname : string) : MW (result string) :=
  if bool_decide (authorityname = "") then fail (errors_New "authority name is empty")
  else endpoint_Get k ("/pub/" +:+ authorityname).

Definition authenticated (endpoint : ServerEndpoint) : RequestTarget X :=
  mkTarget (λ reqs,
    outputs ←? PostJSON endpoint "/apirequest" (marshal_requests reqs) Unmarshal_strings;
    if bool_decide (length outputs ≠ length reqs)
    then fail (errors_New "while finalizing response: wrong number of responses")
    else ok outputs).

Definition AuthenticateWithToken (k : ServerEndpoint) (token : string) : result (RequestTarget X) :=
  if bool_decide (token = "") then Err (errors_New "invalid token")
  else Ok (authenticated (WithHeader k "X-Bootstrap-Token" token)).
Definition AuthenticateWithCert (k : ServerEndpoint) (cert : tls_Certificate) : result (RequestTarget X) :=
  Ok (authenticated (WithCertificate k cert)).
Definition AuthenticateWithKerberosTicketsInCache (k : ServerEndpoint) (ticketcache : string)
    : result (RequestTarget X) :=
  match url_Hostname (BaseURL k) with
  | Err err => Err err
  | Ok host => Ok (knc_SendRequests (mkKnc host ticketcache))
  end.
Definition AuthenticateWithKerberosTickets (k : ServerEndpoint) : result (RequestTarget X) :=
  AuthenticateWithKerberosTicketsInCache k "".
End server.

(** ** api/config.go *)

Section config.
Context `{PkgErrors} `{Crypto} {X : Type} `{!Network X}.
Abbreviation MW := (M (World X)).

Definition LoadDefaultKeyserver : MW (result ServerEndpoint) :=
  authoritydata ←[λ e, wrap e "while loading authority"] ReadFile KeyserverTLSCert;
  keyserver ←[λ e, wrap e "while determining keyserver"] GetKeyserver;
  mret (NewKeyserver authoritydata keyserver).

Definition LoadDefaultKeyserverWithCert : MW (result (ServerEndpoint * RequestTarget X)) :=
  k ←? LoadDefaultKeyserver;
  keypair ←[λ e, wrap e "while loading keypair"] tls_LoadX509KeyPair GrantingCertPath GrantingKeyPath;
  match AuthenticateWithCert k keypair with
  | Err err => fail (wrap err "while preparing authentication")
  | Ok rt => ok (k, rt)
  end.
End config.

(** ** Frames: a call of the server does to the world what its exchange does *)

Section frames.
Context `{PkgErrors} `{Crypto} {X : Type} `{!Network X}.

Section keeps.
Context (R : relation (World X)) `{!PreOrder R} (Hdo : ∀ cl rq, keeps R (client_Do cl rq)).

Lemma endpoint_Request_keeps s p m b : keeps R (endpoint_Request s p m b).
Proof using All. unfold endpoint_Request. os_frame. Qed.
Lemma GetStatic_keeps k n : keeps R (GetStatic k n).
Proof using All. unfold GetStatic, endpoint_Get. os_frame; apply endpoint_Request_keeps. Qed.
Lemma GetPubkey_keeps k n : keeps R (GetPubkey k n).
Proof using All. unfold GetPubkey, endpoint_Get. os_frame; apply endpoint_Request_keeps. Qed.
Lemma authenticated_keeps e reqs : keeps R (SendRequests (authenticated e) reqs).
Proof using All. simpl. unfold PostJSON. os_frame; apply endpoint_Request_keeps. Qed.
End keeps.

Section returns.
Context (Hdo : ∀ cl rq, returns (client_Do (X:=X) cl rq)).

Lemma endpoint_Request_returns s p m b :
  is_Some (client s) → returns (endpoint_Request s (String "/" p) m b).
Proof using All.
  intros [cl Hcl]. unfold endpoint_Request. rewrite Hcl. cbn [byte_at]. apply returns_bind; [by intros w; eexists|].
  intros c. case_bool_decide; [apply returns_ret|]. rewrite slice_Return by (rewrite ?len_cons; pose proof (len_nonneg p); lia).
  apply returns_bind; [by intros w; eexists|]. os_frame.
Qed.
Lemma GetStatic_returns k n : is_Some (client k) → returns (GetStatic k n).
Proof using All. intros. unfold GetStatic, endpoint_Get. os_frame; by apply endpoint_Request_returns. Qed.
Lemma GetPubkey_returns k n : is_Some (client k) → returns (GetPubkey k n).
Proof using All. intros. unfold GetPubkey, endpoint_Get. os_frame; by apply endpoint_Request_returns. Qed.
Lemma authenticated_returns e reqs : is_Some (client e) → returns (SendRequests (authenticated e) reqs).
Proof using All. intros. simpl. unfold PostJSON. os_frame; by apply endpoint_Request_returns. Qed.
End returns.

Lemma SendRequest_keeps (R : relation (World X)) `{!PreOrder R} (rt : RequestTarget X) api body :
  (∀ reqs, keeps R (SendRequests rt reqs)) → keeps R (SendRequest rt api body).
Proof. intros. unfold SendRequest. os_frame. Qed.
Lemma SendRequest_returns (rt : RequestTarget X) api body :
  (∀ reqs, returns (SendRequests rt reqs)) → returns (SendRequest rt api body).
Proof. intros. unfold SendRequest. os_frame. Qed.
End frames.

(** ** What every target promises *)

(** Each request of a successful call has exactly one answer. *)
Class Counted {X} (rt : RequestTarget X) : Prop :=
  counted reqs w strs w' : SendRequests rt reqs w = (Return (Ok strs), w') → length strs = length reqs.

Section counted.
Context `{PkgErrors} `{Crypto} {X : Type} `{!Network X}.

#[export] Instance authenticated_counted e : Counted (authenticated (X:=X) e).
Proof.
  intros reqs w strs w'. simpl. intros (outs & w1 & _ & Hr)%try_bind_Ok_inv.
  case_bool_decide as Hl; [done|]. injection Hr as <- _. by destruct (decide (length outs = length reqs)).
Qed.
#[export] Instance knc_counted k : Counted (knc_SendRequests (X:=X) k).
Proof.
  intros reqs w strs w'. simpl. intros (raw & w1 & _ & Hr)%try_bind_with_Ok_inv.
  case_bool_decide; [done|]. destruct (Unmarshal_strings raw) as [resps|]; [|done].
  case_bool_decide as Hl; [done|]. injection Hr as <- _. by destruct (decide (length resps = length reqs)).
Qed.
#[export] Instance impersonated_counted (rt : RequestTarget X) api user : Counted (impersonatedTarget rt api user).
Proof.
  intros reqs w strs w'. simpl. intros (resps & w1 & _ & Hr)%try_bind_Ok_inv.
  case_bool_decide as Hl; [done|]. injection Hr as <- _. destruct resps; simpl in *; lia.
Qed.
End counted.

(** The targets that the program makes. *)
Inductive made_target `{PkgErrors} `{Crypto} {X} `{!Network X} : RequestTarget X → Prop :=
| made_authenticated e : made_target (authenticated e)
| made_knc k : made_target (knc_SendRequests k)
| made_impersonated rt api user : made_target rt → made_target (impersonatedTarget rt api user).

(** whatever the network or the Kerberos helper answers, a call of any target that
    the program makes gives an error or exactly one answer for each request; so
    [SendRequest]'s own check of the count never fails on them. *)
Theorem SendRequests_counted `{PkgErrors} `{Crypto} {X} `{!Network X} (rt : RequestTarget X) :
  made_target rt →
  (∀ reqs w strs w', SendRequests rt reqs w = (Return (Ok strs), w') → length strs = length reqs) ∧
  (∀ api body w e w', SendRequest rt api body w = (Return (Err e), w') →
     SendRequests rt [mkReq api body] w = (Return (Err e), w')).
Proof.
  intros Hm. assert (Hc : Counted rt) by (destruct Hm; exact _). split; [exact Hc|].
  intros api body w e w'. unfold SendRequest, try_bind. intros (r & w1 & Hs & Hr)%bind_inv.
  destruct r as [strs|e1]; [|by injection Hr as -> ->].
  apply Hc in Hs. by destruct strs as [|? [|]].
Qed.

(** What an exchange means to the endpoint. *)
Definition answer_of `{PkgErrors} (exchange : outcome (result (Z * result string))) : outcome (result string) :=
  match exchange with
  | Return (Err e) => Return (Err (wrap e "while processing request"))
  | Return (Ok (code, data)) =>
      Return (if code =? 200
              then match data with Ok data => Ok data | Err e => Err (wrap e "while receiving response") end
              else if code =? 403 then Err OperationForbidden
              else Err (ErrorString ("unexpected status code: " +:+ FormatInt code)))
  | Panic why => Panic why
  | Exit code => Exit code
  end.

Lemma endpoint_Request_run `{PkgErrors} {X} `{!Network X} s cl path method body (w : World X) :
  client s = Some cl →
  endpoint_Request s ("/" +:+ path) method body w =
    match url_Hostname (baseURL s +:+ path) with
    | Err e => (Return (Err (wrap e "while preparing request")), w)
    | Ok _ =>
        let exchange := client_Do cl (add_headers (extraHeaders s) (mkClientRequest method (baseURL s +:+ path) ∅ body)) w in
        (answer_of exchange.1, exchange.2)
    end.
Proof.
  intros Hcl. unfold endpoint_Request. cbn [byte_at]. erewrite bind_Return by reflexivity.
  rewrite bool_decide_false by (intros Hn; by apply Hn).
  assert (slice ("/" +:+ path) 1 (len ("/" +:+ path)) = Return path) as ->.
  { pose proof (len_nonneg path). change ("/" +:+ path) with (String "/" path). rewrite slice_Return; rewrite ?len_cons; [|lia..].
    cbn [drop_s]. replace (Z.to_nat _) with (String.length path) by (unfold len; lia). by rewrite take_all_s. }
  erewrite bind_Return by reflexivity. unfold http_NewRequest.
  destruct (url_Hostname (baseURL s +:+ path)) as [host|e]; [|done]. rewrite Hcl.
  unfold try_bind_with, mbind, M_bind. destruct (client_Do _ _ w) as [[[[code data]|e]|why|code] w']; simpl; [|done..].
  destruct (Z.eqb_spec code 200) as [->|H200]; [by destruct data|].
  rewrite bool_decide_true by done.
  destruct (Z.eqb_spec code 403) as [->|H403]; [done|]. by rewrite bool_decide_false.
Qed.

(** an endpoint does one exchange for a request and never panics on its own, whatever
    the path after the slash; a status 403 is the error [OperationForbidden], any
    other but 200 an error that names it, and an answer is the body of a 200. *)
Theorem endpoint_Request_spec `{PkgErrors} {X} `{!Network X} url cas s path method body (w : World X) :
  NewServerEndpoint url cas = Ok s →
  endpoint_Request s ("/" +:+ path) method body w =
    match url_Hostname (url +:+ path) with
    | Err e => (Return (Err (wrap e "while preparing request")), w)
    | Ok _ =>
        let exchange := client_Do (mkClient cas [] (30 * Second)) (mkClientRequest method (url +:+ path) ∅ body) w in
        (answer_of exchange.1, exchange.2)
    end.
Proof.
  unfold NewServerEndpoint. case_bool_decide; [done|]. destruct (negb _); [done|]. intros [= <-].
  rewrite (endpoint_Request_run _ (mkClient cas [] (30 * Second))) by done. done.
Qed.

(** ** A network for the examples *)

(** What was asked of it (URL and body), and what it answers next. *)
Record Net := mkNet { asked : list (string * string); answers : list (result (Z * result string)) }.
#[export] Instance sample_network : Network Net := {|
  url_Hostname u := Ok (nth 2 (Split u "/"%char) "");
  client_Do cl rq := λ w,
    (Return (default (Err (ForeignError "connection refused")) (head (answers (comp w)))),
     on_comp (λ n, mkNet (asked n ++ [(rq_URL rq, rq_Body rq)]) (tail (answers n))) w)
|}.

Definition sample_endpoint : ServerEndpoint :=
  buildClient (mkEndpoint [ca_cert] "https://ks:20557/" ∅ [] (30 * Second) None).
Example sample_endpoint_ok : NewServerEndpoint "https://ks:20557/" [ca_cert] = Ok sample_endpoint.
Proof. reflexivity. Qed.

(** A world whose network gives these answers. *)
Definition net_world (answers : list (result (Z * result string))) : World Net :=
  mkWorld (os_random 5) (mkNet [] answers).
Definition sample_target : RequestTarget Net := authenticated sample_endpoint.

Lemma SendRequests_counted_witness :
  ∃ w', SendRequests sample_target [mkReq "a" "1"; mkReq "b" "2"]
      (net_world [Ok (200, Ok (Marshal_strings ["x"; "y"]))]) = (Return (Ok ["x"; "y"]), w') ∧
    length ["x"; "y"] = length [mkReq "a" "1"; mkReq "b" "2"].
Proof.
  eexists. split; [vm_compute; reflexivity|].
  refine (proj1 (SendRequests_counted sample_target (made_authenticated _)) [mkReq "a" "1"; mkReq "b" "2"]
    (net_world [Ok (200, Ok (Marshal_strings ["x"; "y"]))]) _ _ _). vm_compute. reflexivity.
Defined.

Lemma endpoint_Request_spec_witness :
  endpoint_Request sample_endpoint ("/" +:+ "static/cluster.conf") "GET" "" (net_world [Ok (403, Ok "")])
  = (Return (Err OperationForbidden),
     mkWorld (os_random 5) (mkNet [("https://ks:20557/static/cluster.conf", "")] [])).
Proof.
  rewrite (endpoint_Request_spec "https://ks:20557/" [ca_cert] sample_endpoint "static/cluster.conf" "GET" ""
    (net_world [Ok (403, Ok "")]) eq_refl). vm_compute. reflexivity.
Defined.
