(* ===== verification/ClientServer.v ===== *)
(** * The client and the server together

    The client of [Api] over the network whose other end is the server of
    [KeyApi]: a remote call is a local run of the operations by the account that
    the server authenticated, and its errors are what the client turns the
    server's statuses into. *)

From S2P Require Import Prelude GoStrings GoNet GoOS GoErrors GoJSON GoCrypto CertUtil GoHTTP Authorities KsState Token Operation WorldConfig KeyApi Api Samples.
#[export] Set Default Goal Selector "!".

Section network.
Context `{PkgErrors} `{Crypto}.
(** The server, the address that the client has, and what the TLS handshake of its
    certificates comes to. *)
Context (k : ptr) (addr : string) (handshake : list tls_Certificate → option (list (list Certificate))).

(** The path of an URL without query and fragment. *)
Definition url_path (u : string) : string :=
  match SplitN u "/"%char 4 with
  | [_; _; _; p] => "/" +:+ p
  | _ => "/"
  end.
Definition server_request (cl : http_Client) (rq : http_ClientRequest) : Request :=
  mkRequest (rq_Method rq) (at_path (url_path (rq_URL rq))) addr (rq_Header rq)
    (handshake (client_Certificates cl)) (Ok (rq_Body rq)).
Definition fresh_response (w : World Mem) : World Mem := on_comp (with_response empty_response) w.

(** An exchange with the server; net/http recovers from a panic of a handler and
    drops the connection. *)
Definition in_process_Do (cl : http_Client) (rq : http_ClientRequest) : KS (result (Z * result string)) := λ w,
  match apiToHTTP k (server_request cl rq) (fresh_response w) with
  | (Return _, w') => (Return (Ok (default 200 (status (response (comp w'))), Ok (sent (response (comp w'))))), w')
  | (_, w') => (Return (Err (ForeignError "EOF")), w')
  end.
Definition in_process : Network Mem := {|
  url_Hostname u := Ok (nth 2 (Split u "/"%char) "");
  client_Do := in_process_Do
|}.

(** A request as the server reads it. *)
Definition request_map (r : reqtarget_Request) : gmap string string :=
  fields_map [("api", API r); ("body", req_Body r)].
Definition valid_request (r : reqtarget_Request) : bool := valid_utf8 (API r) && valid_utf8 (req_Body r).

Lemma Unmarshal_requests reqs :
  forallb valid_request reqs = true →
  Unmarshal_maps (marshal_requests reqs) = Ok (map request_map reqs).
Proof.
  intros Hv. apply (Unmarshal_Marshal_structs (λ r, [("api", API r); ("body", req_Body r)])); [done|].
  rewrite forallb_forall in *. intros r Hr. specialize (Hv r Hr). unfold valid_fields. simpl.
  unfold valid_request in Hv. rewrite andb_true_r. done.
Qed.

(** What the client makes of what the operations came to. *)
Definition client_view (res : result (list string)) : result (list string) :=
  match res with
  | Ok outs => Ok outs
  | Err (OperationForbiddenError _ _) => Err (wrap OperationForbidden "while posting request")
  | Err _ => Err (wrap (ErrorString "unexpected status code: 400") "while posting request")
  end.
End network.

(** A client's endpoint for a server at [host], with its credentials. *)
Definition endpoint_at (host : string) (cas : list Certificate) (headers : gmap string string)
    (certs : list tls_Certificate) : ServerEndpoint :=
  buildClient (mkEndpoint cas ("https://" +:+ host +:+ "/") headers certs (30 * Second) None).
(** The request that the endpoint posts, as it arrives. *)
Definition posted addr handshake (host : string) (cas : list Certificate) (headers : gmap string string)
    (certs : list tls_Certificate) (reqs : list reqtarget_Request) : Request :=
  mkRequest "POST" (at_path "/apirequest") addr
    (rq_Header (add_headers headers (mkClientRequest "POST" "" ∅ ""))) (handshake certs) (Ok (marshal_requests reqs)).

Lemma SplitN_app s t c n :
  has_char c s = false → SplitN (s +:+ String c t) c (S (S n)) = s :: SplitN t c (S n).
Proof.
  induction s as [|d s IH]; intros Hs.
  - rewrite app_empty_s. cbn. by rewrite bool_decide_true.
  - simpl in Hs. apply orb_false_iff in Hs as [Hd Hs].
    rewrite bool_decide_eq_false in Hd. rewrite app_cons_s. cbn.
    rewrite bool_decide_false by done. cbn in IH. by rewrite IH.
Qed.
Lemma url_path_at host rest :
  has_char "/" host = false → url_path ("https://" +:+ host +:+ "/" +:+ rest) = "/" +:+ rest.
Proof.
  intros Hh. unfold url_path. change ("https://" +:+ ?u) with ("https:" +:+ String "/" ("" +:+ String "/" u)).
  do 2 rewrite SplitN_app by done.
  change ("/" +:+ rest) with (String "/" rest). rewrite SplitN_app by done. by rewrite SplitN1.
Qed.

Section refinement.
Context `{PkgErrors} `{Crypto}.

(** The API handler, once the request is authenticated. *)
Lemma api_handler_authenticated k ks request body ops w a w1 res w2 :
  unanswered w → servers (comp w) !! k = Some ks → Body request = Ok body → Unmarshal_maps body = Ok ops →
  attemptAuthentication (ks_Context ks) request w = (Return (Ok a), w1) →
  invoke_operations a ops [] w1 = (Return res, w2) → faults (os w2) = [] →
  ∃ w', api_handler k request w = (Return tt, w') ∧
    match res with
    | Ok outs => response (comp w') = mkResponse (Some 200) "" (Marshal_strings outs)
    | Err (OperationForbiddenError _ _) => status (response (comp w')) = Some 403
    | Err _ => status (response (comp w')) = Some 400
    end.
Proof.
  intros Hw Hks Hbody Hops Hatt Hinv Hf.
  pose proof (attemptAuthentication_serving (ks_Context ks) request w) as Hs1. rewrite Hatt in Hs1.
  destruct Hs1 as (_ & _ & (_ & _ & _ & _ & Hr1) & _).
  pose proof (invoke_operations_serving a ops [] w1) as Hs2. rewrite Hinv in Hs2.
  destruct Hs2 as (_ & _ & (_ & _ & _ & _ & Hr2) & _). simpl in *.
  assert (Hw2 : unanswered w2) by (unfold unanswered in *; congruence).
  assert (Hhandle : HandleAPIRequest k request w =
    match res with Ok outs => writer_Write (Marshal_strings outs) w2 | Err e => (Return (Err e), w2) end).
  { unfold HandleAPIRequest. rewrite Hbody, (bind_Return _ _ _ _ _ (load_eq _ _ _ _ Hks)).
    rewrite (try_bind_Ok _ _ _ _ _ Hatt). unfold InvokeAPIOperationSet. rewrite Hops. destruct res as [outs|e].
    - erewrite try_bind_Ok; [reflexivity|]. by rewrite (try_bind_Ok _ _ _ _ _ Hinv).
    - apply try_bind_Err. by rewrite (try_bind_Err _ _ _ _ _ Hinv). }
  unfold api_handler. destruct res as [outs|e].
  - destruct (writer_Write_Ok (Marshal_strings outs) w2 Hw2 Hf) as (w' & Ew & Hresp & _).
    exists w'. rewrite Ew in Hhandle. by rewrite (bind_Return _ _ _ _ _ Hhandle).
  - rewrite (bind_Return _ _ _ _ _ Hhandle). erewrite bind_Return by reflexivity.
    assert (Herr : ∀ msg code, ∃ w', http_Error msg code (logging ("API request failed with error: " +:+ Error e) w2) = (Return tt, w') ∧
      status (response (comp w')) = Some code).
    { intros msg code. destruct (http_Error_returns (X:=Mem) msg code (logging ("API request failed with error: " +:+ Error e) w2)) as [[] Hr].
      destruct (http_Error msg code _) as [o w'] eqn:E. simpl in Hr. subst o. exists w'. split; [done|].
      apply http_Error_status in E. by rewrite E; simpl; rewrite Hw2. }
    destruct e; apply Herr.
Qed.

(** C4: a remote call is a local one. Sending requests to the server over HTTP runs, for the
    account that it authenticates, exactly these operations in order, and gives
    their results, or the error [OperationForbidden] when one was forbidden, or
    that of status 400 when one failed. *)
Theorem remote_operations k ks addr handshake host cas headers certs reqs w a w1 res w2 :
  servers (comp w) !! k = Some ks → has_char "/" host = false →
  forallb valid_request reqs = true →
  attemptAuthentication (ks_Context ks) (posted addr handshake host cas headers certs reqs) (fresh_response w)
    = (Return (Ok a), w1) →
  invoke_operations a (map request_map reqs) [] w1 = (Return res, w2) →
  faults (os w2) = [] → (∀ outs, res = Ok outs → forallb valid_utf8 outs = true) →
  ∃ w', SendRequests (authenticated (Network0 := in_process k addr handshake) (endpoint_at host cas headers certs)) reqs w
    = (Return (client_view res), w').
Proof.
  intros Hks Hhost Hreqs Hatt Hinv Hf Hout.
  set (req := posted addr handshake host cas headers certs reqs) in *.
  destruct (api_handler_authenticated k ks req (marshal_requests reqs) (map request_map reqs)
    (fresh_response w) a w1 res w2 eq_refl Hks eq_refl (Unmarshal_requests reqs Hreqs) Hatt Hinv Hf)
    as (w' & Eh & Hresp).
  assert (Hdo : in_process_Do k addr handshake (mkClient cas certs (30 * Second))
      (add_headers headers (mkClientRequest "POST" ("https://" +:+ host +:+ "/" +:+ "apirequest") ∅ (marshal_requests reqs))) w
    = (Return (Ok (default 200 (status (response (comp w'))), Ok (sent (response (comp w'))))), w')).
  { unfold in_process_Do, server_request, add_headers. cbn [rq_Method rq_URL rq_Header rq_Body client_Certificates].
    rewrite url_path_at by done. change (mkRequest _ _ _ _ _ _) with req.
    by rewrite (api_path k req (fresh_response w) eq_refl), Eh. }
  assert (Hcount : ∀ outs, res = Ok outs → length outs = length reqs).
  { intros outs ->. apply invoke_operations_run in Hinv as (tr & res0 & Hrun & Hres).
    destruct res0 as [l|]; [|done]. simpl in Hres. injection Hres as ->.
    apply ops_run_length in Hrun as [Hl _]. by rewrite Hl, length_map. }
  exists w'. unfold authenticated. cbn [SendRequests]. unfold PostJSON.
  change "/apirequest" with ("/" +:+ "apirequest").
  assert (Hpost : endpoint_Request (Network0 := in_process k addr handshake) (endpoint_at host cas headers certs)
      ("/" +:+ "apirequest") "POST" (marshal_requests reqs) w
    = (match res with
       | Ok outs => Return (Ok (Marshal_strings outs))
       | Err (OperationForbiddenError _ _) => Return (Err OperationForbidden)
       | Err _ => Return (Err (ErrorString "unexpected status code: 400"))
       end, w')).
  { rewrite (endpoint_Request_run _ (mkClient cas certs (30 * Second))) by done.
    cbn [url_Hostname in_process client_Do]. cbv zeta.
    change (baseURL (endpoint_at host cas headers certs)) with ("https://" +:+ host +:+ "/").
    rewrite <- !app_assoc_s. change (extraHeaders (endpoint_at host cas headers certs)) with headers. rewrite Hdo. simpl.
    destruct res as [outs|[]]; rewrite Hresp; done. }
  destruct res as [outs|e].
  - erewrite try_bind_Ok.
    2: { rewrite (try_bind_with_Ok _ _ _ _ _ _ Hpost). by rewrite (Unmarshal_Marshal_strings outs (Hout _ eq_refl)). }
    rewrite bool_decide_false by (rewrite (Hcount outs eq_refl); tauto). done.
  - destruct e; (erewrite try_bind_Err; [|exact (try_bind_with_Err (λ e, wrap e "while posting request") _ _ _ _ _ Hpost)]; reflexivity).
Qed.
End refinement.

(** ** A node asks the server *)

Definition worker_handshake (certs : list tls_Certificate) : option (list (list Certificate)) :=
  Some [[sample_cert node_key "w.ext" 0 100000000000]].
Definition worker_requests : list reqtarget_Request := [mkReq "get-local-config" ""; mkReq "get-local-config" ""].
Definition worker_posted : Request :=
  posted "10.0.0.3:999" worker_handshake "sup.ext:20557" [] ∅ [] worker_requests.
(** The server authenticates the worker and performs its requests. *)
Definition worker_served : bool :=
  match attemptAuthentication (ks_Context server_state) worker_posted (fresh_response server_world) with
  | (Return (Ok a), w1) =>
      match invoke_operations a (map request_map worker_requests) [] w1 with
      | (Return (Ok outs), w2) => match faults (os w2) with [] => forallb valid_utf8 outs | _ => false end
      | _ => false
      end
  | _ => false
  end.
Lemma worker_served_ok : worker_served = true.
Proof. vm_compute. reflexivity. Qed.

Lemma remote_operations_witness :
  ∃ outs w', SendRequests (authenticated (Network0 := in_process server "10.0.0.3:999" worker_handshake)
          (endpoint_at "sup.ext:20557" [] ∅ [])) worker_requests server_world = (Return (Ok outs), w').
Proof.
  pose proof worker_served_ok as Hs. unfold worker_served in Hs.
  destruct (attemptAuthentication _ _ _) as [[[a|]| |] w1] eqn:E1; [|discriminate Hs..].
  destruct (invoke_operations _ _ _ w1) as [[[outs|]| |] w2] eqn:E2; [|discriminate Hs..].
  destruct (faults (os w2)) eqn:E3; [|discriminate Hs].
  destruct (remote_operations server server_state "10.0.0.3:999" worker_handshake "sup.ext:20557" [] ∅ []
    worker_requests server_world a w1 (Ok outs) w2 server_state_eq eq_refl eq_refl E1 E2 E3) as [w' E].
  - intros outs' Ho. injection Ho as <-. exact Hs.
  - exists outs, w'. exact E.
Defined.
