(* ===== verification/GoTime.v ===== *)
(** * Durations, sleeping and the rest of the machine

    What the daemons use of package time beyond reading the clock, the host
    name, and the formatting and parsing of durations and of octal numbers. *)

From S2P Require Import Prelude GoStrings GoOS.
From Stdlib Require Import SpecFloat.
#[local] Open Scope Z_scope.
#[export] Set Default Goal Selector "!".

(** ** Formatting *)

(** The digits of a fraction of [prec] digits, without the zeros at its end, after a
    point unless there is none left: [fmtFrac] of package time. *)
Fixpoint frac_digits (prec : nat) (v : Z) (acc : string) : string :=
  match prec with
  | O => acc
  | S prec =>
      let d := v mod 10 in
      frac_digits prec (v / 10)
        (if bool_decide (acc = "" ∧ d = 0) then "" else FormatInt d +:+ acc)
  end.
Definition fmtFrac (v : Z) (prec : nat) : string :=
  let f := frac_digits prec v "" in
  FormatInt (v / 10 ^ Z.of_nat prec) +:+ (if bool_decide (f = "") then "" else "." +:+ f).

(** [Duration.String], of nanoseconds. *)
Definition Duration_String (d : Z) : string :=
  let u := Z.abs d in
  let body :=
    if bool_decide (u = 0) then "0s"
    else if bool_decide (u < 1000) then FormatInt u +:+ "ns"
    else if bool_decide (u < 1000000) then fmtFrac u 3 +:+ chs [194; 181; 115]%nat
    else if bool_decide (u < 1000000000) then fmtFrac u 6 +:+ "ms"
    else
      let s := u / 1000000000 in
      let secs := fmtFrac ((s mod 60) * 1000000000 + u mod 1000000000) 9 +:+ "s" in
      let m := s / 60 in
      if bool_decide (0 < m)
      then (if bool_decide (0 < m / 60) then FormatInt (m / 60) +:+ "h" else "") +:+
           FormatInt (m mod 60) +:+ "m" +:+ secs
      else secs in
  (if bool_decide (d < 0) then "-" else "") +:+ body.

(** [%o] of a number. *)
Fixpoint oct_digits (fuel : nat) (n : Z) : string :=
  match fuel with
  | O => ""
  | S fuel => (if bool_decide (n < 8) then "" else oct_digits fuel (n / 8)) +:+ FormatInt (n mod 8)
  end.
Definition FormatOct (n : Z) : string := oct_digits 22 n.

(** ** time.ParseDuration *)

Definition maxInt64 : Z := 9223372036854775807.

(** [leadingInt]: the digits at the start, and the rest. *)
Fixpoint leadingInt (x : Z) (s : string) : option (Z * string) :=
  match s with
  | String c s' =>
      match digit_value c with
      | None => Some (x, s)
      | Some d =>
          if bool_decide (maxInt64 / 10 < x) then None
          else if bool_decide (maxInt64 < x * 10 + d) then None else leadingInt (x * 10 + d) s'
      end
  | "" => Some (x, "")
  end.

(** Floating-point numbers of 64 bits, as [SpecFloat] computes them. *)
Definition float64 : Type := spec_float.
Definition float64_of (z : Z) : float64 := binary_normalize 53 1024 z 0 false.
Definition float_mul : float64 → float64 → float64 := SFmul 53 1024.
Definition float_div : float64 → float64 → float64 := SFdiv 53 1024.
(** The conversion to [int64], of numbers in its range. *)
Definition int64_of (f : float64) : Z :=
  match f with
  | S754_finite neg m e =>
      let n := if bool_decide (0 ≤ e) then Z.pos m * 2 ^ e else Z.pos m / 2 ^ (- e) in
      if neg then - n else n
  | _ => 0
  end.

(** [leadingFraction]: the digits that fit, the power of ten for them, and the rest. *)
Fixpoint leadingFraction (overflow : bool) (x : Z) (scale : float64) (s : string) : Z * float64 * string :=
  match s with
  | String c s' =>
      match digit_value c with
      | None => (x, scale, s)
      | Some d =>
          if overflow then leadingFraction true x scale s'
          else if bool_decide (maxInt64 / 10 < x) then leadingFraction true x scale s'
          else if bool_decide (maxInt64 < x * 10 + d) then leadingFraction true x scale s'
          else leadingFraction false (x * 10 + d) (float_mul scale (float64_of 10)) s'
      end
  | "" => (x, scale, "")
  end.

(** The unit: up to the next point or digit. *)
Fixpoint split_unit (s : string) : string * string :=
  match s with
  | String c s' =>
      if bool_decide (c = "."%char) || bool_decide (is_Some (digit_value c)) then ("", s)
      else let '(u, r) := split_unit s' in (String c u, r)
  | "" => ("", "")
  end.
Definition unitMap (u : string) : option Z :=
  snd <$> List.find (λ p, bool_decide (p.1 = u))
    [("ns", 1); ("us", 1000); (chs [194; 181; 115]%nat, 1000); (chs [206; 188; 115]%nat, 1000);
     ("ms", 1000000); ("s", 1000000000); ("m", 60000000000); ("h", 3600000000000)].

(** A round of the loop: a number and its unit. *)
Definition duration_part (s : string) : option (Z * string) :=
  match s with
  | "" => None
  | String c _ =>
      if negb (bool_decide (c = "."%char) || bool_decide (is_Some (digit_value c))) then None
      else
        '(v, s1) ← leadingInt 0 s;
        let pre := negb (bool_decide (len s1 = len s)) in
        let '(f, scale, s2, post) :=
          match s1 with
          | String c s1' =>
              if bool_decide (c = "."%char) then
                let '(f, scale, s2) := leadingFraction false 0 (float64_of 1) s1' in
                (f, scale, s2, negb (bool_decide (len s2 = len s1')))
              else (0, float64_of 1, s1, false)
          | "" => (0, float64_of 1, s1, false)
          end in
        if negb pre && negb post then None
        else
          let '(u, s3) := split_unit s2 in
          if bool_decide (u = "") then None
          else
            unit ← unitMap u;
            if bool_decide (maxInt64 / unit < v) then None
            else
              let v := v * unit in
              let v := if bool_decide (0 < f)
                       then v + int64_of (float_mul (float64_of f) (float_div (float64_of unit) scale)) else v in
              if bool_decide (maxInt64 < v) then None else Some (v, s3)
  end.
Fixpoint duration_parts (fuel : nat) (d : Z) (s : string) : option Z :=
  match fuel with
  | O => None
  | S fuel =>
      if bool_decide (s = "") then Some d
      else
        '(v, s) ← duration_part s;
        if bool_decide (maxInt64 < d + v) then None else duration_parts fuel (d + v) s
  end.
Definition ParseDuration (orig : string) : result Z :=
  let '(neg, s) :=
    match orig with
    | String c s => if bool_decide (c = "-"%char) then (true, s)
                    else if bool_decide (c = "+"%char) then (false, s) else (false, orig)
    | "" => (false, "")
    end in
  if bool_decide (s = "0") then Ok 0
  else
    match (if bool_decide (s = "") then None else duration_parts (S (String.length s)) 0 s) with
    | Some d => Ok (if neg then - d else d)
    | None => Err (StdError "time: invalid duration")
    end.

Example ParseDuration_ex1 : ParseDuration "1h30m" = Ok 5400000000000.
Proof. vm_compute. reflexivity. Qed.
Example ParseDuration_ex2 : ParseDuration "-1.5h" = Ok (-5400000000000).
Proof. vm_compute. reflexivity. Qed.
Example ParseDuration_ex3 : ParseDuration "2.3s" = Ok 2300000000 ∧ ParseDuration "0.830103483285477580700h" = Ok 2988372539827.
Proof. vm_compute. done. Qed.
Example ParseDuration_ex4 : is_ok (ParseDuration "2562047h47m16.854775808s") = false ∧
  ParseDuration "2562047h47m16.854775807s" = Ok maxInt64 ∧ is_ok (ParseDuration "3") = false ∧
  is_ok (ParseDuration "") = false ∧ is_ok (ParseDuration ".s") = false.
Proof. vm_compute. done. Qed.

Example duration_ex1 : Duration_String (24 * 3600 * 1000000000) = "24h0m0s".
Proof. vm_compute. reflexivity. Qed.
Example duration_ex2 : Duration_String 90500000000 = "1m30.5s".
Proof. vm_compute. reflexivity. Qed.
Example duration_ex3 : Duration_String (-1500000) = "-1.5ms".
Proof. vm_compute. reflexivity. Qed.
Example oct_ex : FormatOct 420 = "644".
Proof. vm_compute. reflexivity. Qed.

(** ** The machine *)

Section ops.
Context {X : Type}.
Abbreviation MW := (M (World X)).

(** [time.Sleep]: at least as long as asked; what it takes longer is in the next tick. *)
Definition time_Sleep (d : Z) : MW unit :=
  modify (on_os (λ o, with_clock (now o + Z.max 0 d) (ticks o) o)).

(** [os.Hostname] *)
Definition os_Hostname : MW (result string) := syscall (h ← gets (λ w, host_name (os w)); ok h).

(** [filepath.Abs]: the daemons run in the root directory, as systemd starts them. *)
Definition Abs (p : string) : MW (result string) :=
  if HasPrefix p "/" then ok (filepath_Abs "/" p) else syscall (ok (filepath_Abs "/" p)).
End ops.

Section frames.
Context {X : Type}.
Lemma time_Sleep_os_only d : keeps os_only (@time_Sleep X d).
Proof. done. Qed.
Lemma time_Sleep_later d : keeps later (@time_Sleep X d).
Proof. intros w. unfold later. simpl. lia. Qed.
Lemma time_Sleep_fs d : keeps same_fs (@time_Sleep X d).
Proof. done. Qed.
Lemma time_Sleep_returns d : returns (@time_Sleep X d).
Proof. intros w. by eexists. Qed.
Lemma os_Hostname_os_only : keeps os_only (@os_Hostname X).
Proof. unfold os_Hostname. os_frame. Qed.
Lemma os_Hostname_later : keeps later (@os_Hostname X).
Proof. unfold os_Hostname. os_frame. Qed.
Lemma os_Hostname_fs : keeps same_fs (@os_Hostname X).
Proof. unfold os_Hostname. os_frame. Qed.
Lemma os_Hostname_returns : returns (@os_Hostname X).
Proof. unfold os_Hostname. os_frame. Qed.
Lemma Abs_os_only p : keeps os_only (@Abs X p).
Proof. unfold Abs. os_frame. Qed.
Lemma Abs_later p : keeps later (@Abs X p).
Proof. unfold Abs. os_frame. Qed.
Lemma Abs_fs p : keeps same_fs (@Abs X p).
Proof. unfold Abs. os_frame. Qed.
Lemma Abs_returns p : returns (@Abs X p).
Proof. unfold Abs. os_frame. Qed.
End frames.

#[export] Hint Resolve time_Sleep_os_only time_Sleep_later time_Sleep_fs time_Sleep_returns
  os_Hostname_os_only os_Hostname_later os_Hostname_fs os_Hostname_returns
  Abs_os_only Abs_later Abs_fs Abs_returns : go.

(** ** Reading the clock *)

(** The latest time that a reading may give before the next sleep, for the ticks that are
    still to come. *)
Definition total_ticks (l : list N) : Z := foldr (λ t acc, Z.of_N t + acc) 0 l.
Definition horizon {X} (w : World X) : Z := now (os w) + total_ticks (ticks (os w)).

(** Nothing happened but that the clock was read. *)
Definition passes {X} (w w' : World X) : Prop :=
  ∃ n t, w' = on_os (with_clock n t) w ∧ now (os w) ≤ n ∧ n + total_ticks t = horizon w.

Section clock.
Context {X : Type}.
Implicit Types w : World X.

Lemma total_ticks_nonneg l : 0 ≤ total_ticks l.
Proof. induction l; simpl; lia. Qed.

Lemma passes_refl w : passes w w.
Proof. exists (now (os w)), (ticks (os w)). by destruct w as [[] ?]. Qed.
Lemma passes_trans w1 w2 w3 : passes w1 w2 → passes w2 w3 → passes w1 w3.
Proof.
  intros (n & t & -> & Hn & Ht) (n' & t' & -> & Hn' & Ht'). exists n', t'. simpl in *.
  split_and!; [done|lia|]. rewrite Ht'. unfold horizon. simpl. done.
Qed.
#[export] Instance passes_preorder : PreOrder (@passes X).
Proof. split; [exact passes_refl|exact passes_trans]. Qed.
Lemma passes_inv w w' :
  passes w w' → comp w' = comp w ∧ fs (os w') = fs (os w) ∧ faults (os w') = faults (os w) ∧
    host_name (os w') = host_name (os w) ∧ now (os w) ≤ now (os w') ∧ horizon w' = horizon w.
Proof. intros (n & t & -> & Hn & Ht). split_and!; simpl; done. Qed.

Lemma time_Now_passes w :
  ∃ t w', time_Now w = (Return t, w') ∧ passes w w' ∧ now (os w) ≤ t ≤ horizon w.
Proof.
  unfold time_Now. do 2 eexists. split; [done|]. unfold horizon, passes.
  pose proof (total_ticks_nonneg (tail (ticks (os w)))).
  assert (Ht : total_ticks (ticks (os w)) =
    Z.of_N (default 0%N (head (ticks (os w)))) + total_ticks (tail (ticks (os w)))) by (by destruct (ticks (os w))).
  split; [|lia]. do 2 eexists. split; [done|]. unfold horizon. lia.
Qed.
End clock.
