(* ===== verification/GoTemp.v ===== *)
(** * Temporary files, and deferred calls

    [ioutil.TempFile], over a parameter for the random names that it tries; [defer]. *)

From S2P Require Import Prelude GoStrings GoOS FileUtil GoCodec.
#[local] Open Scope Z_scope.
#[export] Set Default Goal Selector "!".

(** A call deferred until [m] is done, which is made even when [m] panics. *)
Definition defer {S A B} (m : M S A) (cleanup : M S B) : M S (A * B) := λ s,
  match m s with
  | (Return a, s') => (b ← cleanup; mret (a, b)) s'
  | (Panic why, s') => (_ ← cleanup; panic why) s'
  | (Exit c, s') => (Exit c, s')
  end.

(** The same, for a call that may not be over yet ([None]): what it deferred is not made then. *)
Definition defer_ended {S A B} (m : M S (option A)) (cleanup : M S B) : M S (option (A * B)) := λ s,
  match m s with
  | (Return (Some a), s') => (b ← cleanup; mret (Some (a, b))) s'
  | (Return None, s') => (Return None, s')
  | (Panic why, s') => (_ ← cleanup; panic why) s'
  | (Exit c, s') => (Exit c, s')
  end.

Section deferred.
Context {S : Type}.
Lemma defer_ended_inv {A B} (m : M S (option A)) (cleanup : M S B) s p s' :
  defer_ended m cleanup s = (Return (Some p), s') →
  ∃ s1, m s = (Return (Some p.1), s1) ∧ cleanup s1 = (Return p.2, s').
Proof.
  unfold defer_ended. destruct (m s) as [[[a|]|?|?] s1]; [|done|intros (? & ? & _ & ?)%bind_inv; done|done].
  intros (b & s2 & Ec & H)%bind_inv. injection H as <- <-. by exists s1.
Qed.
Lemma defer_ended_None {A B} (m : M S (option A)) (cleanup : M S B) s s' :
  defer_ended m cleanup s = (Return None, s') ↔ m s = (Return None, s').
Proof.
  unfold defer_ended. destruct (m s) as [[[a|]|?|?] s1]; [|split; by intros [= ->]|split; [intros (? & ? & _ & ?)%bind_inv; done|done]|split; done].
  split; [|done]. by intros (b & s2 & _ & H)%bind_inv.
Qed.
Lemma defer_inv {A B} (m : M S A) (cleanup : M S B) s p s' :
  defer m cleanup s = (Return p, s') →
  ∃ s1, m s = (Return p.1, s1) ∧ cleanup s1 = (Return p.2, s').
Proof.
  unfold defer. destruct (m s) as [[a|?|?] s1]; [|intros (? & ? & _ & ?)%bind_inv; done|done].
  intros (b & s2 & Ec & H)%bind_inv. injection H as <- <-. by exists s1.
Qed.
Lemma keeps_defer {A B} (R : relation S) `{!PreOrder R} (m : M S A) (cleanup : M S B) :
  keeps R m → keeps R cleanup → keeps R (defer m cleanup).
Proof.
  intros Hm Hc s. unfold defer. specialize (Hm s). destruct (m s) as [[a|?|?] s1]; simpl in *; [..|done];
    (etrans; [exact Hm|]); specialize (Hc s1); unfold mbind, M_bind; by destruct (cleanup s1) as [[b|?|?] s2].
Qed.
End deferred.

(** The generator of the names: nine digits, from what it has of the time and of the process. *)
Class TempNames (X : Type) := {
  nextRandom : M (World X) string;
  nextRandom_returns : returns nextRandom;
  nextRandom_os_only : keeps os_only nextRandom;
  nextRandom_later : keeps later nextRandom;
  nextRandom_fs : keeps same_fs nextRandom;
  nextRandom_commands : keeps same_commands nextRandom
}.
#[export] Hint Resolve nextRandom_returns nextRandom_os_only nextRandom_later nextRandom_fs nextRandom_commands : go.

Section temp.
Context {X : Type} {names : TempNames X}.
Abbreviation MW := (M (World X)).

Definition TempDir : MW string :=
  d ← os_Getenv "TMPDIR";
  mret (if bool_decide (d = "") then "/tmp" else d).

(** [os.IsExist], of the error of opening a file that was [taken]. *)
Definition exists_error (taken : option node) (name : string) (err : error) : bool :=
  match taken, err with
  | Some _, PathError op p false => bool_decide (op = "open" ∧ p = name)
  | _, _ => false
  end.
(** Names are tried as long as there is such a file. The error of the last one is given up with. *)
Fixpoint try_names (tries : nat) (last : error) (dir prefix : string) : MW (result string) :=
  match tries with
  | O => fail last
  | S tries =>
      s ← nextRandom;
      let name := path_Join [dir; prefix +:+ s] in
      taken ← lookup_node name;
      r ← open_for_write true name 384;
      match r with
      | Ok _ => ok name
      | Err err => if exists_error taken name err then try_names tries err dir prefix else fail err
      end
  end.
(** [ioutil.TempFile] in the default directory: the name of the file, which is open and empty. *)
Definition TempFile (prefix : string) : MW (result string) :=
  dir ← TempDir;
  try_names 10000 (StdError "no name tried") dir prefix.
End temp.

(** ** Frames *)

Section frames.
Context {X : Type} {names : TempNames X}.
Implicit Types w : World X.

Lemma try_names_os_only n e d p : keeps os_only (try_names (X:=X) n e d p).
Proof. revert e. induction n as [|n IH]; intros e; simpl; os_frame. Qed.
Lemma try_names_later n e d p : keeps later (try_names (X:=X) n e d p).
Proof. revert e. induction n as [|n IH]; intros e; simpl; os_frame. Qed.
Lemma try_names_returns n e d p : returns (try_names (X:=X) n e d p).
Proof. revert e. induction n as [|n IH]; intros e; simpl; os_frame. Qed.
Lemma TempFile_os_only p : keeps os_only (TempFile (X:=X) p).
Proof. unfold TempFile, TempDir. pose proof try_names_os_only. os_frame. Qed.
Lemma TempFile_later p : keeps later (TempFile (X:=X) p).
Proof. unfold TempFile, TempDir. pose proof try_names_later. os_frame. Qed.
Lemma TempFile_returns p : returns (TempFile (X:=X) p).
Proof. unfold TempFile, TempDir. pose proof try_names_returns. os_frame. Qed.
Lemma try_names_commands n e d p : keeps same_commands (try_names (X:=X) n e d p).
Proof. revert e. induction n as [|n IH]; intros e; simpl; os_frame. Qed.
Lemma TempFile_commands p : keeps same_commands (TempFile (X:=X) p).
Proof. unfold TempFile, TempDir. pose proof try_names_commands. os_frame. Qed.

(** The file is a new one, and the only change; when there is none, nothing changed. *)
Lemma open_excl_fails p m w e w' : open_for_write true p m w = (Return (Err e), w') → fs (os w') = fs (os w).
Proof.
  unfold open_for_write, syscall. intros (f & w1 & E & H)%bind_inv. injection E as <- <-.
  destruct (mjoin _); [by injection H as _ <-|]. unfold lookup_node, mbind, M_bind, gets, mret, M_ret, set_node, modify in H.
  simpl in H. fold (node_at w p) (node_at w (path_Dir p)) in H.
  destruct (node_at w p) as [[]|]; [by injection H as _ <-..|].
  destruct (node_at w (path_Dir p)) as [[]|]; [by injection H as _ <-|done|by injection H as _ <-].
Qed.
Lemma try_names_inv n : ∀ e d p w r w', try_names n e d p w = (Return r, w') →
  match r with
  | Ok name => node_at w name = None ∧ ∃ t, fs (os w') = <[path_Clean name := File "" 384 t]> (fs (os w))
  | Err _ => fs (os w') = fs (os w)
  end.
Proof.
  induction n as [|n IH]; intros e d p w r w'; simpl; [by intros [= <- <-]|].
  intros (s & w1 & Es & H)%bind_inv. pose proof (nextRandom_fs w) as Hf. rewrite Es in Hf. unfold same_fs, same in Hf. simpl in Hf.
  apply bind_inv in H as (taken & w2 & Et & H). injection Et as _ <-. apply bind_inv in H as (o & w2 & Eo & H).
  set (name := path_Join [d; p +:+ s]) in *.
  destruct o as [u|err].
  - injection H as <- <-. apply open_new_Ok in Eo as (Hn & _ & ->). unfold node_at in *. rewrite Hf. eauto.
  - apply open_excl_fails in Eo. destruct (exists_error _ _ _).
    + apply IH in H. destruct r as [name'|]; [|congruence]. destruct H as [Hn [t Ht]]. unfold node_at in *.
      rewrite Hf, <- Eo. eauto.
    + injection H as <- <-. congruence.
Qed.
Lemma TempFile_inv p w r w' : TempFile p w = (Return r, w') →
  match r with
  | Ok name => node_at w name = None ∧ ∃ t, fs (os w') = <[path_Clean name := File "" 384 t]> (fs (os w))
  | Err _ => fs (os w') = fs (os w)
  end.
Proof.
  unfold TempFile, TempDir. intros (d & w1 & E & H)%bind_inv.
  apply bind_inv in E as (v & w2 & E1 & E2). injection E1 as _ <-. injection E2 as _ <-. by eapply try_names_inv.
Qed.
End frames.
#[export] Hint Resolve TempFile_os_only TempFile_later TempFile_returns TempFile_commands : go.
