(* ===== verification/KeyClient.v ===== *)
(** * The key client: keyclient/state and keyclient/actions

    The daemon that keeps a node's keys, certificates and configuration files up
    to date: its state, and its five kinds of action. The network and the rest
    of the world are a parameter [N]. *)

From S2P Require Import Prelude GoStrings GoNet GoOS FileUtil Paths GoErrors GoCodec GoJSON GoCrypto CertUtil GoTime Api Samples.
#[export] Set Default Goal Selector "!".

(** ** state/state.go and the context of actloop/actloop.go *)

(** The client's memory: [ClientState], and the [NewActionContext] of the current
    cycle. *)
Record Client (N : Type) := mkClientMem {
  cs_Keyserver : ServerEndpoint;
  Keygrant : option tls_Certificate;
  RetryAt : gmap string Z;
  BlockedBy : list error;
  Performed : bool;
  outside : N
}.
Arguments mkClientMem {_} _ _ _ _ _ _.
Arguments cs_Keyserver {_} _.
Arguments Keygrant {_} _.
Arguments RetryAt {_} _.
Arguments BlockedBy {_} _.
Arguments Performed {_} _.
Arguments outside {_} _.

Section setters.
Context {N : Type}.
Definition with_Keygrant k (c : Client N) : Client N :=
  mkClientMem (cs_Keyserver c) k (RetryAt c) (BlockedBy c) (Performed c) (outside c).
Definition with_RetryAt r (c : Client N) : Client N :=
  mkClientMem (cs_Keyserver c) (Keygrant c) r (BlockedBy c) (Performed c) (outside c).
Definition with_BlockedBy b (c : Client N) : Client N :=
  mkClientMem (cs_Keyserver c) (Keygrant c) (RetryAt c) b (Performed c) (outside c).
Definition with_Performed p (c : Client N) : Client N :=
  mkClientMem (cs_Keyserver c) (Keygrant c) (RetryAt c) (BlockedBy c) p (outside c).
Definition with_outside n (c : Client N) : Client N :=
  mkClientMem (cs_Keyserver c) (Keygrant c) (RetryAt c) (BlockedBy c) (Performed c) n.
End setters.

(** A computation of the world outside, run by the client. *)
Definition zoom {N A} (m : M (World N) A) : M (World (Client N)) A := λ w,
  let '(r, w') := m (mkWorld (os w) (outside (comp w))) in
  (r, mkWorld (os w') (with_outside (comp w') (comp w))).
#[export] Instance client_network {N} `{!Network N} : Network (Client N) := {|
  url_Hostname := url_Hostname;
  client_Do cl rq := zoom (client_Do cl rq)
|}.

(** What the client's machine may expect of the network: it does not touch its
    files, time goes on, and net/http answers or gives an error. *)
Class LocalNetwork (N : Type) `{!Network N} : Prop := {
  network_fs cl rq : keeps same_fs (client_Do (X:=N) cl rq);
  network_later cl rq : keeps later (client_Do (X:=N) cl rq);
  network_returns cl rq : returns (client_Do (X:=N) cl rq)
}.

Section state.
Context `{PkgErrors} `{Crypto} {N : Type} `{!Network N}.
Abbreviation MC := (M (World (Client N))).

Definition RetryAfter : Z := 12 * (3600 * Second).
Definition RetryFailed (api : string) : MC unit :=
  t ← time_Now;
  modify (on_comp (λ c, with_RetryAt (<[api := t + RetryAfter]> (RetryAt c)) c)).
Definition CanRetry (api : string) : MC bool :=
  r ← gets (λ w, RetryAt (comp w) !! api);
  match r with
  | None => mret true
  | Some retryAt => t ← time_Now; mret (retryAt <? t)
  end.

Definition ReloadKeygrantingCert : MC (result unit) :=
  k ← Exists GrantingKeyPath;
  c ← (if (k : bool) then Exists GrantingCertPath else mret false);
  if (c : bool) then
    cert ←[λ e, wrap e "failed to reload keygranting certificate"]
      tls_LoadX509KeyPair GrantingCertPath GrantingKeyPath;
    _ ← modify (on_comp (with_Keygrant (Some cert))); ok tt
  else fail (errors_New "no keygranting certificate found").

Definition ReplaceKeygrantingCert (data : string) : MC (result unit) :=
  EnsureIsFolder (path_Dir GrantingCertPath) ;?
  WriteFile GrantingCertPath data 420 ;?
  _ ←[λ e, wrap e "expected properly loaded keygrant certificate"] ReloadKeygrantingCert;
  ok tt.

(** ** actloop/actloop.go: the context of an action *)

Definition Errored (info : string) (err : error) : MC unit :=
  log_Print ("action stop error: " +:+ Error err +:+ " (in " +:+ info +:+ ")").
Definition Blocked (err : error) : MC unit :=
  modify (on_comp (λ c, with_BlockedBy (BlockedBy c ++ [err]) c)).
Definition NotifyPerformed (info : string) : MC unit :=
  _ ← log_Print ("action performed: " +:+ info);
  modify (on_comp (with_Performed true)).

(** ** actions/keygen *)

Definition DefaultRSAKeyLength : Z := 4096.

Definition keygen (keypath : string) : MC (result unit) :=
  let dirname := path_Dir keypath in
  _ ←[λ e, wrap e ("failed to prepare directory " +:+ dirname +:+ " for generated key")] EnsureIsFolder dirname;
  key ←[λ e, wrap e ("failed to generate " +:+ FormatInt DefaultRSAKeyLength +:+ "-bit RSA key for " +:+ keypath)]
    GenerateRSA DefaultRSAKeyLength;
  _ ←[λ e, wrap e "failed to create file for generated key"] CreateFile keypath key.2 384;
  ok tt.

Definition GenerateKey (keypath : string) : MC unit :=
  e ← Exists keypath;
  if (e : bool) then mret tt
  else
    let info := "generate key " +:+ keypath in
    err ← keygen keypath;
    match err with Err err => Errored info err | Ok _ => NotifyPerformed info end.

(** ** actions/bootstrap *)

(** The loop over the runes of the token: the character that is refused. *)
Fixpoint bad_character (token : string) : option string :=
  match token with
  | "" => None
  | String c rest =>
      if byte_val c <? 128
      then if (32 <? byte_val c) && (byte_val c <? 127) then bad_character rest else Some (String c "")
      else Some (rune_value replacement c rest).1
  end.

Definition getToken : MC (result string) :=
  contents ←? ReadFile BootstrapTokenPath;
  let token := TrimSpace contents in
  if bool_decide (len token = 0) then fail (errors_New "blank token found")
  else
    match bad_character token with
    | Some c => fail (ErrorString ("invalid token found: bad character '" +:+ c +:+ "'"))
    | None => ok token
    end.

Definition buildCSR : MC (result string) :=
  privkey ←? ReadFile GrantingKeyPath;
  BuildTLSCSR privkey.

Definition is_forbidden (e : error) : bool := match e with OperationForbidden => true | _ => false end.

Definition sendRequest (api param : string) : MC (result string) :=
  token ←? getToken;
  ks ← gets (λ w, cs_Keyserver (comp w));
  match AuthenticateWithToken ks token with
  | Err err => fail err
  | Ok rt =>
      r ← SendRequest rt api param;
      match r with
      | Err err =>
          _ ← (if is_forbidden (errors_Cause err) then RetryFailed api else mret tt);
          fail err
      | Ok result => os_Remove BootstrapTokenPath ;? ok result
      end
  end.

Definition client_bootstrap (api : string) : MC (result unit) :=
  csr ←? buildCSR;
  certbytes ←? sendRequest api csr;
  if bool_decide (len certbytes = 0) then fail (errors_New "received empty response")
  else ReplaceKeygrantingCert certbytes ;? ok tt.

Definition Bootstrap (api : string) : MC unit :=
  r ← CanRetry api;
  if negb r then mret tt
  else
    g ← gets (λ w, Keygrant (comp w));
    match g with
    | Some _ => mret tt
    | None =>
        t ← Exists BootstrapTokenPath;
        if negb t then mret tt
        else
          k ← Exists GrantingKeyPath;
          if negb k then Blocked (ErrorString ("key does not yet exist: " +:+ GrantingKeyPath))
          else
            let info := "bootstrap with token API " +:+ api +:+ " from path " +:+ BootstrapTokenPath in
            err ← client_bootstrap api;
            match err with Err err => Errored info err | Ok _ => NotifyPerformed info end
    end.
End state.

(** ** What an action may do to a node *)

(** Files at the paths of [W] are rewritten freely; those at the paths of [K] are
    made, and never changed; no other file is touched. *)
Definition disk {X} (K W : string → Prop) : relation (World X) := λ w w',
  ∀ q n, is_file (Some n) = true → ¬ W q →
    (fs (os w) !! q = Some n → fs (os w') !! q = Some n) ∧
    (¬ K q → fs (os w') !! q = Some n → fs (os w) !! q = Some n).

(** The memory of the client: the server is the same, a granting certificate is
    never forgotten, and within a cycle what was performed or blocked stays so. *)
Definition grows {N} (c c' : Client N) : Prop :=
  cs_Keyserver c' = cs_Keyserver c ∧ (is_Some (Keygrant c) → is_Some (Keygrant c')) ∧
  (Performed c = true → Performed c' = true) ∧ BlockedBy c `prefix_of` BlockedBy c'.

(** What every action does, and nothing more. *)
Definition acts {N} (K W : string → Prop) : relation (World (Client N)) := λ w w',
  disk K W w w' ∧ later w w' ∧ grows (comp w) (comp w').

#[export] Instance disk_preorder {X} K W : PreOrder (@disk X K W).
Proof.
  split; unfold disk; [done|]. intros w1 w2 w3 H1 H2 q n Hn HW.
  destruct (H1 q n Hn HW) as [H1a H1b], (H2 q n Hn HW) as [H2a H2b]. auto.
Qed.
#[export] Instance grows_preorder {N} : PreOrder (@grows N).
Proof.
  split; unfold grows; [naive_solver|]. intros c1 c2 c3 (?&?&?&?) (?&?&?&?).
  split_and!; [congruence|auto..|by etrans].
Qed.
#[export] Instance acts_preorder {N} K W : PreOrder (@acts N K W).
Proof.
  split; unfold acts; [intros w; split_and!; reflexivity|].
  intros w1 w2 w3 (?&?&?) (?&?&?). split_and!; by etrans.
Qed.

Lemma files_disk {X A} K W (m : M (World X) A) : keeps (files_only W) m → keeps (disk K W) m.
Proof. intros H w q n Hn HW. specialize (H w q n HW Hn). by rewrite H. Qed.

(** An operation of the machine is an action when it writes within [W]. *)
Lemma os_acts {N A} K W (m : M (World (Client N)) A) :
  keeps os_only m → keeps later m → keeps (files_only W) m → keeps (acts K W) m.
Proof.
  intros Ho Hl Hf w. split_and!; [by apply files_disk|by apply Hl|].
  specialize (Ho w). unfold os_only, same in Ho. by rewrite <- Ho.
Qed.
Lemma mem_acts {N} K W (f : Client N → Client N) :
  (∀ c, grows c (f c)) → keeps (acts K W) (modify (on_comp f)).
Proof. intros H w. split_and!; [by intros ???|unfold later; simpl; lia|apply H]. Qed.

#[export] Hint Extern 5 (keeps (acts _ _) _) =>
  (apply os_acts; [solve [eauto 3 with go]..]) : go.

(** A file that exists is not touched by [CreateFile]. *)
Lemma CreateFile_existing {X} p c m (w : World X) q n :
  is_file (Some n) = true → fs (os w) !! q = Some n → fs (os (CreateFile p c m w).2) !! q = Some n.
Proof.
  intros Hn Hq. destruct (decide (path_Clean p = q)) as [Hp|Hp].
  - assert (Ho : ∃ e w', open_for_write true p m w = (Return (Err e), w') ∧ fs (os w') = fs (os w)).
    { unfold open_for_write, syscall, mbind, M_bind, next_fault. simpl.
      destruct (mjoin _); [by do 2 eexists|].
      unfold lookup_node, mbind, M_bind, gets, mret, M_ret. simpl. rewrite !Hp, Hq.
      case_bool_decide; [by do 2 eexists|]. destruct n; [|done]. by do 2 eexists. }
    destruct Ho as (e & w' & Ho & Hf). unfold CreateFile. rewrite (try_bind_Err _ _ _ _ _ Ho). simpl. by rewrite Hf.
  - rewrite (CreateFile_fs p c m w q); auto.
Qed.

Section frames.
Context `{PkgErrors} `{Crypto} {N : Type} `{!Network N}.
Implicit Types K W : string → Prop.

Lemma NotifyPerformed_acts K W s : keeps (acts K W) (NotifyPerformed (N:=N) s).
Proof.
  unfold NotifyPerformed. os_frame. apply mem_acts. intros c. split_and!; simpl; auto.
Qed.
Lemma Blocked_acts K W e : keeps (acts K W) (Blocked (N:=N) e).
Proof. apply mem_acts. intros c. split_and!; simpl; auto. by apply prefix_app_r. Qed.
Lemma Errored_acts K W i e : keeps (acts K W) (Errored (N:=N) i e).
Proof. unfold Errored. os_frame. Qed.
Lemma RetryFailed_acts K W api : keeps (acts K W) (RetryFailed (N:=N) api).
Proof. unfold RetryFailed. os_frame. apply mem_acts. intros c. split_and!; simpl; auto. Qed.
Lemma CanRetry_acts K W api : keeps (acts K W) (CanRetry (N:=N) api).
Proof. unfold CanRetry. os_frame. Qed.
Lemma ReloadKeygrantingCert_acts K W : keeps (acts K W) (ReloadKeygrantingCert (N:=N)).
Proof.
  unfold ReloadKeygrantingCert. os_frame. apply mem_acts. intros c. split_and!; simpl; auto.
Qed.

Lemma NotifyPerformed_returns s : returns (NotifyPerformed (N:=N) s).
Proof. unfold NotifyPerformed. os_frame. Qed.
Lemma Blocked_returns e : returns (Blocked (N:=N) e).
Proof. unfold Blocked. os_frame. Qed.
Lemma Errored_returns i e : returns (Errored (N:=N) i e).
Proof. unfold Errored. os_frame. Qed.
Lemma RetryFailed_returns api : returns (RetryFailed (N:=N) api).
Proof. unfold RetryFailed. os_frame. Qed.
Lemma CanRetry_returns api : returns (CanRetry (N:=N) api).
Proof. unfold CanRetry. os_frame. Qed.
Lemma ReloadKeygrantingCert_returns : returns (ReloadKeygrantingCert (N:=N)).
Proof. unfold ReloadKeygrantingCert. os_frame. Qed.
End frames.
#[export] Hint Resolve NotifyPerformed_acts Blocked_acts Errored_acts RetryFailed_acts CanRetry_acts
  ReloadKeygrantingCert_acts NotifyPerformed_returns Blocked_returns Errored_returns
  RetryFailed_returns CanRetry_returns ReloadKeygrantingCert_returns : go.

Section action_frames.
Context `{PkgErrors} `{Crypto} {N : Type} `{!Network N} `{!LocalNetwork N}.
Implicit Types K W : string → Prop.

Lemma exchange_acts K W cl rq : keeps (acts K W) (client_Do (X:=Client N) cl rq).
Proof.
  intros w. simpl. unfold zoom. pose proof (network_fs cl rq (mkWorld (os w) (outside (comp w)))) as Hf.
  pose proof (network_later cl rq (mkWorld (os w) (outside (comp w)))) as Hl.
  destruct (client_Do cl rq _) as [r w']. unfold same_fs, same, later in *. simpl in *.
  split_and!; [intros q n _ _; simpl; by rewrite Hf|done|]. split_and!; simpl; auto.
Qed.

(** A request of the client, authenticated in any way. *)
Lemma request_acts K W e api body : keeps (acts K W) (SendRequest (authenticated (X:=Client N) e) api body).
Proof.
  apply SendRequest_keeps; [exact _|]. intros reqs. apply authenticated_keeps; [exact _|].
  intros; apply exchange_acts.
Qed.

Lemma keygen_acts K W p : K (path_Clean p) → keeps (acts K W) (keygen (N:=N) p).
Proof.
  intros HK. unfold keygen. os_frame. intros w. split_and!; [|by apply CreateFile_later|].
  - intros q n Hn HW. split; [by apply CreateFile_existing|]. intros HK'.
    rewrite (CreateFile_fs p _ _ w q); [done|]. congruence.
  - pose proof (CreateFile_os_only p a0.2 384 w) as E. unfold os_only, same in E. by rewrite <- E.
Qed.
Lemma GenerateKey_acts K W p : K (path_Clean p) → keeps (acts K W) (GenerateKey (N:=N) p).
Proof. intros HK. unfold GenerateKey. os_frame; by apply keygen_acts. Qed.

Lemma ReplaceKeygrantingCert_acts K W data :
  W (path_Clean GrantingCertPath) → keeps (acts K W) (ReplaceKeygrantingCert (N:=N) data).
Proof.
  intros HW. unfold ReplaceKeygrantingCert. os_frame. apply os_acts; [auto with go..|].
  apply fs_files_only. eapply fs_only_mono; [|apply WriteFile_fs]. by intros q <-.
Qed.
Lemma sendRequest_acts K W api param :
  W (path_Clean BootstrapTokenPath) → keeps (acts K W) (sendRequest (N:=N) api param).
Proof.
  intros HW. unfold sendRequest, getToken. os_frame.
  - unfold AuthenticateWithToken in *. case_bool_decide; simplify_eq. apply request_acts.
  - apply os_acts; [auto with go..|]. apply fs_files_only. eapply fs_only_mono; [|apply os_Remove_fs]. by intros q <-.
Qed.
Lemma Bootstrap_acts K W api :
  W (path_Clean BootstrapTokenPath) → W (path_Clean GrantingCertPath) → keeps (acts K W) (Bootstrap (N:=N) api).
Proof.
  intros HT HG. unfold Bootstrap, client_bootstrap, buildCSR. os_frame;
    first [by apply sendRequest_acts|by apply ReplaceKeygrantingCert_acts|idtac].
Qed.
End action_frames.

(** ** No action panics *)

(** The client has a server to talk to; it may have a granting certificate. *)
Definition wired {N} (w : World (Client N)) : Prop := is_Some (client (cs_Keyserver (comp w))).
Definition granted {N} (w : World (Client N)) : Prop := wired w ∧ is_Some (Keygrant (comp w)).

Lemma acts_wired {N} K W (w w' : World (Client N)) : acts K W w w' → wired w → wired w'.
Proof. unfold wired. by intros (_ & _ & -> & _). Qed.
Lemma acts_granted {N} K W (w w' : World (Client N)) : acts K W w w' → granted w → granted w'.
Proof. intros Ha [Hw Hg]. split; [by eapply acts_wired|]. by apply Ha. Qed.

Lemma acts_safe {N A} (m : M (World (Client N)) A) :
  keeps (acts (λ _, True) (λ _, True)) m → returns m → safe wired m.
Proof. apply safe_keeps. apply acts_wired. Qed.
Lemma acts_safe_granted {N A} (m : M (World (Client N)) A) :
  keeps (acts (λ _, True) (λ _, True)) m → returns m → safe granted m.
Proof. apply safe_keeps. apply acts_granted. Qed.
#[export] Hint Extern 6 (safe wired _) => (apply acts_safe; solve [os_frame]) : go.
#[export] Hint Extern 6 (safe granted _) => (apply acts_safe_granted; solve [os_frame]) : go.

Section action_safety.
Context `{PkgErrors} `{Crypto} {N : Type} `{!Network N} `{!LocalNetwork N}.

Lemma exchange_returns cl rq : returns (client_Do (X:=Client N) cl rq).
Proof.
  intros w. simpl. unfold zoom. destruct (network_returns cl rq (mkWorld (os w) (outside (comp w)))) as [a Ha].
  destruct (client_Do cl rq _) as [r w']. simpl in *. subst. by eexists.
Qed.
Lemma request_returns e api body : is_Some (client e) → returns (SendRequest (authenticated (X:=Client N) e) api body).
Proof.
  intros He. apply SendRequest_returns. intros reqs. apply authenticated_returns; [intros; apply exchange_returns|done].
Qed.
Lemma GenerateKey_returns p : returns (GenerateKey (N:=N) p).
Proof. unfold GenerateKey, keygen. os_frame. Qed.
Lemma ReplaceKeygrantingCert_returns data : returns (ReplaceKeygrantingCert (N:=N) data).
Proof. unfold ReplaceKeygrantingCert. os_frame. Qed.
Lemma Bootstrap_returns api : returns (Bootstrap (N:=N) api).
Proof.
  unfold Bootstrap, client_bootstrap, buildCSR, sendRequest, getToken. os_frame.
  unfold AuthenticateWithToken in *. case_bool_decide; simplify_eq. by apply request_returns.
Qed.
End action_safety.
#[export] Hint Resolve GenerateKey_returns ReplaceKeygrantingCert_returns Bootstrap_returns : go.

(** ** keygen: a key is made once *)

(** Operations that only look. *)
Lemma Exists_quiet {X} p (w : World X) :
  fs (os (Exists p w).2) = fs (os w) ∧ comp (Exists p w).2 = comp w.
Proof. pose proof (Exists_fs p w). pose proof (Exists_os_only p w). by split. Qed.
Lemma CanRetry_quiet {N} api (w : World (Client N)) :
  fs (os (CanRetry api w).2) = fs (os w) ∧ comp (CanRetry api w).2 = comp w.
Proof.
  assert (Hos : keeps os_only (CanRetry (N:=N) api) ∧ keeps same_fs (CanRetry (N:=N) api))
    by (split; unfold CanRetry; os_frame).
  destruct Hos as [Ho Hf]. specialize (Ho w). specialize (Hf w). by split.
Qed.

(** Parts of the memory that an operation does not touch. *)
Definition mem_same {N T} (f : Client N → T) : relation (World (Client N)) := same (λ w, f (comp w)).
#[export] Instance mem_same_equiv {N T} (f : Client N → T) : Equivalence (mem_same f).
Proof. apply same_equiv. Qed.
Lemma os_mem_same {N T A} (f : Client N → T) (m : M (World (Client N)) A) :
  keeps os_only m → keeps (mem_same f) m.
Proof. intros Ho w. specialize (Ho w). unfold os_only, same in Ho. unfold mem_same, same. by rewrite Ho. Qed.
Lemma mod_mem_same {N T} (f : Client N → T) g :
  (∀ c, f (g c) = f c) → keeps (mem_same f) (modify (on_comp g)).
Proof. intros Hg w. symmetry. apply Hg. Qed.
#[export] Hint Extern 5 (keeps (mem_same _) (modify _)) => (apply mod_mem_same; intros ?; reflexivity) : go.
#[export] Hint Extern 6 (keeps (mem_same _) _) => (apply os_mem_same; solve [eauto 3 with go]) : go.

Lemma request_mem `{PkgErrors} `{Crypto} {N} `{!Network N} {T} (f : Client N → T) e api body :
  (∀ c n, f (with_outside n c) = f c) →
  keeps (mem_same f) (SendRequest (authenticated (X:=Client N) e) api body).
Proof.
  intros Hf. apply SendRequest_keeps; [exact _|]. intros reqs. apply authenticated_keeps; [exact _|].
  intros cl rq w. simpl. unfold zoom. destruct (client_Do cl rq _) as [r w']. symmetry. apply Hf.
Qed.

Section keygen.
Context `{PkgErrors} `{Crypto} {N : Type} `{!Network N} `{!LocalNetwork N}.

Lemma GenerateRSA_inv {X} bits (w w' : World X) k pem :
  GenerateRSA bits w = (Return (Ok (k, pem)), w') → LoadRSAKeyFromPEM pem = Ok k.
Proof.
  unfold GenerateRSA. intros (r & w1 & _ & E)%bind_inv. injection E as E _.
  destruct (rsa_GenerateKey r bits) as [k'|] eqn:Hk; [|done]. injection E as <- <-.
  unfold LoadRSAKeyFromPEM. rewrite LoadSinglePEMBlock_encoded; [|done|set_solver].
  simpl. by rewrite (rsa_roundtrip _ _ _ Hk).
Qed.

Lemma keygen_Ok_inv p (w w' : World (Client N)) u :
  keygen p w = (Return (Ok u), w') →
  is_file (fs (os w) !! path_Clean p) = false ∧
  ∃ pem k t, fs (os w') !! path_Clean p = Some (File pem 384 t) ∧ LoadRSAKeyFromPEM pem = Ok k.
Proof.
  unfold keygen. intros (? & w1 & H1 & (k & w2 & H2 & (? & w3 & H3 & E)%try_bind_with_Ok_inv)%try_bind_with_Ok_inv)%try_bind_with_Ok_inv.
  injection E as _ <-. destruct k as [k pem]. apply CreateFile_Ok_inv in H3 as [Hn Hf].
  pose proof (EnsureIsFolder_files (λ _, False) (path_Dir p) w) as Hd. rewrite H1 in Hd. simpl in Hd.
  pose proof (GenerateRSA_fs DefaultRSAKeyLength w1) as Hs. rewrite H2 in Hs. unfold same_fs, same in Hs. simpl in Hs.
  split.
  - destruct (fs (os w) !! path_Clean p) as [n|] eqn:E; [|done]. destruct (is_file (Some n)) eqn:Hfile; [|done].
    apply (Hd _ n (λ x, x) Hfile) in E. congruence.
  - exists pem, k, (now (os w2)). rewrite Hf, lookup_insert_eq. split; [done|]. by eapply GenerateRSA_inv.
Qed.

(** C34: making a key ends without a panic, changes no file that exists, and can only add the
    key's; when it reports the action as performed, there was no file at the path
    before and there is now one with mode 0600 that holds an RSA key that loads. *)
Theorem GenerateKey_spec p (w : World (Client N)) :
  ∃ w', GenerateKey p w = (Return tt, w') ∧ acts (eq (path_Clean p)) (λ _, False) w w' ∧
    (Performed (comp w) = false → Performed (comp w') = true →
     is_file (fs (os w) !! path_Clean p) = false ∧
     ∃ pem k t, fs (os w') !! path_Clean p = Some (File pem 384 t) ∧ LoadRSAKeyFromPEM pem = Ok k).
Proof using LocalNetwork0.
  pose proof (GenerateKey_acts (eq (path_Clean p)) (λ _, False) p eq_refl w) as Ha.
  destruct (GenerateKey_returns p w) as [[] Hr]. destruct (GenerateKey p w) as [o w'] eqn:E. simpl in *. subst.
  exists w'. split_and!; [done..|]. intros Hp Hp'.
  apply bind_inv in E as (b & w1 & H1 & E).
  pose proof (Exists_os_only p w) as Hc. pose proof (Exists_fs p w) as Hf. rewrite H1 in Hc, Hf.
  unfold os_only, same_fs, same in Hc, Hf. simpl in Hc, Hf. destruct b.
  - injection E as <-. congruence.
  - apply bind_inv in E as (r & w2 & H2 & E). destruct r as [u|e].
    + apply keygen_Ok_inv in H2. rewrite Hf. by injection E as <-.
    + injection E as <-. simpl in Hp'. exfalso. assert (Hk : keeps os_only (keygen (N:=N) p)) by (unfold keygen; os_frame).
      specialize (Hk w1). rewrite H2 in Hk. unfold os_only, same in Hk. simpl in Hk. congruence.
Qed.
End keygen.

(** ** bootstrap: the token is used up by the request that is accepted *)

Section bootstrap.
Context `{PkgErrors} `{Crypto} {N : Type} `{!Network N} `{!LocalNetwork N}.

(** Printable ASCII without the space: what a header may hold. *)
Definition token_chars : string → bool := all_chars (λ c, (32 <? byte_val c) && (byte_val c <? 127)).

Lemma bad_character_None token : bad_character token = None → token_chars token = true.
Proof.
  induction token as [|c s IH]; simpl; [done|]. destruct (byte_val c <? 128); [|done].
  destruct ((32 <? byte_val c) && (byte_val c <? 127)) eqn:Hc; [|done]. intros Hs.
  unfold token_chars in *. cbn [all_chars]. rewrite Hc. by apply IH.
Qed.

Lemma getToken_inv (w w' : World (Client N)) token :
  getToken w = (Return (Ok token), w') →
  token ≠ "" ∧ token_chars token = true ∧
  ∃ contents m t, node_at w BootstrapTokenPath = Some (File contents m t) ∧ token = TrimSpace contents.
Proof.
  unfold getToken. intros (c & w1 & (m & t & Hn)%ReadFile_inv & H1)%try_bind_Ok_inv.
  case_bool_decide as Hl; [done|]. destruct (bad_character _) eqn:Hb; [done|]. injection H1 as <- <-.
  split_and!; [intros E; by rewrite E in Hl|by apply bad_character_None|eauto 6].
Qed.

(** The server has answered the request made with the token. *)
Definition accepted (w : World (Client N)) api token : Prop := ∃ param w1 w2 result,
  fs (os w1) = fs (os w) ∧ cs_Keyserver (comp w1) = cs_Keyserver (comp w) ∧
  SendRequest (authenticated (WithHeader (cs_Keyserver (comp w)) "X-Bootstrap-Token" token)) api param w1
    = (Return (Ok result), w2).
(** The node has a token, and a request made with it was answered. *)
Definition spent (w : World (Client N)) api : Prop := ∃ contents m t,
  node_at w BootstrapTokenPath = Some (File contents m t) ∧
  token_chars (TrimSpace contents) = true ∧ accepted w api (TrimSpace contents).
Lemma spent_same w w' api :
  fs (os w') = fs (os w) → cs_Keyserver (comp w') = cs_Keyserver (comp w) → spent w' api → spent w api.
Proof.
  intros Hf Hk (c & m & t & Hn & Hc & (p & w1 & w2 & r & H1 & H2 & H3)). unfold node_at in Hn. rewrite Hf in Hn.
  exists c, m, t. split_and!; [done..|]. exists p, w1, w2, r. rewrite <- Hf, <- Hk. done.
Qed.

Lemma request_fs e api body : keeps same_fs (SendRequest (authenticated (X:=Client N) e) api body).
Proof.
  apply SendRequest_keeps; [exact _|]. intros reqs. apply authenticated_keeps; [exact _|].
  intros cl rq w. simpl. unfold zoom. pose proof (network_fs cl rq (mkWorld (os w) (outside (comp w)))) as Hf.
  by destruct (client_Do cl rq _) as [r w'].
Qed.

Lemma sendRequest_inv api param (w w' : World (Client N)) r :
  sendRequest api param w = (Return r, w') →
  (is_ok r = false ∧ fs (os w') = fs (os w)) ∨
  (is_ok r = true ∧ fs (os w') = delete (path_Clean BootstrapTokenPath) (fs (os w)) ∧ spent w api).
Proof.
  unfold sendRequest. intros (t & w1 & H1 & H2)%bind_inv.
  assert (Hos : keeps os_only (getToken (N:=N)) ∧ keeps same_fs (getToken (N:=N))) by (split; unfold getToken; os_frame).
  destruct Hos as [Hos Hfs]. specialize (Hos w). specialize (Hfs w). rewrite H1 in Hos, Hfs.
  unfold os_only, same_fs, same in Hos, Hfs. simpl in Hos, Hfs.
  destruct t as [token|]; [|injection H2 as <- <-; by left].
  apply getToken_inv in H1 as (Hne & Hc & contents & m & t & Hn & ->).
  apply bind_inv in H2 as (ks & w2 & E & H2). injection E as <- <-.
  unfold AuthenticateWithToken in H2. rewrite bool_decide_false in H2 by done.
  apply bind_inv in H2 as (r2 & w2 & H2 & H3).
  pose proof (request_fs (WithHeader (cs_Keyserver (comp w1)) "X-Bootstrap-Token" (TrimSpace contents)) api param w1) as Hq.
  rewrite H2 in Hq. unfold same_fs, same in Hq. simpl in Hq. destruct r2 as [result|e].
  - apply bind_inv in H3 as (r3 & w3 & H3 & H4). apply os_Remove_inv in H3 as [Hok Herr].
    destruct r3 as [[]|e]; injection H4 as <- <-.
    + right. split; [done|]. split; [rewrite Hok by done; congruence|]. exists contents, m, t. split_and!; [done..|].
      exists param, w1, w2, result. rewrite Hos. done.
    + left. split; [done|]. rewrite Herr by done. congruence.
  - left. destruct (is_forbidden _); apply bind_inv in H3 as (? & w3 & H3 & H4); injection H4 as <- <-;
      (split; [done|]); [|injection H3 as _ <-; congruence].
    injection H3 as _ <-. simpl. congruence.
Qed.

Lemma ReloadKeygrantingCert_Ok (w w' : World (Client N)) u :
  ReloadKeygrantingCert w = (Return (Ok u), w') → is_Some (Keygrant (comp w')).
Proof.
  unfold ReloadKeygrantingCert. intros (k & w1 & _ & (c & w2 & _ & H1)%bind_inv)%bind_inv.
  destruct c; [|done]. apply try_bind_with_Ok_inv in H1 as (cert & w3 & _ & H1).
  apply bind_inv in H1 as (? & w4 & E & H1). injection E as _ <-. injection H1 as _ <-. by eexists.
Qed.

(** What a run of [bootstrap] comes to. *)
Lemma client_bootstrap_inv api (w w' : World (Client N)) r :
  client_bootstrap api w = (Return r, w') →
  ((∀ n, is_file (Some n) = true → fs (os w) !! path_Clean BootstrapTokenPath = Some n →
      fs (os w') !! path_Clean BootstrapTokenPath = Some n) ∨ spent w api) ∧
  (is_ok r = true → is_Some (Keygrant (comp w')) ∧
     is_file (fs (os w') !! path_Clean BootstrapTokenPath) = false ∧ spent w api).
Proof.
  unfold client_bootstrap. intros (c & w1 & H1 & H2)%bind_inv.
  assert (Hos : keeps os_only (buildCSR (N:=N)) ∧ keeps same_fs (buildCSR (N:=N))) by (split; unfold buildCSR; os_frame).
  destruct Hos as [Hos Hfs]. specialize (Hos w). specialize (Hfs w). rewrite H1 in Hos, Hfs.
  unfold os_only, same_fs, same in Hos, Hfs. simpl in Hos, Hfs.
  destruct c as [csr|]; [|injection H2 as <- <-; rewrite Hfs; split; [by left|done]].
  apply bind_inv in H2 as (r2 & w2 & [[Hr Hf]|(Hr & Hf & Hs)]%sendRequest_inv & H3).
  { destruct r2; [done|]. injection H3 as <- <-. rewrite Hf, Hfs. split; [by left|done]. }
  assert (Hs' : spent w api) by (apply (spent_same w w1); [done|congruence|done]). split; [by right|].
  destruct r2 as [certbytes|]; [|done]. destruct (bool_decide (len certbytes = 0)); [by injection H3 as <- _|].
  intros Hok. destruct r as [[]|]; [|done]. clear Hok.
  apply try_bind_Ok_inv in H3 as (u & w3 & H3 & E). injection E as <-.
  assert (Hd : keeps (files_only (eq (path_Clean GrantingCertPath))) (ReplaceKeygrantingCert (N:=N) certbytes)).
  { unfold ReplaceKeygrantingCert, ReloadKeygrantingCert. os_frame. }
  specialize (Hd w2). rewrite H3 in Hd.
  split; [|split; [|done]].
  - unfold ReplaceKeygrantingCert in H3. apply try_bind_Ok_inv in H3 as (? & ? & _ & H3).
    apply try_bind_Ok_inv in H3 as (? & ? & _ & H3). apply try_bind_with_Ok_inv in H3 as (? & ? & H3 & E).
    injection E as _ <-. by eapply ReloadKeygrantingCert_Ok.
  - destruct (fs (os w3) !! path_Clean BootstrapTokenPath) as [n|] eqn:En; [|done].
    destruct (is_file (Some n)) eqn:Hn; [|done]. apply Hd in En; [|by vm_compute|done].
    simpl in En. rewrite Hf, lookup_delete_eq in En. done.
Qed.

Lemma client_bootstrap_performed api : keeps (mem_same Performed) (client_bootstrap (N:=N) api).
Proof.
  unfold client_bootstrap, buildCSR, sendRequest, getToken, ReplaceKeygrantingCert, ReloadKeygrantingCert, RetryFailed.
  os_frame. unfold AuthenticateWithToken in *. case_bool_decide; simplify_eq. by apply request_mem.
Qed.

(** C10: bootstrapping with a token ends without a panic, and writes only the granting certificate
    and the token's file. With a granting certificate in hand it changes nothing. The
    token is removed only after the server has answered a request made with it (so a
    failed attempt can be tried again), and it is never sent unless it is printable.
    When the action is reported as performed, the client holds a granting certificate
    and the token is gone. *)
Theorem Bootstrap_spec api (w : World (Client N)) :
  ∃ w', Bootstrap api w = (Return tt, w') ∧
    acts (λ _, False) (λ q, q ∈ [BootstrapTokenPath; GrantingCertPath]) w w' ∧
    (is_Some (Keygrant (comp w)) → fs (os w') = fs (os w) ∧ comp w' = comp w) ∧
    (∀ n, is_file (Some n) = true → fs (os w) !! BootstrapTokenPath = Some n →
       fs (os w') !! BootstrapTokenPath = Some n ∨ spent w api) ∧
    (Performed (comp w) = false → Performed (comp w') = true →
       is_Some (Keygrant (comp w')) ∧ is_file (fs (os w') !! BootstrapTokenPath) = false ∧ spent w api).
Proof.
  pose proof (Bootstrap_acts (λ _, False) (λ q, q ∈ [BootstrapTokenPath; GrantingCertPath]) api) as Ha.
  specialize (Ha ltac:(apply (bool_decide_unpack _); exact I) ltac:(apply (bool_decide_unpack _); exact I) w).
  destruct (Bootstrap_returns api w) as [[] Hr]. destruct (Bootstrap api w) as [o w'] eqn:E. simpl in *. subst.
  exists w'. split; [done|]. split; [done|]. clear Ha.
  pattern w'. match goal with |- ?P w' => set (C := P) end.
  assert (Hquiet : ∀ w2, fs (os w2) = fs (os w) → comp w2 = comp w → C w2).
  { intros w2 Hf Hc. unfold C. rewrite Hf, Hc. split_and!; [done|auto|congruence]. }
  unfold Bootstrap in E. apply bind_inv in E as (r & w1 & E1 & E).
  assert (Hw1 : fs (os w1) = fs (os w) ∧ comp w1 = comp w).
  { pose proof (CanRetry_quiet api w) as Hq. by rewrite E1 in Hq. }
  destruct Hw1 as [Hf1 Hc1]. destruct r; cbn [negb] in E; [|injection E as <-; by apply Hquiet].
  apply bind_inv in E as (g & w2 & E2 & E). injection E2 as <- <-. rewrite Hc1 in E.
  destruct (Keygrant (comp w)) eqn:Hg; [injection E as <-; by apply Hquiet|].
  apply bind_inv in E as (t & w2 & E2 & E). pose proof (Exists_quiet BootstrapTokenPath w1) as [Hf2 Hc2].
  rewrite E2 in Hf2, Hc2. simpl in Hf2, Hc2. rewrite Hf1 in Hf2. rewrite Hc1 in Hc2.
  destruct t; cbn [negb] in E; [|injection E as <-; by apply Hquiet].
  apply bind_inv in E as (t & w3 & E3 & E). pose proof (Exists_quiet GrantingKeyPath w2) as [Hf3 Hc3].
  rewrite E3 in Hf3, Hc3. simpl in Hf3, Hc3. rewrite Hf2 in Hf3. rewrite Hc2 in Hc3.
  unfold C. split; [by intros []|].
  destruct t; cbn [negb] in E; [|injection E as <-; simpl; rewrite Hf3, Hc3; split; [auto|congruence]].
  apply bind_inv in E as (err & w4 & E4 & E). pose proof (client_bootstrap_performed api w3) as Hp.
  rewrite E4 in Hp. apply client_bootstrap_inv in E4 as [Htok Hok].
  unfold mem_same, same in Hp. simpl in Hp. rewrite Hc3 in Hp.
  assert (Hsp : spent w3 api → spent w api) by (apply spent_same; congruence). rewrite Hf3 in Htok.
  destruct err as [[]|e]; injection E as <-; simpl.
  - split; [intros n Hn Ht; destruct (Htok) as [?|?]; auto|]. intros _ _. destruct Hok as (? & ? & ?); auto.
  - split; [intros n Hn Ht; destruct (Htok) as [?|?]; auto|congruence].
Qed.
End bootstrap.

(** ** Concrete runs *)

#[export] Instance sample_local : LocalNetwork Net.
Proof. split; intros ??; intros w; [done|unfold later; simpl; lia|by eexists]. Qed.

Definition client_mem (g : option tls_Certificate) (answers : list (result (Z * result string))) : Client Net :=
  mkClientMem sample_endpoint g ∅ [] false (mkNet [] answers).
Definition client_world (files : gmap string node) (g : option tls_Certificate)
    (answers : list (result (Z * result string))) : World (Client Net) :=
  mkWorld (with_fs files (os_random 1000)) (client_mem g answers).

Lemma GenerateKey_spec_witness :
  ∃ w', GenerateKey "/etc/keys/k" (client_world ∅ None []) = (Return tt, w') ∧
    ∃ pem k t, fs (os w') !! "/etc/keys/k" = Some (File pem 384 t) ∧ LoadRSAKeyFromPEM pem = Ok k.
Proof.
  destruct (GenerateKey_spec "/etc/keys/k" (client_world ∅ None [])) as (w' & E & _ & H).
  exists w'. split; [exact E|]. refine (proj2 (H eq_refl _)).
  replace w' with (GenerateKey "/etc/keys/k" (client_world ∅ None [])).2 by (rewrite E; reflexivity).
  vm_compute. reflexivity.
Defined.

(** A node with a token and a key, and a server that signs. *)
Definition boot_world : World (Client Net) :=
  client_world {[ BootstrapTokenPath := File ("token9" +:+ newline) 384 0;
                  GrantingKeyPath := File (pem_key node_key) 384 0; "/etc" := Dir;
                  "/etc/homeworld" := Dir; "/etc/homeworld/keyclient" := Dir ]} None
    [Ok (200, Ok (Marshal_strings [pem_cert (sample_der node_key "n" 0 1000000000000)]))].

Lemma Bootstrap_spec_witness :
  ∃ w', Bootstrap "renew-keygrant" boot_world = (Return tt, w') ∧
    is_Some (Keygrant (comp w')) ∧ is_file (fs (os w') !! BootstrapTokenPath) = false ∧
    spent boot_world "renew-keygrant".
Proof.
  destruct (Bootstrap_spec "renew-keygrant" boot_world) as (w' & E & _ & _ & _ & H).
  exists w'. split; [exact E|]. apply H; [reflexivity|].
  replace w' with (Bootstrap "renew-keygrant" boot_world).2 by (rewrite E; reflexivity).
  vm_compute. reflexivity.
Defined.
