(* ===== verification/KeyActions.v ===== *)
(** * The key client: download, hostname and keyreq

    The actions that fetch files from the key server, set the host name and keep
    certificates up to date: [keyclient/actions/download], [hostname] and [keyreq]. *)

From S2P Require Import Prelude GoStrings GoNet GoOS FileUtil Paths GoErrors GoCodec GoJSON GoCrypto CertUtil GoTime Api Samples KeyClient.
#[export] Set Default Goal Selector "!".

(** [Time.Sub]: a duration is a 64-bit integer, and the subtraction saturates. *)
Definition maxDuration : Z := 9223372036854775807.
Definition time_Sub (t u : Z) : Z := Z.max (- maxDuration - 1) (Z.min maxDuration (t - u)).

Section download.
Context `{PkgErrors} `{Crypto} {N : Type} `{!Network N}.
Abbreviation MC := (M (World (Client N))).

(** ** download/fetchers.go *)

Abbreviation FetchFunc := (MC (result string)).

Definition fetchAuthority (authority : string) : FetchFunc * string :=
  let info := "pubkey for authority " +:+ authority in
  let fetch :=
    ks ← gets (λ w, cs_Keyserver (comp w));
    result ←? GetPubkey ks authority;
    if bool_decide (len result = 0) then fail (errors_New "empty response") else ok result in
  (fetch, info).

Definition fetchStatic (static : string) : FetchFunc * string :=
  let info := "static file " +:+ static in
  let fetch :=
    ks ← gets (λ w, cs_Keyserver (comp w));
    result ←? GetStatic ks static;
    if bool_decide (len result = 0) then fail (errors_New "empty response") else ok result in
  (fetch, info).

Definition fetchAPI (api : string) : FetchFunc * string :=
  let info := "result from api " +:+ api in
  let fetch :=
    r ← CanRetry api;
    if negb r then ok ""      (* nothing to do *)
    else
      g ← gets (λ w, Keygrant (comp w));
      match g with
      | None => _ ← Blocked (errors_New "no keygranting certificate ready"); ok ""
      | Some keygrant =>
          ks ← gets (λ w, cs_Keyserver (comp w));
          match AuthenticateWithCert ks keygrant with
          | Err err => fail err
          | Ok rt =>
              r ← SendRequest rt api "";
              match r with
              | Err err =>
                  _ ← (if is_forbidden (errors_Cause err) then RetryFailed api else mret tt);
                  fail err
              | Ok resp =>
                  if bool_decide (len resp = 0) then fail (errors_New "empty response") else ok resp
              end
          end
      end in
  (fetch, info).

(** ** download/download.go *)

Record config := mkConfig { Path : string; Refresh : Z; Mode : Z }.

Definition SystemCertificatesBase : string := "/usr/local/share/ca-certificates/extra/".

(** [ModTime]; that of a directory is not kept. *)
Definition ModTime (n : node) : Z := match n with File _ _ t => t | Dir => 0 end.

Definition needsRefresh (da : config) (info : string) : MC bool :=
  statinfo ← os_Stat (Path da);
  match statinfo with
  | Err err =>
      if IsNotExist err then mret true
      else _ ← Errored info err; mret false      (* somehow it's broken *)
  | Ok statinfo =>
      t ← time_Now;
      let staleness := time_Sub t (ModTime statinfo) in
      mret (Refresh da <? staleness)
  end.

Definition refresh (da : config) (fetcher : FetchFunc) (info : string) : MC (result unit) :=
  data ←? fetcher;
  if bool_decide (len data = 0) then ok tt      (* no error, but nothing to fetch *)
  else
    EnsureIsFolder (path_Dir (Path da)) ;?
    WriteFile (Path da) data (Mode da) ;?
    (if HasPrefix (Path da) SystemCertificatesBase
     then _ ← log_Print "reloading ca-certificates"; exec_Run ["update-ca-certificates"]
     else ok tt) ;?
    _ ← NotifyPerformed info;
    ok tt.

Definition Download (da : config) (fetcher : FetchFunc) (fetchInfo : string) : MC unit :=
  let info := "download to file " +:+ Path da +:+ " (mode " +:+ FormatOct (Mode da) +:+ ") every " +:+
              Duration_String (Refresh da) +:+ ": " +:+ fetchInfo in
  b ← needsRefresh da info;
  if (b : bool) then
    err ← refresh da fetcher info;
    match err with Err err => Errored info err | Ok _ => mret tt end
  else mret tt.

Definition DownloadAuthority (name path : string) (refreshPeriod : Z) : MC unit :=
  let act := mkConfig path refreshPeriod 420 in
  let '(fetch, fetchInfo) := fetchAuthority name in
  Download act fetch fetchInfo.
Definition DownloadStatic (name path : string) (refreshPeriod : Z) : MC unit :=
  let act := mkConfig path refreshPeriod 420 in
  let '(fetch, fetchInfo) := fetchStatic name in
  Download act fetch fetchInfo.
Definition DownloadFromAPI (api path : string) (refreshPeriod mode : Z) : MC unit :=
  let act := mkConfig path refreshPeriod mode in
  let '(fetch, fetchInfo) := fetchAPI api in
  Download act fetch fetchInfo.

(** ** hostname/hostname.go *)

(** The loop over the lines of [local.conf]. *)
Definition config_line (kvs : gmap string string) (line : string) : result (gmap string string) :=
  let line := TrimSpace line in
  match line with
  | "" => Ok kvs
  | String c _ =>
      if bool_decide (c = "#"%char) then Ok kvs
      else
        match SplitN line "="%char 2 with
        | [k; v] => Ok (<[TrimSpace k := TrimSpace v]> kvs)
        | _ => Err (ErrorString "incorrectly formatted local.conf")
        end
  end.
Definition readConfig (path : string) : MC (result (gmap string string)) :=
  conf ←? ReadFile path;
  mret (fold_result config_line ∅ (Split conf "010"%char)).

Definition performReload (path : string) : MC (result unit) :=
  conf ← readConfig path;
  match conf with
  | Err err => if IsNotExist err then _ ← Blocked err; ok tt else fail err
  | Ok conf =>
      match conf !! "HOST_NODE" with
      | None => fail (ErrorString "no HOST_NODE entry in local.conf")
      | Some hostname =>
          currentHostname ←? os_Hostname;
          if bool_decide (hostname = currentHostname) then ok tt
          else
            exec_Run ["hostnamectl"; "set-hostname"; hostname] ;?
            _ ← NotifyPerformed "reload hostname";
            ok tt
      end
  end.

Definition ReloadHostnameFrom (path : string) : MC unit :=
  err ← performReload path;
  match err with Err err => Errored "reload hostname" err | Ok _ => mret tt end.

(** ** keyreq/keyreq.go *)

Record RequestOrRenewAction := mkAction {
  InAdvance : Z;
  act_API : string;
  CheckExpiration : string → result Z;
  GenCSR : string → MC (result string);
  KeyFile : string;
  CertFile : string
}.

Definition shouldRegenerate (ra : RequestOrRenewAction) (info : string) : MC bool :=
  r ← ReadFile (CertFile ra);
  match r with
  | Err err =>
      (* fix missing or broken certificate by renewal *)
      _ ← (if negb (IsNotExist err) then Errored info err else mret tt);
      mret true
  | Ok existing =>
      match CheckExpiration ra existing with
      | Err err =>
          _ ← Errored info (wrap err "while trying to check expiration status of certificate");
          mret true      (* fix malformed certificate by renewal *)
      | Ok expiration =>
          let renewAt := expiration - InAdvance ra in
          t ← time_Now;
          mret (negb (t <? renewAt))
      end
  end.

(** If we just renewed the keygranting certificate, reload it. *)
Definition checkReload (ra : RequestOrRenewAction) : MC (result unit) :=
  certabs ←? Abs (CertFile ra);
  grantabs ←? Abs GrantingCertPath;
  if bool_decide (certabs = grantabs) then ReloadKeygrantingCert ;? ok tt
  else ok tt.

Definition generateCSR (ra : RequestOrRenewAction) : MC (result string) :=
  keydata ←[λ e, wrap e "while reading keyfile"] ReadFile (KeyFile ra);
  csr ←[λ e, wrap e "while generating CSR"] GenCSR ra keydata;
  ok csr.

Definition requestSignature (ra : RequestOrRenewAction) (csr : string) : MC (result string) :=
  g ← gets (λ w, Keygrant (comp w));
  match g with
  | None => panic "invalid memory address or nil pointer dereference"
  | Some keygrant =>
      ks ← gets (λ w, cs_Keyserver (comp w));
      match AuthenticateWithCert ks keygrant with
      | Err err => fail (wrap err "while authenticating with cert")
      | Ok rt =>
          r ← SendRequest rt (act_API ra) csr;
          match r with
          | Err err =>
              (* the type of the error itself, not of its cause *)
              _ ← (if is_forbidden err then RetryFailed (act_API ra) else mret tt);
              fail (wrap err "while sending request")
          | Ok cert =>
              if bool_decide (len cert = 0)
              then fail (errors_New "while sending request: received empty response")
              else ok cert
          end
      end
  end.

Definition regenerate (ra : RequestOrRenewAction) : MC (result unit) :=
  csr ←? generateCSR ra;
  cert ←? requestSignature ra csr;
  _ ←[λ e, wrap e "while writing result"] WriteFile (CertFile ra) cert 420;
  _ ←[λ e, wrap e "while reloading granting cert"] checkReload ra;
  ok tt.

(** The arguments of the message are in this order in the code. *)
Definition act_info (ra : RequestOrRenewAction) : string :=
  "req/renew key " +:+ CertFile ra +:+ " into cert " +:+ KeyFile ra +:+ " with API " +:+
  Duration_String (InAdvance ra) +:+ " in advance by " +:+ act_API ra.

Definition Act (ra : RequestOrRenewAction) : MC unit :=
  let info := act_info ra in
  r ← CanRetry (act_API ra);
  if negb r then mret tt
  else
    s ← shouldRegenerate ra info;
    if negb s then mret tt
    else
      g ← gets (λ w, Keygrant (comp w));
      match g with
      | None => Blocked (errors_New "no keygranting certificate ready")
      | Some _ =>
          k ← Exists (KeyFile ra);
          if negb k then Blocked (ErrorString ("key does not yet exist: " +:+ KeyFile ra))
          else
            err ← regenerate ra;
            match err with Err err => Errored info err | Ok _ => NotifyPerformed info end
      end.

Definition RequestOrRenewTLSKey (key cert api : string) (inadvance : Z) : MC unit :=
  Act (mkAction inadvance api CheckTLSCertExpiration BuildTLSCSR key cert).
Definition RequestOrRenewSSHKey (key cert api : string) (inadvance : Z) : MC unit :=
  Act (mkAction inadvance api CheckSSHCertExpiration (λ k, mret (BuildSSHCSR k)) key cert).
End download.

(** ** Frames *)

Section frames.
Context `{PkgErrors} `{Crypto} {N : Type} `{!Network N} `{!LocalNetwork N}.
Implicit Types K W : string → Prop.

Lemma fetchAuthority_acts K W a : keeps (acts K W) (fetchAuthority (N:=N) a).1.
Proof.
  unfold fetchAuthority. simpl. os_frame. apply GetPubkey_keeps; [exact _|]. intros; apply exchange_acts.
Qed.
Lemma fetchStatic_acts K W a : keeps (acts K W) (fetchStatic (N:=N) a).1.
Proof.
  unfold fetchStatic. simpl. os_frame. apply GetStatic_keeps; [exact _|]. intros; apply exchange_acts.
Qed.
Lemma fetchAPI_acts K W a : keeps (acts K W) (fetchAPI (N:=N) a).1.
Proof. unfold fetchAPI. simpl. os_frame. unfold AuthenticateWithCert in *. simplify_eq. apply request_acts. Qed.

Lemma write_acts K W p data mode :
  W (path_Clean p) → keeps (acts K W) (WriteFile (X:=Client N) p data mode).
Proof.
  intros HW. apply os_acts; [auto with go..|]. apply fs_files_only.
  eapply fs_only_mono; [|apply WriteFile_fs]. by intros q <-.
Qed.
Lemma Download_acts K W da fetch info :
  W (path_Clean (Path da)) → keeps (acts K W) fetch → keeps (acts K W) (Download (N:=N) da fetch info).
Proof. intros HW Hf. unfold Download, needsRefresh, refresh. os_frame. by apply write_acts. Qed.
Lemma ReloadHostnameFrom_acts K W p : keeps (acts K W) (ReloadHostnameFrom (N:=N) p).
Proof. unfold ReloadHostnameFrom, performReload, readConfig. os_frame. Qed.

Lemma requestSignature_acts K W ra csr : keeps (acts K W) (requestSignature (N:=N) ra csr).
Proof. unfold requestSignature. os_frame. unfold AuthenticateWithCert in *. simplify_eq. apply request_acts. Qed.
Lemma Act_acts K W ra :
  W (path_Clean (CertFile ra)) → (∀ k, keeps (acts K W) (GenCSR ra k)) → keeps (acts K W) (Act (N:=N) ra).
Proof.
  intros HW Hc. unfold Act, shouldRegenerate, regenerate, checkReload, generateCSR. os_frame;
    first [by apply write_acts|by apply requestSignature_acts|idtac].
Qed.
Lemma RequestOrRenewTLSKey_acts K W k c api t :
  W (path_Clean c) → keeps (acts K W) (RequestOrRenewTLSKey (N:=N) k c api t).
Proof. intros HW. apply Act_acts; [done|]. intros; simpl. os_frame. Qed.
Lemma RequestOrRenewSSHKey_acts K W k c api t :
  W (path_Clean c) → keeps (acts K W) (RequestOrRenewSSHKey (N:=N) k c api t).
Proof. intros HW. apply Act_acts; [done|]. intros; simpl. os_frame. Qed.
End frames.

Section safety.
Context `{PkgErrors} `{Crypto} {N : Type} `{!Network N} `{!LocalNetwork N}.

Lemma GetPubkey_safe k a : is_Some (client k) → safe wired (GetPubkey (X:=Client N) k a).
Proof.
  intros Hk. apply acts_safe; [|apply GetPubkey_returns; [intros; apply exchange_returns|done]].
  apply GetPubkey_keeps; [exact _|]. intros; apply exchange_acts.
Qed.
Lemma GetStatic_safe k a : is_Some (client k) → safe wired (GetStatic (X:=Client N) k a).
Proof.
  intros Hk. apply acts_safe; [|apply GetStatic_returns; [intros; apply exchange_returns|done]].
  apply GetStatic_keeps; [exact _|]. intros; apply exchange_acts.
Qed.
Lemma fetchAuthority_safe a : safe wired (fetchAuthority (N:=N) a).1.
Proof. unfold fetchAuthority. simpl. safe. by apply GetPubkey_safe. Qed.
Lemma fetchStatic_safe a : safe wired (fetchStatic (N:=N) a).1.
Proof. unfold fetchStatic. simpl. safe. by apply GetStatic_safe. Qed.
Lemma fetchAPI_safe a : safe wired (fetchAPI (N:=N) a).1.
Proof.
  unfold fetchAPI. simpl. safe. unfold AuthenticateWithCert in *. simplify_eq.
  apply acts_safe; [apply request_acts|by apply request_returns].
Qed.

Lemma Download_safe da fetch info : safe wired fetch → safe wired (Download (N:=N) da fetch info).
Proof.
  intros Hf. unfold Download, needsRefresh, refresh. safe. apply acts_safe; [by apply write_acts|apply WriteFile_returns].
Qed.
Lemma ReloadHostnameFrom_safe p : safe wired (ReloadHostnameFrom (N:=N) p).
Proof. unfold ReloadHostnameFrom, performReload, readConfig. safe. Qed.

Lemma regenerate_safe ra : (∀ k, safe granted (GenCSR ra k)) → safe granted (regenerate (N:=N) ra).
Proof.
  intros Hc. unfold regenerate, generateCSR, checkReload. safe.
  - unfold requestSignature. apply safe_gets. intros w [_ [g Hg]]. rewrite Hg. apply safe_gets. intros w' [Hw' _].
    safe. unfold AuthenticateWithCert in *. simplify_eq.
    apply acts_safe_granted; [apply request_acts|by apply request_returns].
  - apply acts_safe_granted; [by apply write_acts|apply WriteFile_returns].
Qed.
Lemma Act_safe ra : (∀ k, safe granted (GenCSR ra k)) → safe wired (Act (N:=N) ra).
Proof.
  intros Hc. unfold Act. apply safe_bind; [safe|]. intros []; cbn [negb]; [|safe].
  apply safe_bind; [unfold shouldRegenerate; safe|]. intros []; cbn [negb]; [|safe].
  intros w Hw. erewrite bind_Return by reflexivity. destruct (Keygrant (comp w)) eqn:Hg.
  - apply (safe_weaken wired granted); [|by split; [|rewrite Hg; eexists]|by intros ? []].
    safe. by apply regenerate_safe.
  - revert w Hw Hg. intros w Hw _. revert w Hw. change (safe wired (Blocked (N:=N) (errors_New "no keygranting certificate ready"))). safe.
Qed.
Lemma RequestOrRenewTLSKey_safe k c api t : safe wired (RequestOrRenewTLSKey (N:=N) k c api t).
Proof. apply Act_safe. intros; simpl. safe. Qed.
Lemma RequestOrRenewSSHKey_safe k c api t : safe wired (RequestOrRenewSSHKey (N:=N) k c api t).
Proof. apply Act_safe. intros; simpl. safe. Qed.
End safety.

(** ** When there is nothing to do *)

(** The action only reads the clock. *)
Definition idle {X} (m : M (World X) unit) (w : World X) : Prop :=
  ∃ w', m w = (Return tt, w') ∧ passes w w'.

Section idle.
Context `{PkgErrors} `{Crypto} {N : Type} `{!Network N}.
Implicit Types w : World (Client N).

(** Up to the time [D]: the server refused the API, and it is not yet time to ask again. *)
Definition refused (D : Z) w api : Prop := ∃ t, RetryAt (comp w) !! api = Some t ∧ D ≤ t.
(** The file was fetched within the period. *)
Definition fresh (D : Z) w (path : string) (period : Z) : Prop :=
  ∃ c m t, node_at w path = Some (File c m t) ∧ D - t ≤ period.
(** The certificate is not due for renewal. *)
Definition valid_cert (D : Z) w (check : string → result Z) (path : string) (inadvance : Z) : Prop :=
  ∃ c m t e, node_at w path = Some (File c m t) ∧ check c = Ok e ∧ D < e - inadvance.
(** The host has the name that the file gives. *)
Definition named w (path : string) : Prop := ∃ c m t conf,
  node_at w path = Some (File c m t) ∧ fold_result config_line ∅ (Split c "010"%char) = Ok conf ∧
  conf !! "HOST_NODE" = Some (host_name (os w)).

Lemma CanRetry_passes api w :
  ∃ b w', CanRetry api w = (Return b, w') ∧ passes w w' ∧ (∀ D, refused D w api → horizon w ≤ D → b = false).
Proof.
  unfold CanRetry. erewrite bind_Return by reflexivity. unfold refused. destruct (RetryAt (comp w) !! api) as [t|].
  - destruct (time_Now_passes w) as (n & w' & E & Hp & Hn). rewrite (bind_Return _ _ _ _ _ E).
    exists (t <? n), w'. split_and!; [done|done|]. intros D (t' & [= <-] & Ht) ?. lia.
  - exists true, w. split_and!; [done|reflexivity|]. by intros D (? & ? & _).
Qed.

Lemma GenerateKey_idle p w : faults (os w) = [] → is_Some (node_at w p) → idle (GenerateKey p) w.
Proof.
  intros Hf Hn. exists w. split; [|reflexivity]. unfold GenerateKey.
  rewrite (bind_Return _ _ _ _ _ (Exists_none w p Hf)). by rewrite bool_decide_true.
Qed.

Lemma Bootstrap_idle api w : is_Some (Keygrant (comp w)) → idle (Bootstrap api) w.
Proof.
  intros [g Hg]. destruct (CanRetry_passes api w) as (b & w' & E & Hp & _). exists w'. split; [|done].
  unfold Bootstrap. rewrite (bind_Return _ _ _ _ _ E). destruct b; [|done]. cbn [negb].
  erewrite bind_Return by reflexivity. apply passes_inv in Hp as [-> _]. by rewrite Hg.
Qed.

Lemma needsRefresh_passes da info w :
  faults (os w) = [] → ∃ b w', needsRefresh da info w = (Return b, w') ∧ passes w w' ∧
    (∀ D, fresh D w (Path da) (Refresh da) → horizon w ≤ D → - maxDuration ≤ Refresh da → b = false).
Proof.
  intros Hf. unfold needsRefresh. rewrite (bind_Return _ _ _ _ _ (os_Stat_none w (Path da) Hf)). unfold fresh.
  destruct (node_at w (Path da)) as [n|].
  - destruct (time_Now_passes w) as (t & w' & E & Hp & Ht). rewrite (bind_Return _ _ _ _ _ E).
    exists (Refresh da <? time_Sub t (ModTime n)), w'. split_and!; [done|done|].
    intros D (c & m & t' & [= ->] & Hr) HD Hd. simpl. unfold time_Sub. lia.
  - exists true, w. split_and!; [done|reflexivity|]. by intros D (? & ? & ? & ? & _).
Qed.
Lemma Download_fresh D da fetch info w :
  faults (os w) = [] → horizon w ≤ D → fresh D w (Path da) (Refresh da) → 0 ≤ Refresh da → idle (Download da fetch info) w.
Proof.
  intros Hf HD Hfr Hd. unfold Download, idle.
  match goal with |- context [needsRefresh da ?i] => destruct (needsRefresh_passes da i w Hf) as (b & w' & E & Hp & Hb) end.
  rewrite (bind_Return _ _ _ _ _ E), (Hb D) by (done || (unfold maxDuration; lia)). exists w'. by split.
Qed.
Lemma DownloadFromAPI_refused D api path period mode w :
  faults (os w) = [] → horizon w ≤ D → refused D w api → idle (DownloadFromAPI api path period mode) w.
Proof.
  intros Hf HD Hr. unfold DownloadFromAPI, Download, idle. simpl.
  match goal with |- context [needsRefresh ?da ?i] => destruct (needsRefresh_passes da i w Hf) as (b & w1 & E & Hp & _) end.
  rewrite (bind_Return _ _ _ _ _ E). destruct b; [|exists w1; by split].
  destruct (CanRetry_passes api w1) as (b & w2 & E2 & Hp2 & Hb). exists w2. split; [|by etrans].
  unfold refresh. apply passes_inv in Hp as (Hc & _ & _ & _ & _ & Hh).
  rewrite (Hb D) in E2; [|by destruct Hr as (t & Hr & Ht); exists t; rewrite Hc|by rewrite Hh].
  rewrite (bind_Return _ _ _ (Ok tt) w2); [done|]. rewrite (try_bind_Ok _ _ _ "" w2); [done|].
  by rewrite (bind_Return _ _ _ _ _ E2).
Qed.

Lemma ReloadHostnameFrom_idle p w : faults (os w) = [] → named w p → idle (ReloadHostnameFrom p) w.
Proof.
  intros Hf (c & m & t & conf & Hn & Hc & Hh). exists w. split; [|reflexivity].
  unfold ReloadHostnameFrom. rewrite (bind_Return _ _ _ (Ok tt) w); [done|]. unfold performReload.
  rewrite (bind_Return _ _ _ (Ok conf) w).
  - rewrite Hh, (try_bind_Ok _ _ _ (host_name (os w)) w); [by rewrite bool_decide_true|].
    unfold os_Hostname. by rewrite syscall_none.
  - unfold readConfig. rewrite (try_bind_Ok _ _ _ c w); [by rewrite <- Hc|by rewrite (ReadFile_none w p Hf), Hn].
Qed.

Lemma Act_idle D ra w :
  faults (os w) = [] → horizon w ≤ D → refused D w (act_API ra) ∨ valid_cert D w (CheckExpiration ra) (CertFile ra) (InAdvance ra) →
  idle (Act ra) w.
Proof.
  intros Hf HD Hor. unfold Act, idle. destruct (CanRetry_passes (act_API ra) w) as (b & w1 & E & Hp & Hb).
  rewrite (bind_Return _ _ _ _ _ E). destruct b; [|exists w1; by split]. cbn [negb].
  destruct Hor as [Hr|(c & m & t & e & Hn & Hc & He)]; [by apply Hb in Hr|].
  destruct (passes_inv _ _ Hp) as (_ & Hfs & Hfl & _ & _ & Hh).
  destruct (time_Now_passes w1) as (n & w2 & E2 & Hp2 & Ht2). exists w2. split; [|by etrans].
  rewrite (bind_Return _ _ _ false w2); [done|]. unfold shouldRegenerate. rewrite (bind_Return _ _ _ (Ok c) w1).
  - rewrite Hc, (bind_Return _ _ _ _ _ E2). by replace (n <? e - InAdvance ra) with true by lia.
  - rewrite ReadFile_none by congruence. unfold node_at in *. by rewrite Hfs, Hn.
Qed.
End idle.

(** ** Refusals *)

Section refusals.
Context `{PkgErrors} `{Crypto} {N : Type} `{!Network N}.
Implicit Types w : World (Client N).

(** The error that [OperationForbidden] arrives as is a wrapper of it. *)
Lemma SendRequest_foreign {X} `{!Network X} e api body (w w' : World X) err :
  SendRequest (authenticated e) api body w = (Return (Err err), w') → is_forbidden err = false.
Proof.
  assert (Hnat : ∀ err, native err = false → is_forbidden err = false) by (by intros []).
  unfold SendRequest, try_bind. intros (r & w1 & Hs & Hr)%bind_inv.
  destruct r as [strs|err1]; [destruct strs as [|? []]; [|done|]; by injection Hr as <- _|]. injection Hr as <- _.
  simpl in Hs. unfold try_bind in Hs. apply bind_inv in Hs as (r & w2 & Hp & Hs). destruct r as [outs|err2].
  - case_bool_decide; [|done]. injection Hs as <- _. apply Hnat, errors_New_foreign.
  - injection Hs as <- _. unfold PostJSON, try_bind_with in Hp. apply bind_inv in Hp as (r & w3 & _ & Hp).
    destruct r as [out|err3]; [destruct (Unmarshal_strings out); [done|]|]; injection Hp as <- _; apply Hnat, wrap_foreign.
Qed.

Lemma Act_RetryAt ra :
  (∀ k, keeps (mem_same RetryAt) (GenCSR ra k)) → keeps (mem_same RetryAt) (Act (N:=N) ra).
Proof.
  intros Hg. assert (Hs : ∀ csr, keeps (mem_same RetryAt) (requestSignature (N:=N) ra csr)).
  { intros csr w. unfold requestSignature. unfold mbind at 1, M_bind at 1. simpl. destruct (Keygrant (comp w)) as [g|]; [|done].
    unfold mbind at 1, M_bind at 1. simpl.
    pose proof (request_mem RetryAt (WithCertificate (cs_Keyserver (comp w)) g) (act_API ra) csr ltac:(done) w) as Hm.
    destruct (SendRequest _ _ _ w) as [[r| |] w1] eqn:E; unfold mbind at 1, M_bind at 1; rewrite E; [|done..].
    destruct r as [cert|err]; [case_bool_decide; done|]. rewrite (SendRequest_foreign _ _ _ _ _ _ E). done. }
  unfold Act, shouldRegenerate, regenerate, generateCSR, checkReload, ReloadKeygrantingCert, CanRetry, Blocked. os_frame.
Qed.

(** requesting a certificate never records a refusal: whatever the server answers, the times
    before which an API is not asked again stay as they are, because the error's
    type is tested without taking its cause; so a request that was refused is made
    again in the next cycle. *)
Theorem RequestOrRenew_forgets_refusals key cert api inadvance w :
  RetryAt (comp (RequestOrRenewTLSKey key cert api inadvance w).2) = RetryAt (comp w) ∧
  RetryAt (comp (RequestOrRenewSSHKey key cert api inadvance w).2) = RetryAt (comp w).
Proof.
  split; symmetry; refine (Act_RetryAt _ _ w); intros k; simpl; os_frame.
Qed.

(** C35: a download does record it: when the server refuses the API with status 403, the time is
    set to twelve hours later at least, and until then every download from that API
    only reads the clock, whatever the file's state. *)
Theorem fetchAPI_remembers_refusals api keygrant e w w1 w2 :
  CanRetry api w = (Return true, w1) → Keygrant (comp w) = Some keygrant →
  SendRequest (authenticated (WithCertificate (cs_Keyserver (comp w)) keygrant)) api "" w1 = (Return (Err e), w2) →
  errors_Cause e = OperationForbidden →
  ∃ w' t, (fetchAPI api).1 w = (Return (Err e), w') ∧ now (os w2) ≤ t ∧
    ∀ w'' path period mode, RetryAt (comp w'') = RetryAt (comp w') → faults (os w'') = [] →
      horizon w'' ≤ t + RetryAfter → idle (DownloadFromAPI api path period mode) w''.
Proof.
  intros Hc Hg Hs He. pose proof (CanRetry_quiet api w) as [_ Hq]. rewrite Hc in Hq. simpl in Hq.
  destruct (time_Now_passes w2) as (t & w3 & E & _ & Ht).
  exists (on_comp (λ c, with_RetryAt (<[api := t + RetryAfter]> (RetryAt c)) c) w3), t. split_and!.
  - unfold fetchAPI. simpl. rewrite (bind_Return _ _ _ _ _ Hc). cbn [negb].
    erewrite bind_Return by reflexivity. rewrite Hq, Hg. erewrite bind_Return by reflexivity. rewrite Hq.
    simpl. rewrite (bind_Return _ _ _ _ _ Hs), He. simpl.
    erewrite bind_Return; [reflexivity|]. unfold RetryFailed. by rewrite (bind_Return _ _ _ _ _ E).
  - lia.
  - intros w'' path period mode HR Hf Hh. apply (DownloadFromAPI_refused (t + RetryAfter)); [done..|].
    exists (t + RetryAfter). rewrite HR. simpl. by rewrite lookup_insert_eq.
Qed.
End refusals.

(** A server that refuses. *)
Definition refusing : World (Client Net) := client_world ∅ (Some ([], node_key)) [Ok (403, Ok "")].
Definition refused_request : outcome (result string) * World (Client Net) :=
  SendRequest (authenticated (WithCertificate sample_endpoint ([], node_key))) "get-local-config" "" refusing.

Lemma fetchAPI_remembers_refusals_witness :
  ∃ e w' t, (fetchAPI "get-local-config").1 refusing = (Return (Err e), w') ∧ 0 ≤ t ∧
    idle (DownloadFromAPI "get-local-config" "/etc/f" 1 420) w'.
Proof.
  assert (H1 : CanRetry "get-local-config" refusing = (Return true, refusing)) by (vm_compute; reflexivity).
  assert (H2 : refused_request = (Return (Err (wrap OperationForbidden "while posting request")), refused_request.2))
    by (vm_compute; reflexivity).
  destruct (fetchAPI_remembers_refusals "get-local-config" ([], node_key) _ refusing refusing refused_request.2
    H1 eq_refl H2 eq_refl) as (w' & t & E & Ht & Hi).
  eexists _, w', t. split; [exact E|].
  assert (Hw : horizon w' = 1000 ∧ faults (os w') = [] ∧ now (os refused_request.2) = 1000).
  { replace w' with ((fetchAPI "get-local-config").1 refusing).2 by (rewrite E; reflexivity).
    split_and!; vm_compute; reflexivity. }
  destruct Hw as (H3 & H4 & H5). rewrite H5 in Ht. split; [lia|].
  apply Hi; [reflexivity|exact H4|]. rewrite H3. unfold RetryAfter, Second. lia.
Defined.
