(* ===== verification/Converge.v ===== *)
(** * The key client daemon: worldconfig/keyclient.go, actloop, setup

    The list of actions that one cycle runs, the loop that runs the cycles, and
    the start of the daemon. *)

From S2P Require Import Prelude GoStrings GoNet GoOS FileUtil Paths GoErrors GoCodec GoJSON GoCrypto CertUtil GoTime Authorities KsState Token Operation WorldConfig Api Samples KeyClient KeyActions.
#[export] Set Default Goal Selector "!".

(** ** worldconfig/keyclient.go *)

Definition Minute : Z := 60 * Second.

Section converge.
Context `{PkgErrors} `{Crypto} {N : Type} `{!Network N}.
Abbreviation MC := (M (World (Client N))).

Definition TLSKey (key cert api : string) (inadvance : Z) : MC unit :=
  _ ← GenerateKey key;
  RequestOrRenewTLSKey key cert api inadvance.

Definition ConvergeState : MC unit :=
  _ ← GenerateKey GrantingKeyPath;
  _ ← Bootstrap RenewKeygrantAPI;
  _ ← DownloadAuthority KubernetesAuthority KubernetesCAPath OneDay;
  _ ← DownloadAuthority ClusterCAAuthority "/usr/local/share/ca-certificates/extra/cluster.tls.crt" OneDay;
  _ ← DownloadAuthority SSHUserAuthority "/etc/ssh/ssh_user_ca.pub" OneWeek;
  _ ← DownloadStatic ClusterConfStatic ClusterConfPath OneDay;
  _ ← DownloadFromAPI LocalConfAPI LocalConfPath OneDay 420;
  _ ← ReloadHostnameFrom LocalConfPath;
  _ ← DownloadAuthority ServiceAccountAuthority "/etc/homeworld/keys/serviceaccount.pem" OneDay;
  _ ← DownloadAuthority EtcdClientAuthority "/etc/homeworld/authorities/etcd-client.pem" OneDay;
  _ ← DownloadAuthority EtcdServerAuthority "/etc/homeworld/authorities/etcd-server.pem" OneDay;
  _ ← DownloadFromAPI FetchServiceAccountKeyAPI "/etc/homeworld/keys/serviceaccount.key" OneDay 384;
  _ ← TLSKey "/etc/homeworld/keyclient/granting.key" "/etc/homeworld/keyclient/granting.pem"
        RenewKeygrantAPI (2 * OneWeek);
  _ ← RequestOrRenewSSHKey "/etc/ssh/ssh_host_rsa_key.pub" "/etc/ssh/ssh_host_rsa_cert" SignSSHHostKeyAPI OneWeek;
  _ ← TLSKey KubernetesWorkerKey KubernetesWorkerCert SignKubernetesWorkerAPI OneWeek;
  _ ← TLSKey KubernetesSupervisorKey KubernetesSupervisorCert SignKubernetesSupervisorAPI OneWeek;
  _ ← TLSKey "/etc/homeworld/ssl/homeworld.private.key" "/etc/homeworld/ssl/homeworld.private.pem"
        SignRegistryHostAPI OneWeek;
  _ ← TLSKey KubernetesMasterKey KubernetesMasterCert SignKubernetesMasterAPI OneWeek;
  _ ← TLSKey KubernetesCtrlMgrKey KubernetesCtrlMgrCert SignKubernetesCtrlMgrAPI OneWeek;
  _ ← TLSKey KubernetesProxyKey KubernetesProxyCert SignKubernetesProxyAPI OneWeek;
  _ ← TLSKey KubernetesSchedulerKey KubernetesSchedulerCert SignKubernetesSchedulerAPI OneWeek;
  _ ← TLSKey "/etc/homeworld/keys/etcd-server.key" "/etc/homeworld/keys/etcd-server.pem" SignEtcdServerAPI OneWeek;
  TLSKey "/etc/homeworld/keys/etcd-client.key" "/etc/homeworld/keys/etcd-client.pem" SignEtcdClientAPI OneWeek.

(** ** actloop/actloop.go *)

(** The flag that stops the loop, under its lock, and what the loop reads of it when [Cancel] is
    called before some of the rounds. *)
Record ActLoop := mkActLoop { shouldStop : bool }.
Definition NewActLoop : ActLoop := mkActLoop false.
Definition Cancel (m : ActLoop) : ActLoop := mkActLoop true.
Definition IsCancelled (m : ActLoop) : bool := shouldStop m.
Fixpoint readings (m : ActLoop) (cancels : list bool) : list bool :=
  match cancels with
  | [] => []
  | c :: cancels => let m := if (c : bool) then Cancel m else m in IsCancelled m :: readings m cancels
  end.

(** A new context, for each cycle. *)
Definition NewActionContext : MC unit := modify (on_comp (λ c, with_Performed false (with_BlockedBy [] c))).

(** What a cycle that performed nothing reports the first time. *)
Definition report_stable (onReady : option (MC unit)) : MC unit :=
  blocked ← gets (λ w, BlockedBy (comp w));
  if bool_decide (blocked ≠ [])
  then
    _ ← log_Print ("ACTLOOP BLOCKED (" +:+ FormatInt (Z.of_nat (length blocked)) +:+ ")");
    _ ← for_all (λ blockerr, log_Print ("actloop blocked by: " +:+ Error blockerr)) blocked;
    log_Print "ACTLOOP BLOCKED BUT STABLE"
  else
    _ ← log_Print "ACTLOOP STABLE";
    match onReady with Some onReady => onReady | None => mret tt end.

(** One round of the loop; the result is the next [wasStabilized]. *)
Definition cycle (actions : MC unit) (cycletime pausetime : Z) (onReady : option (MC unit))
    (wasStabilized : bool) : MC bool :=
  _ ← NewActionContext;
  _ ← actions;
  performed ← gets (λ w, Performed (comp w));
  _ ← (if (performed : bool) then time_Sleep cycletime
       else
         _ ← (if negb wasStabilized then report_stable onReady else mret tt);
         time_Sleep pausetime);
  mret (negb performed).

(** The loop, given what [IsCancelled] answers in each round: [true] when it has
    returned, [false] when it goes on after the rounds given. *)
Fixpoint run_loop (actions : MC unit) (cycletime pausetime : Z) (onReady : option (MC unit))
    (wasStabilized : bool) (stops : list bool) : MC bool :=
  match stops with
  | [] => mret false
  | true :: _ => mret true
  | false :: stops =>
      wasStabilized ← cycle actions cycletime pausetime onReady wasStabilized;
      run_loop actions cycletime pausetime onReady wasStabilized stops
  end.
Definition Run (actions : MC unit) (cycletime pausetime : Z) (onReady : option (MC unit))
    (m : ActLoop) (cancels : list bool) : MC bool :=
  run_loop actions cycletime pausetime onReady false (readings m cancels).

(** ** setup/load.go, keyclient.go *)

Definition notifyReady : MC unit :=
  err ← exec_Run ["systemd-notify"; "--ready"];
  match err with
  | Err err => log_Print ("failed to notify systemd of readiness: " +:+ Error err)
  | Ok _ => mret tt
  end.

Definition NewClientState (keyserver : ServerEndpoint) : MC (option error) :=
  _ ← modify (on_comp (λ c, mkClientMem keyserver None ∅ (BlockedBy c) (Performed c) (outside c)));
  warning ← ReloadKeygrantingCert;
  mret (match warning with
        | Err warning => Some (wrap warning "keygranting cert not yet available")
        | Ok _ => None
        end).

(** The goroutine that it starts is the only one that goes on: it is run here. *)
Definition LoadAndLaunchDefault (actions : MC unit) (cancels : list bool) : MC (result bool) :=
  ks ←[λ e, wrap e "while preparing setup"] LoadDefaultKeyserver;
  warning ← NewClientState ks;
  _ ← match warning with Some warning => log_Print (Error warning) | None => mret tt end;
  r ← Run actions (Second * 2) (Minute * 5) (Some notifyReady) NewActLoop cancels;
  ok r.

Definition keyclient_main (cancels : list bool) : MC bool :=
  err ← LoadAndLaunchDefault ConvergeState cancels;
  match err with
  | Err err => _ ← log_Print (Error err); exit 1
  | Ok r => mret r
  end.
End converge.

(** ** What a cycle does to the node *)

(** The private keys that the node makes for itself. *)
Definition private_keys : list string :=
  [GrantingKeyPath; KubernetesWorkerKey; KubernetesSupervisorKey; "/etc/homeworld/ssl/homeworld.private.key";
   KubernetesMasterKey; KubernetesCtrlMgrKey; KubernetesProxyKey; KubernetesSchedulerKey;
   "/etc/homeworld/keys/etcd-server.key"; "/etc/homeworld/keys/etcd-client.key"].
(** The files that it gets from the key server, and the token that it uses up. *)
Definition fetched_files : list string :=
  [BootstrapTokenPath; GrantingCertPath; KubernetesCAPath; "/usr/local/share/ca-certificates/extra/cluster.tls.crt";
   "/etc/ssh/ssh_user_ca.pub"; ClusterConfPath; LocalConfPath; "/etc/homeworld/keys/serviceaccount.pem";
   "/etc/homeworld/authorities/etcd-client.pem"; "/etc/homeworld/authorities/etcd-server.pem";
   "/etc/homeworld/keys/serviceaccount.key"; "/etc/ssh/ssh_host_rsa_cert"; KubernetesWorkerCert;
   KubernetesSupervisorCert; "/etc/homeworld/ssl/homeworld.private.pem"; KubernetesMasterCert;
   KubernetesCtrlMgrCert; KubernetesProxyCert; KubernetesSchedulerCert;
   "/etc/homeworld/keys/etcd-server.pem"; "/etc/homeworld/keys/etcd-client.pem"].

Abbreviation is_key := (λ q, q ∈ private_keys).
Abbreviation is_fetched := (λ q, q ∈ fetched_files).
Lemma keys_not_fetched q : q ∈ private_keys → q ∉ fetched_files.
Proof.
  intros Hq. refine (proj1 (Forall_forall (λ q, q ∉ fetched_files) private_keys) _ q Hq).
  apply (bool_decide_unpack _). vm_compute. exact I.
Qed.

Ltac is_listed := apply (bool_decide_unpack _); vm_compute; exact I.

Section safety.
Context `{PkgErrors} `{Crypto} {N : Type} `{!Network N} `{!LocalNetwork N}.

Lemma DownloadAuthority_acts a p t :
  path_Clean p ∈ fetched_files → keeps (acts is_key is_fetched) (DownloadAuthority (N:=N) a p t).
Proof. intros Hp. apply Download_acts; [done|]. apply fetchAuthority_acts. Qed.
Lemma DownloadStatic_acts a p t :
  path_Clean p ∈ fetched_files → keeps (acts is_key is_fetched) (DownloadStatic (N:=N) a p t).
Proof. intros Hp. apply Download_acts; [done|]. apply fetchStatic_acts. Qed.
Lemma DownloadFromAPI_acts a p t m :
  path_Clean p ∈ fetched_files → keeps (acts is_key is_fetched) (DownloadFromAPI (N:=N) a p t m).
Proof. intros Hp. apply Download_acts; [done|]. apply fetchAPI_acts. Qed.
Lemma TLSKey_acts k c api t :
  path_Clean k ∈ private_keys → path_Clean c ∈ fetched_files →
  keeps (acts is_key is_fetched) (TLSKey (N:=N) k c api t).
Proof.
  intros Hk Hc. unfold TLSKey. apply keeps_bind; [exact _|by apply GenerateKey_acts|]. intros _.
  by apply RequestOrRenewTLSKey_acts.
Qed.

Lemma ConvergeState_acts : keeps (acts is_key is_fetched) (ConvergeState (N:=N)).
Proof.
  unfold ConvergeState.
  repeat match goal with |- keeps _ (_ ≫= _) => apply keeps_bind; [exact _| |intros _] end;
    match goal with
    | |- keeps _ (GenerateKey _) => apply GenerateKey_acts; is_listed
    | |- keeps _ (TLSKey _ _ _ _) => apply TLSKey_acts; is_listed
    | |- keeps _ (Bootstrap _) => apply Bootstrap_acts; is_listed
    | |- keeps _ (DownloadAuthority _ _ _) => apply DownloadAuthority_acts; is_listed
    | |- keeps _ (DownloadStatic _ _ _) => apply DownloadStatic_acts; is_listed
    | |- keeps _ (DownloadFromAPI _ _ _ _) => apply DownloadFromAPI_acts; is_listed
    | |- keeps _ (ReloadHostnameFrom _) => apply ReloadHostnameFrom_acts
    | |- keeps _ (RequestOrRenewSSHKey _ _ _ _) => apply RequestOrRenewSSHKey_acts; is_listed
    end.
Qed.

Lemma ConvergeState_safe : safe wired (ConvergeState (N:=N)).
Proof.
  assert (HG : ∀ p, safe wired (GenerateKey (N:=N) p)).
  { intros p. apply acts_safe; [by apply GenerateKey_acts|apply GenerateKey_returns]. }
  assert (HT : ∀ k c api t, safe wired (TLSKey (N:=N) k c api t)).
  { intros. apply safe_bind; [done|]. intros _. apply RequestOrRenewTLSKey_safe. }
  unfold ConvergeState. repeat match goal with |- safe _ (_ ≫= _) => apply safe_bind; [|intros _] end;
    match goal with
    | |- safe _ (GenerateKey _) => apply HG
    | |- safe _ (TLSKey _ _ _ _) => apply HT
    | |- safe _ (Bootstrap _) => apply acts_safe; [by apply Bootstrap_acts|apply Bootstrap_returns]
    | |- safe _ (DownloadAuthority _ _ _) => apply Download_safe, fetchAuthority_safe
    | |- safe _ (DownloadStatic _ _ _) => apply Download_safe, fetchStatic_safe
    | |- safe _ (DownloadFromAPI _ _ _ _) => apply Download_safe, fetchAPI_safe
    | |- safe _ (ReloadHostnameFrom _) => apply ReloadHostnameFrom_safe
    | |- safe _ (RequestOrRenewSSHKey _ _ _ _) => apply RequestOrRenewSSHKey_safe
    end.
Qed.
End safety.

(** ** The cycle, on every network *)

Section cycle.
Context `{PkgErrors} `{Crypto} {N : Type} `{!Network N} `{!LocalNetwork N}.
Implicit Types w : World (Client N).

(** What the daemon never does, in any number of cycles. *)
Definition preserved w w' : Prop := disk is_key is_fetched w w' ∧ later w w' ∧ cs_Keyserver (comp w') = cs_Keyserver (comp w) ∧
  (is_Some (Keygrant (comp w)) → is_Some (Keygrant (comp w'))).
#[export] Instance preserved_preorder : PreOrder preserved.
Proof.
  split; [intros w; by split_and!|]. intros w1 w2 w3 (?&?&E&?) (?&?&E'&?).
  split_and!; [by etrans|by etrans|by rewrite E'|auto].
Qed.
Lemma acts_preserved w w' : acts is_key is_fetched w w' → preserved w w'.
Proof. intros (Hd & Hl & Hk & Hg & _). by split_and!. Qed.
Lemma os_preserved {A} (m : M (World (Client N)) A) :
  keeps os_only m → keeps later m → keeps same_fs m → keeps preserved m.
Proof. intros Ho Hl Hf w. apply acts_preserved. apply os_acts; [done..|]. by apply same_files_only. Qed.

(** C5: whatever the key server and the machine answer, one cycle of the daemon ends without a
    panic. A private key on the disk is never changed or removed; outside of the keys
    that the node makes for itself and of the files that it fetches, no file is
    made, changed or removed; and a granting certificate in memory is never lost. *)
Theorem ConvergeState_spec w :
  wired w →
  ∃ w', ConvergeState w = (Return tt, w') ∧ wired w' ∧ now (os w) ≤ now (os w') ∧
    (is_Some (Keygrant (comp w)) → is_Some (Keygrant (comp w'))) ∧
    (∀ q n, q ∈ private_keys → is_file (Some n) = true → fs (os w) !! q = Some n → fs (os w') !! q = Some n) ∧
    (∀ q n, q ∉ private_keys → q ∉ fetched_files → is_file (Some n) = true →
       fs (os w') !! q = Some n ↔ fs (os w) !! q = Some n).
Proof.
  intros Hw. destruct (ConvergeState_safe w Hw) as ([] & w' & E & Hw').
  pose proof (ConvergeState_acts w) as (Hd & Hl & _ & Hg & _). rewrite E in Hd, Hl, Hg. simpl in *.
  exists w'. split_and!; [done..| |].
  - intros q n Hq Hn. apply Hd; [done|by apply keys_not_fetched].
  - intros q n Hk Hf Hn. destruct (Hd q n Hn Hf) as [H1 H2]. split; [by apply H2|done].
Qed.

Lemma NewActionContext_preserved : keeps preserved (NewActionContext (N:=N)).
Proof. intros w. split_and!; [by intros ???|unfold later; simpl; lia|done|done]. Qed.
Lemma preserved_wired w w' : preserved w w' → wired w → wired w'.
Proof. unfold wired. by intros (_ & _ & -> & _). Qed.
Lemma preserved_safe {A} (m : M (World (Client N)) A) : keeps preserved m → returns m → safe wired m.
Proof. apply safe_keeps. apply preserved_wired. Qed.

Lemma notifyReady_os : keeps os_only (notifyReady (N:=N)) ∧ keeps later (notifyReady (N:=N)) ∧
  keeps same_fs (notifyReady (N:=N)) ∧ returns (notifyReady (N:=N)).
Proof. unfold notifyReady. split_and!; os_frame. Qed.
Lemma report_ready_os :
  keeps os_only (report_stable (N:=N) (Some notifyReady)) ∧ keeps later (report_stable (N:=N) (Some notifyReady)) ∧
  keeps same_fs (report_stable (N:=N) (Some notifyReady)) ∧ returns (report_stable (N:=N) (Some notifyReady)).
Proof. destruct notifyReady_os as (?&?&?&?). unfold report_stable. split_and!; os_frame. Qed.

(** One cycle takes as long as the daemon sleeps in it, at least. *)
Lemma cycle_total cycletime pausetime b w :
  wired w → 0 ≤ cycletime → 0 ≤ pausetime →
  ∃ b' w', cycle ConvergeState cycletime pausetime (Some notifyReady) b w = (Return b', w') ∧
    wired w' ∧ preserved w w' ∧ now (os w) + Z.min cycletime pausetime ≤ now (os w').
Proof.
  intros Hw Hc Hp. unfold cycle. pose proof (NewActionContext_preserved w) as H0'.
  erewrite bind_Return by reflexivity. set (w0 := on_comp _ w). change (preserved w w0) in H0'.
  assert (Hw0 : wired w0) by done. destruct (ConvergeState_safe w0 Hw0) as ([] & w1 & E1 & Hw1).
  pose proof (acts_preserved _ _ (ConvergeState_acts w0)) as H1. rewrite E1 in H1. simpl in H1.
  rewrite (bind_Return _ _ _ _ _ E1). erewrite bind_Return by reflexivity.
  assert (Hs : ∀ d w2, wired w2 → ∃ w3, time_Sleep d w2 = (Return tt, w3) ∧ wired w3 ∧ preserved w2 w3 ∧
    now (os w3) = now (os w2) + Z.max 0 d).
  { intros d w2 Hw2. eexists. split; [done|]. split; [done|]. split; [|done].
    split_and!; [by intros ???|unfold later; simpl; lia|done|done]. }
  destruct (Performed (comp w1)).
  - destruct (Hs cycletime w1 Hw1) as (w2 & E2 & Hw2 & H2 & Ht). rewrite (bind_Return _ _ _ _ _ E2).
    exists false, w2. split_and!; [done|done|by do 2 (etrans; [done|])|].
    destruct H0' as (_ & L0 & _), H1 as (_ & L1 & _). unfold later in *. lia.
  - assert (Hr : ∃ w2, (if negb b then report_stable (Some notifyReady) else mret tt) w1 = (Return tt, w2) ∧
      wired w2 ∧ preserved w1 w2).
    { destruct report_ready_os as (Ho & Hl & Hf & Hr). destruct b; [by exists w1|]. cbn [negb].
      destruct (Hr w1) as [[] E]. pose proof (os_preserved _ Ho Hl Hf w1) as Hpr.
      destruct (report_stable _ w1) as [o w2] eqn:E2. simpl in *. subst. exists w2. split_and!; [done| |done].
      by eapply preserved_wired. }
    destruct Hr as (w2 & E2 & Hw2 & H2). destruct (Hs pausetime w2 Hw2) as (w3 & E3 & Hw3 & H3 & Ht).
    rewrite (bind_Return _ _ _ tt w3) by (by rewrite (bind_Return _ _ _ _ _ E2)).
    exists true, w3. split_and!; [done|done|by do 3 (etrans; [done|])|].
    destruct H0' as (_ & L0 & _), H1 as (_ & L1 & _), H2 as (_ & L2 & _). unfold later in *. lia.
Qed.

(** The rounds that the loop makes before it is told to stop. *)
Fixpoint rounds (stops : list bool) : Z :=
  match stops with false :: l => 1 + rounds l | _ => 0 end.

Lemma readings_rounds cancels :
  existsb id (readings NewActLoop cancels) = existsb id cancels ∧ rounds (readings NewActLoop cancels) = rounds cancels.
Proof. induction cancels as [|[] l [IH1 IH2]]; simpl; [done..|]. unfold NewActLoop in *. by rewrite IH1, IH2. Qed.

Lemma run_loop_total cycletime pausetime stops b w :
  wired w → 0 ≤ cycletime → 0 ≤ pausetime →
  ∃ w', run_loop ConvergeState cycletime pausetime (Some notifyReady) b stops w
      = (Return (existsb id stops), w') ∧
    preserved w w' ∧ now (os w) + rounds stops * Z.min cycletime pausetime ≤ now (os w').
Proof.
  intros Hw Hc Hp. revert b w Hw. induction stops as [|c l IH]; intros b w Hw; simpl.
  { exists w. split_and!; [done|reflexivity|lia]. }
  destruct c; simpl; [exists w; split_and!; [done|reflexivity|lia]|].
  destruct (cycle_total cycletime pausetime b w Hw Hc Hp) as (b' & w1 & E & Hw1 & Hp1 & Ht).
  destruct (IH b' w1 Hw1) as (w2 & E2 & Hp2 & Ht2). exists w2. rewrite (bind_Return _ _ _ _ _ E).
  split_and!; [done|by etrans|lia].
Qed.

Lemma LoadDefaultKeyserver_os :
  keeps os_only (LoadDefaultKeyserver (X:=Client N)) ∧ keeps later (LoadDefaultKeyserver (X:=Client N)) ∧
  keeps same_fs (LoadDefaultKeyserver (X:=Client N)) ∧ returns (LoadDefaultKeyserver (X:=Client N)).
Proof. unfold LoadDefaultKeyserver, GetKeyserver. split_and!; os_frame. Qed.
Lemma LoadDefaultKeyserver_client w w' ks :
  LoadDefaultKeyserver w = (Return (Ok ks), w') → is_Some (client ks).
Proof.
  unfold LoadDefaultKeyserver. intros (d & w1 & _ & H1)%try_bind_with_Ok_inv.
  apply try_bind_with_Ok_inv in H1 as (h & w2 & _ & H1). injection H1 as H1 _. unfold NewKeyserver in H1.
  destruct (LoadX509CertFromPEM d); [|done]. unfold NewServerEndpoint in H1. case_bool_decide; [done|].
  destruct (negb _); [done|]. injection H1 as <-. by eexists.
Qed.

Lemma NewClientState_run ks w :
  is_Some (client ks) → ∃ e w', NewClientState ks w = (Return e, w') ∧ wired w' ∧ fs (os w') = fs (os w) ∧ later w w'.
Proof.
  intros Hk. unfold NewClientState. erewrite bind_Return by reflexivity. set (w0 := on_comp _ w).
  pose proof (ReloadKeygrantingCert_acts (λ _, False) (λ _, False) w0) as (_ & Hl & Hg).
  assert (Hf : keeps same_fs (ReloadKeygrantingCert (N:=N))) by (unfold ReloadKeygrantingCert; os_frame).
  specialize (Hf w0). destruct (ReloadKeygrantingCert_returns w0) as [r Hr].
  destruct (ReloadKeygrantingCert w0) as [o w1] eqn:E. simpl in *. subst o. rewrite (bind_Return _ _ _ _ _ E).
  do 2 eexists. split; [done|]. split_and!; [by destruct Hg as [Hg _]; unfold wired; rewrite Hg|by symmetry|done].
Qed.

(** C9: the daemon never panics, whatever is on the machine and whatever the network does. It
    exits with status 1 exactly when the server's certificate or name cannot be loaded,
    with the reason in the log and no file changed. Otherwise (a granting certificate that
    is missing is no reason to stop) it runs until it is told to stop, and only then
    returns. In all its rounds no private key is changed or removed and no file but the
    keys and the fetched files is touched; it sleeps two seconds at least in each. *)
Theorem keyclient_main_spec cancels w :
  ∃ r w1 o w', LoadDefaultKeyserver w = (Return r, w1) ∧ keyclient_main cancels w = (o, w') ∧
    disk is_key is_fetched w w' ∧
    match r with
    | Err e => o = Exit 1 ∧ fs (os w') = fs (os w) ∧
               logged (os w') = Error (wrap e "while preparing setup") :: logged (os w1)
    | Ok _ => o = Return (existsb id cancels) ∧ now (os w) + rounds cancels * (2 * Second) ≤ now (os w')
    end.
Proof.
  unfold keyclient_main, LoadAndLaunchDefault.
  destruct LoadDefaultKeyserver_os as (_ & Hl & Hf & Hr). destruct (Hr w) as [r E]. specialize (Hl w). specialize (Hf w).
  destruct (LoadDefaultKeyserver w) as [o w1] eqn:E1. simpl in *. subst o. exists r, w1. destruct r as [ks|e].
  - destruct (NewClientState_run ks w1 (LoadDefaultKeyserver_client _ _ _ E1)) as (warning & w2 & E2 & Hw2 & Hf2 & Hl2).
    set (w3 := match warning with Some e => on_os (λ o, with_log (Error e :: logged o) o) w2 | None => w2 end).
    assert (E3 : match warning with Some e => log_Print (Error e) | None => mret tt end w2 = (Return tt, w3)) by (by destruct warning).
    assert (Hw3 : wired w3 ∧ fs (os w3) = fs (os w) ∧ now (os w) ≤ now (os w3)).
    { unfold later, same_fs, same in *. unfold w3. destruct warning; simpl; (split; [done|]; split; [congruence|lia]). }
    destruct Hw3 as (Hw3 & Hf3 & Hl3). clearbody w3.
    destruct (readings_rounds cancels) as [Hex Hro].
    destruct (run_loop_total (Second * 2) (Minute * 5) (readings NewActLoop cancels) false w3 Hw3 ltac:(done) ltac:(done)) as (w4 & E4 & Hp & Ht).
    rewrite Hex in E4. rewrite Hro in Ht.
    exists (Return (existsb id cancels)), w4. split_and!; [done| | |done|].
    + rewrite (bind_Return _ _ _ (Ok (existsb id cancels)) w4); [done|]. rewrite (try_bind_with_Ok _ _ _ _ _ _ E1), (bind_Return _ _ _ _ _ E2), (bind_Return _ _ _ _ _ E3).
      unfold Run. by rewrite (bind_Return _ _ _ _ _ E4).
    + destruct Hp as [Hd _]. intros q n. rewrite <- Hf3. apply Hd.
    + change (Z.min (Second * 2) (Minute * 5)) with (2 * Second) in Ht. lia.
  - exists (Exit 1), (on_os (λ o, with_log (Error (wrap e "while preparing setup") :: logged o) o) w1). split_and!; [done| | |done|by symmetry|done].
    + erewrite bind_Return; [|by rewrite (try_bind_with_Err _ _ _ _ _ _ E1)]. done.
    + intros q n _ _. simpl. unfold same_fs, same in Hf. by rewrite Hf.
Qed.
End cycle.

Definition bare_world : World (Client Net) := client_world ∅ None [].
Lemma ConvergeState_spec_witness :
  wired bare_world ∧ ∃ w', ConvergeState bare_world = (Return tt, w') ∧ wired w'.
Proof.
  assert (Hw : wired bare_world) by (eexists; reflexivity). split; [exact Hw|].
  destruct (ConvergeState_spec bare_world Hw) as (w' & E & Hw' & _). exists w'. split; [exact E|exact Hw'].
Defined.
(** A machine without the server's certificate, and one that has it but no certificate of its own. *)
Definition setup_world : World (Client Net) :=
  client_world {[ KeyserverTLSCert := File (pem_cert (sample_der ca_key "ca" 0 1000000000000)) 420 0;
                  "/etc/homeworld/config/keyserver.domain" := File ("ks" +:+ newline) 420 0 ]} None [].
Lemma keyclient_main_spec_witness :
  (keyclient_main [false; true] bare_world).1 = Exit 1 ∧ (keyclient_main [false; true] setup_world).1 = Return true ∧
  disk is_key is_fetched setup_world (keyclient_main [false; true] setup_world).2.
Proof.
  destruct (keyclient_main_spec [false; true] bare_world) as (r1 & w1 & o1 & w1' & L1 & E1 & _ & H1).
  destruct (keyclient_main_spec [false; true] setup_world) as (r2 & w2 & o2 & w2' & L2 & E2 & Hd & H2).
  assert (B1 : match (LoadDefaultKeyserver bare_world).1 with Return (Err _) => true | _ => false end = true) by (vm_compute; reflexivity).
  assert (B2 : match (LoadDefaultKeyserver setup_world).1 with Return (Ok _) => true | _ => false end = true) by (vm_compute; reflexivity).
  rewrite L1 in B1. rewrite L2 in B2. destruct r1; [discriminate B1|]. destruct r2; [|discriminate B2].
  rewrite E1, E2. split; [exact (proj1 H1)|]. split; [exact (proj1 H2)|exact Hd].
Defined.
