(* ===== verification/Settled.v ===== *)
(** * The key client daemon at rest

    [worldconfig/keyclient.go] and [actloop/actloop.go] on a node that has all that it is granted:
    the daemon goes on asking for the certificates that it is refused, and does nothing else. *)

From S2P Require Import Prelude GoStrings GoNet GoOS FileUtil Paths GoErrors GoCodec GoCrypto ToyCrypto CertUtil GoTime Authorities KsState Token Operation WorldConfig Api Samples KeyClient KeyActions Converge.
#[export] Set Default Goal Selector "!".

(** ** What the node has *)

(** The files that are fetched from anyone's part of the server, with the period after which they are
    fetched again; those of an API; the certificates, with their keys and the time before their end
    from which they are renewed. *)
Definition server_files : list (string * Z) :=
  [(KubernetesCAPath, OneDay); ("/usr/local/share/ca-certificates/extra/cluster.tls.crt", OneDay);
   ("/etc/ssh/ssh_user_ca.pub", OneWeek); (ClusterConfPath, OneDay);
   ("/etc/homeworld/keys/serviceaccount.pem", OneDay); ("/etc/homeworld/authorities/etcd-client.pem", OneDay);
   ("/etc/homeworld/authorities/etcd-server.pem", OneDay)].
Definition api_files : list (string * string * Z) :=
  [(LocalConfAPI, LocalConfPath, OneDay);
   (FetchServiceAccountKeyAPI, "/etc/homeworld/keys/serviceaccount.key", OneDay)].
Definition node_certs : list (string * string * Z) :=
  [(GrantingCertPath, RenewKeygrantAPI, 2 * OneWeek);
   (KubernetesWorkerCert, SignKubernetesWorkerAPI, OneWeek);
   (KubernetesSupervisorCert, SignKubernetesSupervisorAPI, OneWeek);
   ("/etc/homeworld/ssl/homeworld.private.pem", SignRegistryHostAPI, OneWeek);
   (KubernetesMasterCert, SignKubernetesMasterAPI, OneWeek);
   (KubernetesCtrlMgrCert, SignKubernetesCtrlMgrAPI, OneWeek);
   (KubernetesProxyCert, SignKubernetesProxyAPI, OneWeek);
   (KubernetesSchedulerCert, SignKubernetesSchedulerAPI, OneWeek);
   ("/etc/homeworld/keys/etcd-server.pem", SignEtcdServerAPI, OneWeek);
   ("/etc/homeworld/keys/etcd-client.pem", SignEtcdClientAPI, OneWeek)].
Definition ssh_host_key : string := "/etc/ssh/ssh_host_rsa_key.pub".
Definition ssh_host_cert : string := "/etc/ssh/ssh_host_rsa_cert".

(** How many requests a cycle makes at most: for each file of an API and each certificate. *)
Definition requests : nat := length api_files + length node_certs + 1.

(** The node, with the server [ks] and the granting certificate [g]; the operations [U], that it is
    not granted; the exchanges of them take at most [lag]. *)
Section settled.
Context `{PkgErrors} `{Crypto} {N : Type} `{!Network N}.
Context (ks : ServerEndpoint) (g : tls_Certificate) (U : list string).
Implicit Types w : World (Client N).
Abbreviation MC := (M (World (Client N))).

Definition request (api body : string) : MC (result string) :=
  SendRequest (authenticated (WithCertificate ks g)) api body.

(** Until [D], the node needs nothing more: every key exists, every file is recent and every
    certificate far from its end, but for what it is not granted. *)
Record settled (D : Z) w : Prop := {
  settled_faults : faults (os w) = [];
  settled_server : cs_Keyserver (comp w) = ks;
  settled_grant : Keygrant (comp w) = Some g;
  settled_keys : Forall (λ p, is_Some (node_at w p)) (ssh_host_key :: private_keys);
  settled_files : Forall (λ f, fresh D w f.1 f.2) server_files;
  settled_apis : Forall (λ f, f.1.1 ∈ U ∨ fresh D w f.1.2 f.2) api_files;
  settled_host : named w LocalConfPath;
  settled_ssh : SignSSHHostKeyAPI ∈ U ∨
    valid_cert D w CheckSSHCertExpiration ssh_host_cert OneWeek;
  settled_certs : Forall (λ c, c.1.2 ∈ U ∨ valid_cert D w CheckTLSCertExpiration c.1.1 c.2) node_certs
}.

(** The parts of the machine that an exchange with the server leaves as they are. *)
Definition same_machine w w' : Prop :=
  fs (os w') = fs (os w) ∧ (faults (os w) = [] → faults (os w') = []) ∧ host_name (os w') = host_name (os w) ∧
  GoOS.ran (os w') = GoOS.ran (os w) ∧ now (os w) ≤ now (os w').

(** The server gives nothing for the operations of [U], from the states of the world [P] on. *)
Definition refuses (P : N → Prop) (lag : Z) : Prop := 0 ≤ lag ∧
  ∀ api body w, api ∈ U → P (outside (comp w)) → ∃ e w', request api body w = (Return (Err e), w') ∧
    same_machine w w' ∧ horizon w ≤ horizon w' ≤ horizon w + lag ∧ P (outside (comp w')).
(** The world outside after one such exchange. *)
Definition exchange (o o' : N) : Prop := ∃ api body w w' e, api ∈ U ∧ outside (comp w) = o ∧
  request api body w = (Return (Err e), w') ∧ outside (comp w') = o'.

(** ** What happens at rest *)

(** Nothing has changed but the log, the entropy, the time, and when to ask for [U] again. *)
Definition still w w' : Prop := same_machine w w' ∧ cs_Keyserver (comp w') = cs_Keyserver (comp w) ∧
  Keygrant (comp w') = Keygrant (comp w) ∧ BlockedBy (comp w') = BlockedBy (comp w) ∧
  Performed (comp w') = Performed (comp w) ∧ ∀ api, api ∉ U → RetryAt (comp w') !! api = RetryAt (comp w) !! api.
Definition local w w' : Prop := still w w' ∧ outside (comp w') = outside (comp w) ∧ horizon w' = horizon w.
#[export] Instance still_preorder : PreOrder still.
Proof.
  split; [intros w; by repeat split|].
  intros w1 w2 w3 [(A1 & A2 & A3 & A4 & A5) (A6 & A7 & A8 & A9 & A10)] [(B1 & B2 & B3 & B4 & B5) (B6 & B7 & B8 & B9 & B10)].
  repeat split; try congruence; [by auto|lia|]. intros api Hu. by rewrite B10, A10.
Qed.
#[export] Instance local_preorder : PreOrder local.
Proof.
  split; [intros w; split_and!; reflexivity|]. intros w1 w2 w3 (?&?&?) (?&?&?). split_and!; [by etrans|congruence..].
Qed.

Lemma settled_still D w w' : still w w' → settled D w → settled D w'.
Proof.
  intros [(Hf & Hfl & Hh & _ & _) (Hk & Hg & _ & _ & _)] [S1 S2 S3 S4 S5 S6 S7 S8 S9].
  split; unfold fresh, valid_cert, named, node_at in *; rewrite ?Hf, ?Hh, ?Hg, ?Hk; auto.
Qed.
Lemma passes_local w w' : passes w w' → local w w'.
Proof.
  intros Hp. assert (Hr : GoOS.ran (os w') = GoOS.ran (os w)) by (by destruct Hp as (n & t & -> & _)).
  apply passes_inv in Hp as (Hc & Hf & Hfl & Hh & Hn & Hz). unfold local, still, same_machine. rewrite Hc, Hfl. by split_and!.
Qed.

(** *** Operations that ask for nothing *)

Lemma time_Now_local : keeps local (time_Now (X:=Client N)).
Proof. intros w. destruct (time_Now_passes w) as (t & w' & E & Hp & _). rewrite E. by apply passes_local. Qed.
Lemma log_Print_local s : keeps local (log_Print (X:=Client N) s).
Proof. intros w. by repeat split. Qed.
Lemma rand_chunk_local : keeps local (rand_chunk (X:=Client N)).
Proof. intros w. by repeat split. Qed.
Lemma next_fault_local : keeps local (next_fault (X:=Client N)).
Proof. intros w. repeat split; try done. simpl. by intros ->. Qed.
#[local] Hint Resolve time_Now_local log_Print_local rand_chunk_local next_fault_local : go.
Lemma RetryAt_local api t : api ∈ U → keeps local (modify (on_comp (λ c : Client N, with_RetryAt (<[api := t]> (RetryAt c)) c))).
Proof.
  intros Ha w. repeat split; try done. intros api' Hn. simpl. rewrite lookup_insert_ne; [done|]. by intros ->.
Qed.
Lemma RetryFailed_local api : api ∈ U → keeps local (RetryFailed (N:=N) api).
Proof. intros Ha. unfold RetryFailed. apply keeps_bind; [exact _|apply time_Now_local|intros t]. by apply RetryAt_local. Qed.
Lemma CanRetry_local api : keeps local (CanRetry (N:=N) api).
Proof. unfold CanRetry. os_frame. Qed.
Lemma Errored_local i e : keeps local (Errored (N:=N) i e).
Proof. unfold Errored. os_frame. Qed.
Lemma ReadFile_local p : keeps local (ReadFile (X:=Client N) p).
Proof. unfold ReadFile. os_frame. Qed.
Lemma os_Stat_local p : keeps local (os_Stat (X:=Client N) p).
Proof. unfold os_Stat. os_frame. Qed.
#[local] Hint Resolve CanRetry_local Errored_local ReadFile_local os_Stat_local : go.
Lemma needsRefresh_local da info : keeps local (needsRefresh (N:=N) da info).
Proof. unfold needsRefresh. os_frame. Qed.
Lemma shouldRegenerate_local ra info : keeps local (shouldRegenerate (N:=N) ra info).
Proof. unfold shouldRegenerate. os_frame. Qed.
Lemma BuildTLSCSR_local k : keeps local (BuildTLSCSR (X:=Client N) k).
Proof. unfold BuildTLSCSR. os_frame. Qed.

(** *** At most so many requests *)

Section server.
Context (P : N → Prop) (lag D : Z) (refusing : refuses P lag).

(** Nothing but [k] requests, at most, for operations of [U]. *)
Definition rests (k : nat) w w' : Prop :=
  still w w' ∧ rtc exchange (outside (comp w)) (outside (comp w')) ∧ P (outside (comp w')) ∧
  horizon w ≤ horizon w' ≤ horizon w + Z.of_nat k * lag.
Definition ready (k : nat) w : Prop := settled D w ∧ P (outside (comp w)) ∧ horizon w + Z.of_nat k * lag ≤ D.
Definition brief (k : nat) {A} (m : MC A) (Q : A → Prop) : Prop :=
  ∀ w, ready k w → ∃ a w', m w = (Return a, w') ∧ rests k w w' ∧ Q a.
Abbreviation always := (λ _, True).

Lemma lag_mono k k' : (k ≤ k')%nat → Z.of_nat k * lag ≤ Z.of_nat k' * lag.
Proof using refusing. intros Hk. destruct refusing as [Hl _]. apply Z.mul_le_mono_nonneg_r; [done|lia]. Qed.
Lemma lag_add k1 k2 : Z.of_nat (k1 + k2) * lag = Z.of_nat k1 * lag + Z.of_nat k2 * lag.
Proof. rewrite Nat2Z.inj_add. apply Z.mul_add_distr_r. Qed.
Lemma rests_trans k1 k2 w1 w2 w3 : rests k1 w1 w2 → rests k2 w2 w3 → rests (k1 + k2) w1 w3.
Proof.
  intros (S1 & T1 & P1 & Z1) (S2 & T2 & P2 & Z2). unfold rests. rewrite lag_add.
  split_and!; [by etrans|by etrans|done|lia|lia].
Qed.
Lemma ready_rests k1 k2 w w' : ready (k1 + k2) w → rests k1 w w' → ready k2 w'.
Proof.
  intros (S1 & P1 & Z1) (S2 & _ & P2 & Z2). rewrite lag_add in Z1.
  split_and!; [by eapply settled_still|done|lia].
Qed.
Lemma ready_le k k' w : (k ≤ k')%nat → ready k' w → ready k w.
Proof using refusing. intros Hk (? & ? & ?). pose proof (lag_mono k k' Hk). split_and!; [done|done|lia]. Qed.
Lemma local_rests w w' : P (outside (comp w)) → local w w' → rests 0 w w'.
Proof. intros Hp (Hs & Ho & Hz). unfold rests. rewrite Ho, Hz. split_and!; [done|done|done|lia|lia]. Qed.

Lemma brief_le k k' {A} (m : MC A) Q : (k ≤ k')%nat → brief k m Q → brief k' m Q.
Proof using refusing.
  intros Hk Hm w Hw. destruct (Hm w) as (a & w' & E & (S & T & W & Z) & HQ); [by eapply ready_le|]. exists a, w'.
  pose proof (lag_mono k k' Hk). split_and!; [done..| |done]. split_and!; [done..|lia|lia].
Qed.
Lemma brief_bind k1 k2 {A B} (m : MC A) (f : A → MC B) (R : A → Prop) Q :
  brief k1 m R → (∀ a, R a → brief k2 (f a) Q) → brief (k1 + k2) (m ≫= f) Q.
Proof using refusing.
  intros Hm Hf w Hw. destruct (Hm w) as (a & w1 & E1 & R1 & HR); [by eapply ready_le; [|exact Hw]; lia|].
  destruct (Hf a HR w1) as (b & w2 & E2 & R2 & HQ); [by eapply ready_rests|]. exists b, w2.
  rewrite (bind_Return _ _ _ _ _ E1). split_and!; [done|by eapply rests_trans|done].
Qed.
Lemma brief_then k {A B} (m : MC A) (f : A → MC B) Q :
  brief 0 m always → (∀ a, brief k (f a) Q) → brief k (m ≫= f) Q.
Proof using refusing. intros Hm Hf. apply (brief_bind 0 k m f always); auto. Qed.
Lemma brief_local {A} (m : MC A) : keeps local m → returns m → brief 0 m always.
Proof.
  intros Hk Hr w (_ & Hp & _). destruct (Hr w) as [a Ha]. specialize (Hk w). destruct (m w) as [o w']. simpl in *. subst o.
  exists a, w'. split_and!; [done|by apply local_rests|done].
Qed.
Lemma brief_ret k {A} (a : A) (Q : A → Prop) : Q a → brief k (mret a) Q.
Proof using refusing.
  intros HQ. apply (brief_le 0); [lia|]. intros w (_ & Hp & _). exists a, w. split_and!; [done| |done]. by apply local_rests.
Qed.
Lemma brief_idle (m : MC unit) : (∀ w, settled D w → horizon w ≤ D → idle m w) → brief 0 m always.
Proof.
  intros Hm w (Hs & Hp & Hz). destruct (Hm w Hs) as (w' & E & H'); [lia|]. exists tt, w'. split_and!; [done| |done].
  apply local_rests; [done|by apply passes_local].
Qed.
Lemma brief_gets k {A B} (f : World (Client N) → A) (h : A → MC B) Q :
  (∀ w, settled D w → brief k (h (f w)) Q) → brief k (gets f ≫= h) Q.
Proof. intros Hh w Hw. erewrite bind_Return by reflexivity. by apply Hh; [apply Hw|]. Qed.
Lemma brief_request k api body {B} (h : result string → MC B) Q :
  api ∈ U → (∀ e, brief k (h (Err e)) Q) → brief (S k) (request api body ≫= h) Q.
Proof using refusing.
  intros Ha Hh w Hw. destruct refusing as [Hl Hr]. destruct (Hr api body w Ha ltac:(apply Hw)) as (e & w1 & E & Hm & Hz & Hp).
  pose proof (request_mem (λ c : Client N, (cs_Keyserver c, Keygrant c, RetryAt c, BlockedBy c, Performed c))
    (WithCertificate ks g) api body ltac:(done) w) as Hc. fold (request api body) in Hc. rewrite E in Hc. unfold mem_same, same in Hc. simpl in Hc.
  injection Hc as C1 C2 C3 C4 C5.
  assert (R1 : rests 1 w w1).
  { split_and!; [split_and!; [exact Hm|congruence..]| |done|lia|lia]. apply rtc_once. by exists api, body, w, w1, e. }
  destruct (Hh e w1) as (b & w2 & E2 & R2 & HQ); [by apply (ready_rests 1 k w)|]. exists b, w2.
  rewrite (bind_Return _ _ _ _ _ E). split_and!; [done|by apply (rests_trans 1 k w w1)|done].
Qed.
Lemma brief_Exists k p {B} (h : bool → MC B) Q :
  (∀ w, settled D w → is_Some (node_at w p)) → brief k (h true) Q → brief k (Exists p ≫= h) Q.
Proof.
  intros Hp Hh w Hw. rewrite (bind_Return _ _ _ _ _ (Exists_none w p (settled_faults D w (proj1 Hw)))).
  rewrite bool_decide_true by (apply Hp, Hw). by apply Hh.
Qed.
Lemma brief_Errored info e : brief 0 (Errored (N:=N) info e) always.
Proof. apply brief_local; auto with go. Qed.

(** *** The actions *)

(** The downloads from an operation that is refused: there is no more than an error, or nothing to fetch. *)
Lemma DownloadFromAPI_brief api p t m : api ∈ U → brief 1 (DownloadFromAPI api p t m) always.
Proof using refusing.
  intros Ha. unfold DownloadFromAPI, Download, fetchAPI. simpl. set (info := "download to file " +:+ _).
  apply brief_then; [apply brief_local; [apply needsRefresh_local|unfold needsRefresh; os_frame]|].
  intros []; [|by apply brief_ret].
  apply (brief_bind 1 0 _ _ always); [|intros [] _; [by apply brief_ret|apply brief_Errored]].
  unfold refresh, try_bind at 1.
  apply (brief_bind 1 0 _ _ (λ r, match r with Ok data => data = "" | Err _ => True end));
    [|intros [data|e] Hd; [subst data|]; by apply brief_ret].
  apply brief_then; [apply brief_local; auto with go|]. intros []; cbn [negb]; [|by apply brief_ret].
  apply brief_gets. intros w Hw. rewrite (settled_grant D w Hw).
  apply brief_gets. intros w' Hw'. rewrite (settled_server D w' Hw'). unfold AuthenticateWithCert.
  apply (brief_request 0); [done|]. intros e. apply brief_then; [|intros; by apply brief_ret].
  destruct (is_forbidden _); [apply brief_local; [by apply RetryFailed_local|auto with go]|by apply brief_ret].
Qed.
(** The certificates that are refused. *)
Lemma Act_brief ra :
  act_API ra ∈ U → (∀ w, settled D w → is_Some (node_at w (KeyFile ra))) →
  (∀ k, keeps local (GenCSR ra k) ∧ returns (GenCSR (N:=N) ra k)) → brief 1 (Act ra) always.
Proof using refusing.
  intros Ha Hk Hc. unfold Act. apply brief_then; [apply brief_local; auto with go|]. intros []; cbn [negb]; [|by apply brief_ret].
  apply brief_then; [apply brief_local; [apply shouldRegenerate_local|unfold shouldRegenerate; os_frame]|].
  intros []; cbn [negb]; [|by apply brief_ret].
  apply brief_gets. intros w Hw. rewrite (settled_grant D w Hw). apply brief_Exists; [done|]. cbn [negb].
  apply (brief_bind 1 0 _ _ (λ r, is_ok r = false)); [|intros [] Hr; [done|apply brief_Errored]].
  unfold regenerate, try_bind at 1. apply brief_then.
  { apply brief_local; unfold generateCSR; os_frame; apply Hc. }
  intros [csr|e]; [|by apply brief_ret]. unfold try_bind at 1. apply (brief_bind 1 0 _ _ (λ r, is_ok r = false)).
  - unfold requestSignature. apply brief_gets. intros w' Hw'. rewrite (settled_grant D w' Hw').
    apply brief_gets. intros w2 Hw2. rewrite (settled_server D w2 Hw2). unfold AuthenticateWithCert.
    apply (brief_request 0); [done|]. intros e. apply brief_then; [|intros; by apply brief_ret].
    destruct (is_forbidden _); [apply brief_local; [by apply RetryFailed_local|auto with go]|by apply brief_ret].
  - intros [] Hr; [done|by apply brief_ret].
Qed.

Lemma GenerateKey_brief p : p ∈ private_keys → brief 0 (GenerateKey p) always.
Proof.
  intros Hp. apply brief_idle. intros w Hs _. apply GenerateKey_idle; [by apply (settled_faults D)|].
  apply (proj1 (Forall_forall _ _) (settled_keys D w Hs)). by right.
Qed.
Lemma Download_brief da fetch info :
  (Path da, Refresh da) ∈ server_files → 0 ≤ Refresh da → brief 0 (Download da fetch info) always.
Proof.
  intros Hp Ht. apply brief_idle. intros w Hs Hd. apply (Download_fresh D); [by apply (settled_faults D)|done| |done].
  by apply (proj1 (Forall_forall _ _) (settled_files D w Hs) (_, _)).
Qed.
Lemma api_file_brief api p t m : (api, p, t) ∈ api_files → 0 ≤ t → brief 1 (DownloadFromAPI api p t m) always.
Proof using refusing.
  intros Hp Ht. destruct (decide (api ∈ U)) as [Ha|Ha]; [by apply DownloadFromAPI_brief|].
  apply (brief_le 0); [lia|]. apply brief_idle. intros w Hs Hd. apply (Download_fresh D); [by apply (settled_faults D)|done| |done].
  by destruct (proj1 (Forall_forall _ _) (settled_apis D w Hs) _ Hp).
Qed.
Lemma certificate_brief ra :
  KeyFile ra ∈ ssh_host_key :: private_keys → (∀ k, keeps local (GenCSR ra k) ∧ returns (GenCSR (N:=N) ra k)) →
  (∀ w, settled D w → act_API ra ∈ U ∨ valid_cert D w (CheckExpiration ra) (CertFile ra) (InAdvance ra)) →
  brief 1 (Act ra) always.
Proof using refusing.
  intros Hk Hc Hv. destruct (decide (act_API ra ∈ U)) as [Ha|Ha].
  - apply Act_brief; [done| |done]. intros w Hs. by apply (proj1 (Forall_forall _ _) (settled_keys D w Hs)).
  - apply (brief_le 0); [lia|]. apply brief_idle. intros w Hs Hd.
    apply (Act_idle D); [by apply (settled_faults D)|done|right]. by destruct (Hv w Hs).
Qed.
Lemma TLSKey_brief k c api t : k ∈ private_keys → (c, api, t) ∈ node_certs → brief 1 (TLSKey k c api t) always.
Proof using refusing.
  intros Hk Hc. unfold TLSKey. apply brief_then; [by apply GenerateKey_brief|intros _]. apply certificate_brief; [by right| |].
  - intros key. split; [apply BuildTLSCSR_local|apply BuildTLSCSR_returns].
  - intros w Hs. apply (proj1 (Forall_forall _ _) (settled_certs D w Hs) _ Hc).
Qed.
Lemma SSHKey_brief : brief 1 (RequestOrRenewSSHKey ssh_host_key ssh_host_cert SignSSHHostKeyAPI OneWeek) always.
Proof using refusing.
  apply certificate_brief; [by left| |].
  - intros key. split; [apply keeps_ret; exact _|apply returns_ret].
  - intros w Hs. apply (settled_ssh D w Hs).
Qed.

Lemma ConvergeState_brief : brief requests (ConvergeState (N:=N)) always.
Proof using refusing.
  refine (brief_le _ requests _ _ _ _); swap 1 2.
  - unfold ConvergeState. repeat match goal with |- brief _ (_ ≫= _) _ => apply brief_bind with (R := always); [|intros _ _] end;
    match goal with
    | |- brief _ (GenerateKey _) _ => apply GenerateKey_brief; is_listed
    | |- brief _ (TLSKey _ _ _ _) _ => apply TLSKey_brief; is_listed
    | |- brief _ (Bootstrap _) _ => apply brief_idle; intros w Hs _; apply Bootstrap_idle; rewrite (settled_grant D w Hs); by eexists
    | |- brief _ (DownloadAuthority _ _ _) _ => apply Download_brief; [is_listed|done]
    | |- brief _ (DownloadStatic _ _ _) _ => apply Download_brief; [is_listed|done]
    | |- brief _ (DownloadFromAPI _ _ _ _) _ => apply api_file_brief; [is_listed|done]
    | |- brief _ (ReloadHostnameFrom _) _ => apply brief_idle; intros w Hs _;
        apply ReloadHostnameFrom_idle; [by apply (settled_faults D)|by apply (settled_host D)]
    | |- brief _ (RequestOrRenewSSHKey _ _ _ _) _ => apply SSHKey_brief
    end.
  - vm_compute. lia.
Qed.

(** ** The rounds of the loop *)

Definition announcement : command := mkCommand ["systemd-notify"; "--ready"] None "".

(** Up to the log, the entropy, the commands run and the time, and what is remembered of [U]. *)
Definition unchanged w w' : Prop :=
  fs (os w') = fs (os w) ∧ (faults (os w) = [] → faults (os w') = []) ∧ host_name (os w') = host_name (os w) ∧
  cs_Keyserver (comp w') = cs_Keyserver (comp w) ∧ Keygrant (comp w') = Keygrant (comp w) ∧
  (∀ api, api ∉ U → RetryAt (comp w') !! api = RetryAt (comp w) !! api) ∧
  rtc exchange (outside (comp w)) (outside (comp w')).
#[export] Instance unchanged_preorder : PreOrder unchanged.
Proof.
  split; [intros w; by repeat split|].
  intros w1 w2 w3 (A1 & A2 & A3 & A4 & A5 & A6 & A7) (B1 & B2 & B3 & B4 & B5 & B6 & B7).
  split_and!; try congruence; [by auto| |by etrans]. intros api Hu. by rewrite B6, A6.
Qed.
Lemma settled_unchanged w w' : unchanged w w' → settled D w → settled D w'.
Proof.
  intros (Hf & Hfl & Hh & Hk & Hg & _) [S1 S2 S3 S4 S5 S6 S7 S8 S9].
  split; unfold fresh, valid_cert, named, node_at in *; rewrite ?Hf, ?Hh, ?Hg, ?Hk; auto.
Qed.

Lemma announce_run w :
  BlockedBy (comp w) = [] →
  ∃ w', report_stable (Some notifyReady) w = (Return tt, w') ∧ unchanged w w' ∧ outside (comp w') = outside (comp w) ∧
    GoOS.ran (os w') = announcement :: GoOS.ran (os w) ∧ horizon w' = horizon w ∧ now (os w') = now (os w).
Proof.
  intros Hb. unfold report_stable. erewrite bind_Return by reflexivity. rewrite Hb. cbn [bool_decide decide].
  rewrite bool_decide_false by (intros Hn; by apply Hn). erewrite bind_Return by reflexivity.
  unfold notifyReady, exec_Run, exec_Output, exec_Command, mbind, M_bind, mret, M_ret, log_Print, modify.
  simpl. destruct (replies (os w) 0%nat) as [| |]; eexists; (split; [reflexivity|]); by repeat split.
Qed.

(** What a cycle may take: its requests, and the pause. *)
Definition round_time (pausetime : Z) : Z := Z.of_nat requests * lag + pausetime.
Lemma settled_cycle pausetime cycletime b w :
  ready requests w → 0 ≤ pausetime →
  ∃ w', cycle ConvergeState cycletime pausetime (Some notifyReady) b w = (Return true, w') ∧
    settled D w' ∧ P (outside (comp w')) ∧ unchanged w w' ∧
    GoOS.ran (os w') = (if b then [] else [announcement]) ++ GoOS.ran (os w) ∧
    horizon w' ≤ horizon w + round_time pausetime ∧ now (os w) + pausetime ≤ now (os w').
Proof using refusing.
  intros (Hs & HP & Hd) Hp. unfold cycle. erewrite bind_Return by reflexivity. set (w0 := on_comp _ w).
  assert (Hu0 : unchanged w w0) by (by repeat split).
  destruct (ConvergeState_brief w0) as ([] & w1 & E1 & (S1 & T1 & P1 & Z1) & _).
  { split_and!; [by apply (settled_unchanged w)|done|done]. }
  destruct S1 as [(Hf & Hfl & Hh & Hran & Hn) (Hk & Hg & Hbl & Hpf & HR)].
  assert (Hu1 : unchanged w0 w1) by (by split_and!).
  rewrite (bind_Return _ _ _ _ _ E1). erewrite bind_Return by reflexivity. rewrite Hpf. cbn [Performed].
  change (Performed (comp w0)) with false. cbv iota.
  assert (Hr : ∃ w2, (if negb b then report_stable (Some notifyReady) else mret tt) w1 = (Return tt, w2) ∧
    unchanged w1 w2 ∧ outside (comp w2) = outside (comp w1) ∧
    GoOS.ran (os w2) = (if b then [] else [announcement]) ++ GoOS.ran (os w1) ∧
    horizon w2 = horizon w1 ∧ now (os w2) = now (os w1)).
  { destruct b; [exists w1; by repeat split|]. apply announce_run. by rewrite Hbl. }
  destruct Hr as (w2 & E2 & Hu2 & Ho2 & Hran2 & Hhor2 & Hn2).
  exists (on_os (λ o, with_clock (now o + Z.max 0 pausetime) (ticks o) o) w2).
  assert (Hu : unchanged w w2) by (do 2 (etrans; [eassumption|]); done).
  split_and!; [| | |exact Hu|..].
  - erewrite bind_Return; [reflexivity|]. by rewrite (bind_Return _ _ _ _ _ E2).
  - by apply (settled_unchanged w).
  - simpl. by rewrite Ho2.
  - simpl. by rewrite Hran2, Hran.
  - unfold round_time, horizon in *. simpl in *. lia.
  - simpl in *. lia.
Qed.

Lemma settled_rounds pausetime cycletime n b w :
  settled D w → P (outside (comp w)) → 0 ≤ pausetime → horizon w + Z.of_nat (S n) * round_time pausetime ≤ D →
  ∃ w', run_loop ConvergeState cycletime pausetime (Some notifyReady) b (replicate (S n) false ++ [true]) w
      = (Return true, w') ∧ unchanged w w' ∧ GoOS.ran (os w') = (if b then [] else [announcement]) ++ GoOS.ran (os w) ∧
    now (os w) + Z.of_nat (S n) * pausetime ≤ now (os w').
Proof using refusing.
  intros Hs HP Hp. assert (Hl : 0 ≤ Z.of_nat requests * lag) by (destruct refusing; lia). unfold round_time in *.
  revert b w Hs HP. induction n as [|n IH]; intros b w Hs HP Hd.
  - destruct (settled_cycle pausetime cycletime b w) as (w1 & E & _ & _ & Hu & Hr & _ & Hn); [split_and!; [done|done|lia]|done|].
    exists w1. split_and!; [|done..|lia]. simpl. by rewrite (bind_Return _ _ _ _ _ E).
  - destruct (settled_cycle pausetime cycletime b w) as (w1 & E & Hs1 & HP1 & Hu & Hr & Hh & Hn); [split_and!; [done|done|lia]|done|].
    unfold round_time in Hh. destruct (IH true w1 Hs1 HP1) as (w2 & E2 & Hu2 & Hr2 & Hn2); [lia|].
    exists w2. split_and!; [|by etrans| |lia]; [|by rewrite Hr2, Hr].
    change (replicate (S (S n)) false ++ [true]) with (false :: (replicate (S n) false ++ [true])).
    cbn [run_loop]. by rewrite (bind_Return _ _ _ _ _ E).
Qed.
End server.
End settled.

Lemma readings_until n : readings NewActLoop (replicate n false ++ [true]) = replicate n false ++ [true].
Proof. induction n as [|n IH]; [done|]. simpl. unfold NewActLoop in *. by rewrite IH. Qed.

(** C6: On a node that has all that it is granted until [D] (its keys, recent files, certificates far
    from their end), with a server that gives nothing for the other operations [U], the daemon
    is at rest, whatever it remembers of earlier refusals: over any number of rounds before [D] it
    changes no file and keeps its granting certificate, and all that it sends to the server is
    requests for operations of [U]; it tells systemd that it is ready in the first round, exactly
    once, and it wakes up once in five minutes at most. *)
Theorem settled_daemon `{PkgErrors} `{Crypto} {N} `{!Network N} ks g U (P : N → Prop) lag D n (w : World (Client N)) :
  refuses ks g U P lag → settled ks g U D w → P (outside (comp w)) →
  horizon w + Z.of_nat (S n) * (5 * Minute + Z.of_nat requests * lag) ≤ D →
  ∃ w', Run ConvergeState (2 * Second) (5 * Minute) (Some notifyReady) NewActLoop (replicate (S n) false ++ [true]) w
      = (Return true, w') ∧ fs (os w') = fs (os w) ∧ Keygrant (comp w') = Keygrant (comp w) ∧
    (∀ api, api ∉ U → RetryAt (comp w') !! api = RetryAt (comp w) !! api) ∧
    rtc (exchange ks g U) (outside (comp w)) (outside (comp w')) ∧
    GoOS.ran (os w') = announcement :: GoOS.ran (os w) ∧ now (os w) + Z.of_nat (S n) * (5 * Minute) ≤ now (os w').
Proof.
  intros Hr Hs HP Hd. destruct (settled_rounds ks g U P lag D Hr (5 * Minute) (2 * Second) n false w Hs HP ltac:(done))
    as (w' & E & (Hf & _ & _ & _ & Hg & HR & Ho) & Hran & Hn); [unfold round_time; lia|].
  exists w'. split_and!; [|done..]. unfold Run. by rewrite readings_until.
Qed.

(** ** A worker *)

Module SampleWorker.
(** A key server that refuses every operation, and the requests that it got. *)
#[export] Instance refusing_server : Network (list string) := {|
  url_Hostname u := Ok (nth 2 (Split u "/"%char) "");
  client_Do cl rq := λ w, (Return (Ok (403, Ok "")), on_comp (λ asked, asked ++ [rq_Body rq]) w)
|}.

(** The operations that a worker is not granted. *)
Definition refused_apis : list string :=
  [FetchServiceAccountKeyAPI; SignKubernetesSupervisorAPI; SignRegistryHostAPI; SignKubernetesMasterAPI;
   SignKubernetesCtrlMgrAPI; SignKubernetesSchedulerAPI; SignEtcdServerAPI; SignEtcdClientAPI].
Example refused_not_granted : forallb (λ api, bool_decide (api ∉ worker_apis)) refused_apis = true.
Proof. vm_compute. reflexivity. Qed.

(** Its files: the keys, the files of the server, its configuration, and the certificates of its kind. *)
Definition far : Z := 10000000000000000.
Definition far_cert : string := pem_cert (sample_der node_key "n" 0 far).
Definition worker_files : gmap string node :=
  list_to_map
    (((λ p, (p, File (pem_key node_key) 384 0)) <$> ssh_host_key :: private_keys) ++
     ((λ f, (f.1, File "data" 420 0)) <$> server_files) ++
     ((λ p, (p, File far_cert 420 0)) <$> [GrantingCertPath; KubernetesWorkerCert; KubernetesProxyCert]) ++
     [(LocalConfPath, File ("# local" +:+ newline +:+ "HOST_NODE = localhost" +:+ newline) 420 0);
      (ssh_host_cert, File (marshalSSHCert (SSHKey "ssh-rsa" "n") (mkSSHBody "" 1 HostCert "n" ["n"] 0 10000000 [] "")) 420 0)]).
(** The daemon has just started on it: it has loaded its granting certificate, and remembers no refusal. *)
Definition worker_start : World (Client (list string)) :=
  mkWorld (with_fs worker_files (with_entropy (replicate 100 "r") (os0 1000))) (mkClientMem sample_endpoint None ∅ [] false []).
Definition worker_world : World (Client (list string)) := (NewClientState sample_endpoint worker_start).2.
Definition worker_grant : tls_Certificate := default ([], node_key) (Keygrant (comp worker_world)).
Definition rest_end : Z := 1000000000000.

(** Two rounds: the granting certificate is there, and seven certificates and a key are asked for, the
    certificates in each round. *)
Example worker_ex :
  (bool_decide (is_Some (Keygrant (comp worker_world))), RetryAt (comp worker_world),
   length (outside (comp (Run ConvergeState (2 * Second) (5 * Minute) (Some notifyReady) NewActLoop [false; false; true] worker_world).2)))
  = (true, ∅, 15%nat).
Proof. vm_compute. reflexivity. Qed.

Lemma server_refuses : refuses sample_endpoint worker_grant refused_apis (λ _, True) 0.
Proof.
  split; [done|]. intros api body w _ _. eexists _, _. split; [reflexivity|]. unfold horizon, same_machine. simpl. split_and!; first [done|lia].
Qed.

(** The same as checks that compute. *)
Definition fresh_by (D : Z) (w : World (Client (list string))) path period : bool :=
  match node_at w path with Some (File _ _ t) => D - t <=? period | _ => false end.
Definition valid_by (D : Z) (w : World (Client (list string))) (check : string → result Z) path inadvance : bool :=
  match node_at w path with
  | Some (File c _ _) => match check c with Ok e => D <? e - inadvance | Err _ => false end
  | _ => false
  end.
Lemma fresh_by_ok D w p t : fresh_by D w p t = true → fresh D w p t.
Proof. unfold fresh_by, fresh. destruct (node_at w p) as [[c m t'|]|]; [|done..]. intros Hb%Z.leb_le. by exists c, m, t'. Qed.
Lemma valid_by_ok D w check p t : valid_by D w check p t = true → valid_cert D w check p t.
Proof.
  unfold valid_by, valid_cert. destruct (node_at w p) as [[c m t'|]|]; [|done..].
  destruct (check c) as [e|] eqn:Hc; [|done]. intros Hb%Z.ltb_lt. by exists c, m, t', e.
Qed.
Lemma Forall_check {A} (f : A → bool) (P : A → Prop) l :
  (∀ a, f a = true → P a) → forallb f l = true → Forall P l.
Proof. intros HP Hl. apply Forall_forall. intros a Ha. apply HP. rewrite forallb_forall in Hl. apply Hl. by apply list_elem_of_In. Qed.

Lemma worker_settled : settled sample_endpoint worker_grant refused_apis rest_end worker_world.
Proof.
  split; [vm_compute; reflexivity..| | | | | |].
  - apply (Forall_check (λ p, bool_decide (is_Some (node_at worker_world p)))); [|vm_compute; reflexivity].
    intros p. apply bool_decide_eq_true.
  - apply (Forall_check (λ f, fresh_by rest_end worker_world f.1 f.2)); [|vm_compute; reflexivity].
    intros f. apply fresh_by_ok.
  - apply (Forall_check (λ f, bool_decide (f.1.1 ∈ refused_apis) || fresh_by rest_end worker_world f.1.2 f.2)); [|vm_compute; reflexivity].
    intros f [?%bool_decide_eq_true|?%fresh_by_ok]%orb_true_iff; auto.
  - eexists _, _, _, _. split_and!; [vm_compute; reflexivity..].
  - right. apply valid_by_ok. vm_compute. reflexivity.
  - apply (Forall_check (λ c, bool_decide (c.1.2 ∈ refused_apis) || valid_by rest_end worker_world CheckTLSCertExpiration c.1.1 c.2));
      [|vm_compute; reflexivity].
    intros c [?%bool_decide_eq_true|?%valid_by_ok]%orb_true_iff; auto.
Qed.

Lemma settled_daemon_witness :
  ∃ w', Run ConvergeState (2 * Second) (5 * Minute) (Some notifyReady) NewActLoop [false; false; true] worker_world
      = (Return true, w') ∧ fs (os w') = worker_files ∧ GoOS.ran (os w') = [announcement].
Proof.
  destruct (settled_daemon sample_endpoint worker_grant refused_apis (λ _, True) 0 rest_end 1 worker_world
    server_refuses worker_settled I) as (w' & E & Hf & _ & _ & _ & Hr & _).
  - vm_compute. discriminate.
  - exists w'. split; [exact E|]. split.
    + rewrite Hf. vm_compute. reflexivity.
    + rewrite Hr. vm_compute. reflexivity.
Defined.
End SampleWorker.
