(* ===== verification/KeyGateway.v ===== *)
(** * The key gateway: keygateway

    What an administrator's knc connection runs on the key server's machine: it decodes the
    requests, and sends them to the key server on behalf of the Kerberos principal.
    [src/platform/keysystem/keygateway/keygateway.go]. *)

From S2P Require Import Prelude GoStrings GoNet GoOS Paths GoErrors GoCodec GoJSON GoCrypto CertUtil Authorities KsState Token Operation WorldConfig Api ClientServer Samples.
#[export] Set Default Goal Selector "!".

(** ** Decoding *)

(** encoding/json matches the names of fields up to the case of letters. *)
Definition lower_ascii (c : ascii) : ascii :=
  if (65 <=? byte_val c) && (byte_val c <=? 90) then ascii_of_N (N_of_ascii c + 32) else c.
Fixpoint lower (s : string) : string :=
  match s with "" => "" | String c s => String (lower_ascii c) (lower s) end.

(** A member of an object goes to the field it names; null leaves the field. *)
Definition request_member (r : reqtarget_Request) (kv : string * json) : result reqtarget_Request :=
  let set (f : string → reqtarget_Request) :=
    match kv.2 with JString s => Ok (f s) | JNull => Ok r | _ => Err mismatch end in
  if bool_decide (lower kv.1 = "api") then set (λ s, mkReq s (req_Body r))
  else if bool_decide (lower kv.1 = "body") then set (λ s, mkReq (API r) s)
  else Ok r.
Definition to_request (j : json) : result reqtarget_Request :=
  match j with
  | JNull => Ok (mkReq "" "")
  | JObject l => fold_result request_member (mkReq "" "") l
  | _ => Err mismatch
  end.
Definition Unmarshal_reqs (s : string) : result (list reqtarget_Request) :=
  json_parse s ≫= to_list to_request.

(** ** The program *)

Section gateway.
Context `{PkgErrors} `{Crypto} {X : Type} `{!Network X}.
Abbreviation MW := (M (World X)).

Definition HandleRequest (principal request_data : string) : MW (result string) :=
  match Unmarshal_reqs request_data with
  | Err err => fail err
  | Ok requests =>
      k ←? LoadDefaultKeyserverWithCert;
      reqt ←? Impersonate k.2 ImpersonateKerberosAPI principal;
      result ←? SendRequests reqt requests;
      if bool_decide (length result ≠ length requests) then fail (ErrorString "wrong number of results")
      else ok (Marshal_strings result)
  end.

(** What reading the standard input gives is an argument. *)
Definition Process (stdin : result string) : MW (result unit) :=
  kncCreds ← os_Getenv "KNC_CREDS";
  if bool_decide (kncCreds = "") then fail (ErrorString "no credentials supplied")
  else
    match stdin with
    | Err err => fail err
    | Ok request_data =>
        if bool_decide (len request_data = 0) then fail (ErrorString "empty request")
        else
          result ←? HandleRequest kncCreds request_data;
          syscall (_ ← write_stdout result; ok tt)
    end.

Definition keygateway_main (stdin : result string) : MW unit :=
  err ← Process stdin;
  match err with
  | Err err => _ ← log_Print (Error err); exit 1
  | Ok _ => mret tt
  end.
End gateway.

(** ** What a client encodes, the gateway decodes *)

(** the requests that a client writes for knc are the requests that the gateway reads. *)
Theorem Unmarshal_marshal_requests reqs :
  forallb valid_request reqs = true → Unmarshal_reqs (marshal_requests reqs) = Ok reqs.
Proof.
  intros Hv. unfold Unmarshal_reqs, marshal_requests.
  change marshal_request with (λ r, Marshal_struct [("api", API r); ("body", req_Body r)]).
  rewrite (json_parse_structs (λ r, [("api", API r); ("body", req_Body r)])); [|done|].
  - simpl. clear Hv. induction reqs as [|[a b] l IH]; [done|]. cbn [map mapM]. simpl in *. by rewrite IH.
  - rewrite forallb_forall in *. intros r Hr. specialize (Hv r Hr). unfold valid_fields. simpl.
    unfold valid_request in Hv. by rewrite andb_true_r.
Qed.

Lemma Unmarshal_marshal_requests_witness :
  Unmarshal_reqs (marshal_requests [mkReq "access-ssh" "ssh-rsa <key>"]) = Ok [mkReq "access-ssh" "ssh-rsa <key>"].
Proof. apply (Unmarshal_marshal_requests [mkReq "access-ssh" "ssh-rsa <key>"]). vm_compute. reflexivity. Defined.

(** ** Every request is made for the principal *)

Section asked.
Context `{PkgErrors} `{Crypto}.

(** The exchanges of a run are posts of these bodies, and nothing is printed. *)
Definition posts (P : string → Prop) : relation (World Net) := λ w w',
  (∃ l, asked (comp w') = asked (comp w) ++ l ∧ Forall (λ q, P q.2) l) ∧ stdout (os w') = stdout (os w).
#[export] Instance posts_preorder P : PreOrder (posts P).
Proof.
  split; [intros w; split; [exists []; by rewrite app_nil_r|done]|].
  intros w1 w2 w3 [(l1 & E1 & H1) O1] [(l2 & E2 & H2) O2]. split; [|congruence].
  exists (l1 ++ l2). split; [by rewrite E2, E1, app_assoc|by apply Forall_app].
Qed.

Lemma ReadFile_posts P p : keeps (posts P) (ReadFile (X:=Net) p).
Proof.
  assert (Hf : keeps (posts P) (@next_fault Net)) by (intros w; split; [exists []; by rewrite app_nil_r|done]).
  unfold ReadFile. os_frame.
Qed.
Lemma LoadDefaultKeyserverWithCert_posts P : keeps (posts P) (LoadDefaultKeyserverWithCert (X:=Net)).
Proof.
  unfold LoadDefaultKeyserverWithCert, LoadDefaultKeyserver, GetKeyserver, tls_LoadX509KeyPair.
  os_frame; apply ReadFile_posts.
Qed.

Lemma endpoint_posts P s path method body :
  P body → keeps (posts P) (endpoint_Request (X:=Net) s path method body).
Proof.
  intros HP. unfold endpoint_Request. os_frame.
  intros w. unfold http_NewRequest in *. simpl in *. simplify_eq.
  split; [|done]. eexists. split; [reflexivity|]. repeat constructor. exact HP.
Qed.

(** The requests of an impersonated target begin with the impersonation. *)
Definition impersonating (api user body : string) : Prop := ∃ reqs, body = marshal_requests (mkReq api user :: reqs).
Lemma impersonated_posts e api user reqs :
  keeps (posts (impersonating api user)) (SendRequests (impersonatedTarget (authenticated (X:=Net) e) api user) reqs).
Proof. simpl. unfold PostJSON. os_frame. apply endpoint_posts. by eexists. Qed.
Lemma Impersonate_posts e api user :
  keeps (posts (impersonating api user)) (Impersonate (authenticated (X:=Net) e) api user).
Proof. unfold Impersonate. os_frame. apply impersonated_posts. Qed.
Lemma impersonated_returns e api user reqs :
  is_Some (client e) → returns (SendRequests (impersonatedTarget (authenticated (X:=Net) e) api user) reqs).
Proof.
  intros He. cbn [SendRequests impersonatedTarget]. apply returns_try.
  - apply authenticated_returns; [|done]. intros cl rq w. by eexists.
  - intros resps. case_bool_decide; apply returns_ret.
Qed.
Lemma Impersonate_returns e api user : is_Some (client e) → returns (Impersonate (authenticated (X:=Net) e) api user).
Proof. intros He. unfold Impersonate. os_frame. by apply impersonated_returns. Qed.

(** What the two calls before the requests give. *)
Lemma Impersonate_inv {X} (rt : RequestTarget X) api user (w w' : World X) rt2 :
  Impersonate rt api user w = (Return (Ok rt2), w') → rt2 = impersonatedTarget rt api user.
Proof.
  unfold Impersonate. case_bool_decide; [done|]. case_bool_decide; [done|].
  intros (? & ? & _ & E)%try_bind_with_Ok_inv. by injection E as <- _.
Qed.
Lemma LoadDefaultKeyserverWithCert_inv (w w' : World Net) k :
  LoadDefaultKeyserverWithCert w = (Return (Ok k), w') → ∃ e, k.2 = authenticated e ∧ is_Some (client e).
Proof.
  unfold LoadDefaultKeyserverWithCert. intros (k1 & w1 & _ & (kp & w2 & _ & E)%try_bind_with_Ok_inv)%try_bind_Ok_inv.
  simpl in E. injection E as <- _. eexists. split; [done|]. by eexists.
Qed.
Lemma LoadDefaultKeyserverWithCert_returns : returns (LoadDefaultKeyserverWithCert (X:=Net)).
Proof. unfold LoadDefaultKeyserverWithCert, LoadDefaultKeyserver, GetKeyserver. os_frame. Qed.

(** What [HandleRequest] returns: one answer for each request. *)
Definition answers_to (data : string) (r : result string) : Prop := ∀ out, r = Ok out →
  ∃ requests results, Unmarshal_reqs data = Ok requests ∧ length results = length requests ∧ out = Marshal_strings results.

(** A step of a run that may end it with an error. *)
Lemma step_run {A B} (P : string → Prop) (Q : result B → Prop) (m : M (World Net) (result A)) (f : A → M (World Net) (result B)) w :
  keeps (posts P) m → returns m → (∀ e, Q (Err e)) →
  (∀ a w1, m w = (Return (Ok a), w1) → ∃ r w2, f a w1 = (Return r, w2) ∧ posts P w1 w2 ∧ Q r) →
  ∃ r w2, try_bind f m w = (Return r, w2) ∧ posts P w w2 ∧ Q r.
Proof.
  intros Hk Hr HQ Hf. destruct (Hr w) as [r E]. specialize (Hk w). destruct (m w) as [o w1] eqn:Em. simpl in *. subst o.
  destruct r as [a|e]; [|exists (Err e), w1; split; [by apply try_bind_Err|by split]].
  destruct (Hf a w1 eq_refl) as (r & w2 & E & Hp & Hq). exists r, w2. rewrite (try_bind_Ok _ _ _ _ _ Em).
  split_and!; [done|by etrans|done].
Qed.

Lemma HandleRequest_run user data (w : World Net) :
  ∃ r w', HandleRequest user data w = (Return r, w') ∧
    posts (impersonating ImpersonateKerberosAPI user) w w' ∧ answers_to data r.
Proof.
  unfold HandleRequest. destruct (Unmarshal_reqs data) as [requests|e] eqn:Hd; [|by exists (Err e), w].
  assert (Herr : ∀ e, answers_to data (Err e)) by done.
  apply step_run; [apply LoadDefaultKeyserverWithCert_posts|apply LoadDefaultKeyserverWithCert_returns|done|].
  intros k w1 (e & Hk & He)%LoadDefaultKeyserverWithCert_inv. rewrite Hk.
  apply step_run; [apply Impersonate_posts|by apply Impersonate_returns|done|].
  intros reqt w2 ->%Impersonate_inv.
  apply step_run; [apply impersonated_posts|by apply impersonated_returns|done|].
  intros results w3 _. case_bool_decide as Hl; [by eexists _, w3|].
  exists (Ok (Marshal_strings results)), w3. split_and!; [done|done|]. intros out [= <-].
  exists requests, results. split_and!; [done| |done]. by destruct (decide (length results = length requests)).
Qed.

(** What the gateway has done when [Process] returns. *)
Definition processed (stdin : result string) user (r : result unit) (w w' : World Net) : Prop :=
  (∃ l, asked (comp w') = asked (comp w) ++ l ∧ Forall (λ q, impersonating ImpersonateKerberosAPI user q.2) l) ∧
  (user = "" → asked (comp w') = asked (comp w)) ∧
  match r with
  | Err _ => stdout (os w') = stdout (os w)
  | Ok _ => ∃ data requests results, stdin = Ok data ∧ Unmarshal_reqs data = Ok requests ∧
      length results = length requests ∧ stdout (os w') = stdout (os w) +:+ Marshal_strings results
  end.

Lemma Process_run stdin user (w : World Net) :
  os_Getenv "KNC_CREDS" w = (Return user, w) →
  ∃ r w', Process stdin w = (Return r, w') ∧ processed stdin user r w w'.
Proof.
  intros Hu. unfold Process. rewrite (bind_Return _ _ _ _ _ Hu).
  assert (Hq : ∀ e, ∃ r w', (Return (Err e : result unit), w) = (Return r, w') ∧ processed stdin user r w w').
  { intros e. exists (Err e), w. split; [done|]. split_and!; [exists []; by rewrite app_nil_r|done|done]. }
  case_bool_decide as Hne; [apply Hq|]. destruct stdin as [data|e]; [|apply Hq].
  case_bool_decide; [apply Hq|].
  destruct (HandleRequest_run user data w) as (r & w1 & E & [Hasked Hout] & Hans). destruct r as [out|e].
  - rewrite (try_bind_Ok _ _ _ _ _ E). destruct (Hans out eq_refl) as (requests & results & Hd & Hl & ->).
    unfold syscall. erewrite bind_Return by reflexivity.
    destruct (mjoin _) as [f|]; eexists _, _; (split; [reflexivity|]); (split_and!; [done|done|]).
    + done.
    + exists data, requests, results. split_and!; [done..|]. simpl. by rewrite Hout.
  - rewrite (try_bind_Err _ _ _ _ _ E). exists (Err e), w1. by split_and!.
Qed.

(** C11: on every network, the gateway ends without a panic: with status 1, or having printed
    exactly one answer for each of the requests that it read. Every exchange that it
    makes with the server is a post that begins with the impersonation of the principal
    that knc has authenticated, so it never acts with its own authority; and without
    a principal it makes none. *)
Theorem keygateway_impersonates stdin (w : World Net) :
  ∃ user o w', os_Getenv "KNC_CREDS" w = (Return user, w) ∧ keygateway_main stdin w = (o, w') ∧
    (∃ l, asked (comp w') = asked (comp w) ++ l ∧ Forall (λ q, impersonating ImpersonateKerberosAPI user q.2) l) ∧
    (user = "" → asked (comp w') = asked (comp w)) ∧
    (o = Exit 1 ∧ stdout (os w') = stdout (os w) ∨
     o = Return tt ∧ ∃ data requests results, stdin = Ok data ∧ Unmarshal_reqs data = Ok requests ∧
       length results = length requests ∧ stdout (os w') = stdout (os w) +:+ Marshal_strings results).
Proof.
  assert (∃ user, os_Getenv "KNC_CREDS" w = (Return user, w)) as [user Hu] by (eexists; reflexivity).
  destruct (Process_run stdin user w Hu) as (r & w1 & E & Ha & Hn & Hr). exists user.
  unfold keygateway_main. rewrite (bind_Return _ _ _ _ _ E). destruct r as [[]|e].
  - exists (Return tt), w1. split_and!; [done..|]. by right.
  - eexists (Exit 1), _. split; [done|]. split; [reflexivity|]. split_and!; [done|done|]. by left.
Qed.
End asked.

(** ** A run *)

Definition gateway_files : gmap string node :=
  {[ KeyserverTLSCert := File (pem_cert (sample_der ca_key "ca" 0 1000000000000)) 420 0;
     "/etc/homeworld/config/keyserver.domain" := File ("ks" +:+ newline) 420 0;
     GrantingCertPath := File (pem_cert (sample_der node_key "sup" 0 1000000000000)) 420 0;
     GrantingKeyPath := File (pem_key node_key) 384 0 ]}.
Definition with_environ (l : list string) (o : OS) : OS :=
  mkOS (now o) (ticks o) (entropy o) (fs o) (faults o) (replies o) (GoOS.ran o) (logged o) (stdout o) l (host_name o).
Definition gateway_world : World Net :=
  mkWorld (with_environ ["KNC_CREDS=user@EXAMPLE"] (with_fs gateway_files (os_random 5)))
    (mkNet [] [Ok (200, Ok (Marshal_strings [""])); Ok (200, Ok (Marshal_strings [""; "cert"]))]).
Definition gateway_stdin : result string := Ok (marshal_requests [mkReq "access-ssh" "key"]).

Lemma keygateway_impersonates_witness :
  ∃ user o w', keygateway_main gateway_stdin gateway_world = (o, w') ∧ user = "user@EXAMPLE" ∧ o = Return tt ∧
    ∃ l, asked (comp w') = [] ++ l ∧ Forall (λ q, impersonating ImpersonateKerberosAPI user q.2) l.
Proof.
  destruct (keygateway_impersonates gateway_stdin gateway_world) as (user & o & w' & Hu & E & Ha & _ & Ho).
  exists user, o, w'. split; [exact E|]. split; [|split; [|exact Ha]].
  - assert (Hr : (os_Getenv "KNC_CREDS" gateway_world).1 = Return "user@EXAMPLE") by (vm_compute; reflexivity).
    rewrite Hu in Hr. injection Hr as Hr. exact Hr.
  - destruct Ho as [[He _]|[He _]]; [|exact He]. exfalso.
    assert (Hr : returned (keygateway_main gateway_stdin gateway_world) = true) by (vm_compute; reflexivity).
    rewrite E, He in Hr. discriminate Hr.
Defined.
