(* ===== verification/Keygen.v ===== *)
(** * The authorities' generator: keygen

    [src/platform/keysystem/keygen]: makes the keys and certificates of all the
    authorities in a directory, from which the key server loads them. *)

From S2P Require Import Prelude GoStrings GoNet GoOS FileUtil GoErrors GoCodec GoCrypto ToyCrypto CertUtil Authorities KsState Token Operation WorldConfig Samples.
#[export] Set Default Goal Selector "!".

(** What the generator uses of x/crypto/ssh and crypto/x509 besides [Crypto]: the SSH form of
    a public key, which is the one of the private key that it came with, can be read
    back from its line, and is an RSA key to x509 when it is one. *)
Class NewKeys `{Crypto} := {
  ssh_NewPublicKey : crypto_PublicKey → result ssh_PublicKey;
  new_key_signer r n k pk :
    rsa_GenerateKey r n = Ok k → ssh_NewPublicKey (RSAPublicKey (rsa_N k)) = Ok pk →
    ∃ s, ssh_ParsePrivateKey (pem_EncodeToMemory (mkPemBlock "RSA PRIVATE KEY" (MarshalPKCS1PrivateKey k))) = Ok s ∧
      signer_PublicKey s = pk;
  new_key_line p pk : ssh_NewPublicKey p = Ok pk → ssh_ParseAuthorizedKey (ssh_MarshalAuthorizedKey pk) = Ok (pk, "");
  rsa_algorithm d c n :
    x509_ParseCertificate d = Ok c → PublicKey c = RSAPublicKey n → PublicKeyAlgorithm_RSA c = true
}.

Definition AuthorityBits : Z := 4096.

Section keygen.
Context `{NewKeys} {X : Type}.
Abbreviation MW := (M (World X)).

Definition self_template (issueat : Z) (name : string) : Certificate :=
  mkCert "" false (OtherPublicKey "") 0 (mkName ("homeworld-authority-" +:+ name) [] [] [])
    issueat (time_Unix (Unix issueat + 86400 * 1000000))
    (Z.lor KeyUsageDigitalSignature KeyUsageCertSign) [ExtKeyUsageServerAuth; ExtKeyUsageClientAuth]
    true true 1 false [] [] false.
Definition GenerateTLSSelfSignedCert (key : rsa_PrivateKey) (name : string) : MW (result string) :=
  issueat ← time_Now;
  let certTemplate := self_template issueat name in
  FinishCertificate certTemplate certTemplate (RSAPublicKey (rsa_N key)) key.

(** The body of the loop over the authorities. *)
Definition generate_authority (dir : string) (authority : ConfigAuthority) : MW (result unit) :=
  k ←? GenerateRSA AuthorityBits;
  files ← liftO (Filenames authority);
  WriteFile (path_Join [dir; files.1]) k.2 384 ;?
  match ca_Type authority with
  | TLSAuthorityType =>
      (* self-signed cert *)
      cert ←? GenerateTLSSelfSignedCert k.1 (ca_Name authority);
      WriteFile (path_Join [dir; files.2]) cert 420
  | SSHAuthorityType =>
      (* SSH authorities are just pubkeys *)
      match ssh_NewPublicKey (RSAPublicKey (rsa_N k.1)) with
      | Err err => fail err
      | Ok pkey => WriteFile (path_Join [dir; files.2]) (ssh_MarshalAuthorizedKey pkey) 420
      end
  | InvalidAuthorityType => panic "invalid authority type in GenerateKeys"
  end.

Definition GenerateKeys (dir : string) : MW (result unit) :=
  info ←? os_Stat dir;
  match info with
  | File _ _ _ => fail (ErrorString "expected authority directory, not authority file")
  | Dir => for_each (generate_authority dir) ListAuthorities
  end.

Definition keygen_main (args : list string) : MW unit :=
  match args with
  | [_; authorityDir] =>
      err ← GenerateKeys authorityDir;
      match err with
      | Err err => _ ← log_Print (Error err); exit 1
      | Ok _ => log_Print "done generating keys."
      end
  | _ =>
      _ ← log_Print ("usage: keygen <authority-dir>" +:+ newline +:+ "  generates the authorities for a keyserver");
      exit 1
  end.
End keygen.

(** ** The authorities load *)

Section loadable.
Context {errs : PkgErrors} {packages : Crypto} {keys : NewKeys} {X : Type}.
Implicit Types w : World X.

(** The files of an authority in a directory. *)
Definition load_data (a : ConfigAuthority) (keydata certdata : string) : result Authority :=
  match ca_Type a with
  | TLSAuthorityType => LoadTLSAuthority keydata certdata
  | SSHAuthorityType => LoadSSHAuthority keydata certdata
  | InvalidAuthorityType => Err (ErrorString "")
  end.
Definition authority_files (a : ConfigAuthority) : list string :=
  match Filenames a with Return (k, c) => [k; c] | _ => [] end.
(** They are there, and load. *)
Definition generated_in w (dir : string) (a : ConfigAuthority) : Prop :=
  ∃ kf cf keydata certdata mk tk mc tc x,
    Filenames a = Return (kf, cf) ∧
    node_at w (path_Join [dir; kf]) = Some (File keydata mk tk) ∧
    node_at w (path_Join [dir; cf]) = Some (File certdata mc tc) ∧ load_data a keydata certdata = Ok x.

Lemma node_at_only w w' P p :
  fs_only P w w' → ¬ P (path_Clean p) → node_at w' p = node_at w p.
Proof. intros Hf HP. unfold node_at. case_bool_decide; [done|]. by apply Hf. Qed.

Lemma GenerateRSA_Ok bits w k pem w' :
  GenerateRSA bits w = (Return (Ok (k, pem)), w') →
  ∃ r, rsa_GenerateKey r bits = Ok k ∧
    pem = pem_EncodeToMemory (mkPemBlock "RSA PRIVATE KEY" (MarshalPKCS1PrivateKey k)).
Proof.
  unfold GenerateRSA. intros (r & w1 & _ & E)%bind_inv. injection E as E _.
  destruct (rsa_GenerateKey r bits) as [k'|] eqn:Hk; [|done]. injection E as <- <-. by exists r.
Qed.
(** A self-signed certificate loads with its key. *)
Lemma self_signed_loads r bits k name w cert w' :
  rsa_GenerateKey r bits = Ok k → GenerateTLSSelfSignedCert k name w = (Return (Ok cert), w') →
  ∃ x, LoadTLSAuthority (pem_EncodeToMemory (mkPemBlock "RSA PRIVATE KEY" (MarshalPKCS1PrivateKey k))) cert = Ok x.
Proof.
  intros Hk. unfold GenerateTLSSelfSignedCert. intros (t & w1 & _ & Hc)%bind_inv.
  unfold FinishCertificate in Hc. apply try_bind_Ok_inv in Hc as (n & w2 & _ & Hc).
  apply bind_inv in Hc as (r' & w3 & _ & Hc). injection Hc as Hc _.
  destruct (x509_CreateCertificate _ _ _ _ _) as [der|] eqn:Hder; [|done]. injection Hc as <-.
  apply create_parses in Hder as (c & Hp & _ & _ & Hpub & _); [|by repeat constructor].
  unfold LoadTLSAuthority. rewrite (load_generated_key _ _ _ Hk). simpl.
  unfold LoadX509CertFromPEM. rewrite LoadSinglePEMBlock_encoded; [|done|set_solver]. simpl. rewrite Hp. simpl.
  rewrite Hpub, (rsa_algorithm _ _ _ Hp Hpub). cbn [negb]. rewrite bool_decide_false by tauto. by eexists.
Qed.
Lemma pubkey_loads r bits k pk :
  rsa_GenerateKey r bits = Ok k → ssh_NewPublicKey (RSAPublicKey (rsa_N k)) = Ok pk →
  ∃ x, LoadSSHAuthority (pem_EncodeToMemory (mkPemBlock "RSA PRIVATE KEY" (MarshalPKCS1PrivateKey k)))
    (ssh_MarshalAuthorizedKey pk) = Ok x.
Proof.
  intros Hk Hpk. destruct (new_key_signer _ _ _ _ Hk Hpk) as (s & Hs & Hsp).
  unfold LoadSSHAuthority, parseSingleSSHKey. rewrite (new_key_line _ _ Hpk). simpl. rewrite Hs. simpl.
  unfold arePublicKeysEqual. rewrite Hsp, bool_decide_false, bool_decide_true by tauto. by eexists.
Qed.

Lemma generate_authority_Ok dir a w w' :
  (∀ kf cf, Filenames a = Return (kf, cf) → path_Clean (path_Join [dir; kf]) ≠ path_Clean (path_Join [dir; cf])) →
  generate_authority dir a w = (Return (Ok tt), w') →
  generated_in w' dir a ∧ fs_only (λ q, ∃ f, f ∈ authority_files a ∧ q = path_Clean (path_Join [dir; f])) w w'.
Proof.
  intros Hne Hg. unfold generate_authority in Hg.
  apply try_bind_Ok_inv in Hg as ([k pem] & w1 & H1 & Hg). pose proof (GenerateRSA_fs AuthorityBits w) as F1.
  rewrite H1 in F1. apply GenerateRSA_Ok in H1 as (r & Hk & ->).
  apply bind_inv in Hg as ([kf cf] & w2 & E & Hg). injection E as Hfn <-. cbn [fst snd] in Hg.
  apply try_bind_Ok_inv in Hg as (u & w3 & H3 & Hg). pose proof (WriteFile_fs (path_Join [dir; kf]) (pem_EncodeToMemory
    (mkPemBlock "RSA PRIVATE KEY" (MarshalPKCS1PrivateKey k))) 384 w1) as F3. rewrite H3 in F3.
  apply WriteFile_Ok_inv in H3 as (mk & tk & Hn & _).
  assert (Hfin : ∃ data x w4, WriteFile (path_Join [dir; cf]) data 420 w4 = (Return (Ok tt), w') ∧
    fs (os w4) = fs (os w3) ∧ load_data a (pem_EncodeToMemory (mkPemBlock "RSA PRIVATE KEY" (MarshalPKCS1PrivateKey k))) data = Ok x).
  { unfold load_data. destruct (ca_Type a); [done| |].
    - apply try_bind_Ok_inv in Hg as (cert & w4 & H4 & Hg).
      assert (F4 : keeps same_fs (GenerateTLSSelfSignedCert (X:=X) k (ca_Name a))) by (unfold GenerateTLSSelfSignedCert; os_frame).
      specialize (F4 w3). rewrite H4 in F4. destruct (self_signed_loads _ _ _ _ _ _ _ Hk H4) as [x Hx].
      by exists cert, x, w4.
    - destruct (ssh_NewPublicKey _) as [pk|] eqn:Hpk; [|done]. destruct (pubkey_loads _ _ _ _ Hk Hpk) as [x Hx].
      by exists (ssh_MarshalAuthorizedKey pk), x, w3. }
  clear Hg. destruct Hfin as (data & x & w4 & H4 & F4 & Hx).
  pose proof (WriteFile_fs (path_Join [dir; cf]) data 420 w4) as F5. rewrite H4 in F5.
  apply WriteFile_Ok_inv in H4 as (mc & tc & Hn4 & _). cbn [snd] in *.
  assert (Hfiles : authority_files a = [kf; cf]) by (unfold authority_files; by rewrite Hfn).
  split.
  - eexists kf, cf, _, data, mk, tk, mc, tc, x. split_and!; [done| |done|done].
    rewrite (node_at_only w4 w' _ _ F5); [unfold node_at in *; by rewrite F4|]. intros E. by apply (Hne kf cf Hfn).
  - intros q Hq. rewrite Hfiles in Hq. rewrite F5, F4, F3; [by rewrite F1| |].
    + intros E. apply Hq. exists kf. split; [set_solver|done].
    + intros E. apply Hq. exists cf. split; [set_solver|done].
Qed.

Definition all_files (l : list ConfigAuthority) : list string := concat (map authority_files l).
Lemma all_files_plain : Forall (λ f, plain_name f = true) (all_files ListAuthorities).
Proof. apply (bool_decide_unpack _). vm_compute. exact I. Qed.
Lemma all_files_NoDup : NoDup (all_files ListAuthorities).
Proof. apply (bool_decide_unpack _). vm_compute. exact I. Qed.

Lemma authority_files_eq a kf cf : Filenames a = Return (kf, cf) → authority_files a = [kf; cf].
Proof. unfold authority_files. by intros ->. Qed.

Lemma generate_all dir l w w' :
  Forall (λ f, plain_name f = true) (all_files l) → NoDup (all_files l) →
  for_each (generate_authority dir) l w = (Return (Ok tt), w') →
  Forall (generated_in w' dir) l ∧
  fs_only (λ q, ∃ f, f ∈ all_files l ∧ q = path_Clean (path_Join [dir; f])) w w'.
Proof.
  revert w. induction l as [|a l IH]; intros w Hp Hd Hl.
  { injection Hl as <-. split; [constructor|by intros q _]. }
  change (all_files (a :: l)) with (authority_files a ++ all_files l) in *.
  apply Forall_app in Hp as [Hpa Hpl]. apply NoDup_app in Hd as (Hda & Hdis & Hdl).
  apply try_bind_Ok_inv in Hl as ([] & w1 & H1 & Hl).
  assert (Hne : ∀ kf cf, Filenames a = Return (kf, cf) → path_Clean (path_Join [dir; kf]) ≠ path_Clean (path_Join [dir; cf])).
  { intros kf cf Hf%authority_files_eq E. rewrite Hf in *. inversion Hpa as [|? ? Hk Hpc]; inversion Hpc; subst.
    apply path_Join_inj in E; [|done..]. subst. apply NoDup_cons in Hda as [Hin _]. apply Hin. by left. }
  apply generate_authority_Ok in H1 as [Hg F1]; [|done]. apply (IH w1) in Hl as [Hgl Fl]; [|done..].
  split.
  - constructor; [|done]. destruct Hg as (kf & cf & kd & cd & mk & tk & mc & tc & x & Hf & Hk & Hc & Hx).
    pose proof (authority_files_eq _ _ _ Hf) as Hfs. rewrite Hfs in *.
    assert (Hkeep : ∀ f, f ∈ [kf; cf] → node_at w' (path_Join [dir; f]) = node_at w1 (path_Join [dir; f])).
    { intros f Hin. apply (node_at_only _ _ _ _ Fl). intros (g & Hg & E).
      apply path_Join_inj in E; [|by apply (proj1 (Forall_forall _ _) Hpa)|by apply (proj1 (Forall_forall _ _) Hpl)].
      subst. by apply (Hdis g). }
    eexists kf, cf, kd, cd, mk, tk, mc, tc, x. rewrite !Hkeep by set_solver. by split_and!.
  - intros q Hq. rewrite Fl, F1; [done|..]; intros (f & Hf & ->); apply Hq; exists f; (split; [|done]); set_solver.
Qed.
End loadable.

(** C12: after a successful run of the generator, every authority of the key server loads from the
    directory: each of the generated pairs of files is a valid authority of its kind,
    and no other file was changed. *)
Theorem GenerateKeys_loadable {errs : PkgErrors} {packages : Crypto} {keys : NewKeys} {X} dir (w w' : World X) :
  GenerateKeys dir w = (Return (Ok tt), w') →
  fs_only (λ q, ∃ f, f ∈ all_files ListAuthorities ∧ q = path_Clean (path_Join [dir; f])) w w' ∧
  (dir ≠ "" → ∀ a (server : World Mem), a ∈ ListAuthorities →
     fs (os server) = fs (os w') → faults (os server) = [] →
     ∃ x, Load a dir server = (Return (Ok x), server)).
Proof.
  unfold GenerateKeys. intros (info & w1 & H1 & H2)%try_bind_Ok_inv. destruct info; [done|].
  pose proof (os_Stat_fs dir w) as F1. rewrite H1 in F1. unfold same_fs, same in F1. simpl in F1.
  apply generate_all in H2 as [Hg Fl]; [|apply all_files_plain|apply all_files_NoDup].
  split; [by intros q Hq; rewrite Fl, F1|]. intros Hdir a server Ha Hf Hfl.
  destruct (proj1 (Forall_forall _ _) Hg a Ha) as (kf & cf & kd & cd & mk & tk & mc & tc & x & Hfn & Hk & Hc & Hx).
  exists x. unfold Load. rewrite bool_decide_false by done. unfold liftO. rewrite Hfn.
  assert (Hat : ∀ p, node_at server p = node_at w' p) by (intros p; unfold node_at; by rewrite Hf).
  erewrite bind_Return by reflexivity. cbv beta iota.
  rewrite (try_bind_Ok _ _ _ kd server) by (by rewrite ReadFile_none, Hat, Hk by done).
  rewrite (try_bind_Ok _ _ _ cd server) by (by rewrite ReadFile_none, Hat, Hc by done).
  unfold load_data in Hx. destruct (ca_Type a); [done|..]; unfold mret, M_ret; by rewrite Hx.
Qed.

(** ** A run *)

#[export] Program Instance sample_new_keys : NewKeys := {|
  ssh_NewPublicKey p :=
    match p with
    | RSAPublicKey n => Ok (SSHKey "ssh-rsa" (Toy.code n))
    | OtherPublicKey _ => Err (ForeignError "ssh: unsupported key type")
    end
|}.
Next Obligation.
  intros r n k pk _ [= <-]. simpl. unfold Toy.sshParsePrivateKey. rewrite Toy.pem_Decode_Encode by done.
  simpl. unfold Toy.ParsePKCS1. rewrite Toy.uncode_code. simpl. eexists. split; [done|]. done.
Qed.
Next Obligation. intros [n|] pk; [|done]. intros [= <-]. by apply Toy.ssh_line. Qed.
Next Obligation.
  intros d c n. simpl. unfold Toy.ParseCertificate. destruct (Toy.uncode d) as [x|]; [|done]. intros [= <-].
  destruct x as [[[[[[[? p] ?] [[? ?] ?]] [? ?]] [? ?]] [? ?]] [? ?]]. simpl. by destruct p.
Qed.

(** A machine with an empty directory and enough randomness: a chunk for each key, and two for
    each certificate. *)
Definition keygen_entropy : list string :=
  ["k"; "AAAAAAAAAAAAAAAAAAAA"; "r"; "k"; "AAAAAAAAAAAAAAAAAAAA"; "r"; "k"; "k"] ++
  concat (replicate 4 ["k"; "AAAAAAAAAAAAAAAAAAAA"; "r"]).
Definition keygen_start : World unit :=
  mkWorld (with_entropy keygen_entropy (with_fs {[ "/authorities" := Dir ]} (os0 5))) tt.

Lemma GenerateKeys_loadable_witness :
  ∃ w', GenerateKeys "/authorities" keygen_start = (Return (Ok tt), w') ∧
    ∀ server : World Mem, fs (os server) = fs (os w') → faults (os server) = [] →
      ∃ x, Load (config_TLSAuthority KeygrantingAuthority) "/authorities" server = (Return (Ok x), server).
Proof.
  assert (Hr : ran_ok (GenerateKeys "/authorities" keygen_start) = true) by (vm_compute; reflexivity).
  destruct (GenerateKeys "/authorities" keygen_start) as [[[[]|]| |] w'] eqn:E; [|discriminate Hr..].
  exists w'. split; [reflexivity|]. intros server Hf Hfl.
  apply (proj2 (GenerateKeys_loadable "/authorities" keygen_start w' E)); [discriminate|left|exact Hf|exact Hfl].
Defined.
