(* ===== verification/Tools.v ===== *)
(** * The programs of the key system: keyserver, keyinitadmit, keyreq

    The main functions of the server ([keyserver/keyserver.go]) and of two command line tools:
    [keyinitadmit], which runs on the key server's machine and asks for a bootstrap
    token, and [keyreq], with which an administrator gets certificates by Kerberos. *)

From S2P Require Import Prelude GoStrings GoNet GoOS FileUtil GoErrors GoCodec GoJSON GoCrypto CertUtil Authorities KsState Token Operation WorldConfig KeyApi Api Samples KeyClient Keygen Exits.
#[export] Set Default Goal Selector "!".

(** ** keyserver/keyserver.go *)

Section keyserver.
Context `{PkgErrors} `{Crypto} `{Yaml}.

(** [onstop]: the error that the serving goroutine ends with. *)
Definition keyserver_main (args : list string) (onstop : error) : KS unit :=
  if bool_decide (length args ≠ 1%nat) then logger_Fatal "usage: keyserver"
  else
    _ ← or_fatal (KeyApi.Run ":20557");
    err ← exec_Run ["systemd-notify"; "--ready"];
    match err with
    | Err err => logger_Fatal ("failed to notify systemd of readiness: %v" +:+ newline +:+ Error err)
    | Ok _ => logger_Fatal (Error onstop)
    end.

(** ** keyinitadmit/keyinitadmit.go *)

Context `{!Network Mem}.

Definition deref {A} (p : option A) : KS A :=
  match p with Some a => mret a | None => panic "invalid memory address or nil pointer dereference" end.

Definition keyinitadmit_main (args : list string) : KS unit :=
  match args with
  | [_; principal] =>
      ctx ← or_fatal GenerateConfig;
      ctx ← load contexts ctx;
      r ← rand_chunk;
      privkey ← or_fatal (mret (rsa_GenerateKey r 2048));
      r ← rand_chunk;
      csrder ← or_fatal (mret (x509_CreateCertificateRequest r (mkCSR "" "" (RSAPublicKey (rsa_N privkey))) privkey));
      let csr := pem_EncodeToMemory (mkPemBlock "CERTIFICATE REQUEST" csrder) in
      authority ← deref (AuthenticationAuthority ctx);
      certdata ← or_fatal (TLS_Sign authority csr false (10 * 60 * Second) (KeyserverDNS ctx) [] []);
      ca ← deref (ClusterCA ctx);
      ks ← or_fatal (mret (NewKeyserver (tls_certEncoded ca) (KeyserverDNS ctx +:+ ":20557")));
      cert ← or_fatal (mret (LoadX509CertFromPEM certdata));
      rt ← or_fatal (mret (AuthenticateWithCert ks ([Raw cert], privkey)));
      token ← or_fatal (SendRequest rt BootstrapKeyserverTokenAPI principal);
      or_fatal (syscall (_ ← write_stdout token; ok tt))
  | _ =>
      logger_Fatal ("usage: keyinitadmit <principal>" +:+ newline +:+
                    "  runs on the keyserver; requests a bootstrap token using privileged access")
  end.
End keyserver.

(** ** keyreq/keyreq.go *)

Definition ERR_UNKNOWN_FAILURE : Z := 1.
Definition ERR_CANNOT_ESTABLISH_CONNECTION : Z := 2.
Definition ERR_NO_ACCESS : Z := 3.
Definition ERR_INVALID_CONFIG : Z := 254.
Definition ERR_INVALID_INVOCATION : Z := 255.

Section keyreq.
Context {errs : PkgErrors} {packages : Crypto} {keys : NewKeys} {X : Type} {net : Network X}.
Abbreviation MW := (M (World X)).

Definition get_keyserver (authority_path keyserver_domain : string) : MW ServerEndpoint :=
  r ← ReadFile authority_path;
  match r with
  | Err err => log_exit ERR_INVALID_INVOCATION ("while loading authority: " +:+ Error err)
  | Ok authoritydata => or_exit ERR_INVALID_CONFIG (mret (NewKeyserver authoritydata keyserver_domain))
  end.

Definition auth_kerberos (authority_path keyserver_domain : string) : MW (ServerEndpoint * RequestTarget X) :=
  ks ← get_keyserver authority_path keyserver_domain;
  rt ← or_exit ERR_INVALID_INVOCATION (mret (AuthenticateWithKerberosTickets ks));
  (* confirm that connection works *)
  r ← SendRequests rt [];
  match r with
  | Err err => log_exit ERR_CANNOT_ESTABLISH_CONNECTION ("failed to establish connection: " +:+ Error err)
  | Ok _ => mret (ks, rt)
  end.

(** A request that must be granted with a result. *)
Definition granted_request (rt : RequestTarget X) (api body : string) : MW string :=
  req ← or_exit ERR_NO_ACCESS (SendRequest rt api body);
  if bool_decide (req = "") then log_exit ERR_UNKNOWN_FAILURE "empty result" else mret req.

Definition keyreq_ssh_cert (authority domain key_out cert_out : string) : MW unit :=
  k ← auth_kerberos authority domain;
  key ← or_exit ERR_UNKNOWN_FAILURE (GenerateRSA 2048);
  pubkey_tmp ← or_exit ERR_UNKNOWN_FAILURE (mret (ssh_NewPublicKey (RSAPublicKey (rsa_N key.1))));
  let pubkey := ssh_MarshalAuthorizedKey pubkey_tmp in
  req ← granted_request k.2 AccessSSHAPI pubkey;
  _ ← or_fatal (WriteFile key_out key.2 384);
  _ ← or_fatal (WriteFile (key_out +:+ ".pub") pubkey 420);
  or_exit ERR_UNKNOWN_FAILURE (WriteFile cert_out req 420).

(** The code of the two commands for TLS certificates. *)
Definition keyreq_tls_cert (api ca_name authority domain key_out cert_out ca_out : string) : MW unit :=
  k ← auth_kerberos authority domain;
  key ← or_exit ERR_UNKNOWN_FAILURE (GenerateRSA 2048);
  csr ← or_exit ERR_UNKNOWN_FAILURE (BuildTLSCSR key.2);
  req ← granted_request k.2 api csr;
  _ ← or_exit ERR_INVALID_INVOCATION (WriteFile key_out key.2 384);
  _ ← or_exit ERR_INVALID_INVOCATION (WriteFile cert_out req 420);
  ca ← or_exit ERR_CANNOT_ESTABLISH_CONNECTION (GetPubkey k.1 ca_name);
  or_exit ERR_INVALID_INVOCATION (WriteFile ca_out ca 420).
Definition keyreq_kube_cert := keyreq_tls_cert AccessKubernetesAPI KubernetesAuthority.
Definition keyreq_etcd_cert := keyreq_tls_cert AccessEtcdAPI EtcdServerAuthority.

Definition keyreq_bootstrap_token (authority domain principal : string) : MW unit :=
  k ← auth_kerberos authority domain;
  token ← or_exit ERR_NO_ACCESS (SendRequest k.2 "bootstrap" principal);
  _ ← syscall (_ ← write_stdout (token +:+ newline); ok tt);
  mret tt.

Definition misuse : string := "keyreq should only be used by scripts that already know how to invoke it".
Definition too_few (usage : string) : MW unit :=
  log_exit ERR_INVALID_INVOCATION ("not enough parameters to keyreq " +:+ usage).

Definition keyreq_main (args : list string) : MW unit :=
  match args with
  | _ :: command :: args =>
      if bool_decide (command = "check") then
        match args with
        | a :: d :: _ => _ ← auth_kerberos a d; mret tt
        | _ => too_few "check <authority-path> <keyserver-domain>"
        end
      else if bool_decide (command = "ssh-cert") then
        match args with
        | a :: d :: k :: c :: _ => keyreq_ssh_cert a d k c
        | _ => too_few "ssh-cert <authority-path> <keyserver-domain> <ssh-key-out> <ssh-cert-output>"
        end
      else if bool_decide (command = "kube-cert") then
        match args with
        | a :: d :: k :: c :: ca :: _ => keyreq_kube_cert a d k c ca
        | _ => too_few "kube-cert <authority-path> <keyserver-domain> <privkey-out> <cert-out> <ca-out>"
        end
      else if bool_decide (command = "etcd-cert") then
        match args with
        | a :: d :: k :: c :: ca :: _ => keyreq_etcd_cert a d k c ca
        | _ => too_few "etcd-cert <authority-path> <keyserver-domain> <privkey-out> <cert-out> <ca-out>"
        end
      else if bool_decide (command = "bootstrap-token") then
        match args with
        | a :: d :: p :: _ => keyreq_bootstrap_token a d p
        | _ => too_few "bootstrap-token <authority-path> <keyserver-domain> <principal>"
        end
      else log_exit ERR_INVALID_INVOCATION misuse
  | _ => log_exit ERR_INVALID_INVOCATION misuse
  end.
End keyreq.

(** ** How keyreq ends *)

Section keyreq_ends.
Context {errs : PkgErrors} {packages : Crypto} {keys : NewKeys} {X : Type} {net : Network X} {local : LocalNetwork X}.

Definition refusal_codes : list Z := [ERR_NO_ACCESS; ERR_INVALID_CONFIG].
Definition all_codes : list Z :=
  [ERR_UNKNOWN_FAILURE; ERR_CANNOT_ESTABLISH_CONNECTION; ERR_NO_ACCESS; ERR_INVALID_CONFIG; ERR_INVALID_INVOCATION].

Lemma kncRequest_fs k data : keeps same_fs (kncRequest (X:=X) k data) ∧ returns (kncRequest (X:=X) k data).
Proof. unfold kncRequest. split; os_frame. Qed.
Lemma knc_fs k reqs : keeps same_fs (SendRequests (knc_SendRequests (X:=X) k) reqs).
Proof. simpl. destruct (kncRequest_fs k (marshal_requests reqs)). os_frame. Qed.
Lemma knc_returns k reqs : returns (SendRequests (knc_SendRequests (X:=X) k) reqs).
Proof. simpl. destruct (kncRequest_fs k (marshal_requests reqs)). os_frame. Qed.

(** Where the requests of an administrator go. *)
Definition by_kerberos (k : ServerEndpoint * RequestTarget X) : Prop :=
  is_Some (client k.1) ∧ ∃ s, k.2 = knc_SendRequests s.

Lemma get_keyserver_ok a d :
  keeps same_fs (get_keyserver (X:=X) a d) ∧ exits all_codes (get_keyserver (X:=X) a d) ∧
  ∀ (w : World X) ks w', get_keyserver a d w = (Return ks, w') → is_Some (client ks).
Proof.
  unfold get_keyserver. split_and!.
  - unfold log_exit, or_exit, log_exit. os_frame.
  - apply exits_bind; [apply exits_returns, ReadFile_returns|]. intros [data|e] _ _ _.
    + apply or_exit_exits; [intros w; by eexists|set_solver].
    + apply log_exit_exits. set_solver.
  - intros w ks w' (r & w1 & _ & H)%bind_inv. destruct r; [|done]. apply or_exit_inv in H. injection H as H _.
    unfold NewKeyserver in H. destruct (LoadX509CertFromPEM a0); [|done]. unfold NewServerEndpoint in H.
    case_bool_decide; [done|]. destruct (negb _); [done|]. injection H as <-. by eexists.
Qed.

Lemma kerberos_target ks (w w' : World X) rt :
  or_exit ERR_INVALID_INVOCATION (mret (AuthenticateWithKerberosTickets ks)) w = (Return rt, w') →
  ∃ s, rt = knc_SendRequests s.
Proof.
  intros H%or_exit_inv. injection H as H _.
  unfold AuthenticateWithKerberosTickets, AuthenticateWithKerberosTicketsInCache in H.
  destruct (url_Hostname _); [|done]. injection H as <-. by eexists.
Qed.

Lemma auth_kerberos_ok a d :
  keeps same_fs (auth_kerberos (X:=X) a d) ∧ exits all_codes (auth_kerberos (X:=X) a d) ∧
  ∀ (w : World X) k w', auth_kerberos a d w = (Return k, w') → by_kerberos k.
Proof.
  destruct (get_keyserver_ok a d) as (Hf & He & Hc). unfold auth_kerberos. split_and!.
  - apply keeps_bind; [exact _|done|]. intros ks. apply keeps_bind_val; [exact _|unfold or_exit, log_exit; os_frame|].
    intros rt w w' (s & ->)%kerberos_target. pose proof (knc_fs s []). unfold log_exit. os_frame.
  - apply exits_bind; [done|]. intros ks _ _ _. apply exits_bind; [apply or_exit_exits; [intros w; by eexists|set_solver]|].
    intros rt w w' (s & ->)%kerberos_target. apply exits_bind; [apply exits_returns, knc_returns|].
    intros [r|e] _ _ _; [apply exits_returns, returns_ret|apply log_exit_exits; set_solver].
  - intros w k w' (ks & w1 & H1 & (rt & w2 & H2 & (r & w3 & _ & H4)%bind_inv)%bind_inv)%bind_inv.
    destruct r; [|done]. injection H4 as <- _. split; [by eapply Hc|]. by eapply kerberos_target.
Qed.

Lemma granted_request_ok s api body :
  keeps same_fs (granted_request (X:=X) (knc_SendRequests s) api body) ∧
  exits all_codes (granted_request (X:=X) (knc_SendRequests s) api body).
Proof.
  assert (Hr : returns (SendRequest (knc_SendRequests (X:=X) s) api body)) by (apply SendRequest_returns; intros; apply knc_returns).
  assert (Hf : keeps same_fs (SendRequest (knc_SendRequests (X:=X) s) api body)) by (apply SendRequest_keeps; [exact _|intros; apply knc_fs]).
  unfold granted_request. split.
  - unfold or_exit, log_exit. os_frame.
  - apply exits_bind; [apply or_exit_exits; [done|set_solver]|]. intros req _ _ _.
    case_bool_decide; [apply log_exit_exits; set_solver|apply exits_returns, returns_ret].
Qed.

(** The commands that write files. *)
Definition ends_well (m : M (World X) unit) : Prop := exits all_codes m ∧ untouched refusal_codes m.

Lemma ends_bind {A} (m : M (World X) A) f :
  keeps same_fs m → exits all_codes m → (∀ a w w', m w = (Return a, w') → ends_well (f a)) → ends_well (m ≫= f).
Proof.
  intros Hk He Hf. split.
  - apply exits_bind; [done|]. intros a w w' E. by apply (Hf a w w' E).
  - apply untouched_bind; [done|]. intros a w w' E. by apply (Hf a w w' E).
Qed.
Lemma ends_or_exit {A} c (m : M (World X) (result A)) f :
  keeps same_fs m → returns m → c ∈ all_codes → (∀ a, ends_well (f a)) → ends_well (or_exit c m ≫= f).
Proof.
  intros Hk Hr Hc Hf. apply ends_bind; [unfold or_exit, log_exit; os_frame|by apply or_exit_exits|]. intros a _ _ _. apply Hf.
Qed.
(** Writing what was granted: never a status of refusal. *)
Definition write_codes : list Z := [ERR_UNKNOWN_FAILURE; ERR_CANNOT_ESTABLISH_CONNECTION; ERR_INVALID_INVOCATION].
Lemma ends_writes m : exits write_codes m → ends_well m.
Proof.
  intros Hm. split; [eapply exits_mono; [|done]; set_solver|]. eapply exits_untouched; [done|].
  unfold write_codes, refusal_codes. intros c. rewrite !elem_of_cons, !elem_of_nil.
  unfold ERR_UNKNOWN_FAILURE, ERR_CANNOT_ESTABLISH_CONNECTION, ERR_INVALID_INVOCATION, ERR_NO_ACCESS, ERR_INVALID_CONFIG. lia.
Qed.

Lemma write_exits p data mode c (f : M (World X) unit) :
  c ∈ write_codes → exits write_codes f → exits write_codes (_ ← or_exit c (WriteFile (X:=X) p data mode); f).
Proof. intros Hc Hf. apply exits_bind; [apply or_exit_exits; [apply WriteFile_returns|done]|]. intros _ _ _ _. exact Hf. Qed.

Lemma keyreq_ssh_cert_ends a d k c : ends_well (keyreq_ssh_cert (X:=X) a d k c).
Proof.
  destruct (auth_kerberos_ok a d) as (Hf & He & Hk). unfold keyreq_ssh_cert.
  apply ends_bind; [done|done|]. intros ks w w' (_ & s & Hs)%Hk. rewrite Hs.
  apply ends_or_exit; [apply GenerateRSA_fs|apply GenerateRSA_returns|set_solver|]. intros key.
  apply ends_or_exit; [apply keeps_ret; exact _|apply returns_ret|set_solver|]. intros pk.
  apply ends_bind; [apply granted_request_ok|apply granted_request_ok|]. intros req _ _ _. apply ends_writes.
  apply write_exits; [set_solver|]. apply write_exits; [set_solver|].
  apply or_exit_exits; [apply WriteFile_returns|set_solver].
Qed.
Lemma keyreq_tls_cert_ends api name a d k c ca : ends_well (keyreq_tls_cert (X:=X) api name a d k c ca).
Proof.
  destruct (auth_kerberos_ok a d) as (Hf & He & Hk). unfold keyreq_tls_cert.
  apply ends_bind; [done|done|]. intros ks w w' ([cl Hcl] & s & Hs)%Hk. rewrite Hs.
  apply ends_or_exit; [apply GenerateRSA_fs|apply GenerateRSA_returns|set_solver|]. intros key.
  apply ends_or_exit; [apply BuildTLSCSR_fs|apply BuildTLSCSR_returns|set_solver|]. intros csr.
  apply ends_bind; [apply granted_request_ok|apply granted_request_ok|]. intros req _ _ _. apply ends_writes.
  apply write_exits; [set_solver|]. apply write_exits; [set_solver|].
  apply exits_bind; [apply or_exit_exits; [|set_solver]|].
  - apply GetPubkey_returns; [intros; apply network_returns|by eexists].
  - intros pub _ _ _. apply or_exit_exits; [apply WriteFile_returns|set_solver].
Qed.
Lemma keyreq_check_ends a d : ends_well (_ ← auth_kerberos (X:=X) a d; mret tt).
Proof.
  destruct (auth_kerberos_ok a d) as (Hf & He & Hk). apply ends_bind; [done|done|]. intros ks _ _ _.
  split; [apply exits_returns, returns_ret|apply keeps_untouched, keeps_ret; exact _].
Qed.
Lemma keyreq_token_ends a d p : ends_well (keyreq_bootstrap_token (X:=X) a d p).
Proof.
  destruct (auth_kerberos_ok a d) as (Hf & He & Hk). unfold keyreq_bootstrap_token.
  apply ends_bind; [done|done|]. intros ks w w' (_ & s & Hs)%Hk. rewrite Hs.
  apply ends_or_exit; [apply SendRequest_keeps; [exact _|intros; apply knc_fs]|
    apply SendRequest_returns; intros; apply knc_returns|set_solver|]. intros token.
  split; [apply exits_returns; os_frame|apply keeps_untouched; os_frame].
Qed.
Lemma log_exit_ends c msg : c ∈ all_codes → ends_well (log_exit c msg).
Proof. intros Hc. split; [by apply log_exit_exits|apply keeps_untouched; unfold log_exit; os_frame]. Qed.

(** C33: keyreq ends on every machine and network without a panic, with one of its five statuses
    when it fails; and when it exits because access was refused, or because the
    authority's certificate does not load, it has touched no file. *)
Theorem keyreq_main_spec args (w : World X) :
  ∃ o w', keyreq_main args w = (o, w') ∧
    (o = Return tt ∨ ∃ c, o = Exit c ∧ c ∈ [1; 2; 3; 254; 255]) ∧
    (o = Exit ERR_NO_ACCESS ∨ o = Exit ERR_INVALID_CONFIG → fs (os w') = fs (os w)).
Proof.
  assert (He : ends_well (keyreq_main (X:=X) args)).
  { pose proof keyreq_ssh_cert_ends. pose proof keyreq_tls_cert_ends. pose proof keyreq_check_ends.
    pose proof keyreq_token_ends. unfold keyreq_main, keyreq_kube_cert, keyreq_etcd_cert, too_few.
    assert (Hl : ∀ msg, ends_well (log_exit ERR_INVALID_INVOCATION msg)) by (intros; apply log_exit_ends; set_solver).
    repeat (case_bool_decide || case_match); auto. }
  destruct He as [He Hu]. specialize (He w). specialize (Hu w). destruct (keyreq_main args w) as [o w'].
  exists o, w'. simpl in *. split; [done|]. split.
  - destruct o as [[]|?|c]; [by left|done|]. right. by exists c.
  - intros [->| ->]; (eapply Hu; [done|]); unfold refusal_codes; set_solver.
Qed.
End keyreq_ends.

Lemma keyreq_main_spec_witness :
  ∃ o w', keyreq_main ["keyreq"; "check"; "/ca.pem"; "ks:20557"] (net_world []) = (o, w') ∧
    (o = Return tt ∨ ∃ c, o = Exit c ∧ c ∈ [1; 2; 3; 254; 255]).
Proof.
  destruct (keyreq_main_spec ["keyreq"; "check"; "/ca.pem"; "ks:20557"] (net_world [])) as (o & w' & E & Ho & _).
  exists o, w'. split; [exact E|exact Ho].
Defined.
