(* ===== verification/Kube.v ===== *)
(** * The launchers of kubernetes and the deployment queue

    [kubernetes/wrapper], [kubernetes/launch.go], [kube-state-metrics/launch.go] and
    [setup-queue/deploy.go]: the programs that read the configuration files of a node and
    start the parts of kubernetes with it, and the one that applies the specifications
    queued at installation. *)

From S2P Require Import Prelude GoStrings GoNet GoOS Exits FileUtil Paths GoErrors Samples.
From stdpp Require Import sorting.
#[local] Open Scope Z_scope.
#[export] Set Default Goal Selector "!".

(** ** k8s.io/client-go/tools/clientcmd *)

Record api_Cluster := mkCluster { Server : string; CertificateAuthority : string }.
Record api_AuthInfo := mkAuthInfo { ClientCertificate : string; ClientKey : string }.
Record api_Context := mkContext { ctx_Cluster : string; ctx_AuthInfo : string }.
Record api_Config := mkConfig {
  CurrentContext : string;
  Clusters : gmap string api_Cluster;
  AuthInfos : gmap string api_AuthInfo;
  Contexts : gmap string api_Context
}.

(** What is documented of it: [WriteToFile] writes what [Write] makes of the configuration
    to the file, and touches no other file. *)
Class ClientCmd (X : Type) := {
  clientcmd_Write : api_Config → result string;
  clientcmd_WriteToFile : api_Config → string → M (World X) (result unit);
  WriteToFile_files c f : keeps (files_only (eq (path_Clean f))) (clientcmd_WriteToFile c f);
  WriteToFile_commands c f : keeps same_commands (clientcmd_WriteToFile c f);
  WriteToFile_returns c f : returns (clientcmd_WriteToFile c f);
  WriteToFile_contents c f w w' :
    clientcmd_WriteToFile c f w = (Return (Ok tt), w') →
    ∃ text m t, clientcmd_Write c = Ok text ∧ node_at w' f = Some (File text m t)
}.

(** ** kubernetes/wrapper/wrap.go *)

Section wrapper.
Context {X : Type} {kube : ClientCmd X}.
Abbreviation MW := (M (World X)).

(** The loop over the lines of a configuration file. *)
Definition conf_line (filename : string) (kvs : gmap string string) (line : string) : result (gmap string string) :=
  let line := TrimSpace line in
  match line with
  | "" => Ok kvs
  | String c _ =>
      if bool_decide (c = "#"%char) then Ok kvs
      else
        match SplitN line "="%char 2 with
        | [k; v] => Ok (<[TrimSpace k := TrimSpace v]> kvs)
        | _ => Err (ErrorString ("incorrectly formatted configuration file '" +:+ filename +:+ "'"))
        end
  end.
Definition parse_conf (filename conf : string) : result (gmap string string) :=
  fold_result (conf_line filename) ∅ (Split conf "010"%char).
Definition GetConf (filename : string) : MW (result (gmap string string)) :=
  conf ←? ReadFile filename;
  mret (parse_conf filename conf).
Definition GetClusterConf : MW (result (gmap string string)) := GetConf ClusterConfPath.
Definition GetLocalConf : MW (result (gmap string string)) := GetConf LocalConfPath.

Definition GetAPIServer : MW (result string) :=
  kvs ←? GetClusterConf;
  match kvs !! "APISERVER" with
  | Some apiserver => ok apiserver
  | None => fail (ErrorString "could not find key 'APISERVER'")
  end.

Definition hyades_config (apiserver keypath certpath : string) : api_Config := mkConfig "hyades"
  {["hyades-cluster" := mkCluster apiserver KubernetesCAPath]}
  {["kubelet-auth" := mkAuthInfo certpath keypath]}
  {["hyades" := mkContext "hyades-cluster" "kubelet-auth"]}.
Definition GenerateKubeConfigForAPIServerToFile (apiserver keypath certpath filename : string) : MW (result unit) :=
  clientcmd_WriteToFile (hyades_config apiserver keypath certpath) filename.

Definition GenerateKubeConfigToFile (keypath certpath filename : string) : MW (result unit) :=
  apiserver ←? GetAPIServer;
  GenerateKubeConfigForAPIServerToFile apiserver keypath certpath filename.
End wrapper.

(** Reading a map at a key that it has not gives the empty string. *)
Abbreviation at_key m k := (default "" (m !! k)).

(** ** kubernetes/launch.go *)

Section launch.
Context {errs : PkgErrors} {X : Type} {kube : ClientCmd X}.
Abbreviation MW := (M (World X)).

Definition getVerbosityArgument : MW string :=
  r ← ReadFile "/etc/homeworld/config/verbosity";
  match r with
  | Err _ => mret "--v=0"
  | Ok verbosityBytes =>
      let verbosity := TrimSpace verbosityBytes in
      match ParseUint verbosity 32 with
      | Err _ =>
          _ ← log_Print ("cannot parse verbosity field value: '" +:+ verbosity +:+ "'" +:+ newline);
          mret "--v=0"
      | Ok _ =>
          _ ← log_Print ("using launch verbosity " +:+ verbosity +:+ newline);
          mret ("--v=" +:+ verbosity)
      end
  end.

Definition kubeConfigPath (suffix : string) : string := "/etc/homeworld/config/kubeconfig-" +:+ suffix.

Definition admission_plugins : string :=
  "NamespaceLifecycle,LimitRanger,ServiceAccount,TaintNodesByCondition,Priority,DefaultTolerationSeconds,DefaultStorageClass,StorageObjectInUseProtection,PersistentVolumeClaimResize,MutatingAdmissionWebhook,ValidatingAdmissionWebhook,RuntimeClass,ResourceQuota,DenyEscalatingExec,SecurityContextDeny,NodeRestriction".

Definition LaunchAPIServer : MW (result unit) :=
  clusterConf ←[λ e, wrap e "while loading cluster.conf"] GetClusterConf;
  localConf ←[λ e, wrap e "while loading local.conf"] GetLocalConf;
  (* parse the keys before using them for the sake of validation *)
  let apiserverCount := at_key clusterConf "APISERVER_COUNT" in
  _ ←[λ e, wrap e "while validating APISERVER_COUNT"] mret (ParseUint apiserverCount 32);
  let serviceCidr := at_key clusterConf "SERVICE_CIDR" in
  _ ←[λ e, wrap e "while parsing SERVICE_CIDR"] mret (ParseCIDR serviceCidr);
  let hostIP := at_key localConf "HOST_IP" in
  if bool_decide (ParseIP hostIP = None) then fail (ErrorString ("invalid IP '" +:+ hostIP +:+ "'"))
  else
    let etcdEndpoints := at_key clusterConf "ETCD_ENDPOINTS" in
    if Count etcdEndpoints "://" <? 1      (* just a sniff test, because the format is complex *)
    then fail (ErrorString ("missing or invalid ETCD_ENDPOINTS: '" +:+ etcdEndpoints +:+ "'"))
    else
      verbosity ← getVerbosityArgument;
      _ ←[λ e, wrap e "while running apiserver"] exec_Attached (
        ["/usr/bin/hyperkube"; "kube-apiserver";
         "--authorization-mode"; "Node,RBAC";
         "--apiserver-count"; apiserverCount;
         "--bind-address"; "0.0.0.0"; "--advertise-address"; hostIP;
         "--service-cluster-ip-range"; serviceCidr;
         "--secure-port"; "443";
         "--etcd-servers"; etcdEndpoints;
         "--allow-privileged"; "true";
         "--anonymous-auth"; "false";
         "--admission-control"; admission_plugins;
         "--client-ca-file"; KubernetesCAPath;
         "--tls-cert-file"; KubernetesMasterCert; "--tls-private-key-file"; KubernetesMasterKey;
         "--service-account-lookup";
         "--cloud-provider=";
         "--etcd-cafile"; "/etc/homeworld/authorities/etcd-server.pem";
         "--etcd-certfile"; "/etc/homeworld/keys/etcd-client.pem"; "--etcd-keyfile"; "/etc/homeworld/keys/etcd-client.key";
         "--insecure-port"; "0";
         "--kubelet-certificate-authority"; KubernetesCAPath;
         "--kubelet-client-certificate"; KubernetesMasterCert; "--kubelet-client-key"; KubernetesMasterKey;
         "--service-account-key-file"; "/etc/homeworld/keys/serviceaccount.key";
         verbosity]);
      ok tt.

Definition LaunchControllerManager : MW (result unit) :=
  clusterConf ←[λ e, wrap e "while loading cluster.conf"] GetClusterConf;
  let serviceCidr := at_key clusterConf "SERVICE_CIDR" in
  _ ←[λ e, wrap e "while parsing SERVICE_CIDR"] mret (ParseCIDR serviceCidr);
  let clusterCidr := at_key clusterConf "CLUSTER_CIDR" in
  _ ←[λ e, wrap e "while parsing CLUSTER_CIDR"] mret (ParseCIDR clusterCidr);
  let kubeconfig := kubeConfigPath "controller-manager" in
  GenerateKubeConfigToFile KubernetesCtrlMgrKey KubernetesCtrlMgrCert kubeconfig ;?
  verbosity ← getVerbosityArgument;
  _ ←[λ e, wrap e "while running controller-manager"] exec_Attached
    ["/usr/bin/hyperkube"; "kube-controller-manager";
     "--kubeconfig"; kubeconfig;
     "--cluster-cidr"; clusterCidr;
     "--node-cidr-mask-size"; "24";
     "--service-cluster-ip-range"; serviceCidr;
     "--cluster-name"; "hyades";
     "--leader-elect";
     "--allocate-node-cidrs";
     "--use-service-account-credentials";
     "--service-account-private-key-file"; "/etc/homeworld/keys/serviceaccount.key";
     "--root-ca-file"; "/etc/homeworld/authorities/kubernetes.pem";
     verbosity];
  ok tt.

(** The two [errors.Wrap] of an error that is nil at that point make the function return nil. *)
Definition LaunchKubelet : MW (result unit) :=
  clusterConf ←[λ e, wrap e "while loading cluster.conf"] GetClusterConf;
  localConf ←[λ e, wrap e "while loading cluster.conf"] GetLocalConf;
  let err : option error := None in
  let return_err (e : option error) : MW (result unit) := mret match e with Some e => Err e | None => Ok tt end in
  let serviceDNS := at_key clusterConf "SERVICE_DNS" in
  if bool_decide (ParseIP serviceDNS = None) then return_err (Wrap err "while parsing SERVICE_DNS")
  else
    let clusterDomain := at_key clusterConf "CLUSTER_DOMAIN" in
    if Count clusterDomain "." <? 1 then return_err (Wrap err "while validating CLUSTER_DOMAIN")
    else
      scheduleWork ←[λ e, wrap e "while parsing SCHEDULE_WORK"] mret (ParseBool (at_key localConf "SCHEDULE_WORK"));
      let kubeconfig := kubeConfigPath "kubelet" in
      GenerateKubeConfigToFile KubernetesWorkerKey KubernetesWorkerCert kubeconfig ;?
      verbosity ← getVerbosityArgument;
      _ ←[λ e, wrap e "while running kubelet"] exec_Attached
        ["/usr/bin/hyperkube"; "kubelet";
         "--kubeconfig"; kubeconfig;
         "--register-schedulable=" +:+ FormatBool scheduleWork;
         "--anonymous-auth=false";
         "--tls-cert-file"; KubernetesWorkerCert; "--tls-private-key-file"; KubernetesWorkerKey;
         "--client-ca-file"; KubernetesCAPath;
         "--cloud-provider=";
         "--container-runtime"; "remote"; "--container-runtime-endpoint"; "unix:///var/run/crio/crio.sock";
         "--cluster-dns"; serviceDNS; "--cluster-domain"; clusterDomain;
         verbosity];
      ok tt.

Definition LaunchProxy : MW (result unit) :=
  let kubeconfig := kubeConfigPath "proxy" in
  GenerateKubeConfigToFile KubernetesProxyKey KubernetesProxyCert kubeconfig ;?
  verbosity ← getVerbosityArgument;
  _ ←[λ e, wrap e "while running proxy"] exec_Attached
    ["/usr/bin/hyperkube"; "kube-proxy"; "--kubeconfig"; kubeconfig; "--config-sync-period"; "1m"; verbosity];
  ok tt.

Definition LaunchScheduler : MW (result unit) :=
  let kubeconfig := kubeConfigPath "scheduler" in
  GenerateKubeConfigToFile KubernetesSchedulerKey KubernetesSchedulerCert kubeconfig ;?
  verbosity ← getVerbosityArgument;
  _ ←[λ e, wrap e "while running scheduler"] exec_Attached
    ["/usr/bin/hyperkube"; "kube-scheduler"; "--kubeconfig"; kubeconfig; "--leader-elect"; verbosity];
  ok tt.

Definition LaunchService (name : string) : MW (result unit) :=
  if bool_decide (name = "apiserver") then LaunchAPIServer
  else if bool_decide (name = "controller-manager") then LaunchControllerManager
  else if bool_decide (name = "kubelet") then LaunchKubelet
  else if bool_decide (name = "proxy") then LaunchProxy
  else if bool_decide (name = "scheduler") then LaunchScheduler
  else fail (ErrorString ("no such service " +:+ name)).

Definition launch_main (args : list string) : MW unit :=
  match args with
  | [_; name] =>
      err ← LaunchService name;
      match err with
      | Err err => logger_Fatal ("kube-launch error: " +:+ Error err +:+ newline)
      | Ok _ => mret tt
      end
  | _ => logger_Fatal ("usage: kube-launch <service>" +:+ newline)
  end.
End launch.

(** ** kube-state-metrics/launch.go *)

Section kube_state_metrics.
Context {X : Type} {kube : ClientCmd X}.
Abbreviation MW := (M (World X)).

Definition ksm_KubeConfigPath : string := "/etc/homeworld/config/kubeconfig-kube-state-metrics".
Definition MetricsPort : Z := 9104.
Definition MetaMetricsPort : Z := 9105.

Definition LaunchKSM (kubeconfig : string) (port metaport : Z) : MW (result unit) :=
  exec_Attached ["/usr/bin/kube-state-metrics"; "--kubeconfig"; kubeconfig;
                 "--port"; FormatInt port; "--telemetry-port"; FormatInt metaport].
Definition ConfigureAndLaunch : MW (result unit) :=
  GenerateKubeConfigToFile KubernetesSupervisorKey KubernetesSupervisorCert ksm_KubeConfigPath ;?
  LaunchKSM ksm_KubeConfigPath MetricsPort MetaMetricsPort.
(** What goes to the standard error is kept with what is logged. *)
Definition ksm_main : MW unit :=
  err ← ConfigureAndLaunch;
  match err with
  | Err err => logger_Fatal ("kube-state-metrics failed: " +:+ Error err +:+ newline)
  | Ok _ => mret tt
  end.
End kube_state_metrics.

(** ** setup-queue/deploy.go *)

Section setup_queue.
Context {X : Type} {kube : ClientCmd X}.
Abbreviation MW := (M (World X)).

Definition queue_KubeConfigPath : string := "/etc/homeworld/config/kubeconfig-setup-queue".
Definition QueueDir : string := "/etc/homeworld/deployqueue/".

Definition apply_args (kubeconfig file : string) : list string :=
  ["hyperkube"; "kubectl"; "apply"; "--kubeconfig"; kubeconfig; "-f"; file].
Definition DeploySingle (kubeconfig file : string) : MW (result unit) :=
  exec_Attached (apply_args kubeconfig file).

(** The body of the loop over the files. *)
Definition deploy_file (dir file : string) : MW (result unit) :=
  let name := path_Join [dir; file] in
  _ ← log_Print ("deploying " +:+ name +:+ newline);
  DeploySingle queue_KubeConfigPath name ;?
  os_Remove name.
Definition DeployAll (dir : string) : MW (result unit) :=
  files ←? ReadDir dir;
  if bool_decide (length files = 0%nat) then _ ← log_Print "nothing to queue"; ok tt
  else
    GenerateKubeConfigToFile KubernetesSupervisorKey KubernetesSupervisorCert queue_KubeConfigPath ;?
    for_each (deploy_file dir) files ;?
    _ ← log_Print ("finished deploying " +:+ FormatInt (Z.of_nat (length files)) +:+ " specs" +:+ newline);
    ok tt.
Definition queue_main : MW unit :=
  err ← DeployAll QueueDir;
  match err with
  | Err err => logger_Fatal ("error in setup-queue: " +:+ Error err +:+ newline)
  | Ok _ => mret tt
  end.
End setup_queue.

(** ** What is launched *)

(** A flag with its value, among the arguments of a command. *)
Fixpoint has_flag (args : list string) (flag value : string) : Prop :=
  match args with
  | f :: ((v :: _) as args) => (f = flag ∧ v = value) ∨ has_flag args flag value
  | _ => False
  end.
(** The next command to be run succeeds. *)
Definition next_succeeds {X} (w : World X) : bool :=
  match replies (os w) 0%nat with Succeeded _ => true | _ => false end.

Section launched.
Context {errs : PkgErrors} {X : Type} {kube : ClientCmd X}.
Implicit Types w : World X.

(** The settings in a configuration file. *)
Definition conf_at w (path : string) (kvs : gmap string string) : Prop :=
  ∃ c m t, node_at w path = Some (File c m t) ∧ parse_conf path c = Ok kvs.
(** A configuration by which a service with this key and certificate reaches the API server. *)
Definition kubeconfig_at w w' (key cert path : string) : Prop :=
  ∃ cl apiserver text m t, conf_at w ClusterConfPath cl ∧ cl !! "APISERVER" = Some apiserver ∧
    clientcmd_Write (hyades_config apiserver key cert) = Ok text ∧ node_at w' path = Some (File text m t).

(** The command lines of the services: their settings come from the configuration of the
    node and are valid; the two services that others connect to, the API server and the
    kubelet, are told to refuse anonymous requests, and the API server has no insecure port. *)
Inductive launched w w' : string → list string → Prop :=
| launched_apiserver cl lo args n cidr ip :
    conf_at w ClusterConfPath cl → conf_at w LocalConfPath lo →
    ParseUint (at_key cl "APISERVER_COUNT") 32 = Ok n →
    ParseCIDR (at_key cl "SERVICE_CIDR") = Ok cidr →
    ParseIP (at_key lo "HOST_IP") = Some ip →
    1 ≤ Count (at_key cl "ETCD_ENDPOINTS") "://" →
    take 2 args = ["/usr/bin/hyperkube"; "kube-apiserver"] →
    has_flag args "--apiserver-count" (at_key cl "APISERVER_COUNT") →
    has_flag args "--service-cluster-ip-range" (at_key cl "SERVICE_CIDR") →
    has_flag args "--advertise-address" (at_key lo "HOST_IP") →
    has_flag args "--etcd-servers" (at_key cl "ETCD_ENDPOINTS") →
    has_flag args "--authorization-mode" "Node,RBAC" →
    has_flag args "--anonymous-auth" "false" →
    has_flag args "--insecure-port" "0" →
    has_flag args "--client-ca-file" KubernetesCAPath →
    launched w w' "apiserver" args
| launched_controller_manager cl args cidr cidr' :
    conf_at w ClusterConfPath cl →
    ParseCIDR (at_key cl "SERVICE_CIDR") = Ok cidr →
    ParseCIDR (at_key cl "CLUSTER_CIDR") = Ok cidr' →
    take 2 args = ["/usr/bin/hyperkube"; "kube-controller-manager"] →
    has_flag args "--kubeconfig" (kubeConfigPath "controller-manager") →
    has_flag args "--cluster-cidr" (at_key cl "CLUSTER_CIDR") →
    has_flag args "--service-cluster-ip-range" (at_key cl "SERVICE_CIDR") →
    kubeconfig_at w w' KubernetesCtrlMgrKey KubernetesCtrlMgrCert (kubeConfigPath "controller-manager") →
    launched w w' "controller-manager" args
| launched_kubelet cl lo args ip schedule :
    conf_at w ClusterConfPath cl → conf_at w LocalConfPath lo →
    ParseIP (at_key cl "SERVICE_DNS") = Some ip →
    1 ≤ Count (at_key cl "CLUSTER_DOMAIN") "." →
    ParseBool (at_key lo "SCHEDULE_WORK") = Ok schedule →
    take 2 args = ["/usr/bin/hyperkube"; "kubelet"] →
    has_flag args "--kubeconfig" (kubeConfigPath "kubelet") →
    ("--register-schedulable=" +:+ FormatBool schedule) ∈ args →
    "--anonymous-auth=false" ∈ args →
    has_flag args "--client-ca-file" KubernetesCAPath →
    has_flag args "--cluster-dns" (at_key cl "SERVICE_DNS") →
    has_flag args "--cluster-domain" (at_key cl "CLUSTER_DOMAIN") →
    kubeconfig_at w w' KubernetesWorkerKey KubernetesWorkerCert (kubeConfigPath "kubelet") →
    launched w w' "kubelet" args
| launched_proxy args :
    take 2 args = ["/usr/bin/hyperkube"; "kube-proxy"] →
    has_flag args "--kubeconfig" (kubeConfigPath "proxy") →
    kubeconfig_at w w' KubernetesProxyKey KubernetesProxyCert (kubeConfigPath "proxy") →
    launched w w' "proxy" args
| launched_scheduler args :
    take 2 args = ["/usr/bin/hyperkube"; "kube-scheduler"] →
    has_flag args "--kubeconfig" (kubeConfigPath "scheduler") →
    kubeconfig_at w w' KubernetesSchedulerKey KubernetesSchedulerCert (kubeConfigPath "scheduler") →
    launched w w' "scheduler" args.

(** The settings with which the launcher of the kubelet gives up without an error. *)
Definition silent w : Prop :=
  ∃ cl lo, conf_at w ClusterConfPath cl ∧ conf_at w LocalConfPath lo ∧
    (ParseIP (at_key cl "SERVICE_DNS") = None ∨ Count (at_key cl "CLUSTER_DOMAIN") "." < 1).

(** The three ends of a launch: nothing was run and there is an error; nothing was run and there
    is none, which happens to the kubelet only; or one command was run, whose own end is that
    of the launch. *)
Definition launch_ends (name : string) w (r : result unit) w' : Prop :=
  (GoOS.ran (os w') = GoOS.ran (os w) ∧ (is_ok r = false ∨ (r = Ok tt ∧ name = "kubelet" ∧ silent w))) ∨
  (∃ args, GoOS.ran (os w') = mkCommand args None "" :: GoOS.ran (os w) ∧ launched w w' name args ∧
    is_ok r = next_succeeds w).

(** *** Steps *)


(** Nothing was run and no file changed. *)
Definition calm : relation (World X) := λ w w', same_commands w w' ∧ same_fs w w'.
#[export] Instance calm_preorder : PreOrder calm.
Proof.
  split; [by split|]. intros w1 w2 w3 [H1 H2] [H3 H4]. split; by etrans.
Qed.
Lemma keeps_calm {A} (m : M (World X) A) : keeps same_commands m → keeps same_fs m → keeps calm m.
Proof. intros H1 H2 w. by split. Qed.

Lemma next_fault_calm : keeps calm (next_fault (X:=X)).
Proof. done. Qed.
Hint Resolve next_fault_calm : go.
Lemma ReadFile_calm p : keeps calm (ReadFile (X:=X) p).
Proof. unfold ReadFile. os_frame. Qed.
Lemma log_calm m : keeps calm (log_Print (X:=X) m).
Proof. done. Qed.
End launched.
#[export] Hint Resolve next_fault_calm ReadFile_calm log_calm : go.

Section launches.
Context {errs : PkgErrors} {X : Type} {kube : ClientCmd X}.
Implicit Types w : World X.

Lemma GetConf_calm p : keeps calm (GetConf (X:=X) p).
Proof. unfold GetConf. os_frame. Qed.
Lemma getVerbosityArgument_calm : keeps calm (getVerbosityArgument (X:=X)).
Proof. unfold getVerbosityArgument. os_frame. Qed.
Lemma GetConf_inv p w kvs w' : GetConf p w = (Return (Ok kvs), w') → conf_at w p kvs ∧ calm w w'.
Proof.
  intros H. split; [|pose proof (GetConf_calm p w) as Hc; by rewrite H in Hc].
  unfold GetConf in H. apply try_bind_Ok_inv in H as (c & w1 & (m & t & E)%ReadFile_inv & H).
  injection H as H _. by exists c, m, t.
Qed.

(** A call that runs nothing and returns, and what follows when it succeeds. *)
Lemma quiet_step {A B} x (m : M (World X) (result A)) (k : A → M (World X) (result B)) w r w' :
  keeps same_commands m →
  try_bind_with x k m w = (Return r, w') →
  (is_ok r = false ∧ same_commands w w') ∨
  ∃ a w1, m w = (Return (Ok a), w1) ∧ same_commands w w1 ∧ k a w1 = (Return r, w').
Proof.
  intros Hm. unfold try_bind_with. intros (o & w1 & E & H)%bind_inv. specialize (Hm w). rewrite E in Hm.
  destruct o as [a|e]; [by right; eauto 6|]. injection H as <- <-. by left.
Qed.
(** The last step: the command is run, and its end is that of the launcher. *)
Lemma run_step x args w r w' :
  (_ ←[x] exec_Attached args; ok tt) w = (Return r, w') →
  GoOS.ran (os w') = mkCommand args None "" :: GoOS.ran (os w) ∧ is_ok r = next_succeeds w ∧ same_fs w w'.
Proof.
  unfold try_bind_with, exec_Attached, next_succeeds, exec_Command.
  intros (o & w1 & (p & w2 & E & H1)%bind_inv & H)%bind_inv. injection E as <- <-.
  destruct (replies (os w) 0%nat); simpl in *; injection H1 as <- <-; injection H as <- <-; done.
Qed.

Lemma kubeconfig_inv key cert path w w' :
  GenerateKubeConfigToFile key cert path w = (Return (Ok tt), w') →
  kubeconfig_at w w' key cert path.
Proof.
  unfold GenerateKubeConfigToFile, GetAPIServer, GetClusterConf.
  intros (api & w1 & (cl & w2 & [Hc Hq]%GetConf_inv & H)%try_bind_Ok_inv & Hw)%try_bind_Ok_inv.
  destruct (cl !! "APISERVER") as [s|] eqn:Es; [|done]. injection H as <- <-.
  destruct (WriteToFile_contents _ _ _ _ Hw) as (text & m & t & ? & ?). by exists cl, s, text, m, t.
Qed.
Lemma kubeconfig_commands key cert path : keeps same_commands (GenerateKubeConfigToFile (X:=X) key cert path).
Proof.
  unfold GenerateKubeConfigToFile, GetAPIServer, GetClusterConf.
  assert (keeps same_commands (GetConf (X:=X) ClusterConfPath)) by (intros w; apply GetConf_calm).
  assert (∀ c, keeps same_commands (clientcmd_WriteToFile (X:=X) c path)) by (intros; apply WriteToFile_commands).
  unfold GenerateKubeConfigForAPIServerToFile. os_frame.
Qed.

Lemma conf_at_fs w w1 p kvs : same_fs w w1 → conf_at w1 p kvs → conf_at w p kvs.
Proof.
  intros Hf (c & m & t & Hn & Hp). exists c, m, t. split; [|done]. unfold same_fs, same in Hf.
  unfold node_at in *. by rewrite Hf.
Qed.
Lemma kubeconfig_at_fs w w1 w2 w' key cert path :
  same_fs w w1 → same_fs w2 w' → kubeconfig_at w1 w2 key cert path → kubeconfig_at w w' key cert path.
Proof.
  intros H1 H2 (cl & a & text & m & t & Hc & Ha & Ht & Hn). exists cl, a, text, m, t.
  split_and!; [by eapply conf_at_fs|done..|]. unfold same_fs, same in H2. unfold node_at in *. by rewrite <- H2.
Qed.

(** The end of every launcher but that of the API server: the configuration of the client is
    written, the verbosity is read, the command is run. *)
Lemma client_launch x key cert path name args w r w' :
  (GenerateKubeConfigToFile key cert path ;?
   verbosity ← getVerbosityArgument; _ ←[x] exec_Attached (args verbosity); ok tt) w = (Return r, w') →
  (∀ w1 w2 v, kubeconfig_at w1 w2 key cert path → same_fs w w1 → launched w1 w2 name (args v)) →
  launch_ends name w r w'.
Proof.
  intros H Hl. unfold try_bind in H. apply bind_inv in H as (o & w1 & E & H).
  pose proof (kubeconfig_commands key cert path w) as Hq. rewrite E in Hq. simpl in Hq. injection Hq as Hr Hq.
  destruct o as [[]|e]; [|injection H as <- <-; left; split; [done|by left]].
  apply bind_inv in H as (v & w2 & Ev & H). pose proof (getVerbosityArgument_calm w1) as [Hr2 Hf2].
  rewrite Ev in Hr2, Hf2. simpl in Hr2, Hf2. injection Hr2 as Hr2 Hq2.
  apply run_step in H as (Hr3 & Hs & Hf3). right. exists (args v).
  split_and!; [by rewrite Hr3, <- Hq2, <- Hq| |by rewrite Hs; unfold next_succeeds; rewrite Hr, Hr2].
  apply Hl; [|done]. eapply kubeconfig_at_fs; [reflexivity| |by apply kubeconfig_inv]. by rewrite Hf2.
Qed.

(** The steps before: a configuration file is read, or a setting is checked. *)
Lemma conf_step {B} x p (k : gmap string string → M (World X) (result B)) w r w' :
  try_bind_with x k (GetConf p) w = (Return r, w') →
  (is_ok r = false ∧ GoOS.ran (os w') = GoOS.ran (os w)) ∨
  ∃ kvs w1, conf_at w p kvs ∧ calm w w1 ∧ k kvs w1 = (Return r, w').
Proof.
  intros [[? [= ? ?]]|(kvs & w1 & [Hc Hq]%GetConf_inv & _ & H)]%quiet_step; [by left|right; eauto|].
  intros w0. apply GetConf_calm.
Qed.
Lemma check_step {A B} x (o : result A) (k : A → M (World X) (result B)) w r w' :
  try_bind_with x k (mret o) w = (Return r, w') →
  (is_ok r = false ∧ GoOS.ran (os w') = GoOS.ran (os w)) ∨ ∃ a, o = Ok a ∧ k a w = (Return r, w').
Proof. destruct o as [a|e]; intros H; [right; eauto|left; by injection H as <- <-]. Qed.

Lemma launch_ends_calm name w w1 r w' : calm w w1 → launch_ends name w1 r w' → launch_ends name w r w'.
Proof.
  intros [[= Hr Hq] Hf] [[Hq' Ho]|(args & Hq' & Hl & Hs)].
  - left. split; [by rewrite Hq'|]. destruct Ho as [?|(? & ? & cl & lo & H1 & H2 & ?)]; [by left|right].
    split_and!; [done..|]. exists cl, lo. split_and!; [by eapply conf_at_fs|by eapply conf_at_fs|done].
  - right. exists args. split_and!; [by rewrite Hq', Hq| |by rewrite Hs; unfold next_succeeds; rewrite Hr].
    pose proof (conf_at_fs w w1) as HC. assert (HK : ∀ k c p, kubeconfig_at w1 w' k c p → kubeconfig_at w w' k c p)
      by (intros; by eapply kubeconfig_at_fs).
    destruct Hl; econstructor; eauto.
Qed.

Ltac refused := left; split; [done|by left].
Ltac flags := solve [simpl; repeat first [left; split; reflexivity|right]].

(** A setting is checked, or a file is read: the launch may end there. *)
Tactic Notation "setting" hyp(H) "as" simple_intropattern(pat) :=
  cbv beta zeta in H; apply check_step in H as [[? ?]|pat]; [refused|].
Ltac calmly Hq := eapply launch_ends_calm; [exact Hq|].

Lemma LaunchAPIServer_ends w r w' : LaunchAPIServer w = (Return r, w') → launch_ends "apiserver" w r w'.
Proof.
  intros [[? ?]|(cl & w1 & Hcl & Hq1 & H)]%conf_step; [refused|]. calmly Hq1.
  apply conf_step in H as [[? ?]|(lo & w2 & Hlo & Hq2 & H)]; [refused|].
  apply (conf_at_fs w w1) in Hlo as Hlo'; [|apply Hq1].
  assert (Hcl1 : conf_at w1 ClusterConfPath cl) by (eapply conf_at_fs; [symmetry; apply Hq1|done]).
  assert (Hf : same_fs w1 w2) by apply Hq2. calmly Hq2.
  setting H as (n & Hn & H'). setting H' as (cidr & Hcidr & H).
  destruct (bool_decide _) eqn:Hip; [injection H as <- <-; refused|]. apply bool_decide_eq_false in Hip.
  destruct (ParseIP (at_key lo "HOST_IP")) as [ip|] eqn:Hi; [|done].
  destruct (Z.ltb_spec (Count (at_key cl "ETCD_ENDPOINTS") "://") 1) as [|He]; [injection H as <- <-; refused|].
  apply bind_inv in H as (v & w3 & Ev & H). pose proof (getVerbosityArgument_calm w2) as Hq3. rewrite Ev in Hq3.
  calmly Hq3. apply run_step in H as (Hr & Hs & _). right. eexists. split_and!; [exact Hr| |exact Hs].
  assert (Hf' : same_fs w3 w1) by (symmetry; etrans; [exact Hf|apply Hq3]).
  econstructor; [eapply conf_at_fs; [exact Hf'|done]|eapply conf_at_fs; [exact Hf'|done]|done|done|done|done|done|flags..].
Qed.

Lemma LaunchControllerManager_ends w r w' :
  LaunchControllerManager w = (Return r, w') → launch_ends "controller-manager" w r w'.
Proof.
  intros [[? ?]|(cl & w1 & Hcl & Hq1 & H)]%conf_step; [refused|]. calmly Hq1.
  assert (Hcl1 : conf_at w1 ClusterConfPath cl) by (eapply conf_at_fs; [symmetry; apply Hq1|done]).
  setting H as (cidr & Hcidr & H'). setting H' as (cidr' & Hcidr' & H). cbv beta zeta in H.
  eapply (client_launch _ _ _ _ _ (λ v, _)); [exact H|]. intros w2 w3 v Hk Hf. cbv beta.
  econstructor; [by eapply conf_at_fs; [symmetry|]|done|done|done|flags..|done].
Qed.
Lemma LaunchKubelet_ends w r w' : LaunchKubelet w = (Return r, w') → launch_ends "kubelet" w r w'.
Proof.
  intros [[? ?]|(cl & w1 & Hcl & Hq1 & H)]%conf_step; [refused|]. calmly Hq1.
  apply conf_step in H as [[? ?]|(lo & w2 & Hlo & Hq2 & H)]; [refused|].
  assert (Hcl1 : conf_at w1 ClusterConfPath cl) by (eapply conf_at_fs; [symmetry; apply Hq1|done]).
  assert (Hcl2 : conf_at w2 ClusterConfPath cl) by (eapply conf_at_fs; [symmetry; apply Hq2|done]).
  assert (Hlo2 : conf_at w2 LocalConfPath lo) by (eapply conf_at_fs; [symmetry; apply Hq2|done]). calmly Hq2.
  cbv beta zeta in H. destruct (bool_decide _) eqn:Hip.
  { apply bool_decide_eq_true in Hip. injection H as <- <-. left. split; [done|]. right.
    split_and!; [done..|]. exists cl, lo. auto. }
  apply bool_decide_eq_false in Hip. destruct (ParseIP (at_key cl "SERVICE_DNS")) as [ip|] eqn:Hi; [|done].
  destruct (Z.ltb_spec (Count (at_key cl "CLUSTER_DOMAIN") ".") 1) as [Hd|Hd].
  { injection H as <- <-. left. split; [done|]. right. split_and!; [done..|]. exists cl, lo. auto. }
  setting H as (schedule & Hs & H'). cbv beta zeta in H'.
  eapply (client_launch _ _ _ _ _ (λ v, _)); [exact H'|]. intros w3 w4 v Hk Hf. cbv beta.
  econstructor; [by eapply conf_at_fs; [symmetry|]|by eapply conf_at_fs; [symmetry|]|done|done|done|done|flags|
    set_solver|set_solver|flags..|done].
Qed.
Lemma LaunchProxy_ends w r w' : LaunchProxy w = (Return r, w') → launch_ends "proxy" w r w'.
Proof.
  intros H. eapply (client_launch _ _ _ _ _ (λ v, _)); [exact H|]. intros w2 w3 v Hk Hf.
  econstructor; [done|flags|done].
Qed.
Lemma LaunchScheduler_ends w r w' : LaunchScheduler w = (Return r, w') → launch_ends "scheduler" w r w'.
Proof.
  intros H. eapply (client_launch _ _ _ _ _ (λ v, _)); [exact H|]. intros w2 w3 v Hk Hf.
  econstructor; [done|flags|done].
Qed.

Lemma GenerateKubeConfigToFile_returns key cert path : returns (GenerateKubeConfigToFile (X:=X) key cert path).
Proof.
  unfold GenerateKubeConfigToFile, GetAPIServer, GetClusterConf, GetConf, GenerateKubeConfigForAPIServerToFile.
  pose proof (λ c, WriteToFile_returns (X:=X) c path). os_frame.
Qed.
Lemma LaunchService_returns name : returns (LaunchService (X:=X) name).
Proof.
  pose proof (λ k c p, GenerateKubeConfigToFile_returns k c p).
  unfold LaunchService, LaunchAPIServer, LaunchControllerManager, LaunchKubelet, LaunchProxy, LaunchScheduler,
    GetLocalConf, GetClusterConf, GetConf, getVerbosityArgument. os_frame.
Qed.

Lemma GetConf_none w p kvs : faults (os w) = [] → conf_at w p kvs → GetConf p w = (Return (Ok kvs), w).
Proof.
  intros Hf (c & m & t & Hn & Hp). unfold GetConf.
  rewrite (try_bind_Ok _ _ _ c w), <- Hp; [done|]. by rewrite ReadFile_none, Hn.
Qed.

Lemma LaunchKubelet_gives_up w : faults (os w) = [] → silent w → LaunchService "kubelet" w = (Return (Ok tt), w).
Proof.
  intros Hf (cl & lo & Hcl & Hlo & Hbad). unfold LaunchService.
  do 2 (rewrite bool_decide_false by done). rewrite bool_decide_true by done. unfold LaunchKubelet.
  rewrite (try_bind_with_Ok _ _ _ _ _ _ (GetConf_none _ _ _ Hf Hcl)).
  rewrite (try_bind_with_Ok _ _ _ _ _ _ (GetConf_none _ _ _ Hf Hlo)). cbv zeta.
  destruct (bool_decide _) eqn:Hip; [done|]. apply bool_decide_eq_false in Hip. destruct Hbad as [Hbad|Hbad]; [done|].
  apply Z.ltb_lt in Hbad. by rewrite Hbad.
Qed.


(** So the program does: it writes nothing, logs nothing and ends with status 0. *)
Theorem LaunchKubelet_silent w :
  faults (os w) = [] → silent w → launch_main ["kube-launch"; "kubelet"] w = (Return tt, w).
Proof.
  intros Hf Hs. unfold launch_main. by rewrite (bind_Return _ _ _ (Ok tt) w); [|by apply LaunchKubelet_gives_up].
Qed.
End launches.

(** ** The deployment queue *)

(** The reply to the [i]th next command is not a failure. *)
Definition reply_ok (l : nat → reply) (i : nat) : Prop :=
  match l i with Succeeded _ => True | _ => False end.
Definition apply_command (file : string) : command :=
  mkCommand (apply_args queue_KubeConfigPath (path_Join [QueueDir; file])) None "".
Definition queued (file : string) : string := "/etc/homeworld/deployqueue/" +:+ file.

(** How far the queue was worked on: the commands of the first [j] files were run, and the
    first [k] of these files were removed, all of which had been applied. *)
Definition worked {X} (names : list string) (j k : nat) (w w' : World X) : Prop :=
  (k ≤ j ≤ k + 1)%nat ∧ (j ≤ length names)%nat ∧
  GoOS.ran (os w') = reverse (apply_command <$> take j names) ++ GoOS.ran (os w) ∧
  (∀ i, (i < k)%nat → reply_ok (replies (os w)) i) ∧
  (∀ i f, names !! i = Some f → (i < k)%nat → fs (os w') !! queued f = None) ∧
  (∀ q n, (∀ i f, names !! i = Some f → (i < k)%nat → q ≠ queued f) → is_file (Some n) = true →
     q ≠ queue_KubeConfigPath → fs (os w') !! q = Some n ↔ fs (os w) !! q = Some n).

Section queue.
Context {X : Type} {kube : ClientCmd X}.
Implicit Types w : World X.

Lemma queued_path f : plain_name f = true → path_Clean (path_Join [QueueDir; f]) = queued f.
Proof.
  intros Hf. destruct (path_Join_last QueueDir) as [d Hd]. rewrite Hd by done.
  assert (E : d +:+ "x" = queued "x") by (rewrite <- Hd by done; vm_compute; reflexivity).
  unfold queued in *. by apply app_inj_r_s in E as ->.
Qed.

Lemma exec_Attached_inv args w r w' :
  exec_Attached args w = (Return r, w') →
  GoOS.ran (os w') = mkCommand args None "" :: GoOS.ran (os w) ∧ replies (os w') = later_replies (replies (os w)) ∧
  fs (os w') = fs (os w) ∧ (is_ok r = true → reply_ok (replies (os w)) 0).
Proof.
  unfold exec_Attached, exec_Command, reply_ok. intros (p & w1 & E & H)%bind_inv. injection E as <- <-.
  destruct (replies (os w) 0%nat) eqn:Er; simpl in H; injection H as <- <-; simpl; by rewrite ?Er.
Qed.
Lemma deploy_file_inv f w r w' :
  plain_name f = true → deploy_file QueueDir f w = (Return r, w') →
  GoOS.ran (os w') = apply_command f :: GoOS.ran (os w) ∧ replies (os w') = later_replies (replies (os w)) ∧
  (is_ok r = true → reply_ok (replies (os w)) 0 ∧ fs (os w') = delete (queued f) (fs (os w))) ∧
  (is_ok r = false → fs (os w') = fs (os w)).
Proof.
  intros Hf. unfold deploy_file. intros (u & w1 & E & H)%bind_inv. injection E as <- <-.
  unfold try_bind in H. apply bind_inv in H as (o & w2 & (Hr & Hp & Hfs & Ho)%exec_Attached_inv & H).
  change (GoOS.ran (os w2) = apply_command f :: GoOS.ran (os w)) in Hr.
  change (replies (os w2) = later_replies (replies (os w))) in Hp. change (fs (os w2) = fs (os w)) in Hfs.
  destruct o as [[]|e]; [|by injection H as <- <-].
  pose proof (os_Remove_inv _ _ _ _ H) as [H1 H2]. rewrite queued_path in H1 by done.
  assert (Hc : same_commands w2 w').
  { unfold os_Remove, syscall in H. apply bind_inv in H as (g & w4 & E4 & H). injection E4 as <- <-.
    destruct (mjoin _); [by injection H as <- <-|]. unfold lookup_node in H.
    apply bind_inv in H as (n & w5 & E5 & H). injection E5 as <- <-.
    apply bind_inv in H as (g' & w5 & E5 & H). injection E5 as <- <-. revert H.
    destruct (if bool_decide (_ ∨ _) then Some Dir else _); [case_bool_decide|]; by intros [= <- <-]. }
  injection Hc as Hc1 Hc2. rewrite Hfs in H1, H2. split_and!; [congruence|congruence|auto|auto].
Qed.

Definition undeployed (names : list string) (t : gmap string node) : gmap string node :=
  foldl (λ t f, delete (queued f) t) t names.
Lemma undeployed_lookup names t q :
  undeployed names t !! q = if decide (q ∈ queued <$> names) then None else t !! q.
Proof.
  revert t. induction names as [|f names IH]; intros t; [done|]. simpl. rewrite IH. simpl.
  destruct (decide (q = queued f)) as [->|Hq].
  - rewrite lookup_delete_eq. repeat case_decide; set_solver.
  - rewrite lookup_delete_ne by done. repeat case_decide; set_solver.
Qed.

Lemma deploy_loop names : ∀ w r w',
  Forall (λ f, plain_name f = true) names →
  for_each (deploy_file QueueDir) names w = (Return r, w') →
  ∃ j k, (k ≤ j ≤ k + 1)%nat ∧ (j ≤ length names)%nat ∧
    GoOS.ran (os w') = reverse (apply_command <$> take j names) ++ GoOS.ran (os w) ∧
    (∀ i, (i < k)%nat → reply_ok (replies (os w)) i) ∧
    fs (os w') = undeployed (take k names) (fs (os w)) ∧ (is_ok r = true → k = length names).
Proof.
  induction names as [|f names IH]; intros w r w' Hp H.
  { injection H as <- <-. exists 0%nat, 0%nat. split_and!; simpl; by (lia || done). }
  inversion_clear Hp as [|?? Hf Hp']. simpl in H. unfold try_bind in H.
  apply bind_inv in H as (o & w1 & H1 & H). apply deploy_file_inv in H1 as (Hr & Hrep & Hok & Herr); [|done].
  destruct o as [[]|e].
  - destruct (Hok eq_refl) as [Hr0 Hfs].
    apply IH in H as (j & k & Hjk & Hj & Hran & Hrs & Hk & Hall); [|done].
    exists (S j), (S k). split_and!; [lia|lia|simpl; lia|..].
    + rewrite Hran, Hr. simpl. by rewrite reverse_cons, <- (assoc_L (++)).
    + intros [|i] Hi; [done|]. rewrite Hrep in Hrs. exact (Hrs i ltac:(lia)).
    + by rewrite Hk, Hfs.
    + intros Hr'. simpl. by rewrite Hall.
  - injection H as <- <-. exists 1%nat, 0%nat. split_and!; simpl; [lia|lia|lia|by rewrite Hr|lia|by apply Herr|done].
Qed.

Lemma child_of_plain d key f : child_of d key = Some f → plain_name f = true.
Proof. unfold child_of. destruct (_ && _) eqn:E; [|done]. intros [= <-]. by apply andb_true_iff in E as [_ ?]. Qed.
Lemma children_plain t d : Forall (λ f, plain_name f = true) (children t d).
Proof.
  apply Forall_forall. intros f Hf. unfold children in Hf. rewrite merge_sort_Permutation in Hf.
  apply list_elem_of_omap in Hf as (key & _ & Hk). by eapply child_of_plain.
Qed.
Lemma children_sorted t d : Sorted (λ a b, String.leb a b = true) (children t d).
Proof. apply Sorted_merge_sort. intros a b. apply String.leb_total. Qed.

Lemma ReadDir_inv d w r w' :
  ReadDir d w = (Return r, w') → calm w w' ∧ (∀ names, r = Ok names → names = children (fs (os w)) d).
Proof.
  intros H. split.
  { assert (Hk : keeps calm (ReadDir (X:=X) d)) by (unfold ReadDir; os_frame). specialize (Hk w). by rewrite H in Hk. }
  intros names ->. unfold ReadDir, syscall in H. apply bind_inv in H as (f & w1 & E & H). injection E as <- <-.
  destruct (mjoin _); [done|]. apply bind_inv in H as (n & w1 & E & H). injection E as <- <-.
  destruct (if bool_decide _ then Some Dir else _) as [[]|]; [done| |done].
  apply bind_inv in H as (t & w1 & E & H). injection E as <- <-. apply bind_inv in H as (f & w1 & E & H).
  injection E as <- <-. destruct (mjoin _); [done|]. by injection H as <- _.
Qed.

Lemma DeployAll_returns d : returns (DeployAll (X:=X) d).
Proof.
  pose proof (λ k c p, GenerateKubeConfigToFile_returns (X:=X) k c p). unfold DeployAll, deploy_file, DeploySingle. os_frame.
Qed.
Lemma kubeconfig_files key cert path :
  keeps (files_only (eq (path_Clean path))) (GenerateKubeConfigToFile (X:=X) key cert path).
Proof.
  unfold GenerateKubeConfigToFile, GetAPIServer, GetClusterConf, GetConf, GenerateKubeConfigForAPIServerToFile.
  pose proof (λ c, WriteToFile_files (X:=X) c path). os_frame.
Qed.

(** A run of the queue: the files are those of the directory, and after the configuration of
    the client is written they go one by one. *)
Lemma DeployAll_inv w r w' :
  DeployAll QueueDir w = (Return r, w') →
  let names := children (fs (os w)) QueueDir in
  ∃ j k w2, (k ≤ j ≤ k + 1)%nat ∧ (j ≤ length names)%nat ∧
    GoOS.ran (os w') = reverse (apply_command <$> take j names) ++ GoOS.ran (os w) ∧
    (∀ i, (i < k)%nat → reply_ok (replies (os w)) i) ∧ fs (os w') = undeployed (take k names) (fs (os w2)) ∧
    files_only (eq queue_KubeConfigPath) w w2 ∧ (is_ok r = true → k = length names).
Proof.
  intros E names.
  match goal with |- ?G => assert (Hnone : ∀ w2, GoOS.ran (os w2) = GoOS.ran (os w) →
    files_only (eq queue_KubeConfigPath) w w2 → w' = w2 → (is_ok r = true → length names = 0%nat) → G) end.
  { intros w2 Hr Hf -> Hn; exists 0%nat, 0%nat, w2; split_and!; [lia|lia|lia|done|lia|done|done|by intros ->%Hn]. }
  unfold DeployAll, try_bind in E. apply bind_inv in E as (o & w1 & [Hc Hn]%ReadDir_inv & E).
  destruct Hc as [Hc Hfs]. injection Hc as Hr Hq. unfold same_fs, same in Hfs.
  assert (Hf1 : files_only (eq queue_KubeConfigPath) w w1) by (intros q n _ _; by rewrite Hfs).
  destruct o as [l|e]; [|injection E as <- <-; by eapply (Hnone w1)]. specialize (Hn l eq_refl). fold names in Hn. subst l.
  destruct (bool_decide _) eqn:Hl.
  { apply bool_decide_eq_true in Hl. apply bind_inv in E as (u & w2 & E2 & E). injection E2 as <- <-.
    injection E as <- <-. refine (Hnone _ _ _ eq_refl (λ _, Hl)); [exact (eq_sym Hq)|exact Hf1]. }
  apply bind_inv in E as (o & w2 & E2 & E).
  pose proof (kubeconfig_commands KubernetesSupervisorKey KubernetesSupervisorCert queue_KubeConfigPath w1) as Hc2.
  pose proof (kubeconfig_files KubernetesSupervisorKey KubernetesSupervisorCert queue_KubeConfigPath w1) as Hf2.
  rewrite E2 in Hc2, Hf2. injection Hc2 as Hr2 Hq2.
  assert (Hf : files_only (eq queue_KubeConfigPath) w w2) by (etrans; [exact Hf1|exact Hf2]).
  destruct o as [[]|e]; [|injection E as <- <-; eapply (Hnone w2); [congruence|done..]].
  apply bind_inv in E as (o & w3 & E3 & E).
  apply deploy_loop in E3 as (j & k & Hjk & Hj & Hran & Hrs & Hk & Hall); [|apply children_plain].
  exists j, k, w2. assert (Hw3 : GoOS.ran (os w') = GoOS.ran (os w3) ∧ fs (os w') = fs (os w3) ∧ is_ok r = is_ok o)
    by (destruct o as [[]|e]; by injection E as <- <-).
  destruct Hw3 as (Hr3 & Hfs3 & Ho). rewrite Hr3, Hfs3, Hq, Hq2, Hr, Hr2, Ho. split_and!; (done || lia).
Qed.

(** C24: The deployment queue is worked on in the order of the names, and always comes back.
    The commands that were run are the applications of the first files of the queue, each
    once; a file leaves the queue only after its application succeeded, so that at most the
    last one run is still there; the files after it, and all others but the configuration of
    the client, are as they were; and there is no error only when the queue is empty. *)
Theorem DeployAll_spec w :
  let names := children (fs (os w)) QueueDir in
  Sorted (λ a b, String.leb a b = true) names ∧
  ∃ r w' j k, DeployAll QueueDir w = (Return r, w') ∧ worked names j k w w' ∧ (is_ok r = true → k = length names).
Proof.
  intros names. split; [apply children_sorted|]. destruct (DeployAll_returns QueueDir w) as [r Hr].
  destruct (DeployAll QueueDir w) as [o w'] eqn:E. simpl in Hr. subst o. exists r, w'.
  apply DeployAll_inv in E as (j & k & w2 & Hjk & Hj & Hran & Hrs & Hk & Hf & Hall).
  exists j, k. split; [done|]. split; [|done]. split_and!; [lia|lia|done|done|done|..].
  - intros i f Hi Hik. rewrite Hk, undeployed_lookup, decide_True; [done|]. apply list_elem_of_fmap.
    exists f. split; [done|]. apply list_elem_of_lookup. exists i. by rewrite lookup_take_lt.
  - intros q n Hq Hn Hqk. rewrite Hk, undeployed_lookup, decide_False; [by apply Hf|].
    intros (f & -> & (i & Hi)%list_elem_of_lookup)%list_elem_of_fmap. apply lookup_take_Some in Hi as [Hi ?]. by eapply Hq.
Qed.
End queue.

(** ** Concrete runs *)

(** A serializer that keeps what the launchers set. *)
Module SampleKube.
Definition Write (c : api_Config) : result string :=
  Ok (CurrentContext c +:+ " " +:+ GoStrings.Join (Server <$> (map_to_list (Clusters c)).*2) "," +:+ " " +:+
      GoStrings.Join (ClientKey <$> (map_to_list (AuthInfos c)).*2) ",").
Definition WriteToFile {X} (c : api_Config) (f : string) : M (World X) (result unit) :=
  text ←? mret (Write c); WriteFile f text 384.

Lemma write_commands {X} f text mode : keeps same_commands (WriteFile (X:=X) f text mode).
Proof.
  assert (keeps same_commands (next_fault (X:=X))) by done.
  assert (∀ p n, keeps same_commands (set_node (X:=X) p n)) by done.
  unfold WriteFile, open_for_write, file_Write, file_Close. os_frame.
Qed.
#[export] Program Instance impl {X} : ClientCmd X := {|
  clientcmd_Write := Write;
  clientcmd_WriteToFile := WriteToFile
|}.
Next Obligation. intros X c f. apply fs_files_only, (WriteFile_fs f _ 384). Qed.
Next Obligation. intros X c f. apply write_commands. Qed.
Next Obligation. intros X c f. apply WriteFile_returns. Qed.
Next Obligation.
  intros X c f w w' (m & t & Hn & _)%WriteFile_Ok_inv. eexists _, m, t. by split.
Qed.
End SampleKube.

Import PkgErrorsImpl SampleKube.

(** The machine of a node of a small cluster. *)
Definition cluster_conf (dns : string) : string := GoStrings.Join
  ["# generated"; "APISERVER=https://10.0.0.1:443"; "APISERVER_COUNT=1"; "SERVICE_CIDR=172.28.0.0/16";
   "CLUSTER_CIDR=172.18.0.0/16"; "SERVICE_DNS=" +:+ dns; "CLUSTER_DOMAIN=hyades.local";
   "ETCD_ENDPOINTS=https://10.0.0.1:2379"; ""] newline.
Definition local_conf : string := "HOST_IP=10.0.0.1" +:+ newline +:+ "SCHEDULE_WORK=true" +:+ newline.
Definition kube_fs (dns : string) : gmap string node := list_to_map
  [("/etc", Dir); ("/etc/homeworld", Dir); ("/etc/homeworld/config", Dir); ("/etc/homeworld/deployqueue", Dir);
   (ClusterConfPath, File (cluster_conf dns) 420 0); (LocalConfPath, File local_conf 420 0);
   ("/etc/homeworld/deployqueue/20-dns.yaml", File "b" 420 0); ("/etc/homeworld/deployqueue/10-net.yaml", File "a" 420 0)].
Definition kube_world (dns : string) : World unit := mkWorld (with_fs (kube_fs dns) (os0 0)) tt.

Example launch_kubelet_ex :
  let '(o, w) := launch_main ["kube-launch"; "kubelet"] (kube_world "172.28.0.2") in
  o = Return tt ∧ (take 3 <$> (cmd_args <$> GoOS.ran (os w))) = [["/usr/bin/hyperkube"; "kubelet"; "--kubeconfig"]] ∧
  node_at w (kubeConfigPath "kubelet") = Some (File ("hyades https://10.0.0.1:443 " +:+ KubernetesWorkerKey) 384 0).
Proof. vm_compute. done. Qed.
Example launch_apiserver_ex :
  let '(o, w) := launch_main ["kube-launch"; "apiserver"] (kube_world "") in
  o = Return tt ∧ length (GoOS.ran (os w)) = 1%nat.
Proof. vm_compute. done. Qed.
Example deploy_ex :
  let '(o, w) := queue_main (kube_world "") in
  o = Return tt ∧ reverse (default "" <$> (last <$> (cmd_args <$> GoOS.ran (os w)))) =
    ["/etc/homeworld/deployqueue/10-net.yaml"; "/etc/homeworld/deployqueue/20-dns.yaml"] ∧
  children (fs (os w)) QueueDir = [].
Proof. vm_compute. done. Qed.

Lemma kube_silent : silent (kube_world "none").
Proof.
  assert (H : ∀ p c, node_at (kube_world "none") p = Some (File c 420 0) → is_ok (parse_conf p c) = true →
    ∃ kvs, conf_at (kube_world "none") p kvs ∧ parse_conf p c = Ok kvs).
  { intros p c Hn Hok. destruct (parse_conf p c) as [kvs|] eqn:E; [|discriminate Hok]. exists kvs. split; [|done].
    by exists c, 420, 0. }
  destruct (H ClusterConfPath (cluster_conf "none")) as (cl & Hcl & Ecl); [vm_compute; reflexivity..|].
  destruct (H LocalConfPath local_conf) as (lo & Hlo & _); [vm_compute; reflexivity..|].
  exists cl, lo. split; [exact Hcl|]. split; [exact Hlo|]. left.
  assert (E : (λ kvs, at_key kvs "SERVICE_DNS") <$> parse_conf ClusterConfPath (cluster_conf "none") = Ok "none")
    by (vm_compute; reflexivity).
  rewrite Ecl in E. injection E as ->. vm_compute. reflexivity.
Qed.
Lemma LaunchKubelet_silent_witness :
  launch_main (errs := PkgErrorsImpl.impl) (kube := SampleKube.impl) ["kube-launch"; "kubelet"] (kube_world "none") =
    (Return tt, kube_world "none").
Proof. exact (LaunchKubelet_silent (kube_world "none") eq_refl kube_silent). Defined.

(** A kubelet that is started, and one that is given up. *)
Definition launch_kubelet (dns : string) : outcome (result unit) * World unit :=
  LaunchService (errs := PkgErrorsImpl.impl) (kube := SampleKube.impl) "kubelet" (kube_world dns).
