(* ===== verification/UserGrant.v ===== *)
(** * The user certificates service: user-grant

    [user-grant/grant.go]: a server that gives every user with a certificate of the upstream
    authority a namespace of the cluster, the rights in it, and a configuration of kubectl
    with a fresh key and certificate. *)

From S2P Require Import Prelude GoStrings GoNet GoOS Exits GoErrors GoCodec GoCrypto CertUtil GoTime GoHTTP Authorities Samples.
#[export] Set Default Goal Selector "!".

(** ** The client of kubernetes *)

(** [rbacv1.RoleBinding], with one subject. *)
Record RoleBinding := mkRoleBinding {
  rb_Name : string; rb_Namespace : string;
  RoleRef_Kind : string; RoleRef_Name : string;
  Subject_Kind : string; Subject_Name : string
}.

(** [k8s.io/client-go] and the cluster behind it. *)
Class KubeAPI (X : Type) `{!HasWriter X} := {
  rest_Config : Type;
  kubernetes_Interface : Type;
  rest_InClusterConfig : M (World X) (result rest_Config);
  kubernetes_NewForConfig : rest_Config → result kubernetes_Interface;
  Namespaces_Create : kubernetes_Interface → string → M (World X) (result unit);
  RoleBindings_Create : kubernetes_Interface → string → RoleBinding → M (World X) (result unit);
  (* the reason of the status of a [*apierrors.StatusError]; None: another type of error *)
  StatusReason : error → option string;
  (* the client does not write to the response *)
  Namespaces_Create_writer k n : keeps (same (λ w, writer (comp w))) (Namespaces_Create k n);
  RoleBindings_Create_writer k n b : keeps (same (λ w, writer (comp w))) (RoleBindings_Create k n b)
}.
Definition StatusReasonAlreadyExists : string := "AlreadyExists".

(** ** html/template *)

(** What the escaper of html/template makes of a character of a value in a text. *)
Definition html_escape_char (c : ascii) : string :=
  let n := byte_val c in
  if n =? 0 then chs [239; 191; 189]%nat
  else if n =? 34 then "&#34;" else if n =? 38 then "&amp;" else if n =? 39 then "&#39;"
  else if n =? 43 then "&#43;" else if n =? 60 then "&lt;" else if n =? 62 then "&gt;"
  else String c "".
Fixpoint html_escape (s : string) : string :=
  match s with "" => "" | String c s => html_escape_char c +:+ html_escape s end.

(** A part of a template: text, or a field of the value. *)
Inductive template_part (T : Type) := Text (s : string) | Field (f : T → string).
Arguments Text {_} _.
Arguments Field {_} _.
Definition part_output {T} (t : T) (p : template_part T) : string :=
  match p with Text s => s | Field f => html_escape (f t) end.

(** ** grant.go *)

Record response := mkGrantResponse {
  Namespace : string;
  KeyBase64 : string;
  CertBase64 : string;
  AuthorityBase64 : string;
  resp_Server : string
}.

Definition lines (l : list string) : string := Join l newline.
Definition pageTemplate : list (template_part response) :=
  [Text (lines
     ["# place this file in ~/.kube/config";
      "# keep this file secret; it allows authenticating to the Hyades cluster as you";
      "# this certificate will last 90 days, at which point you will need to request a new one";
      "";
      "current-context: hyades";
      "apiVersion: v1";
      "kind: Config";
      "clusters:";
      "- cluster:";
      "    api-version: v1";
      "    certificate-authority-data: " +:+ quote_s]);
   Field AuthorityBase64;
   Text (quote_s +:+ newline +:+ "    server: https://");
   Field resp_Server;
   Text (lines
     [":443";
      "  name: hyades-cluster";
      "users:";
      "- name: kubectl-auth";
      "  user:";
      "    client-certificate-data: " +:+ quote_s]);
   Field CertBase64;
   Text (quote_s +:+ newline +:+ "    client-key-data: " +:+ quote_s);
   Field KeyBase64;
   Text (lines
     [quote_s;
      "contexts:";
      "- context:";
      "    cluster: hyades-cluster";
      "    namespace: " +:+ quote_s]);
   Field Namespace;
   Text (lines [quote_s; "    user: kubectl-auth"; "  name: hyades"; ""])].

(** The regular expression [^[-a-zA-Z0-9_/~+=.]+$]. *)
Definition whitelisted (c : ascii) : bool :=
  let n := byte_val c in
  ((97 <=? n) && (n <=? 122)) || ((65 <=? n) && (n <=? 90)) || ((48 <=? n) && (n <=? 57)) ||
  bool_decide (c ∈ ["-"%char; "_"%char; "/"%char; "~"%char; "+"%char; "="%char; "."%char]).
Definition characterWhitelist (s : string) : bool := negb (bool_decide (s = "")) && all_chars whitelisted s.
(** [%v] of a slice of bytes. *)
Definition format_bytes (s : string) : string := "[" +:+ Join (map FormatInt (bytes_of s)) " " +:+ "]".
Definition validateCharset (s : string) : result unit :=
  if negb (characterWhitelist s) then Err (ErrorString ("not a valid string: " +:+ format_bytes s)) else Ok tt.

Definition Validate (r : response) : result unit :=
  fold_result (λ _ s, validateCharset s) tt
    [Namespace r; KeyBase64 r; CertBase64 r; AuthorityBase64 r; resp_Server r].

Section grant.
Context {errs : PkgErrors} {packages : Crypto} {X : Type} {out : HasWriter X} {api : KubeAPI X}.
Abbreviation MW := (M (World X)).

Record Config := mkGrantConfig {
  Address : string;
  ApiserverAddress : string;
  EmailAuthDomain : string;
  UpstreamCA : Certificate;
  KubeCA : string;
  IssuerCert : Certificate;
  IssuerKey : rsa_PrivateKey;
  ServerTLS : tls_Certificate;
  KubeClient : kubernetes_Interface
}.

Definition CertificateLifespan : Z := 3600 * 24 * 90 * Second.

(** Only the first attribute of the type counts. *)
Fixpoint ExtractEmail (c : Config) (names : list pkix_AttributeTypeAndValue) : outcome (result string) :=
  match names with
  | [] => Return (Err (errors_New "cannot find email attribute in certificate name"))
  | attr :: names =>
      if IsOIDEqual (attr_Type attr) OIDEmailAddress then
        match attr_Value attr with
        | AOther => Return (Err (errors_New "value in AttributeTypeAndValue was not a string"))
        | AString result =>
            let domain := "@" +:+ EmailAuthDomain c in
            if negb (HasSuffix result domain)
            then Return (Err (ErrorString ("email '" +:+ result +:+ "' had no suffix '" +:+ domain +:+ "'")))
            else s ← slice result 0 (len result - len domain); Return (Ok s)
        end
      else ExtractEmail c names
  end.

Definition GetClientCAs (c : Config) : list Certificate := [UpstreamCA c].

Definition Authenticate (c : Config) (request : Request) : MW (result string) :=
  match VerifiedChains request with
  | None => fail (errors_New "no TLS")
  | Some [] => fail (errors_New "no verified client chains")
  | Some ([] :: _) => fail (errors_New "no certificates in verified chain")
  | Some ((firstCert :: _) :: _) =>
      now ← time_Now;
      match x509_Verify firstCert (GetClientCAs c) [ExtKeyUsageClientAuth] now with
      | Err err => fail (ErrorString ("certificate not valid under this authority: " +:+ Error err))
      | Ok [] => fail (ErrorString "certificate not valid under this authority: <nil>")
      | Ok (_ :: _) => liftO (ExtractEmail c (Names (Subject firstCert)))
      end
  end.

Definition grant_template (issueAt : Z) (user : string) : Certificate :=
  mkCert "" false (OtherPublicKey "") 0 (mkName ("user:" +:+ user) [] [] []) issueAt (issueAt + CertificateLifespan)
    KeyUsageDigitalSignature [ExtKeyUsageClientAuth] true false 0 true [] [] false.
Definition CertGen (c : Config) (key : crypto_PublicKey) (user : string) : MW (result string) :=
  issueAt ← time_Now;
  FinishCertificate (grant_template issueAt user) (IssuerCert c) key (IssuerKey c).

(** What is made of the error of a creation: the type assertion panics on an error of another
    type than [*apierrors.StatusError]. *)
Definition after_create (r : result unit) (created existed : string) (failed : string) : MW (result unit) :=
  match r with
  | Ok _ => _ ← log_Print created; ok tt
  | Err err =>
      match StatusReason err with
      | None => panic "interface conversion: error is not *errors.StatusError"
      | Some reason =>
          if bool_decide (reason = StatusReasonAlreadyExists) then _ ← log_Print existed; ok tt
          else fail (wrap err failed)
      end
  end.
Definition CreateNamespace (c : Config) (namespace : string) : MW (result unit) :=
  if negb (HasPrefix namespace "user-")
  then fail (ErrorString ("namespace '" +:+ namespace +:+ "' did not start with 'user-'"))
  else
    r ← Namespaces_Create (KubeClient c) namespace;
    after_create r ("namespace " +:+ namespace +:+ " created" +:+ newline)
      ("namespace " +:+ namespace +:+ " already existed; not creating" +:+ newline)
      ("while creating namespace " +:+ namespace).

Definition auto_grant (namespace user : string) : RoleBinding :=
  mkRoleBinding ("auto-grant-" +:+ user) namespace "ClusterRole" "admin" "User" ("user:" +:+ user).
Definition GrantAccess (c : Config) (namespace user : string) : MW (result unit) :=
  r ← RoleBindings_Create (KubeClient c) namespace (auto_grant namespace user);
  after_create r ("default role binding created for user " +:+ user +:+ newline)
    ("role binding already existed for user " +:+ user +:+ "; not creating" +:+ newline)
    ("while checking whether rolebinding existed for user " +:+ user).

(** [Execute]: a write for each part of the template. *)
Definition Execute (templ : list (template_part response)) (resp : response) : MW (result unit) :=
  for_each (λ p, writer_Write (part_output resp p)) templ.

(** The error of [CertGen] is not looked at: the certificate is then empty. *)
Definition HandleRequest (c : Config) (request : Request) : MW (result unit) :=
  user ←? Authenticate c request;
  let namespace := "user-" +:+ user in
  CreateNamespace c namespace ;?
  GrantAccess c namespace user ;?
  key ←? GenerateRSA 2048;
  cert ← CertGen c (RSAPublicKey (rsa_N key.1)) user;
  let resp := mkGrantResponse namespace (base64_StdEncode key.2)
    (base64_StdEncode match cert with Ok cert => cert | Err _ => "" end)
    (base64_StdEncode (KubeCA c)) (ApiserverAddress c) in
  mret (Validate resp) ;?
  Execute pageTemplate resp.

Definition grant_handler (c : Config) (request : Request) : MW unit :=
  err ← HandleRequest c request;
  match err with
  | Ok _ => mret tt
  | Err err =>
      _ ← log_Print ("Grant request failed with error: " +:+ Error err);
      http_Error "Grant processing failed. See server logs for details." 400
  end.

(** The handler of the server, on one request. *)
Definition grant_mux (c : Config) (request : Request) : MW unit :=
  match mux_Handler ["/"] (Method request) (RequestURL request) with
  | MuxHandle _ => grant_handler c request
  | MuxRedirect target => http_Redirect request target
  | MuxNotFound => http_Error "404 page not found" 404
  end.

(** [tls.Config], and what [Launch] starts: the address, the TLS configuration, the handler.
    Listening may fail; [onstop] is the error with which serving ends. *)
Record tls_Config := mkTLSConfig { ClientCAs : list Certificate; Certificates : list tls_Certificate }.
Definition launch_config (c : Config) : tls_Config := mkTLSConfig (GetClientCAs c) [ServerTLS c].
Definition Launch (c : Config) (onstop : error) : MW error :=
  r ← syscall (ok tt);
  match r with Err err => mret err | Ok _ => mret onstop end.

(** The arguments: keys with their defaults, and what is given for them. *)
Definition grant_defaults : gmap string string := list_to_map
  [("upstream-ca", ""); ("kube-ca", ""); ("server-key", ""); ("server-cert", ""); ("issuer-key", "");
   ("issuer-cert", ""); ("apiserver", ""); ("address", ":443"); ("email-domain", "")].
Fixpoint grant_args (args : gmap string string) (rawArgs : list string) : MW (gmap string string) :=
  match rawArgs with
  | [] => mret args
  | arg :: rawArgs =>
      match SplitN arg "="%char 2 with
      | [k; v] =>
          match args !! k with
          | None => logger_Fatal ("unexpected argument: " +:+ k +:+ newline)
          | Some _ => grant_args (<[k := v]> args) rawArgs
          end
      | _ => logger_Fatal "expected argument to be key/value format"
      end
  end.
Definition LoadConfig (rawArgs : list string) : MW (result Config) :=
  args ← grant_args grant_defaults rawArgs;
  let arg k := default "" (args !! k) in
  if bool_decide (arg "address" = "") then fail (errors_New "no bind address specified")
  else if bool_decide (arg "apiserver" = "") then fail (errors_New "no apiserver address specified")
  else if bool_decide (arg "email-domain" = "") then fail (errors_New "no email authentication domain specified")
  else
    upstreamCA ←? LoadX509FromPath (arg "upstream-ca");
    kubeCA ←? ReadFile (arg "kube-ca");
    issuerCert ←? LoadX509FromPath (arg "issuer-cert");
    issuerKey ←? LoadRSAKeyFromPath (arg "issuer-key");
    serverTLS ←? tls_LoadX509KeyPair (arg "server-cert") (arg "server-key");
    config ←? rest_InClusterConfig;
    client ←? mret (kubernetes_NewForConfig config);
    ok (mkGrantConfig (arg "address") (arg "apiserver") (arg "email-domain") upstreamCA kubeCA
          issuerCert issuerKey serverTLS client).

Definition grant_main (args : list string) (onstop : error) : MW unit :=
  conf ← LoadConfig (drop 1 args);
  match conf with
  | Err err => logger_Fatal (Error err)
  | Ok conf =>
      err ← Launch conf onstop;
      logger_Fatal (Error err)
  end.
End grant.

(** ** What is written *)

Definition page (templ : list (template_part response)) (resp : response) : string :=
  Join (map (part_output resp) templ) "".
(** The same with the values as they are. *)
Definition plain_page (templ : list (template_part response)) (resp : response) : string :=
  Join (map (λ p, match p with Text s => s | Field f => f resp end) templ) "".

Lemma html_escape_whitelisted s :
  all_chars whitelisted s = true → has_char "+" s = false → html_escape s = s.
Proof.
  induction s as [|c s IH]; [done|]. cbn [all_chars has_char html_escape]. intros [Hc Hs]%andb_true_iff [Hp Ht]%orb_false_iff.
  rewrite IH by done. replace (html_escape_char c) with (String c ""); [done|].
  apply bool_decide_eq_false in Hp. unfold html_escape_char.
  assert (Hall : forallb (λ n, implb (whitelisted (byte_chr (Z.of_nat n)))
    (bool_decide (html_escape_char (byte_chr (Z.of_nat n)) = String (byte_chr (Z.of_nat n)) "" ∨ n = 43%nat))) (seq 0 256) = true)
    by (vm_compute; reflexivity).
  rewrite forallb_forall in Hall. pose proof (byte_val_range c). specialize (Hall (Z.to_nat (byte_val c))).
  rewrite List.in_seq in Hall. specialize (Hall ltac:(lia)). rewrite Z2Nat.id, byte_chr_val, Hc in Hall by lia.
  apply bool_decide_eq_true in Hall as [Hall|Hall]; [done|].
  destruct Hp. rewrite <- (byte_chr_val c). replace (byte_val c) with 43 by lia. reflexivity.
Qed.

(** The base64 form of a PEM text is a text of letters, digits and [/=] only. *)
Lemma base64_pem s : all_chars pem_char s = true → has_char "+" (base64_StdEncode s) = false.
Proof.
  intros Hs. apply base64_no_plus. induction s as [|c s IH]; [constructor|].
  cbn [all_chars bytes_of] in *. apply andb_true_iff in Hs as [Hc Hs]. constructor; [|by apply IH].
  assert (Hall : forallb (λ n, implb (pem_char (byte_chr (Z.of_nat n)))
    (bool_decide (Z.of_nat n < 128 ∧ Z.of_nat n mod 64 ≠ 62))) (seq 0 256) = true) by (vm_compute; reflexivity).
  rewrite forallb_forall in Hall. pose proof (byte_val_range c). specialize (Hall (Z.to_nat (byte_val c))).
  rewrite List.in_seq in Hall. specialize (Hall ltac:(lia)). rewrite Z2Nat.id, byte_chr_val, Hc in Hall by lia.
  apply bool_decide_eq_true in Hall. lia.
Qed.

Lemma fold_check_Ok {A} (f : A → result unit) l :
  fold_result (λ _ a, f a) tt l = Ok tt ↔ Forall (λ a, f a = Ok tt) l.
Proof.
  induction l as [|a l IH]; simpl; [by split|]. destruct (f a) as [[]|e] eqn:E; simpl.
  - rewrite IH. split; [by constructor|by inversion 1].
  - split; [done|]. inversion 1. congruence.
Qed.
Lemma validateCharset_Ok s : validateCharset s = Ok tt ↔ s ≠ "" ∧ all_chars whitelisted s = true.
Proof.
  unfold validateCharset, characterWhitelist. case_bool_decide as Hs; simpl; [by split; [|intros []]|].
  destruct (all_chars whitelisted s); simpl; naive_solver.
Qed.
Definition fields (r : response) : list string :=
  [Namespace r; KeyBase64 r; CertBase64 r; AuthorityBase64 r; resp_Server r].
Lemma Validate_Ok r : Validate r = Ok tt ↔ Forall (λ s, s ≠ "" ∧ all_chars whitelisted s = true) (fields r).
Proof.
  unfold Validate. rewrite fold_check_Ok. apply Forall_iff, validateCharset_Ok.
Qed.
Lemma page_plain r :
  Validate r = Ok tt → Forall (λ s, has_char "+" s = false) (fields r) →
  page pageTemplate r = plain_page pageTemplate r.
Proof.
  intros Hv%Validate_Ok Hp. unfold page, plain_page. f_equal. apply map_ext_in. intros p Hin.
  destruct p as [s|f]; [done|]. simpl.
  assert (Hf : f r ∈ fields r).
  { revert Hin. unfold pageTemplate, fields. simpl. intros Hin.
    repeat (destruct Hin as [Hin|Hin]; [first [discriminate Hin|injection Hin as <-; set_solver]|]). done. }
  rewrite Forall_forall in Hv, Hp. apply html_escape_whitelisted; [apply Hv, Hf|apply Hp, Hf].
Qed.

(** ** Who is served *)

(** The email address of a name: the value of its first attribute of that type. *)
Definition email_of (names : list pkix_AttributeTypeAndValue) (email : string) : Prop :=
  ∃ pre a post, names = pre ++ a :: post ∧ Forall (λ a, attr_Type a ≠ OIDEmailAddress) pre ∧
    attr_Type a = OIDEmailAddress ∧ attr_Value a = AString email.

Lemma IsOIDEqual_spec a b : IsOIDEqual a b = bool_decide (a = b).
Proof.
  unfold IsOIDEqual. destruct (decide (length a = length b)) as [Hl|Hl].
  - rewrite bool_decide_false by tauto. by apply equal_from_eq.
  - rewrite bool_decide_true by done. symmetry. apply bool_decide_eq_false. congruence.
Qed.

Section served.
Context {errs : PkgErrors} {packages : Crypto} {X : Type} {out : HasWriter X} {api : KubeAPI X}.
Implicit Types w : World X.

(** The user that a request may be served for: the request came with a certificate that the
    upstream authority signed for clients, with an email address of the domain. *)
Definition grantee (c : Config) (request : Request) (user : string) : Prop :=
  ∃ cert chain chains now found,
    VerifiedChains request = Some ((cert :: chain) :: chains) ∧
    x509_Verify cert [UpstreamCA c] [ExtKeyUsageClientAuth] now = Ok found ∧ found ≠ [] ∧
    email_of (Names (Subject cert)) (user +:+ "@" +:+ EmailAuthDomain c).

Lemma ExtractEmail_spec c names :
  (∃ r, ExtractEmail c names = Return r) ∧
  ∀ user, ExtractEmail c names = Return (Ok user) ↔ email_of names (user +:+ "@" +:+ EmailAuthDomain c).
Proof.
  induction names as [|a names [[r IHr] IH]]; simpl.
  { split; [by eexists|]. intros user. split; [done|]. by intros ([|] & ? & ? & ? & _). }
  rewrite IsOIDEqual_spec. case_bool_decide as Ht.
  - assert (Hfirst : ∀ e, email_of (a :: names) e ↔ attr_Value a = AString e).
    { intros e. split.
      - intros ([|b pre] & b' & post & E & Hp & Hb & Hv); [by injection E as -> _|].
        injection E as <- _. by apply Forall_cons in Hp as [? _].
      - intros Hv. by exists [], a, names. }
    setoid_rewrite Hfirst. destruct (attr_Value a) as [s|]; [|split; [by eexists|done]].
    destruct (HasSuffix s _) eqn:Hs; simpl.
    + apply HasSuffix_spec in Hs as [u ->]. rewrite len_app.
      replace (_ - _) with (len u) by lia. rewrite slice_prefix. simpl. split; [by eexists|].
      intros user. split; [by intros [= ->]|]. intros [= E]. by apply app_inj_r_s in E as ->.
    + split; [by eexists|]. intros user. split; [done|]. intros [= ->].
      assert (Hx : HasSuffix (user +:+ "@" +:+ EmailAuthDomain c) ("@" +:+ EmailAuthDomain c) = true)
        by (apply HasSuffix_spec; by eexists). congruence.
  - split; [by eexists|]. intros user. rewrite IH. split.
    + intros (pre & b & post & -> & Hp & Hb). exists (a :: pre), b, post. split_and!; [done|by constructor|apply Hb..].
    + intros ([|b' pre] & b & post & E & Hp & Hb & Hv); [by injection E as -> _|].
      injection E as <- ->. apply Forall_cons in Hp as [_ Hp]. by exists pre, b, post.
Qed.

Lemma Authenticate_inv c request w r w' :
  Authenticate c request w = (Return r, w') →
  os_only w w' ∧ ∀ user, r = Ok user → grantee c request user.
Proof.
  unfold Authenticate. destruct (VerifiedChains request) as [[|[|cert chain] chains]|] eqn:Hc; try by intros [= <- <-].
  intros (t & w1 & E & H)%bind_inv. injection E as <- <-.
  destruct (x509_Verify _ _ _ _) as [[|f found]|e] eqn:Hv; try by injection H as <- <-.
  unfold liftO in H. destruct (ExtractEmail_spec c (Names (Subject cert))) as [_ Hex]. injection H as H <-.
  split; [done|]. intros user ->. apply Hex in H. eexists cert, chain, chains, _, (f :: found).
  split_and!; [exact Hc|exact Hv|done|exact H].
Qed.
Lemma Authenticate_returns c request : returns (Authenticate (X:=X) c request).
Proof.
  unfold Authenticate. destruct (VerifiedChains request) as [[|[|cert chain] chains]|]; [apply returns_ret..| |apply returns_ret].
  apply returns_bind; [apply time_Now_returns|]. intros t. destruct (x509_Verify _ _ _ _) as [[|]|]; [apply returns_ret| |apply returns_ret].
  intros w. destruct (ExtractEmail_spec c (Names (Subject cert))) as [[r Hr] _]. exists r. by rewrite <- Hr.
Qed.
Lemma Authenticate_os c request : keeps os_only (Authenticate (X:=X) c request).
Proof.
  intros w. destruct (Authenticate_returns c request w) as [r Hr].
  destruct (Authenticate c request w) as [o w'] eqn:E. simpl in *. subst o. by apply (Authenticate_inv _ _ _ _ _ E).
Qed.

(** *** What is asked of the cluster *)

Section confined.
Context (R : relation (World X)) `{!PreOrder R} (c : Config) (request : Request).
Context (Hos : ∀ w w', comp w = comp w' → R w w') (Hwriter : ∀ w r, R w (on_comp (set_writer r) w)).

Lemma os_confined {A} (m : M (World X) A) : keeps os_only m → keeps R m.
Proof using Hos. intros Hm w. by apply Hos, Hm. Qed.
Lemma Write_confined d : keeps R (writer_Write (X:=X) d).
Proof using All.
  unfold writer_Write, WriteHeader, update_writer.
  assert (Hf : keeps R (next_fault (X:=X))) by (apply os_confined; auto with go).
  assert (Hm : ∀ f, keeps R (modify (on_comp (λ x, set_writer (f (writer x)) x)))) by (intros f w; apply Hwriter).
  apply keeps_bind; [exact _|exact (Hm (λ r, mkResponse (Some (default 200 (status r))) (location r) (sent r)))|intros _].
  apply keeps_bind; [exact _|done|intros [f|]]; [apply keeps_ret; exact _|].
  apply keeps_bind; [exact _|exact (Hm (λ r, mkResponse (status r) (location r) (sent r +:+ d)))|intros _].
  apply keeps_ret; exact _.
Qed.
Lemma after_create_confined r a b d : keeps R (after_create r a b d).
Proof using All.
  assert (Hlog : ∀ m, keeps R (log_Print (X:=X) m)) by (intros; by apply os_confined). unfold after_create. os_frame.
Qed.

Lemma HandleRequest_confined :
  (∀ user, grantee c request user →
     keeps R (Namespaces_Create (KubeClient c) ("user-" +:+ user)) ∧
     keeps R (RoleBindings_Create (KubeClient c) ("user-" +:+ user) (auto_grant ("user-" +:+ user) user))) →
  keeps R (HandleRequest c request).
Proof using All.
  intros Hu. pose proof Write_confined as HW. unfold HandleRequest. unfold try_bind at 1.
  apply keeps_bind_val; [exact _|apply os_confined, Authenticate_os|].
  intros r w w' [_ Hr]%Authenticate_inv. destruct r as [user|e]; [|apply keeps_ret; exact _].
  destruct (Hu user (Hr _ eq_refl)) as [Hn Hb]. apply keeps_try; [exact _| |intros _].
  { unfold CreateNamespace. os_frame; apply after_create_confined. }
  apply keeps_try; [exact _| |intros _]; [unfold GrantAccess; os_frame; apply after_create_confined|].
  apply keeps_try; [exact _|apply os_confined, GenerateRSA_os_only|]. intros key.
  apply keeps_bind; [exact _|unfold CertGen; os_frame; apply os_confined; auto with go|]. intros cert. unfold Execute. os_frame.
Qed.

(** C17: Whatever is asked and whatever the cluster answers, all that the service asks of the
    cluster is the namespace [user-<name>] and the binding [auto-grant-<name>] of the role of
    its administrator to [user:<name>], for names that the request proves: a certificate
    verified under the upstream authority, whose email address is [<name>@<domain>]. Stated
    for every relation [R] on the state outside of the machine and of the response: if those
    two calls stay in it, the service does. *)
Theorem grant_mux_confined :
  (∀ user, grantee c request user →
     keeps R (Namespaces_Create (KubeClient c) ("user-" +:+ user)) ∧
     keeps R (RoleBindings_Create (KubeClient c) ("user-" +:+ user) (auto_grant ("user-" +:+ user) user))) →
  keeps R (grant_mux c request).
Proof using All.
  intros Hu. pose proof (HandleRequest_confined Hu) as Hh. pose proof Write_confined as HW.
  assert (Hlog : ∀ m, keeps R (log_Print (X:=X) m)) by (intros; by apply os_confined).
  assert (Hm : ∀ f, keeps R (modify (on_comp (λ x, set_writer (f (writer x)) x)))) by (intros f w; apply Hwriter).
  assert (Hs : ∀ code, keeps R (WriteHeader (X:=X) code))
    by (intros code; exact (Hm (λ r, mkResponse (Some (default code (status r))) (location r) (sent r)))).
  assert (Hr : ∀ req u, keeps R (http_Redirect (X:=X) req u)).
  { intros req u. unfold http_Redirect.
    apply keeps_bind; [exact _|exact (Hm (λ r, mkResponse (status r) (hexEscapeNonASCII (redirect_url u)) (sent r)))|intros _].
    apply keeps_bind; [exact _|apply Hs|intros _]. case_bool_decide; [|apply keeps_ret; exact _].
    apply keeps_bind; [exact _|apply HW|intros _; apply keeps_ret; exact _]. }
  unfold grant_mux, grant_handler, http_Error. os_frame.
Qed.
End confined.

(** *** What is issued *)

Lemma writer_Write_sent d w w' :
  writer_Write d w = (Return (Ok tt), w') →
  sent (writer (comp w')) = sent (writer (comp w)) +:+ d ∧
  status (writer (comp w')) = Some (default 200 (status (writer (comp w)))).
Proof.
  unfold writer_Write, WriteHeader, update_writer. intros (u & w1 & E & H)%bind_inv. injection E as _ <-.
  apply bind_inv in H as (f & w2 & E & H). injection E as <- <-. simpl in H.
  destruct (mjoin _); [done|]. apply bind_inv in H as (u' & w3 & E & H). injection E as _ <-. injection H as <-.
  simpl. by rewrite !writer_set.
Qed.
Lemma Execute_Ok templ resp : ∀ w w',
  Execute templ resp w = (Return (Ok tt), w') →
  sent (writer (comp w')) = sent (writer (comp w)) +:+ page templ resp ∧
  status (writer (comp w')) = match templ with [] => status (writer (comp w)) | _ => Some (default 200 (status (writer (comp w)))) end.
Proof.
  unfold Execute, page. induction templ as [|p templ IH]; intros w w' H.
  { injection H as <-. simpl. by rewrite app_nil_s. }
  simpl in H. apply try_bind_Ok_inv in H as ([] & w1 & [Hs Ht]%writer_Write_sent & [Hs1 Ht1]%IH).
  split; [|rewrite Ht1, Ht; by destruct templ].
  rewrite Hs1, Hs, <- app_assoc_s. f_equal. cbn [map]. destruct templ; [by rewrite app_nil_s|]. by rewrite Join_cons.
Qed.

Lemma CertGen_inv c n user w cert w' :
  CertGen c (RSAPublicKey n) user w = (Return (Ok cert), w') →
  ∃ x issueAt, LoadX509CertFromPEM cert = Ok x ∧ all_chars pem_char cert = true ∧
    CommonName (Subject x) = "user:" +:+ user ∧ PublicKey x = RSAPublicKey n ∧
    ExtKeyUsages x = [ExtKeyUsageClientAuth] ∧ IsCA x = false ∧
    issueAt ≤ now (os w') ∧ Unix (NotBefore x) = Unix issueAt ∧
    Unix (NotAfter x) = Unix (issueAt + 90 * 24 * 3600 * Second) ∧
    (PublicKey (IssuerCert c) = RSAPublicKey (rsa_N (IssuerKey c)) → x509_signed_by x (IssuerCert c) = true).
Proof.
  unfold CertGen. intros (issueAt & w1 & Ht & H)%bind_inv. injection Ht as <- <-.
  apply FinishCertificate_inv in H as (Hn & m & x & _ & Hl & [Hc _] & Hcc & _ & Hp & Hs); [|by repeat constructor].
  exists x, (now (os w) + Z.of_N (default 0%N (head (ticks (os w))))). unfold cert_contents, encoded_contents, cert_fields in Hcc. simpl in Hcc.
  injection Hcc as _ Hcn _ Hb Ha _ Heku _ Hca _ _. unfold Unix, Second in *. rewrite Hn.
  split_and!; try done. rewrite Hc. by apply pem_text.
Qed.

Lemma validated_fields r : Validate r = Ok tt → CertBase64 r ≠ "".
Proof. intros Hv%Validate_Ok. rewrite Forall_forall in Hv. apply Hv. set_solver. Qed.

Lemma after_create_writer r a b d : keeps (same (λ w, writer (comp w))) (after_create (X:=X) r a b d).
Proof. unfold after_create. os_frame; done. Qed.
Lemma os_writer {A} (m : M (World X) A) : keeps os_only m → keeps (same (λ w, writer (comp w))) m.
Proof. intros Hm w. unfold same. by rewrite (Hm w). Qed.

(** The steps of a request that was answered. *)
Lemma HandleRequest_inv c request w w' :
  HandleRequest c request w = (Return (Ok tt), w') →
  ∃ user key cert w1 w2 w3,
    let resp := mkGrantResponse ("user-" +:+ user) (base64_StdEncode key.2) (base64_StdEncode cert)
      (base64_StdEncode (KubeCA c)) (ApiserverAddress c) in
    grantee c request user ∧ GenerateRSA 2048 w1 = (Return (Ok key), w2) ∧
    CertGen c (RSAPublicKey (rsa_N key.1)) user w2 = (Return (Ok cert), w3) ∧
    Validate resp = Ok tt ∧ Execute pageTemplate resp w3 = (Return (Ok tt), w') ∧
    writer (comp w3) = writer (comp w).
Proof.
  unfold HandleRequest.
  intros (user & w0 & [Ha Hg]%Authenticate_inv & ([] & w1' & Hn & ([] & w1 & Hb & H)%try_bind_Ok_inv)%try_bind_Ok_inv)%try_bind_Ok_inv.
  apply try_bind_Ok_inv in H as (key & w2 & Hk & (r & w3 & Hc & ([] & w4 & Hv & H)%try_bind_Ok_inv)%bind_inv).
  injection Hv as Hv <-. destruct r as [cert|e]; [|by apply validated_fields in Hv].
  exists user, key, cert, w1, w2, w3. split_and!; try done; [by apply Hg|].
  assert (Hw : same (λ w, writer (comp w)) w w3); [|done].
  etrans; [unfold same; by rewrite Ha|].
  assert (Hcn : keeps (same (λ w, writer (comp w))) (CreateNamespace (X:=X) c ("user-" +:+ user))).
  { unfold CreateNamespace. os_frame; [apply Namespaces_Create_writer|apply after_create_writer]. }
  assert (Hga : keeps (same (λ w, writer (comp w))) (GrantAccess (X:=X) c ("user-" +:+ user) user)).
  { unfold GrantAccess. os_frame; [apply RoleBindings_Create_writer|apply after_create_writer]. }
  specialize (Hcn w0). rewrite Hn in Hcn. etrans; [exact Hcn|]. specialize (Hga w1'). rewrite Hb in Hga. etrans; [exact Hga|].
  pose proof (os_writer _ (GenerateRSA_os_only 2048) w1) as Hgr. rewrite Hk in Hgr. etrans; [exact Hgr|].
  assert (Hcg : keeps os_only (CertGen (X:=X) c (RSAPublicKey (rsa_N key.1)) user)) by (unfold CertGen; os_frame).
  apply os_writer in Hcg. specialize (Hcg w2). by rewrite Hc in Hcg.
Qed.

(** C16: A request is answered with a configuration only for the user that its certificate
    proves, and what is sent is the whole page, made of the user's namespace, the authority
    and the address of the API server, and a fresh key with a certificate that belong
    together: the key loads, and the certificate is one for that key and the user [user:<name>],
    for clients only, valid for 90 days, signed with the issuer's key. Every value on the page
    is a non-empty word of the whitelisted characters; the key and the certificate are on it
    as they are, and so is the rest when it has no [+], which html/template would escape. *)
Theorem HandleRequest_issues c request w w' :
  HandleRequest c request w = (Return (Ok tt), w') →
  ∃ user key cert x issueAt,
    let resp := mkGrantResponse ("user-" +:+ user) (base64_StdEncode key.2) (base64_StdEncode cert)
      (base64_StdEncode (KubeCA c)) (ApiserverAddress c) in
    grantee c request user ∧
    sent (writer (comp w')) = sent (writer (comp w)) +:+ page pageTemplate resp ∧
    Forall (λ s, s ≠ "" ∧ all_chars whitelisted s = true) (fields resp) ∧
    LoadRSAKeyFromPEM key.2 = Ok key.1 ∧ LoadX509CertFromPEM cert = Ok x ∧
    PublicKey x = RSAPublicKey (rsa_N key.1) ∧ CommonName (Subject x) = "user:" +:+ user ∧
    ExtKeyUsages x = [ExtKeyUsageClientAuth] ∧ IsCA x = false ∧
    Unix (NotBefore x) = Unix issueAt ∧ Unix (NotAfter x) = Unix (issueAt + 90 * 24 * 3600 * Second) ∧
    (PublicKey (IssuerCert c) = RSAPublicKey (rsa_N (IssuerKey c)) → x509_signed_by x (IssuerCert c) = true) ∧
    html_escape (KeyBase64 resp) = KeyBase64 resp ∧ html_escape (CertBase64 resp) = CertBase64 resp ∧
    (has_char "+" user = false → has_char "+" (ApiserverAddress c) = false → all_chars pem_char (KubeCA c) = true →
     page pageTemplate resp = plain_page pageTemplate resp).
Proof.
  intros (user & key & cert & w1 & w2 & w3 & Hg & Hk & Hc & Hv & He & Hw)%HandleRequest_inv.
  apply GenerateRSA_text in Hk as (Hload & Hkt & _).
  apply CertGen_inv in Hc as (x & issueAt & Hx & Hct & Hcn & Hp & Heku & Hca & _ & Hnb & Hna & Hs).
  apply Execute_Ok in He as [Hsent _]. rewrite Hw in Hsent. pose proof (proj1 (Validate_Ok _) Hv) as Hf.
  exists user, key, cert, x, issueAt.
  assert (Hesc : ∀ s, s ∈ [base64_StdEncode key.2; base64_StdEncode cert] → all_chars whitelisted s = true).
  { intros s Hin. rewrite Forall_forall in Hf. apply Hf. revert Hin. unfold fields. set_solver. }
  split_and!; try done; simpl.
  - apply html_escape_whitelisted; [apply Hesc; set_solver|by apply base64_pem].
  - apply html_escape_whitelisted; [apply Hesc; set_solver|by apply base64_pem].
  - intros Hu Ha Hca'. apply page_plain; [done|]. unfold fields. simpl.
    repeat (apply Forall_cons; split); [exact Hu|by apply base64_pem..|exact Ha|constructor].
Qed.

(** An error of the cluster that is not a status, as that of a connection refused, makes the
    handler panic instead of answering. *)
Lemma CreateNamespace_panics c namespace e w w1 :
  HasPrefix namespace "user-" = true →
  Namespaces_Create (KubeClient c) namespace w = (Return (Err e), w1) → StatusReason e = None →
  (CreateNamespace c namespace w).1 = Panic "interface conversion: error is not *errors.StatusError".
Proof.
  intros Hp Hc Hs. unfold CreateNamespace. rewrite Hp. cbn [negb].
  rewrite (bind_Return _ _ _ _ _ Hc). unfold after_create. by rewrite Hs.
Qed.
End served.

(** ** A concrete service *)

(** A cluster that keeps what is created in it, and a response. *)
Module SampleGrant.
Record Cluster := mkCluster { resp : Response; namespaces : list string; bindings : list RoleBinding }.
#[export] Program Instance cluster_writer : HasWriter Cluster := {|
  writer := resp;
  set_writer r c := mkCluster r (namespaces c) (bindings c)
|}.
Next Obligation. done. Qed.

Definition create_namespace (n : string) : M (World Cluster) (result unit) :=
  c ← gets (λ w, namespaces (comp w));
  if bool_decide (n ∈ c) then fail (ForeignError "AlreadyExists")
  else _ ← modify (on_comp (λ c, mkCluster (resp c) (n :: namespaces c) (bindings c))); ok tt.
Definition create_binding (b : RoleBinding) : M (World Cluster) (result unit) :=
  _ ← modify (on_comp (λ c, mkCluster (resp c) (namespaces c) (b :: bindings c))); ok tt.
Definition status_reason (e : error) : option string := match e with ForeignError m => Some m | _ => None end.
#[export] Program Instance api : KubeAPI Cluster := {|
  rest_Config := unit;
  kubernetes_Interface := unit;
  rest_InClusterConfig := ok tt;
  kubernetes_NewForConfig _ := Ok tt;
  Namespaces_Create _ := create_namespace;
  RoleBindings_Create _ _ := create_binding;
  StatusReason := status_reason
|}.
Next Obligation. intros k n. unfold create_namespace. os_frame; done. Qed.
Next Obligation. done. Qed.
End SampleGrant.
Import PkgErrorsImpl SampleGrant.

(** The certificate of alice, of the upstream authority. *)
Definition alice_template : Certificate :=
  mkCert "" false (OtherPublicKey "") 1
    (mkName "Alice" [] [] [mkAttr OIDEmailAddress (AString "alice@example.com")])
    0 1000000000000 1 [ExtKeyUsageClientAuth] true false 0 true [] [] false.
Definition alice_cert : option Certificate :=
  match x509_CreateCertificate (Some "") alice_template ca_cert (RSAPublicKey 5) ca_key with
  | Ok der => result_value (x509_ParseCertificate der)
  | Err _ => None
  end.
Definition sample_grant : Config := mkGrantConfig ":443" "api.example.com" "example.com" ca_cert
  (pem_cert (Raw ca_cert)) (sample_cert node_key "kube" 0 1000000000000) node_key ([], node_key) tt.
Definition alice_request (path : string) : Request :=
  mkRequest "GET" (at_path path) "10.0.0.1:999" ∅ (c ← alice_cert; Some [[c]]) (Ok "").
Definition grant_world : World Cluster :=
  mkWorld (with_entropy ["key"; "AAAAAAAAAAAAAAAAAAAA"; "sig"] (os0 7)) (mkCluster empty_response [] []).

Example grant_ex :
  let '(o, w) := grant_mux sample_grant (alice_request "/") grant_world in
  o = Return tt ∧ status (resp (comp w)) = Some 200 ∧ namespaces (comp w) = ["user-alice"] ∧
  bindings (comp w) = [auto_grant "user-alice" "alice"] ∧
  Contains (sent (resp (comp w))) ("namespace: " +:+ quote_s +:+ "user-alice" +:+ quote_s) = true.
Proof. vm_compute. done. Qed.
(** Without randomness for the certificate the ignored error is found by the validation. *)
Example grant_no_cert :
  let '(o, w) := grant_mux sample_grant (alice_request "/")
    (mkWorld (with_entropy ["key"] (os0 7)) (mkCluster empty_response [] [])) in
  o = Return tt ∧ status (resp (comp w)) = Some 400 ∧
  head (logged (os w)) = Some "Grant request failed with error: not a valid string: []".
Proof. vm_compute. done. Qed.

Lemma alice_email :
  (λ c, ExtractEmail sample_grant (Names (Subject c))) <$> alice_cert = Some (Return (Ok "alice")).
Proof. vm_compute. reflexivity. Qed.
Lemma grantee_email user c request cert :
  VerifiedChains request = (c ← cert; Some [[c]]) → grantee sample_grant request user →
  (λ c, ExtractEmail sample_grant (Names (Subject c))) <$> cert = Some (Return (Ok c)) → user = c.
Proof.
  intros Hr (cert' & chain & chains & now & found & Hc & _ & _ & He%ExtractEmail_spec) Ha.
  rewrite Hr in Hc. destruct cert as [x|]; [|done]. injection Hc as <- <- <-.
  injection Ha as Ha. rewrite Ha in He. by injection He.
Qed.
Lemma alice_only user : grantee sample_grant (alice_request "/") user → user = "alice".
Proof.
  intros Hg. apply (grantee_email user "alice" (alice_request "/") alice_cert); [|exact Hg|exact alice_email].
  unfold alice_request. cbn [VerifiedChains]. reflexivity.
Qed.

(** Whatever is created for this request is for alice. *)
Definition alice_bindings : relation (World Cluster) :=
  λ w w', ∀ b, b ∈ bindings (comp w') → b ∈ bindings (comp w) ∨ b = auto_grant "user-alice" "alice".
#[export] Instance alice_bindings_preorder : PreOrder alice_bindings.
Proof.
  split; [intros w b; auto|]. intros w1 w2 w3 H1 H2 b Hb. destruct (H2 b Hb) as [H|H]; [by apply H1|by right].
Qed.
Lemma grant_mux_confined_witness :
  Forall (λ b, b = auto_grant "user-alice" "alice") (bindings (comp (grant_mux sample_grant (alice_request "/") grant_world).2)).
Proof.
  apply Forall_forall. intros b Hb.
  assert (H : keeps alice_bindings (grant_mux sample_grant (alice_request "/"))).
  { apply grant_mux_confined; [exact _|intros w w' E ?; by rewrite E; left|by left|].
    intros user ->%alice_only. split.
    - intros w. unfold alice_bindings. simpl. unfold create_namespace, mbind, M_bind, gets. simpl.
      destruct (bool_decide _); by left.
    - intros w x. simpl. intros [->|?]%elem_of_cons; [by right|by left]. }
  destruct (H grant_world b Hb) as [E|E]; [|exact E]. by apply not_elem_of_nil in E.
Defined.

Lemma HandleRequest_issues_witness :
  match HandleRequest sample_grant (alice_request "/") grant_world with
  | (Return (Ok _), w') => ∃ cert x,
      LoadX509CertFromPEM cert = Ok x ∧ CommonName (Subject x) = "user:alice" ∧ ExtKeyUsages x = [ExtKeyUsageClientAuth]
  | _ => False
  end.
Proof.
  run_ok E. destruct a.
  destruct (HandleRequest_issues sample_grant (alice_request "/") grant_world _ E)
    as (user & key & cert & x & t & Hg & _ & _ & _ & Hl & _ & Hcn & Hu & _).
  apply alice_only in Hg as ->. exists cert, x. split; [exact Hl|]. split; [exact Hcn|exact Hu].
Defined.
