(* ===== verification/LocalCerts.v ===== *)
(** * Certificates without a key server: keylocalcert and keygenupstream

    [keysystem/keylocalcert] signs a certificate with an authority that it loads from files;
    [keysystem/keygenupstream] makes the upstream authority and the certificate of a user
    that a test cluster needs, for [UserGrant] to accept. *)

From S2P Require Import Prelude GoStrings GoNet GoOS Exits FileUtil GoErrors GoCodec GoCrypto CertUtil GoTime GoHTTP Authorities KsState Token Operation WorldConfig Samples Keygen UserGrant.
#[export] Set Default Goal Selector "!".

(** ** keygenupstream/keygenupstream.go *)

Section keygenupstream.
Context {packages : Crypto} {X : Type}.
Abbreviation MW := (M (World X)).

Definition upstream_template (issueAt lifespan : Z) (email : string) : Certificate :=
  mkCert "" false (OtherPublicKey "") 0
    (mkName ("simulated user " +:+ email) [] [] [mkAttr OIDEmailAddress (AString email)])
    issueAt (issueAt + lifespan) KeyUsageDigitalSignature [ExtKeyUsageClientAuth]
    true false 0 true [] [] false.

(** The error of the second key is overwritten by the one of the certificate before it is
    looked at: the key is then a nil pointer. *)
Definition Generate (cakeyfile cacertfile email userkeyfile usercertfile : string) (lifespan : Z) : MW (result unit) :=
  ca ←? GenerateRSA AuthorityBits;
  cacertbytes ←? GenerateTLSSelfSignedCert ca.1 "upstream-local";
  cacert ←? mret (LoadX509CertFromPEM cacertbytes);
  user ← GenerateRSA AuthorityBits;
  issueAt ← time_Now;
  match user with
  | Err _ => panic "invalid memory address or nil pointer dereference"
  | Ok user =>
      usercertbytes ←? FinishCertificate (upstream_template issueAt lifespan email) cacert
        (RSAPublicKey (rsa_N user.1)) ca.1;
      WriteFile cakeyfile ca.2 384 ;?
      WriteFile cacertfile cacertbytes 420 ;?
      WriteFile userkeyfile user.2 384 ;?
      WriteFile usercertfile usercertbytes 420 ;?
      ok tt
  end.

Definition keygenupstream_main (args : list string) : MW unit :=
  match args with
  | [_; cakey; cacert; email; userkey; usercert; lifespan] =>
      lifespan ← or_fatal (mret (ParseDuration lifespan));
      _ ← or_fatal (Generate cakey cacert email userkey usercert lifespan);
      log_Print "done generating fake upstream info."
  | _ =>
      logger_Fatal ("usage: keygenupstream <ca-key-out> <ca-cert-out> <email> <user-key-out> <user-cert-out> <lifespan>"
        +:+ newline +:+ "  generates an upstream authority and client cert directly")
  end.
End keygenupstream.

(** ** keylocalcert/keylocalcert.go *)

Section keylocalcert.
Context {errs : PkgErrors} {packages : Crypto} {keys : NewKeys} {X : Type}.
Abbreviation MW := (M (World X)).

(** The comma-separated lists of the command line. *)
Definition comma_list (arg : string) : list string :=
  if bool_decide (0 < len arg) then Split arg ","%char else [].

(** The request for the certificate, of the kind of the authority. *)
Definition local_request (isSSH : bool) (pkey : rsa_PrivateKey) (privkey : string) : MW (result string) :=
  if isSSH then mret (ssh_MarshalAuthorizedKey <$> ssh_NewPublicKey (RSAPublicKey (rsa_N pkey)))
  else BuildTLSCSR privkey.
Definition local_sign (isSSH : bool) (authority : Authority) (csr : string) (lifespan : Z) (commonname : string)
    (dnsnames organizations : list string) : MW (result string) :=
  if isSSH then
    match authority with
    | ASSH a => SSH_Sign a csr false lifespan commonname ["root"]
    | ATLS _ => panic "interface conversion: authorities.Authority is not *authorities.SSHAuthority"
    end
  else
    match authority with
    | ATLS a => TLS_Sign a csr (bool_decide (0 < length dnsnames)%nat) lifespan commonname dnsnames organizations
    | ASSH _ => panic "interface conversion: authorities.Authority is not *authorities.TLSAuthority"
    end.

Definition keylocalcert_main (args : list string) : MW unit :=
  match args with
  | [_; cakey; cacert; commonname; lifespan; outkey; outcert; dnsnames; organizations] =>
      keydata ← or_fatal (ReadFile cakey);
      certdata ← or_fatal (ReadFile cacert);
      let isSSH := negb (IsPEMBlock certdata) in
      authority ← or_fatal (mret (if isSSH then LoadSSHAuthority keydata certdata else LoadTLSAuthority keydata certdata));
      lifespan ← or_fatal (mret (ParseDuration lifespan));
      (* smaller key sizes are okay, because these are limited to a short period *)
      key ← or_fatal (GenerateRSA 2048);
      csr ← or_fatal (local_request isSSH key.1 key.2);
      result ← or_fatal (local_sign isSSH authority csr lifespan commonname (comma_list dnsnames) (comma_list organizations));
      _ ← or_fatal (WriteFile outkey key.2 384);
      _ ← (if isSSH then or_fatal (WriteFile (outkey +:+ ".pub") csr 420) else mret tt);
      or_fatal (WriteFile outcert result 420)
  | _ =>
      logger_Fatal ("usage: keylocalcert <ca-key> <ca-cert> <principal> <lifespan> <out-key> <out-cert> <dnsnames> <organizations>"
        +:+ newline +:+ "  generates a kubernetes or etcd certificate directly")
  end.
End keylocalcert.

(** ** The certificate of keygenupstream is one that user-grant accepts *)

Section accepted.
Context {packages : Crypto} {X : Type}.
Implicit Types w : World X.

Lemma filter_singleton {A} (P : A → bool) l a :
  List.filter P l = [a] → ∃ pre post, l = pre ++ a :: post ∧ Forall (λ b, P b = false) pre.
Proof.
  induction l as [|b l IH]; simpl; [done|]. destruct (P b) eqn:Hb.
  - intros [= <- _]. exists [], l. split; [done|constructor].
  - intros (pre & post & -> & Hp)%IH. exists (b :: pre), post. split; [done|by constructor].
Qed.
(** The only extra attribute of a name is the first one of its type. *)
Lemma extra_email names email :
  extra_attrs names = [mkAttr OIDEmailAddress (AString email)] → email_of names email.
Proof.
  intros (pre & post & -> & Hp)%filter_singleton. eexists pre, _, post. split_and!; [done| |done|done].
  eapply Forall_impl; [exact Hp|]. intros b Hb%bool_decide_eq_false E. rewrite E in Hb. by apply Hb.
Qed.

Lemma email_of_inj names e e' : email_of names e → email_of names e' → e = e'.
Proof.
  intros (pre & a & post & -> & Hp & Ha & Hv) (pre' & a' & post' & E & Hp' & Ha' & Hv').
  revert pre' E Hp'. induction Hp as [|b pre Hb _ IH]; intros [|b' pre'] E Hp'; simplify_list_eq.
  - congruence.
  - apply Forall_cons in Hp' as [Hb' _]. by destruct Hb'.
  - apply Forall_cons in Hp' as [_ Hp']. by apply (IH pre').
Qed.
Lemma self_signed_inv key name w cert w' :
  GenerateTLSSelfSignedCert key name w = (Return (Ok cert), w') →
  ∃ x, LoadX509CertFromPEM cert = Ok x ∧ PublicKey x = RSAPublicKey (rsa_N key) ∧ IsCA x = true.
Proof.
  unfold GenerateTLSSelfSignedCert. intros (t & w1 & _ & H)%bind_inv.
  apply FinishCertificate_inv in H as (_ & n & x & _ & Hl & _ & Hc & _ & Hp & _); [|by repeat constructor].
  unfold cert_contents, encoded_contents, cert_fields in Hc. simpl in Hc. injection Hc. intros. by exists x.
Qed.

(** A file that was written, with its mode when it is new. *)
Definition holds w w' (path data : string) (mode : Z) : Prop :=
  ∃ m t, node_at w' path = Some (File data m t) ∧ (node_at w path = None → m = mode).
Lemma holds_only w w1 w2 w' P path data mode :
  node_at w1 path = node_at w path → holds w1 w2 path data mode →
  fs_only P w2 w' → ¬ P (path_Clean path) → holds w w' path data mode.
Proof.
  intros Hn (m & t & H & Hm) Hf HP. exists m, t. split; [|by rewrite <- Hn].
  by rewrite (node_at_only _ _ _ _ Hf HP).
Qed.
Lemma WriteFile_holds path data mode w w' :
  WriteFile path data mode w = (Return (Ok tt), w') →
  holds w w' path data mode ∧ fs_only (eq (path_Clean path)) w w'.
Proof.
  intros H. split; [by apply WriteFile_Ok_inv in H|].
  pose proof (WriteFile_fs path data mode w) as Hf. by rewrite H in Hf.
Qed.

(** Files written one after the other, at different paths. *)
Definition write_all (files : list (string * string * Z)) : M (World X) (result unit) :=
  for_each (λ f, WriteFile f.1.1 f.1.2 f.2) files.
Lemma write_all_holds files : ∀ w w',
  NoDup (map (λ f, path_Clean f.1.1) files) → write_all files w = (Return (Ok tt), w') →
  Forall (λ f, holds w w' f.1.1 f.1.2 f.2) files ∧ fs_only (λ q, q ∈ map (λ f, path_Clean f.1.1) files) w w'.
Proof.
  induction files as [|f files IH]; intros w w' Hn H.
  { injection H as <-. split; [constructor|done]. }
  apply try_bind_Ok_inv in H as ([] & w1 & [Hh Hf]%WriteFile_holds & H).
  cbn [map] in Hn. apply NoDup_cons in Hn as [Hin Hn]. apply IH in H as [Hall Hfs]; [|done]. split.
  - constructor; [by eapply (holds_only w w)|]. rewrite Forall_forall in *. intros g Hg.
    assert (Hne : path_Clean f.1.1 ≠ path_Clean g.1.1).
    { intros E. apply Hin. rewrite E. apply list_elem_of_fmap. by exists g. }
    destruct (Hall g Hg) as (m & t & H1 & H2). exists m, t. split; [done|]. intros Hnone. apply H2.
    by rewrite (node_at_only _ _ _ _ Hf).
  - intros q Hq. cbn [map] in Hq. rewrite Hfs, Hf; [done|set_solver..].
Qed.

(** What was generated before the files were written. *)
Lemma Generate_inv cakeyfile cacertfile email userkeyfile usercertfile lifespan w w' :
  Generate cakeyfile cacertfile email userkeyfile usercertfile lifespan w = (Return (Ok tt), w') →
  ∃ ca cacertdata cacert user usercertdata usercert issueAt w1,
    LoadRSAKeyFromPEM ca.2 = Ok ca.1 ∧ LoadX509CertFromPEM cacertdata = Ok cacert ∧
    PublicKey cacert = RSAPublicKey (rsa_N ca.1) ∧
    LoadRSAKeyFromPEM user.2 = Ok user.1 ∧ LoadX509CertFromPEM usercertdata = Ok usercert ∧
    PublicKey usercert = RSAPublicKey (rsa_N user.1) ∧ x509_signed_by usercert cacert = true ∧
    ExtKeyUsages usercert = [ExtKeyUsageClientAuth] ∧ IsCA usercert = false ∧
    Unix (NotBefore usercert) = Unix issueAt ∧ Unix (NotAfter usercert) = Unix (issueAt + lifespan) ∧
    email_of (Names (Subject usercert)) email ∧ same_fs w w1 ∧
    write_all [(cakeyfile, ca.2, 384); (cacertfile, cacertdata, 420); (userkeyfile, user.2, 384);
               (usercertfile, usercertdata, 420)] w1 = (Return (Ok tt), w').
Proof.
  unfold Generate. intros (ca & w1 & H1 & (cacertdata & w2 & H2 & (cacert & w3 & H3 & H)%try_bind_Ok_inv)%try_bind_Ok_inv)%try_bind_Ok_inv.
  injection H3 as H3 <-. apply bind_inv in H as (user & w4 & H4 & (t & w5 & H5 & H)%bind_inv).
  destruct user as [user|]; [|done]. apply try_bind_Ok_inv in H as (usercertdata & w6 & H6 & H).
  assert (Hf : same_fs w w6).
  { pose proof (GenerateRSA_fs AuthorityBits w) as F1. rewrite H1 in F1. etrans; [exact F1|].
    assert (F2 : keeps same_fs (GenerateTLSSelfSignedCert (X:=X) ca.1 "upstream-local")) by (unfold GenerateTLSSelfSignedCert; os_frame).
    specialize (F2 w1). rewrite H2 in F2. etrans; [exact F2|].
    pose proof (GenerateRSA_fs AuthorityBits w2) as F4. rewrite H4 in F4. etrans; [exact F4|].
    pose proof (time_Now_fs w4) as F5. rewrite H5 in F5. etrans; [exact F5|].
    pose proof (FinishCertificate_fs (upstream_template t lifespan email) cacert (RSAPublicKey (rsa_N user.1)) ca.1 w5) as F6.
    by rewrite H6 in F6. }
  apply GenerateRSA_text in H1 as (Hca & _). apply GenerateRSA_text in H4 as (Hu & _).
  apply self_signed_inv in H2 as (x & Hx & Hpx & _). rewrite H3 in Hx. injection Hx as <-.
  apply FinishCertificate_inv in H6 as (_ & n & c & _ & Hl & _ & Hc & He & Hp & Hs).
  2: { split; [|done|by constructor]. constructor; [|constructor]. split; [done|by eexists]. }
  apply extra_email in He. unfold cert_contents, encoded_contents, cert_fields in Hc. simpl in Hc. injection Hc as _ _ _ Hb Ha _ Heku _ Hisca _ _.
  exists ca, cacertdata, cacert, user, usercertdata, c, t, w6. unfold Unix, Second.
  split_and!; try done. by apply Hs.
Qed.
End accepted.

(** C28: What keygenupstream writes is what user-grant needs: the authority's key and
    certificate belong together; the user's certificate is signed with that key for the user's
    own key, for clients, from now for the lifespan; both keys load from their files, which
    are created with mode 0600; and with that certificate user-grant finds the user of the
    email address, whatever its domain. *)
Theorem Generate_for_grant {packages : Crypto} {X} cakeyfile cacertfile email userkeyfile usercertfile lifespan
    (w w' : World X) :
  NoDup (map path_Clean [cakeyfile; cacertfile; userkeyfile; usercertfile]) →
  Generate cakeyfile cacertfile email userkeyfile usercertfile lifespan w = (Return (Ok tt), w') →
  ∃ cakeydata cakey cacertdata cacert userkeydata userkey usercertdata usercert issueAt,
    holds w w' cakeyfile cakeydata 384 ∧ LoadRSAKeyFromPEM cakeydata = Ok cakey ∧
    holds w w' cacertfile cacertdata 420 ∧ LoadX509CertFromPEM cacertdata = Ok cacert ∧
    PublicKey cacert = RSAPublicKey (rsa_N cakey) ∧
    holds w w' userkeyfile userkeydata 384 ∧ LoadRSAKeyFromPEM userkeydata = Ok userkey ∧
    holds w w' usercertfile usercertdata 420 ∧ LoadX509CertFromPEM usercertdata = Ok usercert ∧
    PublicKey usercert = RSAPublicKey (rsa_N userkey) ∧ x509_signed_by usercert cacert = true ∧
    ExtKeyUsages usercert = [ExtKeyUsageClientAuth] ∧ IsCA usercert = false ∧
    Unix (NotBefore usercert) = Unix issueAt ∧ Unix (NotAfter usercert) = Unix (issueAt + lifespan) ∧
    ∀ (errs : PkgErrors) Y (out : HasWriter Y) (api : KubeAPI Y) (c : Config) user,
      ExtractEmail c (Names (Subject usercert)) = Return (Ok user) ↔ email = user +:+ "@" +:+ EmailAuthDomain c.
Proof.
  intros Hd (ca & cacertdata & cacert & user & usercertdata & usercert & issueAt & w1 & Hca & Hcc & Hpc & Hu & Huc &
    Hpu & Hs & Heku & Hisca & Hb & Ha & He & Hf & H)%Generate_inv.
  apply write_all_holds in H as [Hall _]; [|done].
  assert (Hw : ∀ p d m, holds w1 w' p d m → holds w w' p d m).
  { intros p d m (md & t & H1 & H2). exists md, t. split; [done|]. intros Hn. apply H2.
    unfold same_fs, same in Hf. unfold node_at in *. by rewrite <- Hf. }
  rewrite !Forall_cons in Hall. destruct Hall as (Hh1 & Hh2 & Hh3 & Hh4 & _).
  exists ca.2, ca.1, cacertdata, cacert, user.2, user.1, usercertdata, usercert, issueAt.
  split_and!; try done; try by apply Hw.
  intros errs Y out api c u. destruct (ExtractEmail_spec c (Names (Subject usercert))) as [_ ->].
  split; [by apply email_of_inj|by intros <-].
Qed.

(** ** How keylocalcert ends *)

Section localcert.
Context {errs : PkgErrors} {packages : Crypto} {keys : NewKeys} {X : Type}.
Implicit Types w : World X.

(** Loading an authority gives one of the kind that was asked for. *)
Lemma loaded_kind isSSH keydata certdata a :
  (if isSSH : bool then LoadSSHAuthority keydata certdata else LoadTLSAuthority keydata certdata) = Ok a →
  match a with ASSH _ => isSSH = true | ATLS _ => isSSH = false end.
Proof.
  destruct isSSH.
  - unfold LoadSSHAuthority. destruct (parseSingleSSHKey certdata) as [p|]; [|done]. simpl.
    destruct (ssh_ParsePrivateKey keydata) as [k|]; [|done]. simpl. destruct (negb _); [done|]. by intros [= <-].
  - intros (k & c & _ & _ & _ & _ & ->)%LoadTLSAuthority_spec. done.
Qed.
Lemma local_sign_ok isSSH a csr lifespan cn dns orgs :
  match a with ASSH _ => isSSH = true | ATLS _ => isSSH = false end →
  returns (local_sign (X:=X) isSSH a csr lifespan cn dns orgs) ∧
  keeps same_fs (local_sign (X:=X) isSSH a csr lifespan cn dns orgs).
Proof.
  unfold local_sign. destruct a as [a|a]; intros ->; split;
    [apply TLS_Sign_returns|apply TLS_Sign_fs|apply SSH_Sign_returns|apply SSH_Sign_fs].
Qed.

(** What a certificate of an authority says, for a key and the settings of the command line. *)
Definition issued (a : Authority) (key : rsa_PrivateKey) (cn : string) (dns orgs : list string) (life : Z)
    (result : string) : Prop :=
  match a with
  | ATLS t => ∃ x issueAt, LoadX509CertFromPEM result = Ok x ∧ PublicKey x = RSAPublicKey (rsa_N key) ∧
      CommonName (Subject x) = cn ∧ Organization (Subject x) = orgs ∧
      (DNSNames x, IPAddresses x) = san_names dns ∧
      (ExtKeyUsageServerAuth ∈ ExtKeyUsages x ↔ dns ≠ []) ∧ IsCA x = false ∧
      x509_signed_by x (tls_cert t) = true ∧
      Unix (NotBefore x) = Unix issueAt ∧ Unix (NotAfter x) = Unix (issueAt + life)
  | ASSH d => Second ≤ life ∧ ∃ pubkey cert, ssh_NewPublicKey (RSAPublicKey (rsa_N key)) = Ok pubkey ∧
      ssh_ParseAuthorizedKey result = Ok (SSHCertificate pubkey cert, "") ∧
      ssh_ValidPrincipals cert = ["root"] ∧ ssh_KeyId cert = cn ∧ ssh_CertType cert = UserCert
  end.

Lemma local_issue isSSH keydata certdata a key pem csr life cn dns orgs result w w1 w2 w3 w' :
  (if isSSH : bool then LoadSSHAuthority keydata certdata else LoadTLSAuthority keydata certdata) = Ok a →
  GenerateRSA 2048 w = (Return (Ok (key, pem)), w1) →
  local_request isSSH key pem w2 = (Return (Ok csr), w3) →
  local_sign isSSH a csr life cn dns orgs w3 = (Return (Ok result), w') →
  issued a key cn dns orgs life result ∧ LoadRSAKeyFromPEM pem = Ok key.
Proof.
  intros Ha (Hk & _)%GenerateRSA_text Hreq Hs. simpl in Hk. split; [|done].
  pose proof (loaded_kind _ _ _ _ Ha) as Hkind. unfold local_request, local_sign in *. destruct a as [t|d]; subst isSSH.
  - apply LoadTLSAuthority_spec in Ha as (pk & c & _ & _ & _ & Hp & [= ->]).
    apply BuildTLSCSR_inv in Hreq as (key' & req & Hk' & Hreq & Hpk). rewrite Hk in Hk'. injection Hk' as <-.
    apply TLS_Sign_inv in Hs as (csr' & x & t0 & Hc & _ & Hx & _ & Hpx & Hsig & Hcn & Ho & Hn & Heku & Hca & _ & _ & _ & Hb & Hna & _);
      [|done].
    rewrite Hreq in Hc. injection Hc as <-. exists x, t0. split_and!; try done; [congruence|].
    rewrite Heku. destruct dns; simpl; set_solver.
  - destruct (ssh_NewPublicKey _) as [pk|] eqn:Epk; [|done]. injection Hreq as <- <-.
    apply SSH_Sign_inv in Hs as (Hl & _ & pubkey & cert & t1 & t2 & Hp & Hr & Hv & Hid & Ht & _).
    split; [done|]. rewrite (new_key_line _ _ Epk) in Hp. injection Hp as <-. by exists pk, cert.
Qed.

Lemma local_request_ok isSSH key pem :
  returns (local_request (X:=X) isSSH key pem) ∧ keeps same_fs (local_request (X:=X) isSSH key pem).
Proof. unfold local_request. split; os_frame. Qed.

(** How the program ends, from the machine it started on: nothing was written and the status is
    1, or a certificate was issued by the authority of the two files. *)
Definition localcert_ends w cakey cacert cn lifespan outkey outcert dns orgs (o : outcome unit) w' : Prop :=
  (o = Return tt ∨ o = Exit 1) ∧
  ((o = Exit 1 ∧ fs (os w') = fs (os w)) ∨
   ∃ keydata certdata m t m' t' a life key pem result,
     node_at w cakey = Some (File keydata m t) ∧ node_at w cacert = Some (File certdata m' t') ∧
     (if negb (IsPEMBlock certdata) then LoadSSHAuthority keydata certdata else LoadTLSAuthority keydata certdata) = Ok a ∧
     ParseDuration lifespan = Ok life ∧ LoadRSAKeyFromPEM pem = Ok key ∧
     issued a key cn (comma_list dns) (comma_list orgs) life result ∧
     (o = Return tt → NoDup (map path_Clean [outkey; outkey +:+ ".pub"; outcert]) →
      holds w w' outkey pem 384 ∧ holds w w' outcert result 420)).

(** The files at the end. *)
Lemma local_files (isSSH : bool) outkey outcert pem csr result w1 :
  ∃ o w', (_ ← or_fatal (WriteFile outkey pem 384);
           _ ← (if isSSH then or_fatal (WriteFile (outkey +:+ ".pub") csr 420) else mret tt);
           or_fatal (WriteFile outcert result 420)) w1 = (o, w') ∧
    (o = Return tt ∨ o = Exit 1) ∧
    (o = Return tt → NoDup (map path_Clean [outkey; outkey +:+ ".pub"; outcert]) →
      holds w1 w' outkey pem 384 ∧ holds w1 w' outcert result 420).
Proof.
  apply fatal_step; [apply WriteFile_returns|by split; [right|]|]. intros [] w2 [H1 F1]%WriteFile_holds.
  assert (Hcert : ∀ w3, fs_only (λ q, q = path_Clean (outkey +:+ ".pub")) w2 w3 →
    ∃ o w', or_fatal (WriteFile outcert result 420) w3 = (o, w') ∧ (o = Return tt ∨ o = Exit 1) ∧
      (o = Return tt → NoDup (map path_Clean [outkey; outkey +:+ ".pub"; outcert]) →
        holds w1 w' outkey pem 384 ∧ holds w1 w' outcert result 420)).
  { intros w3 F2. destruct (WriteFile_returns outcert result 420 w3) as [r Er].
    destruct (WriteFile outcert result 420 w3) as [o w'] eqn:E. simpl in Er. subst o. unfold or_fatal, or_exit.
    rewrite (bind_Return _ _ _ _ _ E). destruct r as [[]|e]; [|by do 2 eexists; split; [reflexivity|]; split; [right|]].
    apply WriteFile_holds in E as [H3 F3]. exists (Return tt), w'. split_and!; [done|by left|]. intros _ Hn.
    cbn [map] in Hn. apply NoDup_cons in Hn as [Hk [Hp _]%NoDup_cons]. rewrite list_elem_of_singleton in Hp.
    rewrite !elem_of_cons in Hk. split.
    - destruct H1 as (m & t & Hn1 & Hm). exists m, t. split; [|done].
      rewrite (node_at_only _ _ _ _ F3), (node_at_only _ _ _ _ F2); [done|intros ?; apply Hk; auto..].
    - destruct H3 as (m & t & Hn3 & Hm). exists m, t. split; [done|]. intros Hnone. apply Hm.
      rewrite (node_at_only _ _ _ _ F2), (node_at_only _ _ _ _ F1); [done|intros ?; apply Hk; auto|congruence]. }
  destruct isSSH; [|by apply Hcert].
  apply fatal_step; [apply WriteFile_returns|by split; [right|]|]. intros [] w3 [_ F2]%WriteFile_holds. apply Hcert.
  intros q Hq. apply F2. congruence.
Qed.
End localcert.

(** C27: keylocalcert always ends with status 0 or 1. When nothing was written the status is 1;
    a key or a certificate is written only after the authority of the two given files, of the
    kind that its certificate shows, signed a certificate of the new key for the name, the
    names and the organizations of the command line and for the lifespan given; and with
    status 0 both are in their files, the key created with mode 0600. *)
Theorem keylocalcert_main_spec {errs : PkgErrors} {packages : Crypto} {keys : NewKeys} {X}
    cakey cacert cn lifespan outkey outcert dns orgs (w : World X) :
  ∃ o w', keylocalcert_main ["keylocalcert"; cakey; cacert; cn; lifespan; outkey; outcert; dns; orgs] w = (o, w') ∧
    localcert_ends w cakey cacert cn lifespan outkey outcert dns orgs o w'.
Proof.
  unfold keylocalcert_main.
  assert (Hstop : ∀ w2 : World X, fs (os w2) = fs (os w) →
    localcert_ends w cakey cacert cn lifespan outkey outcert dns orgs (Exit 1) w2).
  { intros w2 Hf. split; [by right|]. by left. }
  apply fatal_bind; [apply ReadFile_returns|apply ReadFile_fs|exact Hstop|].
  intros keydata w1 (m & t & Hk)%ReadFile_inv F1.
  apply fatal_bind; [apply ReadFile_returns|apply ReadFile_fs|intros; apply Hstop; congruence|].
  intros certdata w2 (m' & t' & Hc)%ReadFile_inv F2. cbv zeta. set (isSSH := negb (IsPEMBlock certdata)).
  apply fatal_bind; [apply returns_ret|apply keeps_ret; exact _|intros; apply Hstop; congruence|].
  intros a w3 [= Ha <-] F3. apply fatal_bind; [apply returns_ret|apply keeps_ret; exact _|intros; apply Hstop; congruence|].
  intros life w4 [= Hl <-] F4. apply fatal_bind; [apply GenerateRSA_returns|apply GenerateRSA_fs|intros; apply Hstop; congruence|].
  intros [key pem] w5 Hg F5. destruct (local_request_ok (X:=X) isSSH key pem) as [R6 K6].
  apply fatal_bind; [exact R6|exact K6|intros; apply Hstop; congruence|]. intros csr w6 Hr F6.
  destruct (local_sign_ok (X:=X) isSSH a csr life cn (comma_list dns) (comma_list orgs)) as [R7 K7]; [by eapply loaded_kind|].
  apply fatal_bind; [exact R7|exact K7|intros; apply Hstop; congruence|]. intros result w7 Hs F7.
  destruct (local_files isSSH outkey outcert pem csr result w7) as (o & w' & E & Ho & Hh).
  exists o, w'. split; [exact E|]. split; [exact Ho|]. right.
  destruct (local_issue _ _ _ _ _ _ _ _ _ _ _ _ _ _ _ _ _ Ha Hg Hr Hs) as [Hi Hkey].
  exists keydata, certdata, m, t, m', t', a, life, key, pem, result.
  assert (Hfs : fs (os w7) = fs (os w)) by congruence.
  assert (Hw : ∀ p, node_at w7 p = node_at w p) by (intros p; unfold node_at; by rewrite Hfs).
  split_and!; [exact Hk| |exact Ha|exact Hl|exact Hkey|exact Hi|].
  - unfold node_at in *. by rewrite <- F1.
  - intros Hok Hn. destruct (Hh Hok Hn) as [(m1 & t1 & H1 & M1) (m2 & t2 & H2 & M2)].
    split; [exists m1, t1|exists m2, t2]; by rewrite <- Hw.
Qed.

(** ** Concrete runs *)

Definition upstream_entropy : list string :=
  ["ca"; "AAAAAAAAAAAAAAAAAAAA"; "s1"; "user"; "BBBBBBBBBBBBBBBBBBBB"; "s2"].
Definition upstream_world : World unit := mkWorld (with_entropy upstream_entropy (os0 7)) tt.

Example keygenupstream_ex :
  let '(o, w) := keygenupstream_main
    ["keygenupstream"; "/ca.key"; "/ca.pem"; "alice@example.com"; "/u.key"; "/u.pem"; "24h"] upstream_world in
  o = Return tt ∧ head (logged (os w)) = Some "done generating fake upstream info." ∧
  (λ n, match n with Some (File _ m _) => m | _ => 0 end) <$> [node_at w "/ca.key"; node_at w "/u.key"; node_at w "/u.pem"]
    = [384; 384; 420].
Proof. vm_compute. done. Qed.
(** Without randomness for the user's key the program panics. *)
Example keygenupstream_panics :
  (keygenupstream_main ["keygenupstream"; "/ca.key"; "/ca.pem"; "a@b"; "/u.key"; "/u.pem"; "24h"]
    (mkWorld (with_entropy (take 3 upstream_entropy) (os0 7)) tt)).1 =
  Panic "invalid memory address or nil pointer dereference".
Proof. vm_compute. done. Qed.

Lemma Generate_for_grant_witness :
  match Generate "/ca.key" "/ca.pem" "alice@example.com" "/u.key" "/u.pem" 1000000000000 upstream_world with
  | (Return (Ok _), w') => ∃ data cert m t,
      node_at w' "/u.pem" = Some (File data m t) ∧ LoadX509CertFromPEM data = Ok cert ∧
      ExtractEmail sample_grant (Names (Subject cert)) = Return (Ok "alice")
  | _ => False
  end.
Proof.
  run_ok E. destruct a.
  destruct (Generate_for_grant "/ca.key" "/ca.pem" "alice@example.com" "/u.key" "/u.pem" 1000000000000 upstream_world w)
    as (cakeydata & cakey & cacertdata & cacert & userkeydata & userkey & data & cert & issueAt & _ & _ & _ & _ & _ & _ &
        _ & (m & t & Hn & _) & Hl & _ & _ & _ & _ & _ & _ & Hx); [|exact E|].
  - apply (bool_decide_unpack _). vm_compute. exact I.
  - exists data, cert, m, t. split; [exact Hn|]. split; [exact Hl|]. by apply Hx.
Defined.

(** A certificate of the authority of [Samples]. *)
Definition local_fs : gmap string node := list_to_map
  [("/k", File (pem_key ca_key) 384 0); ("/c", File (pem_cert (Raw ca_cert)) 420 0)].
Example keylocalcert_ex :
  let run life := keylocalcert_main ["keylocalcert"; "/k"; "/c"; "admin"; life; "/o.key"; "/o.pem"; ""; "system:masters"]
    (mkWorld (with_fs local_fs (with_entropy ["new"; "req"; "AAAAAAAAAAAAAAAAAAAA"; "sig"] (os0 7))) tt) in
  (run "1h").1 = Return tt ∧ is_file (node_at (run "1h").2 "/o.pem") = true ∧
  (run "1").1 = Exit 1 ∧ node_at (run "1").2 "/o.key" = None.
Proof. vm_compute. done. Qed.
