(* ===== verification/Prom.v ===== *)
(** * Metrics, and the loops that keep them

    What the monitors use of the Prometheus client: vectors of gauges and of histograms,
    whose children are made by [With]. The client is a parameter, with its documented
    behaviour as laws about what it shows. The loop that every monitor runs, and the
    types that the metrics keep. *)

From S2P Require Import Prelude GoStrings GoOS Exits GoJSON JsonDecode CertUtil GoTime.
From Stdlib Require Import SpecFloat.
#[export] Set Default Goal Selector "!".

(** ** Seconds *)

#[export] Instance float64_eq_dec : EqDecision float64.
Proof. unfold float64. solve_decision. Defined.

Definition float_add : float64 → float64 → float64 := SFadd 53 1024.
(** [Duration.Seconds] *)
Definition Seconds (d : Z) : float64 :=
  float_add (float64_of (Z.quot d Second)) (float_div (float64_of (Z.rem d Second)) (float64_of Second)).
(** [Time.Sub], which saturates. *)
Definition time_Sub (t u : Z) : Z := Z.max (- maxInt64 - 1) (Z.min maxInt64 (t - u)).
Definition zero : float64 := float64_of 0.
Definition one : float64 := float64_of 1.
Definition tenths (n : Z) : float64 := float_div (float64_of n) (float64_of 10).

Example seconds_ex : Seconds 1500000000 = tenths 15.
Proof. vm_compute. reflexivity. Qed.

(** ** The client *)

(** What a metric is declared with: [GaugeOpts] or [HistogramOpts] (those with buckets), and
    the names of its labels. *)
Record Metric := mkMetric {
  Namespace : string;
  Name : string;
  Help : string;
  Buckets : option (list float64);
  labelNames : list string
}.
#[export] Instance Metric_eq_dec : EqDecision Metric.
Proof. solve_decision. Defined.

Abbreviation Labels := (gmap string string).

(** What a child shows: the value of a gauge, or how many observations a histogram has. *)
Inductive sample := Value (x : float64) | Observations (n : N).
#[export] Instance sample_eq_dec : EqDecision sample.
Proof. solve_decision. Defined.
Definition initial (v : Metric) : sample :=
  match Buckets v with None => Value zero | Some _ => Observations 0 end.

(** How many observations are shown. *)
Definition count (s : option sample) : N := match s with Some (Observations n) => n | _ => 0 end.

Definition well_labelled (v : Metric) (l : Labels) : Prop :=
  dom l = list_to_set (labelNames v) ∧ map_Forall (λ _ s, valid_utf8 s = true) l.

(** [client_golang], and what the registries and vectors of the process hold. *)
Class Prometheus := {
  Metrics : Type;
  MetricFamily : Type;
  shown : Metrics → Metric → Labels → option sample;
  registered : Metrics → list Metric;
  (* whether [With] accepts the labels: their names, and values that are UTF-8 *)
  labels_ok : Metric → Labels → bool;
  m_Register : Metrics → Metric → Metrics;
  m_With : Metrics → Metric → Labels → Metrics;
  m_Set : Metrics → Metric → Labels → float64 → Metrics;
  m_Observe : Metrics → Metric → Labels → float64 → Metrics;
  m_Reset : Metrics → Metric → Metrics;
  m_Delete : Metrics → Metric → Labels → Metrics;
  m_Gather : Metrics → result (list MetricFamily);
  labels_ok_spec v l : labels_ok v l = true ↔ well_labelled v l;
  registered_Register m v : registered (m_Register m v) = v :: registered m;
  shown_Register m v v' l : shown (m_Register m v) v' l = shown m v' l;
  shown_With m v l v' l' : labels_ok v l = true →
    shown (m_With m v l) v' l' =
      if decide (v' = v ∧ l' = l) then Some (default (initial v) (shown m v l)) else shown m v' l';
  (* a gauge without labels needs no [With] *)
  shown_Set m v l x v' l' : labelNames v = [] ∨ is_Some (shown m v l) →
    shown (m_Set m v l x) v' l' = if decide (v' = v ∧ l' = l) then Some (Value x) else shown m v' l';
  shown_Observe m v l x n v' l' : shown m v l = Some (Observations n) →
    shown (m_Observe m v l x) v' l' =
      if decide (v' = v ∧ l' = l) then Some (Observations (n + 1)) else shown m v' l';
  shown_Reset m v v' l : shown (m_Reset m v) v' l = if decide (v' = v) then None else shown m v' l;
  shown_Delete m v l v' l' :
    shown (m_Delete m v l) v' l' = if decide (v' = v ∧ l' = l) then None else shown m v' l'
}.

(** A component whose state has the metrics of the process. *)
Class HasMetrics `{!Prometheus} (X : Type) := {
  metrics : X → Metrics;
  set_metrics : Metrics → X → X;
  metrics_set m x : metrics (set_metrics m x) = m
}.

(** [expfmt.TextParser], on the body of a response. *)
Class TextParser `{!Prometheus} := {
  TextToMetricFamilies : Body → result (gmap string MetricFamily)
}.
(** [Get] of a client of package http. *)
Class HttpGet (X : Type) := {
  http_Get : string → M (World X) (result Body)
}.

Section operations.
Context {prom : Prometheus} {X : Type} {mets : HasMetrics X}.
Abbreviation MW := (M (World X)).

Definition update_metrics (f : Metrics → Metrics) : MW unit := modify (on_comp (λ x, set_metrics (f (metrics x)) x)).

(** A child of a vector: what [With] returns. *)
Definition child : Type := Metric * Labels.
Definition With (v : Metric) (l : Labels) : MW child :=
  if labels_ok v l then _ ← update_metrics (λ m, m_With m v l); mret (v, l)
  else panic "inconsistent label cardinality or values".
Definition Set_ (c : child) (x : float64) : MW unit := update_metrics (λ m, m_Set m c.1 c.2 x).
Definition Observe (c : child) (x : float64) : MW unit := update_metrics (λ m, m_Observe m c.1 c.2 x).
(** [Set] of a gauge without labels. *)
Definition Gauge_Set (v : Metric) (x : float64) : MW unit := Set_ (v, ∅) x.
Definition Reset (v : Metric) : MW unit := update_metrics (λ m, m_Reset m v).
(** [Delete], and whether there was something to delete. *)
Definition Delete (v : Metric) (l : Labels) : MW bool :=
  b ← gets (λ w : World X, bool_decide (is_Some (shown (metrics (comp w)) v l)));
  _ ← update_metrics (λ m, m_Delete m v l);
  mret b.
Definition MustRegister (v : Metric) : MW unit :=
  b ← gets (λ w : World X, bool_decide (v ∈ registered (metrics (comp w))));
  if (b : bool) then panic "duplicate metrics collector registration attempted"
  else update_metrics (λ m, m_Register m v).
Definition Gather : MW (result (list MetricFamily)) := gets (λ w : World X, m_Gather (metrics (comp w))).

(** ** The loop of a monitor *)

(** How long to wait after a cycle. *)
Definition next_delta (next_cycle_at t : Z) : Z :=
  let delta := time_Sub next_cycle_at t in
  if bool_decide (delta < Second) then Second else delta.
(** The [select]: when the channel is closed, its case is the one that is ready; its [break]
    leaves the [select] and not the loop. *)
Definition select_stop (closed : bool) (delta : Z) : MW unit := if closed then mret tt else time_Sleep delta.
Definition monitor_round (cycle : MW unit) (closed : bool) : MW unit :=
  t ← time_Now;
  let next_cycle_at := t + Second * 15 in
  _ ← cycle;
  t ← time_Now;
  select_stop closed (next_delta next_cycle_at t).
(** The first rounds of the loop, given what is chosen in each (the orders in which it goes
    over maps), and whether the channel is closed at its [select]. The loop itself has no end. *)
Definition monitor_loop {C} (cycle : C → MW unit) (rounds : list (C * bool)) : MW unit :=
  for_all (λ r, monitor_round (cycle r.1) r.2) rounds.
End operations.

(** ** What the metrics show *)

Section metrics.
Context {prom : Prometheus} {X : Type} {mets : HasMetrics X}.
Implicit Types w : World X.

Definition metric w (v : Metric) (l : Labels) : option sample := shown (metrics (comp w)) v l.
Definition same_metrics : relation (World X) := same (λ w, metrics (comp w)).
(** One child is changed. *)
Definition shows w w' (v : Metric) (l : Labels) (s : option sample) : Prop :=
  ∀ v' l', metric w' v' l' = if decide (v' = v ∧ l' = l) then s else metric w v' l'.

#[export] Instance same_metrics_equiv : Equivalence same_metrics.
Proof. apply same_equiv. Qed.

Lemma metric_same w w' v l : same_metrics w w' → metric w' v l = metric w v l.
Proof. unfold same_metrics, same, metric. by intros ->. Qed.
Lemma os_same_metrics {A} (m : M (World X) A) : keeps os_only m → keeps same_metrics m.
Proof. intros Hk w. specialize (Hk w). unfold os_only, same_metrics, same in *. by rewrite Hk. Qed.

Lemma shows_at w w' v l s : shows w w' v l s → metric w' v l = s.
Proof. intros H. rewrite H. by case_decide as Hd; [|destruct Hd]. Qed.
Lemma shows_ne w w' v l s v' l' : shows w w' v l s → v' ≠ v ∨ l' ≠ l → metric w' v' l' = metric w v' l'.
Proof. intros H Hne. rewrite H. case_decide as Hd; [|done]. destruct Hd, Hne; congruence. Qed.

(** A change of the metrics leaves the machine alone. *)
Lemma runs_update (f : Metrics → Metrics) w (Q : unit → World X → Prop) :
  (∀ w', os w' = os w → metrics (comp w') = f (metrics (comp w)) → Q tt w') → runs (update_metrics f) w Q.
Proof. intros H. eexists _, _. split; [done|]. apply H; [done|]. simpl. apply metrics_set. Qed.

Lemma runs_With v l w (Q : child → World X → Prop) :
  well_labelled v l →
  (∀ w', os w' = os w → shows w w' v l (Some (default (initial v) (metric w v l))) → Q (v, l) w') →
  runs (With v l) w Q.
Proof.
  intros Hl HQ. unfold With. apply labels_ok_spec in Hl. rewrite Hl. apply runs_bind, runs_update.
  intros w' Ho Hm. apply runs_ret, HQ; [done|]. intros v' l'. unfold metric. rewrite Hm. by apply shown_With.
Qed.
Lemma panics_With v name value w : valid_utf8 value = false → panics (With v {[ name := value ]}) w.
Proof.
  intros Hu. unfold With. destruct (labels_ok v _) eqn:El; [|by eexists _, _].
  apply labels_ok_spec in El as [_ Hl]. pose proof (Hl name value (lookup_singleton_eq _ _)) as Hv. simpl in Hv. congruence.
Qed.
Lemma runs_Set v l x w (Q : unit → World X → Prop) :
  labelNames v = [] ∨ is_Some (metric w v l) →
  (∀ w', os w' = os w → shows w w' v l (Some (Value x)) → Q tt w') → runs (Set_ (v, l) x) w Q.
Proof. intros Hl HQ. apply runs_update. intros w' Ho Hm. apply HQ; [done|]. intros v' l'. unfold metric. rewrite Hm. by apply shown_Set. Qed.
Lemma runs_Observe v l x n w (Q : unit → World X → Prop) :
  metric w v l = Some (Observations n) →
  (∀ w', os w' = os w → shows w w' v l (Some (Observations (n + 1))) → Q tt w') → runs (Observe (v, l) x) w Q.
Proof. intros Hl HQ. apply runs_update. intros w' Ho Hm. apply HQ; [done|]. intros v' l'. unfold metric. rewrite Hm. by apply shown_Observe. Qed.
Lemma runs_Reset v w (Q : unit → World X → Prop) :
  (∀ w', os w' = os w → (∀ v' l, metric w' v' l = if decide (v' = v) then None else metric w v' l) → Q tt w') →
  runs (Reset v) w Q.
Proof. intros HQ. apply runs_update. intros w' Ho Hm. apply HQ; [done|]. intros v' l'. unfold metric. rewrite Hm. apply shown_Reset. Qed.
Lemma runs_Delete v l w (Q : bool → World X → Prop) :
  (∀ w', os w' = os w → shows w w' v l None → Q (bool_decide (is_Some (metric w v l))) w') → runs (Delete v l) w Q.
Proof.
  intros HQ. unfold Delete. apply runs_gets, runs_bind, runs_update. intros w' Ho Hm. apply runs_ret, HQ; [done|].
  intros v' l'. unfold metric. rewrite Hm. apply shown_Delete.
Qed.
Lemma runs_MustRegister v w (Q : unit → World X → Prop) :
  v ∉ registered (metrics (comp w)) →
  (∀ w', os w' = os w → (∀ v' l, metric w' v' l = metric w v' l) →
    registered (metrics (comp w')) = v :: registered (metrics (comp w)) → Q tt w') → runs (MustRegister v) w Q.
Proof.
  intros Hv HQ. unfold MustRegister. apply runs_gets. rewrite bool_decide_false by done. apply runs_update.
  intros w' Ho Hm. apply HQ; [done| |].
  - intros v' l. unfold metric. rewrite Hm. apply shown_Register.
  - rewrite Hm. apply registered_Register.
Qed.
(** A step of the machine, or of what lies outside. *)
Lemma runs_quiet {A} (m : M (World X) A) w (Q : A → World X → Prop) :
  returns m → keeps same_metrics m → (∀ a w', m w = (Return a, w') → (∀ v l, metric w' v l = metric w v l) → Q a w') →
  runs m w Q.
Proof. intros Hr Hk HQ. eapply runs_keeps; [done|done|]. intros a w' E Hs. apply HQ; [done|]. intros v l. by apply metric_same. Qed.
(** The same for what also keeps the order of time. *)
Lemma runs_clocked {A} (m : M (World X) A) w (Q : A → World X → Prop) :
  returns m → keeps same_metrics m → keeps later m →
  (∀ a w', m w = (Return a, w') → (∀ v l, metric w' v l = metric w v l) → later w w' → Q a w') → runs m w Q.
Proof.
  intros Hr Hk Hl HQ. apply runs_quiet; [done|done|]. intros a w' E Hm. specialize (Hl w). rewrite E in Hl. auto.
Qed.
(** Calls of what lies outside: they come back, and leave the metrics alone. *)
Definition quiet {A} (m : M (World X) A) : Prop := returns m ∧ keeps same_metrics m ∧ keeps later m.
Lemma runs_silent {A} (m : M (World X) A) w (Q : A → World X → Prop) :
  quiet m →
  (∀ a w', m w = (Return a, w') → (∀ v l, metric w' v l = metric w v l) → later w w' → Q a w') → runs m w Q.
Proof. intros (Hr & Hk & Hl). by apply runs_clocked. Qed.
Lemma quiet_bind {A B} (m : M (World X) A) (f : A → M (World X) B) : quiet m → (∀ a, quiet (f a)) → quiet (m ≫= f).
Proof.
  intros (Hr & Hk & Hl) Hf. split_and!; [apply returns_bind; [done|apply Hf]|apply keeps_bind; [exact _|done|apply Hf]|].
  apply keeps_bind; [exact _|done|apply Hf].
Qed.
Lemma quiet_ret {A} (a : A) : quiet (mret (M:=M (World X)) a).
Proof. split_and!; [apply returns_ret|apply keeps_ret, _|apply keeps_ret, _]. Qed.
Lemma quiet_os {A} (m : M (World X) A) : returns m → keeps os_only m → keeps later m → quiet m.
Proof. intros ???. split_and!; [done|by apply os_same_metrics|done]. Qed.
Lemma quiet_try {A B} (m : M (World X) (result A)) (f : A → M (World X) (result B)) :
  quiet m → (∀ a, quiet (f a)) → quiet (try_bind f m).
Proof. intros Hm Hf. apply quiet_bind; [done|]. intros [a|e]; [done|apply quiet_ret]. Qed.
Lemma later_os w w' : os w' = os w → later w w'.
Proof. intros E. unfold later. rewrite E. done. Qed.
End metrics.

(** A step of the machine in a run. *)
Ltac os_step :=
  try apply runs_bind; apply runs_clocked;
  [solve [auto with go]|apply os_same_metrics; solve [auto with go]|solve [auto with go]|].

(** What is shown after a series of changes. *)
Ltac metrics_now :=
  intros; unfold shows in *;
  repeat match goal with
  | H : ∀ v l, metric ?w v l = _ |- context [metric ?w _ _] => rewrite H
  end;
  repeat case_decide; try naive_solver.

(** ** The types of the metrics *)

(** A sample of the kind of its vector. *)
Definition kind_ok (v : Metric) (s : sample) : Prop :=
  match Buckets v, s with None, Value _ | Some _, Observations _ => True | _, _ => False end.

Section typed.
Context {prom : Prometheus} {X : Type} {mets : HasMetrics X}.
Implicit Types w : World X.

(** All that is shown is labelled as it was declared, and of the kind declared. *)
Definition typed w : Prop := ∀ v l s, metric w v l = Some s → well_labelled v l ∧ kind_ok v s.

Lemma kind_initial v : kind_ok v (initial v).
Proof. unfold kind_ok, initial. by destruct (Buckets v). Qed.
Lemma typed_same w w' : (∀ v l, metric w' v l = metric w v l) → typed w → typed w'.
Proof. intros Hm Ht v l s. rewrite Hm. apply Ht. Qed.
Lemma typed_shows w w' v l s :
  shows w w' v l s → well_labelled v l → (∀ x, s = Some x → kind_ok v x) → typed w → typed w'.
Proof.
  intros Hs Hl Hk Ht v' l' x. rewrite Hs. case_decide as Hd; [|apply Ht]. destruct Hd as [-> ->]. auto.
Qed.

(** The operations on typed metrics return, and keep them typed. *)
Lemma runs_With_typed v l w (Q : child → World X → Prop) :
  well_labelled v l → typed w →
  (∀ w', os w' = os w → shows w w' v l (Some (default (initial v) (metric w v l))) → typed w' → Q (v, l) w') →
  runs (With v l) w Q.
Proof.
  intros Hl Ht HQ. apply runs_With; [done|]. intros w' Ho Hs. apply HQ; [done|done|].
  eapply typed_shows; [done|done| |done]. intros x [= <-]. destruct (metric w v l) as [y|] eqn:E; [by apply (Ht v l y)|].
  apply kind_initial.
Qed.
Lemma runs_Set_typed v l x w (Q : unit → World X → Prop) :
  Buckets v = None → well_labelled v l → labelNames v = [] ∨ is_Some (metric w v l) → typed w →
  (∀ w', os w' = os w → shows w w' v l (Some (Value x)) → typed w' → Q tt w') → runs (Set_ (v, l) x) w Q.
Proof.
  intros Hv Hl Hm Ht HQ. apply runs_Set; [done|]. intros w' Ho Hs. apply HQ; [done|done|].
  eapply typed_shows; [done|done| |done]. intros y [= <-]. unfold kind_ok. by rewrite Hv.
Qed.
Lemma runs_Observe_typed v l x w (Q : unit → World X → Prop) :
  is_Some (Buckets v) → well_labelled v l → is_Some (metric w v l) → typed w →
  (∀ w' n, metric w v l = Some (Observations n) → os w' = os w →
    shows w w' v l (Some (Observations (n + 1))) → typed w' → Q tt w') → runs (Observe (v, l) x) w Q.
Proof.
  intros [b Hv] Hl [s Hs] Ht HQ. destruct (Ht v l s Hs) as [_ Hk]. unfold kind_ok in Hk. rewrite Hv in Hk.
  destruct s as [|n]; [done|]. apply (runs_Observe _ _ _ n); [done|]. intros w' Ho Hw. apply (HQ w' n); [done|done|done|].
  eapply typed_shows; [done|done| |done]. intros y [= <-]. unfold kind_ok. by rewrite Hv.
Qed.

(** [With] and [Set] in a row. *)
Lemma runs_With_Set v l x w (Q : unit → World X → Prop) :
  Buckets v = None → well_labelled v l → typed w →
  (∀ w', os w' = os w → shows w w' v l (Some (Value x)) → typed w' → Q tt w') →
  runs (c ← With v l; Set_ c x) w Q.
Proof.
  intros Hv Hl Ht HQ. apply runs_bind, runs_With_typed; [done|done|]. intros w1 Ho1 Hs1 Ht1.
  apply runs_Set_typed; [done|done|right; by rewrite (shows_at _ _ _ _ _ Hs1)|done|]. intros w2 Ho2 Hs2 Ht2.
  apply HQ; [congruence| |done]. intros v' l'. rewrite Hs2, Hs1. by case_decide.
Qed.
Lemma runs_Gauge_Set v x w (Q : unit → World X → Prop) :
  Buckets v = None → labelNames v = [] → typed w →
  (∀ w', os w' = os w → shows w w' v ∅ (Some (Value x)) → typed w' → Q tt w') → runs (Gauge_Set v x) w Q.
Proof.
  intros Hv Hl Ht HQ. apply runs_Set_typed; [done| |by left|done|done]. split; [by rewrite Hl, dom_empty_L|apply map_Forall_empty].
Qed.

(** The same, for the state that it really ends in. *)
Lemma runs_Gauge_Set_eq v x w (Q : unit → World X → Prop) :
  Buckets v = None → labelNames v = [] → typed w →
  (∀ w', Gauge_Set v x w = (Return tt, w') → os w' = os w → shows w w' v ∅ (Some (Value x)) → typed w' → Q tt w') →
  runs (Gauge_Set v x) w Q.
Proof.
  intros Hv Hl Ht HQ. eapply runs_mono.
  - apply runs_recall, (runs_Gauge_Set v x w (λ _ w', os w' = os w ∧ shows w w' v ∅ (Some (Value x)) ∧ typed w')); auto.
  - intros [] w' [(O & H & T) E]. by apply HQ.
Qed.

(** The metrics of a program are registered one after the other. *)
Lemma runs_register_all {A} vs (k : unit → M (World X) A) w (Q : A → World X → Prop) :
  NoDup vs → (∀ v, v ∈ vs → v ∉ registered (metrics (comp w))) →
  (∀ w', os w' = os w → (∀ v l, metric w' v l = metric w v l) → runs (k tt) w' Q) →
  runs (foldr (λ v (m : M (World X) A), _ ← MustRegister v; m) (k tt) vs) w Q.
Proof.
  intros Hnd. revert w. induction vs as [|v vs IH]; intros w Hv HQ; simpl; [by apply HQ|].
  apply NoDup_cons in Hnd as [Hn Hnd]. apply runs_bind, runs_MustRegister; [set_solver|]. intros w1 Ho Hm Hr.
  apply (IH Hnd).
  - intros v' Hv'. rewrite Hr. intros [->|Hin]%elem_of_cons; [done|]. revert Hin. apply Hv. set_solver.
  - intros w2 Ho2 Hm2. apply HQ; [congruence|]. metrics_now.
Qed.

(** The gauges of a list of labels are set to one value, some of them perhaps twice. *)
Lemma runs_set_all {A} (lab : A → Labels) v x (l : list A) w :
  Buckets v = None → Forall (λ a, well_labelled v (lab a)) l → typed w →
  runs (for_all (λ a, c ← With v (lab a); Set_ c x) l) w (λ _ w', typed w' ∧ os w' = os w ∧
    ∀ v' l', metric w' v' l' = if decide (v' = v ∧ l' ∈ map lab l) then Some (Value x) else metric w v' l').
Proof.
  intros Hv Hl Ht.
  apply (runs_for_all _ _ (λ pre w', typed w' ∧ os w' = os w ∧
    ∀ v' l', metric w' v' l' = if decide (v' = v ∧ l' ∈ map lab pre) then Some (Value x) else metric w v' l')).
  { split_and!; [done|done|]. intros v' l'. rewrite decide_False; [done|]. intros [_ []%elem_of_nil]. }
  intros pre a post w1 -> (T1 & O1 & M1). apply Forall_app in Hl as [_ [Ha _]%Forall_cons].
  apply runs_With_Set; [done|done|done|]. intros w2 O2 S2 T2. split_and!; [done|congruence|].
  intros v' l'. rewrite S2, M1, map_app. destruct (decide (v' = v ∧ l' = lab a)) as [[-> ->]|Hne].
  - rewrite decide_True; [done|]. split; [done|]. set_solver.
  - destruct (decide (v' = v ∧ l' ∈ map lab pre)) as [[-> Hin]|Hn]; [rewrite decide_True; [done|set_solver]|].
    rewrite decide_False; [done|]. intros [-> Hin]. apply elem_of_app in Hin as [Hin|Hin]; [by destruct Hn|].
    simpl in Hin. apply list_elem_of_singleton in Hin. by destruct Hne.
Qed.

(** *** The loop *)

(** Rounds of a cycle that always ends: the loop never ends on its own. *)
Lemma monitor_loop_returns {C} (cycle : C → M (World X) unit) rounds :
  (∀ c, returns (cycle c)) → returns (monitor_loop cycle rounds).
Proof.
  intros Hc. apply returns_for_all. intros [c b]. unfold monitor_round, select_stop.
  assert (∀ d, returns (@time_Sleep X d)) by (intros; apply time_Sleep_returns). go_frame.
Qed.

(** Once the channel is closed, the rounds follow each other without waiting: no time is slept
    but by the cycles. *)
Lemma monitor_loop_spins {C} (cycle : C → M (World X) unit) rounds :
  (∀ c, keeps (same horizon) (cycle c)) → Forall (λ r, r.2 = true) rounds →
  keeps (same horizon) (monitor_loop cycle rounds).
Proof.
  intros Hk. unfold monitor_loop. induction 1 as [|[c b] rounds Hb _ IH]; simpl in *; [apply keeps_ret, _|]. subst b.
  assert (Hn : keeps (same horizon) (time_Now (X:=X))).
  { intros w. destruct (time_Now_passes w) as (t & w' & -> & (n' & t' & -> & _ & Ht) & _). symmetry. exact Ht. }
  unfold monitor_round, select_stop. repeat (apply keeps_bind; [exact _|done || idtac|intros ?]); [|done].
  repeat (apply keeps_bind; [exact _|done|intros ?]). apply keeps_ret, _.
Qed.
(** Before that, a round waits for a second at least. *)
Lemma monitor_round_waits (cycle : M (World X) unit) w w' :
  keeps (λ w w', horizon w ≤ horizon w') cycle →
  monitor_round cycle false w = (Return tt, w') → horizon w + Second ≤ horizon w'.
Proof.
  intros Hk. unfold monitor_round, select_stop. intros (t & w1 & E1 & H1)%bind_inv. apply bind_inv in H1 as (a & w2 & E2 & H2).
  apply bind_inv in H2 as (t3 & w3 & E3 & H3). specialize (Hk w1). rewrite E2 in Hk. simpl in Hk.
  destruct (time_Now_passes w) as (t' & w1' & E1' & (n1 & l1 & -> & _ & Ht1) & _). rewrite E1 in E1'. injection E1' as <- ->.
  destruct (time_Now_passes w2) as (t3' & w3' & E3' & (n3 & l3 & -> & _ & Ht3) & _). rewrite E3 in E3'. injection E3' as <- ->.
  injection H3 as <-. unfold horizon in *. simpl in *. unfold next_delta. case_bool_decide; lia.
Qed.

(** What every cycle keeps, the loop keeps. *)
Lemma monitor_loop_keeps {C} (I : World X → Prop) (cycle : C → M (World X) unit) rounds w :
  (∀ w w', (∀ v l, metric w' v l = metric w v l) → I w → I w') →
  (∀ c b w, (c, b) ∈ rounds → I w → runs (cycle c) w (λ _ w', I w')) → I w →
  runs (monitor_loop cycle rounds) w (λ _ w', I w').
Proof.
  intros HI Hc Hw. apply (runs_for_all _ _ (λ _ w', I w')); [done|]. intros pre [c b] post w1 Hin H1.
  unfold monitor_round. apply runs_bind, runs_quiet; [apply time_Now_returns|apply os_same_metrics, time_Now_os_only|].
  intros t w2 _ H2. apply runs_bind. eapply runs_mono.
  { apply (Hc c b); [rewrite Hin; set_solver|]. by eapply HI. }
  intros [] w3 H3.
  apply runs_bind, runs_quiet; [apply time_Now_returns|apply os_same_metrics, time_Now_os_only|]. intros t' w4 _ H4.
  unfold select_stop. destruct b; [apply runs_ret; by eapply HI|].
  apply runs_quiet; [apply time_Sleep_returns|apply os_same_metrics, time_Sleep_os_only|]. intros ? w5 _ H5.
  eapply HI; [exact H5|]. by eapply HI.
Qed.
End typed.

(** ** Loops over children *)

(** A loop whose body shows, for each element, something in the vectors [vs] under the labels
    of the element: [P] says what, between the state in which the body was run for the element
    and a later one, and [K] what the loop accumulates. *)
Section sweep.
Context {prom : Prometheus} {X : Type} {mets : HasMetrics X}.
Implicit Types w : World X.
Context {A B : Type} (lab : A → Labels) (vs : list Metric) (good : A → Prop).
Context (P : A → World X → World X → Prop) (K : list A → B → Prop) (body : B → A → M (World X) B).

(** The elements [seen] were swept from [w0] on: each from the state that the loop had come to. *)
Definition swept b0 w0 (seen : list A) w : Prop :=
  typed w ∧ later w0 w ∧
  (∀ pre a post, seen = pre ++ a :: post → ∃ b wa, fold_all body b0 pre w0 = (Return b, wa) ∧
     later w0 wa ∧ (∀ v, metric wa v (lab a) = metric w0 v (lab a)) ∧ P a wa w) ∧
  ∀ v l, v ∉ vs ∨ l ∉ map lab seen → metric w v l = metric w0 v l.

(** What is shown under the labels of an element is all that [P] depends on in the end. *)
Definition lasting : Prop := ∀ a wa w w',
  P a wa w → later w w' → (∀ v, metric w' v (lab a) = metric w v (lab a)) → P a wa w'.

Lemma runs_sweep b l w :
  lasting →
  (∀ pre a b1 w1, fold_all body b pre w = (Return b1, w1) → typed w1 → good a → K pre b1 → runs (body b1 a) w1 (λ b' w',
    typed w' ∧ later w1 w' ∧ P a w1 w' ∧ (∀ v l, v ∉ vs ∨ l ≠ lab a → metric w' v l = metric w1 v l) ∧ K (pre ++ [a]) b')) →
  typed w → NoDup (map lab l) → Forall good l → K [] b →
  runs (fold_all body b l) w (λ b' w', swept b w l w' ∧ K l b').
Proof.
  intros HP Hbody Ht Hnd Hg HK. apply (runs_fold_all_from _ _ (λ pre b' w', swept b w pre w' ∧ K pre b')).
  { split; [|done]. split_and!; [done|reflexivity|by intros []|done]. }
  intros pre a post b1 w1 -> E [(Ht1 & Hl1 & Hp1 & Hf1) HK1].
  rewrite map_app in Hnd. apply NoDup_app in Hnd as (_ & Hd & _). apply Forall_app in Hg as [_ [Hga _]%Forall_cons].
  assert (Hn : lab a ∉ map lab pre) by (intros Hin; apply (Hd _ Hin); set_solver).
  eapply runs_mono; [by apply (Hbody pre)|]. intros b2 w2 (Ht2 & Hl2 & Hp2 & Hf2 & HK2). split; [|done].
  split_and!; [done|by etrans| |].
  - intros pre' a' post' El. destruct post' as [|c post' _] using rev_ind.
    + apply app_inj_tail in El as [-> ->]. exists b1, w1. split_and!; [done|done| |done]. intros v. apply Hf1. by right.
    + rewrite app_comm_cons, app_assoc in El. apply app_inj_tail in El as [-> ->].
      destruct (Hp1 _ _ _ eq_refl) as (b' & wa & Ea & La & Ha & Pa). exists b', wa. split_and!; [done..|].
      eapply HP; [exact Pa|done|]. intros v. apply Hf2. right. intros El. apply Hn. rewrite <- El.
      apply list_elem_of_fmap_2. set_solver.
  - intros v l Hvl. rewrite map_app in Hvl. rewrite Hf2, Hf1; [done| |]; destruct Hvl as [?|Hvl]; [by left| |by left|];
      right; set_solver.
Qed.
End sweep.

(** The same without an accumulator. *)
Definition swept_all {prom : Prometheus} {X : Type} {mets : HasMetrics X} {A} (lab : A → Labels) (vs : list Metric)
    (P : A → World X → World X → Prop) (body : A → M (World X) unit) (w0 : World X) (seen : list A) (w : World X) : Prop :=
  typed w ∧ later w0 w ∧
  (∀ pre a post, seen = pre ++ a :: post → ∃ wa, for_all body pre w0 = (Return tt, wa) ∧
     later w0 wa ∧ (∀ v, metric wa v (lab a) = metric w0 v (lab a)) ∧ P a wa w) ∧
  ∀ v l, v ∉ vs ∨ l ∉ map lab seen → metric w v l = metric w0 v l.
Lemma runs_sweep_all {prom : Prometheus} {X : Type} {mets : HasMetrics X} {A} (lab : A → Labels) vs good P
    (body : A → M (World X) unit) l w :
  lasting lab P →
  (∀ a w, typed w → good a → runs (body a) w (λ _ w',
    typed w' ∧ later w w' ∧ P a w w' ∧ ∀ v l, v ∉ vs ∨ l ≠ lab a → metric w' v l = metric w v l)) →
  typed w → NoDup (map lab l) → Forall good l → runs (for_all body l) w (λ _ w', swept_all lab vs P body w l w').
Proof.
  intros HP Hbody Ht Hnd Hg. unfold runs. rewrite for_all_fold.
  eapply runs_mono; [apply (runs_sweep lab vs good P (λ _ _, True) (λ _ a, body a) tt l w HP); [|done..]|].
  - intros pre a [] w1 _ T1 G1 _. eapply runs_mono; [by apply Hbody|]. intros [] w2. tauto.
  - intros [] w' [(T' & L' & S' & F') _]. split_and!; [done|done| |done]. intros pre a post El.
    destruct (S' pre a post El) as ([] & wa & E & H). exists wa. by rewrite for_all_fold.
Qed.

(** ** A client, for the examples *)

Module ToyProm.
Record Store := mkStore { declared : list Metric; children : Metric → Labels → option sample }.

Definition put (m : Store) (v : Metric) (l : Labels) (s : option sample) : Store :=
  mkStore (declared m) (λ v' l', if decide (v' = v ∧ l' = l) then s else children m v' l').
Definition observe (m : Store) (v : Metric) (l : Labels) : Store :=
  match children m v l with Some (Observations n) => put m v l (Some (Observations (n + 1))) | _ => m end.
Definition accepts (v : Metric) (l : Labels) : bool :=
  bool_decide (dom l = list_to_set (labelNames v)) && bool_decide (map_Forall (λ _ s, valid_utf8 s = true) l).

#[export] Program Instance toy_prometheus : Prometheus := {|
  Metrics := Store;
  MetricFamily := string;
  shown m v l := children m v l;
  registered := declared;
  labels_ok := accepts;
  m_Register m v := mkStore (v :: declared m) (children m);
  m_With m v l := put m v l (Some (default (initial v) (children m v l)));
  m_Set m v l x := put m v l (Some (Value x));
  m_Observe m v l _ := observe m v l;
  m_Reset m v := mkStore (declared m) (λ v' l', if decide (v' = v) then None else children m v' l');
  m_Delete m v l := put m v l None;
  m_Gather m := Ok (map Name (declared m))
|}.
Next Obligation. intros v. unfold accepts, well_labelled. setoid_rewrite andb_true_iff. by setoid_rewrite bool_decide_eq_true. Qed.
Next Obligation. done. Qed.
Next Obligation. done. Qed.
Next Obligation. done. Qed.
Next Obligation. done. Qed.
Next Obligation. simpl. intros m v l x n v' l' E. unfold observe. by rewrite E. Qed.
Next Obligation. done. Qed.
Next Obligation. done. Qed.

(** A component with such a client. *)
#[export] Program Instance toy_metrics {R} : HasMetrics (Store * R) := {|
  metrics x := x.1;
  set_metrics m x := (m, x.2)
|}.
Next Obligation. done. Qed.

Definition store0 : Store := mkStore [] (λ _ _, None).
Definition toy_world {R} (r : R) : World (Store * R) := mkWorld (os0 1500000000) (store0, r).
Lemma toy_typed {R} o (r : R) : typed (mkWorld o (store0, r)).
Proof. by intros v l s. Qed.
End ToyProm.
