(* ===== verification/DnsMonitor.v ===== *)
(** * The DNS monitor

    [dns-monitor/dns-monitor.go]: a loop that checks that names of the cluster resolve to the
    addresses given on the command line, and what its metrics say of that. *)

From S2P Require Import Prelude GoStrings GoNet GoOS Exits GoErrors GoJSON CertUtil GoTime Prom.
#[local] Open Scope Z_scope.
#[export] Set Default Goal Selector "!".

(** The resolver of package net: it gives up after a second, and does not touch the metrics. *)
Class Resolver (X : Type) `{HasMetrics X} := {
  LookupIPAddr : string → M (World X) (result (list IP));
  LookupIPAddr_returns host : returns (LookupIPAddr host);
  LookupIPAddr_metrics host : keeps same_metrics (LookupIPAddr host);
  LookupIPAddr_later host : keeps later (LookupIPAddr host)
}.

Section dns.
Context {prom : Prometheus} {X : Type} {mets : HasMetrics X} {net : Resolver X}.
Abbreviation MW := (M (World X)).

Definition internalCheck : Metric := mkMetric "dns" "lookup_internal_check"
  "Check for whether in-cluster dns lookups work" None ["hostname"].
Definition internalCheckTiming : Metric := mkMetric "dns" "lookup_internal_timing"
  "Timing for flannel communication"
  (Some [tenths 1; tenths 2; tenths 5; float64_of 1; float64_of 2; float64_of 5; float64_of 10]) ["hostname"].
Definition monRecency : Metric := mkMetric "dns" "lookup_recency"
  "Timestamp for the oldest currently reported metric" None [].

Definition grabOneIPv4 (host : string) : MW (result (IP * Z)) :=
  start ← time_Now;
  ipAddresses ← LookupIPAddr host;
  end_ ← time_Now;
  match ipAddresses with
  | Err err => fail err
  | Ok [ip] => ok (ip, time_Sub end_ start)
  | Ok _ => fail (ErrorString "expected exactly one IP address")
  end.

Definition host_labels (hostname : string) : Labels := {[ "hostname" := hostname ]}.
Definition check_host (hostname : string) (expectIP : IP) : MW unit :=
  found ← grabOneIPv4 hostname;
  ic ← With internalCheck (host_labels hostname);
  ict ← With internalCheckTiming (host_labels hostname);
  match found with
  | Err err =>
      _ ← log_Print ("failed to check DNS result for " +:+ hostname +:+ ": " +:+ Error err);
      Set_ ic zero
  | Ok (foundIP, duration) =>
      if negb (IP_Equal expectIP foundIP) then
        _ ← Set_ ic zero;
        log_Print ("DNS mismatch between result " +:+ IP_String foundIP +:+ " for " +:+ hostname +:+
          " and expectation " +:+ IP_String expectIP)
      else
        _ ← Set_ ic one;
        Observe ict (Seconds duration)
  end.

(** The cycle, over the expectations in the order in which the map gives them. *)
Definition dns_cycle (expectations : list (string * IP)) : MW unit :=
  recencyTimestamp ← time_Now;
  _ ← for_all (λ e, check_host e.1 e.2) expectations;
  Gauge_Set monRecency (Seconds (time_Sub recencyTimestamp 0)).

(** [loop], for its first rounds. *)
Definition dns_loop (rounds : list (list (string * IP) * bool)) : MW unit := monitor_loop dns_cycle rounds.

Definition parse_arg (expectations : gmap string IP) (arg : string) : result (gmap string IP) :=
  match Split arg "="%char with
  | [hostname; addr] =>
      match ParseIP addr with
      | None => Err (ErrorString ("found invalid IP address: " +:+ addr))
      | Some ipaddr =>
          match expectations !! hostname with
          | Some _ => Err (ErrorString ("duplicate hostname: " +:+ hostname))
          | None => Ok (<[hostname := ipaddr]> expectations)
          end
      end
  | _ => Err (ErrorString ("found improperly formatted parameter: " +:+ arg))
  end.
Definition parseArgs (args : list string) : result (gmap string IP) :=
  expectations ← fold_result parse_arg ∅ (drop 1 args);
  if bool_decide (expectations = ∅) then Err (ErrorString "no parameters provided") else Ok expectations.

(** The program: the rounds of its loop, while the server of the metrics runs, and the error
    with which the server ends. *)
Definition dns_main (args : list string) (rounds : list (list (string * IP) * bool)) (onstop : error) : MW unit :=
  match parseArgs args with
  | Err err => logger_Fatal ("failed to parse arguments: " +:+ Error err)
  | Ok expectations =>
      _ ← MustRegister internalCheck;
      _ ← MustRegister internalCheckTiming;
      _ ← MustRegister monRecency;
      _ ← log_Print "Starting metrics server on: :80";
      _ ← dns_loop rounds;
      log_Print ("Stopped metrics server: " +:+ Error onstop)
  end.
End dns.

(** ** The arguments *)

(** An argument that asks for a name to have an address. *)
Definition expectation (arg : string) (e : string * IP) : Prop :=
  ∃ a, arg = e.1 +:+ "=" +:+ a ∧ has_char "=" e.1 = false ∧ has_char "=" a = false ∧ ParseIP a = Some e.2.

Lemma Split_two arg h a :
  Split arg "="%char = [h; a] ↔ arg = h +:+ "=" +:+ a ∧ has_char "=" h = false ∧ has_char "=" a = false.
Proof.
  split.
  - intros E. pose proof (Join_Split arg "="%char) as Hj. pose proof (Split_no_char arg "="%char) as Hn.
    rewrite E in Hj, Hn. apply Forall_cons in Hn as [Hh [Ha _]%Forall_cons]. split_and!; [by rewrite <- Hj|done|done].
  - intros (-> & Hh & Ha). change ("=" +:+ a) with (String "=" a). rewrite Split_app by done. by rewrite (Split_none a).
Qed.

Lemma parse_arg_Ok m arg m' :
  parse_arg m arg = Ok m' ↔ ∃ e, expectation arg e ∧ m !! e.1 = None ∧ m' = <[e.1 := e.2]> m.
Proof.
  split.
  - unfold parse_arg. destruct (Split arg _) as [|h [|a [|]]] eqn:E; try done.
    apply Split_two in E as (-> & Hh & Ha). destruct (ParseIP a) as [ip|] eqn:Hip; [|done].
    destruct (m !! h) eqn:Hm; [done|]. intros [= <-]. exists (h, ip). split_and!; [by exists a|done|done].
  - intros ([h ip] & (a & Ha & Hh & Hn & Hip) & Hm & ->). simpl in *. unfold parse_arg.
    rewrite (proj2 (Split_two arg h a)) by done. by rewrite Hip, Hm.
Qed.

Lemma parse_args_Ok args : ∀ m m',
  fold_result parse_arg m args = Ok m' ↔
  ∃ l, Forall2 expectation args l ∧ NoDup l.*1 ∧ (∀ h, h ∈ l.*1 → m !! h = None) ∧ m' = list_to_map l ∪ m.
Proof.
  induction args as [|arg args IH]; intros m m'; simpl.
  - split.
    + intros [= <-]. exists []. split_and!; [constructor|constructor|set_solver|simpl; by rewrite (left_id_L ∅ (∪))].
    + intros (l & Hl & _ & _ & ->). inversion Hl. subst. simpl. by rewrite (left_id_L ∅ (∪)).
  - transitivity (∃ m1, parse_arg m arg = Ok m1 ∧ fold_result parse_arg m1 args = Ok m').
    { destruct (parse_arg m arg) as [m1|e]; [naive_solver|]. split; [done|]. by intros (? & ? & _). }
    setoid_rewrite parse_arg_Ok. setoid_rewrite IH. split.
    + intros (m1 & (e & He & Hm & ->) & l & Hl & Hnd & Hd & ->). exists (e :: l).
      assert (Hn : e.1 ∉ l.*1) by (intros Hin; specialize (Hd _ Hin); by rewrite lookup_insert_eq in Hd).
      split_and!; [by constructor|by constructor| |].
      * intros h [->|Hh]%elem_of_cons; [done|]. specialize (Hd h Hh). by apply lookup_insert_None in Hd as [? _].
      * destruct e as [h ip]. simpl. rewrite <- insert_union_l, insert_union_r; [done|]. by apply not_elem_of_list_to_map_1.
    + intros (l0 & Hl & Hnd & Hd & ->). inversion Hl as [|? e ? l He Hl']; subst. simpl in *.
      apply NoDup_cons in Hnd as [Hn Hnd]. exists (<[e.1:=e.2]> m). split.
      * exists e. split_and!; [done|apply Hd; set_solver|done].
      * exists l. split_and!; [done|done| |].
        -- intros h Hh. rewrite lookup_insert_ne by (intros <-; done). apply Hd. set_solver.
        -- destruct e as [h ip]. simpl. rewrite <- insert_union_l, insert_union_r; [done|]. by apply not_elem_of_list_to_map_1.
Qed.

(** Exactly which arguments the monitor accepts, and what it makes of them: at least one,
    each a name and an address around the only equal sign, no name twice. *)
Theorem parseArgs_spec args m :
  parseArgs args = Ok m ↔
  ∃ l, Forall2 expectation (drop 1 args) l ∧ l ≠ [] ∧ NoDup l.*1 ∧ m = list_to_map l.
Proof.
  unfold parseArgs, mbind. transitivity (fold_result parse_arg ∅ (drop 1 args) = Ok m ∧ m ≠ ∅).
  { destruct (fold_result _ _ _) as [m1|e]; simpl; [|naive_solver]. case_bool_decide; naive_solver. }
  rewrite parse_args_Ok. split.
  - intros ((l & Hl & Hnd & _ & ->) & Hm). rewrite (right_id_L ∅ (∪)) in *. exists l. split_and!; [done| |done|done].
    by intros ->.
  - intros (l & Hl & Hne & Hnd & ->). split.
    + exists l. split_and!; [done|done|by intros; apply lookup_empty|by rewrite (right_id_L ∅ (∪))].
    + destruct l as [|[h ip] l]; [done|]. simpl. apply insert_non_empty.
Qed.

(** ** A cycle *)

Section cycle.
Context {prom : Prometheus} {X : Type} {mets : HasMetrics X} {net : Resolver X}.
Implicit Types w : World X.

(** The answer is the address expected, and no other. *)
Definition answers (r : result (list IP)) (ip : IP) : bool :=
  match r with Ok [a] => IP_Equal ip a | _ => false end.

(** The name was asked for in the state [wa], after the clock was read, and the metrics of [w']
    say what the answer was: the gauge is one if it was the address expected, and only then it
    was timed. *)
Definition checked wa w' (before : option sample) (hostname : string) (ip : IP) : Prop :=
  ∃ start w1 r w2, time_Now wa = (Return start, w1) ∧ LookupIPAddr hostname w1 = (Return r, w2) ∧
    metric w' internalCheck (host_labels hostname) = Some (Value (if answers r ip then one else zero)) ∧
    metric w' internalCheckTiming (host_labels hostname) =
      Some (Observations (count before + (if answers r ip then 1 else 0))).

Lemma host_labelled v hostname : labelNames v = ["hostname"] → valid_utf8 hostname = true → well_labelled v (host_labels hostname).
Proof.
  intros Hv Hu. split; [rewrite Hv; unfold host_labels; rewrite dom_singleton_L; set_solver|]. by apply map_Forall_singleton.
Qed.

Lemma host_labels_inj h h' : host_labels h = host_labels h' → h = h'.
Proof. intros E. pose proof (f_equal (lookup "hostname") E) as E'. unfold host_labels in E'. rewrite !lookup_singleton_eq in E'. by injection E'. Qed.

(** What is made of an answer. *)
Definition grabbed (r : result (list IP)) (g : result (IP * Z)) : Prop :=
  match g with Ok (a, _) => r = Ok [a] | Err _ => ∀ a, r ≠ Ok [a] end.

Lemma grab_runs hostname w (Q : result (IP * Z) → World X → Prop) :
  (∀ start w1 w2 w' r g, time_Now w = (Return start, w1) → LookupIPAddr hostname w1 = (Return r, w2) → later w w' →
    (∀ v l, metric w' v l = metric w v l) →
    grabbed r g → Q g w') →
  runs (grabOneIPv4 hostname) w Q.
Proof.
  intros HQ. unfold grabOneIPv4. os_step. intros start w1 E0 H1 L1. apply runs_bind, runs_clocked; [apply LookupIPAddr_returns|apply LookupIPAddr_metrics|apply LookupIPAddr_later|].
  intros r w2 E H2 L2. os_step. intros end_ w3 _ H3 L3.
  assert (HQ' : ∀ g, grabbed r g → Q g w3).
  { intros g Hg. apply (HQ start w1 w2 w3 r); [done|done| |by metrics_now|exact Hg]. by do 2 (etrans; [eassumption|]). }
  destruct r as [[|a [|]]|e]; apply runs_ret, HQ'; done.
Qed.

(** The first half of a check: the answer, and the children that will show it. *)
Lemma grab_children {A} hostname (k : result (IP * Z) → child → child → M (World X) A) w (Q : A → World X → Prop) :
  typed w → valid_utf8 hostname = true →
  (∀ start w1 w2 w' r g, time_Now w = (Return start, w1) → LookupIPAddr hostname w1 = (Return r, w2) → later w w' → grabbed r g →
    typed w' → is_Some (metric w' internalCheck (host_labels hostname)) →
    metric w' internalCheckTiming (host_labels hostname) =
      Some (Observations (count (metric w internalCheckTiming (host_labels hostname)))) →
    (∀ v l, (v ≠ internalCheck ∧ v ≠ internalCheckTiming) ∨ l ≠ host_labels hostname → metric w' v l = metric w v l) →
    runs (k g (internalCheck, host_labels hostname) (internalCheckTiming, host_labels hostname)) w' Q) →
  runs (found ← grabOneIPv4 hostname;
        ic ← With internalCheck (host_labels hostname);
        ict ← With internalCheckTiming (host_labels hostname); k found ic ict) w Q.
Proof.
  intros Ht Hu HQ. apply runs_bind, grab_runs. intros start w1 w2 w3 r g E0 E L3 H3 Hg.
  pose proof (host_labelled internalCheck hostname eq_refl Hu) as Hl1.
  pose proof (host_labelled internalCheckTiming hostname eq_refl Hu) as Hl2.
  apply runs_bind, runs_With_typed; [done|by eapply typed_same|]. intros w4 O4 H4 T4.
  apply runs_bind, runs_With_typed; [done|done|]. intros w5 O5 H5 T5.
  assert (internalCheck ≠ internalCheckTiming) by done.
  assert (L35 : later w3 w5) by (apply later_os; congruence).
  apply (HQ start w1 w2 w5 r g); [done|done|by etrans|done|done| | |].
  - rewrite (shows_ne _ _ _ _ _ _ _ H5), (shows_at _ _ _ _ _ H4) by auto. by eexists.
  - rewrite (shows_at _ _ _ _ _ H5), (shows_ne _ _ _ _ _ _ _ H4), H3 by auto.
    destruct (metric w internalCheckTiming _) as [s|] eqn:Es; [|done].
    destruct (Ht _ _ _ Es) as [_ Hk]. by destruct s.
  - metrics_now.
Qed.

Lemma check_host_runs hostname ip w :
  typed w → valid_utf8 hostname = true →
  runs (check_host hostname ip) w (λ _ w', typed w' ∧ later w w' ∧
    checked w w' (metric w internalCheckTiming (host_labels hostname)) hostname ip ∧
    ∀ v l, (v ≠ internalCheck ∧ v ≠ internalCheckTiming) ∨ l ≠ host_labels hostname → metric w' v l = metric w v l).
Proof.
  intros Ht Hu. apply grab_children; [done|done|]. intros start w1 w2 w3 r g E0 E L3 Hg T3 Hi Hn Hf.
  pose proof (host_labelled internalCheck hostname eq_refl Hu) as Hl1.
  pose proof (host_labelled internalCheckTiming hostname eq_refl Hu) as Hl2.
  assert (internalCheck ≠ internalCheckTiming) by done.
  destruct g as [[a d]|err]; [simpl in Hg; destruct (IP_Equal ip a) eqn:Ha; simpl; subst r|].
  - apply runs_bind, runs_Set_typed; [done|done|by right|done|]. intros w4 O4 H4 T4.
    apply runs_Observe_typed; [by eexists|done| |done|].
    { rewrite (shows_ne _ _ _ _ _ _ _ H4), Hn by auto. by eexists. }
    intros w5 m Hm O5 H5 T5. rewrite (shows_ne _ _ _ _ _ _ _ H4), Hn in Hm by auto. injection Hm as <-.
    assert (L35 : later w3 w5) by (apply later_os; congruence).
    split_and!; [done|by etrans| |metrics_now]. exists start, w1, (Ok [a]), w2. simpl. rewrite Ha.
    split_and!; [done|done| |by rewrite (shows_at _ _ _ _ _ H5)].
    by rewrite (shows_ne _ _ _ _ _ _ _ H5), (shows_at _ _ _ _ _ H4) by auto.
  - apply runs_bind, runs_Set_typed; [done|done|by right|done|]. intros w4 O4 H4 T4.
    os_step. intros [] w5 _ H5 L5.
    assert (L35 : later w3 w5) by (etrans; [by apply later_os|exact L5]).
    split_and!; [by eapply typed_same|by etrans| |metrics_now]. exists start, w1, (Ok [a]), w2. simpl. rewrite Ha, N.add_0_r.
    split_and!; [done|done|rewrite H5; by apply (shows_at _ _ _ _ _ H4)|].
    by rewrite H5, (shows_ne _ _ _ _ _ _ _ H4), Hn by auto.
  - os_step. intros [] w4 _ H4 L4. apply runs_Set_typed; [done|done|right; by rewrite H4|by eapply typed_same|].
    intros w5 O5 H5 T5. assert (L35 : later w3 w5) by (etrans; [exact L4|by apply later_os]).
    split_and!; [done|by etrans| |metrics_now].
    assert (Hr : answers r ip = false) by (destruct r as [[|b [|]]|]; simpl in *; [done|by destruct (Hg b)|done|done]).
    exists start, w1, r, w2. rewrite Hr, N.add_0_r. split_and!; [done|done|by apply (shows_at _ _ _ _ _ H5)|].
    by rewrite (shows_ne _ _ _ _ _ _ _ H5), H4 by auto.
Qed.

Definition checks (e : string * IP) w w' : Prop :=
  checked w w' (metric w internalCheckTiming (host_labels e.1)) e.1 e.2.
Lemma checks_lasting : lasting (λ e : string * IP, host_labels e.1) checks.
Proof. intros e wa w w' (start & w1 & r & w2 & E0 & E & H1 & H2) L H. exists start, w1, r, w2. by rewrite !H. Qed.

(** A cycle, to its end: the names in turn, and then the time stamp. *)
Lemma dns_cycle_runs (expectations : list (string * IP)) w :
  typed w → NoDup expectations.*1 → Forall (λ e, valid_utf8 e.1 = true) expectations →
  runs (dns_cycle expectations) w (λ _ w', typed w' ∧ ∃ w0, time_Now w = (Return (now (os w0)), w0) ∧
    metric w' monRecency ∅ = Some (Value (Seconds (time_Sub (now (os w0)) 0))) ∧
    (∀ pre hostname ip post, expectations = pre ++ (hostname, ip) :: post →
       ∃ wa, for_all (λ e, check_host e.1 e.2) pre w0 = (Return tt, wa) ∧ later w0 wa ∧
         checked wa w' (metric w internalCheckTiming (host_labels hostname)) hostname ip) ∧
    ∀ v l, v ≠ monRecency → (v ≠ internalCheck ∧ v ≠ internalCheckTiming) ∨ l ∉ map host_labels expectations.*1 →
      metric w' v l = metric w v l).
Proof.
  intros Ht Hnd Hu. unfold dns_cycle. os_step. intros t w0 E0 H0 L0.
  assert (Et : t = now (os w0)) by (by injection E0 as <- <-). subst t.
  apply runs_bind. eapply runs_mono.
  { apply (runs_sweep_all (λ e, host_labels e.1) [internalCheck; internalCheckTiming] (λ e, valid_utf8 e.1 = true) checks).
    - apply checks_lasting.
    - intros e w1 T1 G1. eapply runs_mono; [by apply check_host_runs|]. intros [] w2 (T2 & L2 & C2 & F2).
      split_and!; [done|done|done|]. intros v l Hvl. apply F2. set_solver.
    - by eapply typed_same.
    - rewrite <- (map_map fst host_labels). apply NoDup_fmap_2; [|done]. intros ??. apply host_labels_inj.
    - done. }
  intros [] w1 (Ht1 & L1 & Hc1 & Hf1). apply runs_Gauge_Set; [done|done|done|]. intros w2 O2 H2 T2. split; [done|].
  exists w0. split_and!; [done|by apply (shows_at _ _ _ _ _ H2)| |].
  - intros pre h ip post El. destruct (Hc1 pre (h, ip) post El) as (wa & Ea & La & Ha & Hc). exists wa. split_and!; [done|done|].
    rewrite <- H0. simpl in Ha. rewrite <- Ha. apply (checks_lasting (h, ip) wa w1 w2 Hc); [by apply later_os|].
    intros v. apply (shows_ne _ _ _ _ _ _ _ H2). right. intros E. pose proof (f_equal (lookup "hostname") E) as E'.
    unfold host_labels in E'. by rewrite lookup_singleton_eq in E'.
  - intros v l Hv Hvl. rewrite (shows_ne _ _ _ _ _ _ _ H2) by auto. rewrite Hf1; [apply H0|].
    rewrite <- (map_map fst host_labels). destruct Hvl; [left|by right]. set_solver.
Qed.

(** C26: A cycle ends, whatever the names resolve to and in whatever order it asks for them.
    Then the gauge of each name is one if it resolved to exactly the address expected, when it
    was its turn in this cycle, and zero otherwise, and only the successes were timed; the
    timestamp shown is older than all of the answers; nothing else that is shown has changed,
    and all of it is labelled as declared. *)
Theorem dns_cycle_spec (expectations : list (string * IP)) w :
  typed w → NoDup expectations.*1 → Forall (λ e, valid_utf8 e.1 = true) expectations →
  runs (dns_cycle expectations) w (λ _ w', typed w' ∧ ∃ w0, time_Now w = (Return (now (os w0)), w0) ∧
    metric w' monRecency ∅ = Some (Value (Seconds (time_Sub (now (os w0)) 0))) ∧
    (∀ pre hostname ip post, expectations = pre ++ (hostname, ip) :: post →
       ∃ wa, for_all (λ e, check_host e.1 e.2) pre w0 = (Return tt, wa) ∧ later w0 wa ∧
         checked wa w' (metric w internalCheckTiming (host_labels hostname)) hostname ip) ∧
    ∀ v l, v ≠ monRecency → (v ≠ internalCheck ∧ v ≠ internalCheckTiming) ∨ l ∉ map host_labels expectations.*1 →
      metric w' v l = metric w v l).
Proof. apply dns_cycle_runs. Qed.

(** *** Names that the metrics refuse *)

Lemma panics_register_all {A} vs (k : unit → M (World X) A) w :
  NoDup vs → (∀ v, v ∈ vs → v ∉ registered (metrics (comp w))) →
  (∀ w', (∀ v l, metric w' v l = metric w v l) → panics (k tt) w') →
  panics (foldr (λ v (m : M (World X) A), _ ← MustRegister v; m) (k tt) vs) w.
Proof.
  intros Hnd. revert w. induction vs as [|v vs IH]; intros w Hv HQ; simpl; [by apply HQ|].
  apply NoDup_cons in Hnd as [Hn Hnd].
  apply (panics_then _ _ _ (λ _ w', (∀ v l, metric w' v l = metric w v l) ∧
    registered (metrics (comp w')) = v :: registered (metrics (comp w)))).
  { apply runs_MustRegister; [set_solver|]. by intros w1 _ Hm Hr. }
  intros [] w1 [Hm Hr]. apply (IH Hnd).
  - intros v' Hv'. rewrite Hr. intros [->|Hin]%elem_of_cons; [done|]. revert Hin. apply Hv. set_solver.
  - intros w2 Hm2. apply HQ. metrics_now.
Qed.

(** A name that is not text is looked up, and then the metrics have no child for it. *)
Lemma check_host_panics hostname ip w : valid_utf8 hostname = false → panics (check_host hostname ip) w.
Proof.
  intros Hu. unfold check_host. eapply panics_then.
  { apply (grab_runs hostname w (λ _ _, True)). done. }
  intros r w1 _. by apply panics_first, panics_With.
Qed.
Lemma dns_cycle_panics (expectations : list (string * IP)) w :
  typed w → Exists (λ e, valid_utf8 e.1 = false) expectations → panics (dns_cycle expectations) w.
Proof.
  intros Ht Hx. unfold dns_cycle. apply (panics_then _ _ _ (λ _ w', typed w')).
  { os_step. intros t w1 _ H1 _. by eapply typed_same. }
  intros t w1 T1. apply panics_first, (panics_for_all _ typed (λ e, valid_utf8 e.1 = false)); [| |done|done].
  - intros [h ip] w2 Hu%not_false_is_true _ T2. eapply runs_mono; [by apply check_host_runs|]. by intros [] w3 [T3 _].
  - intros [h ip] w2 Hu _ T2. by apply check_host_panics.
Qed.

(** *** The program *)

(** What is shown of a name in [w'] is what it resolved to in a cycle that began in [wc]. *)
Definition shown_since wc w' (hostname : string) (ip : IP) : Prop :=
  ∃ wa before, later wc wa ∧ checked wa w' before hostname ip.

Definition all_text (m : gmap string IP) : bool := bool_decide (map_Forall (λ hostname _, valid_utf8 hostname = true) m).
Lemma all_text_order m (order : list (string * IP)) :
  order ≡ₚ map_to_list m →
  NoDup order.*1 ∧
  if all_text m then Forall (λ e, valid_utf8 e.1 = true) order else Exists (λ e, valid_utf8 e.1 = false) order.
Proof.
  intros Ho. split; [rewrite Ho; apply NoDup_fst_map_to_list|]. unfold all_text. case_bool_decide as Hm.
  - rewrite Ho. apply Forall_forall. intros [h ip] Hin%elem_of_map_to_list. by apply (Hm h ip).
  - apply map_not_Forall in Hm as (h & ip & Hl & Hh); [|intros; apply _].
    apply Exists_exists. exists (h, ip). split; [by rewrite Ho; apply elem_of_map_to_list|]. simpl. by destruct (valid_utf8 h).
Qed.

(** The rounds of the loop: what is shown at the end is what the last of them found. *)
Lemma dns_loop_runs m rounds w :
  typed w → all_text m = true → Forall (λ r, r.1 ≡ₚ map_to_list m) rounds →
  runs (dns_loop rounds) w (λ _ w', typed w' ∧ ∀ pre r, rounds = pre ++ [r] → ∃ wp wc,
    dns_loop pre w = (Return tt, wp) ∧ later wp wc ∧
    ∀ hostname ip, m !! hostname = Some ip → shown_since wc w' hostname ip).
Proof.
  intros Ht Hm Hr. unfold dns_loop, monitor_loop.
  apply (runs_for_all_from _ _ (λ done w', typed w' ∧ ∀ pre r, done = pre ++ [r] → ∃ wp wc,
    dns_loop pre w = (Return tt, wp) ∧ later wp wc ∧
    ∀ hostname ip, m !! hostname = Some ip → shown_since wc w' hostname ip)).
  { split; [done|]. by intros [] ?. }
  intros pre [order closed] post wp Hl Ep [Tp _].
  assert (Ho : order ≡ₚ map_to_list m) by (rewrite Forall_forall in Hr; apply (Hr (order, closed)); set_solver).
  destruct (all_text_order m order Ho) as [Hnd Hu]. rewrite Hm in Hu.
  unfold monitor_round. cbn [fst snd]. os_step. intros t wc _ Hc Lc. pose proof (typed_same _ _ Hc Tp) as Tc.
  apply runs_bind. eapply runs_mono; [by apply dns_cycle_runs|]. intros [] w1 (T1 & w0 & E0 & _ & Hs & _).
  assert (L0 : later wc w0) by (pose proof (time_Now_later (X:=X) wc) as L; by rewrite E0 in L).
  assert (Hshown : ∀ hostname ip, m !! hostname = Some ip → shown_since wc w1 hostname ip).
  { intros h ip Hh%elem_of_map_to_list. rewrite <- Ho in Hh. apply list_elem_of_split in Hh as (l1 & l2 & El).
    destruct (Hs _ _ _ _ El) as (wa & _ & La & Hk). eexists wa, _. split; [by etrans|exact Hk]. }
  assert (Hkeep : ∀ w2, (∀ v l, metric w2 v l = metric w1 v l) → typed w2 ∧
    ∀ pre' r, pre ++ [(order, closed)] = pre' ++ [r] → ∃ wp wc, dns_loop pre' w = (Return tt, wp) ∧ later wp wc ∧
      ∀ hostname ip, m !! hostname = Some ip → shown_since wc w2 hostname ip).
  { intros w2 H2. split; [by eapply typed_same|]. intros pre' r [-> <-]%app_inj_tail. exists wp, wc. split_and!; [exact Ep|done|].
    intros h ip Hh. destruct (Hshown h ip Hh) as (wa & before & La & start & wb & res & wd & H3 & H4 & H5 & H6).
    exists wa, before. split; [done|]. exists start, wb, res, wd. by rewrite !H2. }
  os_step. intros t' w2 _ H2 _. unfold select_stop. destruct closed; [apply runs_ret, Hkeep; metrics_now|].
  os_step. intros ? w3 _ H3 _. apply Hkeep. metrics_now.
Qed.

(** C22: How the program runs. Arguments that it does not accept make it exit with status 1.
    Otherwise, when every name is valid UTF-8, it never panics, whatever the names resolve to
    and in whatever order each cycle asks for them; all that it ever shows has the labels and
    the kind that it was declared with, and after the rounds of its loop the gauge of each
    name of the command line is one if in the last round it resolved to exactly its address,
    and zero otherwise. When some name is not valid UTF-8, which the arguments are not checked
    for, its first round panics. *)
Theorem dns_main_typed args rounds onstop w :
  registered (metrics (comp w)) = [] → typed w →
  match parseArgs args with
  | Err e => ∃ w', dns_main args rounds onstop w = (Exit 1, w')
  | Ok m =>
      Forall (λ r, r.1 ≡ₚ map_to_list m) rounds →
      if all_text m then
        runs (dns_main args rounds onstop) w (λ _ w', typed w' ∧ ∀ pre r, rounds = pre ++ [r] → ∃ w0 wp wc,
          dns_loop pre w0 = (Return tt, wp) ∧ later wp wc ∧
          ∀ hostname ip, m !! hostname = Some ip → shown_since wc w' hostname ip)
      else rounds ≠ [] → panics (dns_main args rounds onstop) w
  end.
Proof.
  intros Hw Ht. unfold dns_main. destruct (parseArgs args) as [m|e]; [|by eexists]. intros Hr.
  assert (Hreg : NoDup [internalCheck; internalCheckTiming; monRecency]) by (repeat constructor; set_solver).
  destruct (all_text m) eqn:Hm.
  - apply (runs_register_all [internalCheck; internalCheckTiming; monRecency] (λ _, _)); [done|rewrite Hw; set_solver|].
    intros w1 _ H1. os_step. intros [] w2 _ H2 _. apply runs_bind. eapply runs_mono.
    { apply (dns_loop_runs m); [|done|done]. eapply typed_same; [|exact Ht]. metrics_now. }
    intros [] w3 [T3 Hs]. os_step. intros [] w4 _ H4 _. split; [by eapply typed_same|].
    intros pre r El. destruct (Hs pre r El) as (wp & wc & Ep & Lc & Hall). exists w2, wp, wc. split_and!; [done|done|].
    intros h ip Hh. destruct (Hall h ip Hh) as (wa & before & La & start & wb & res & wd & H5 & H6 & H7 & H8).
    exists wa, before. split; [done|]. exists start, wb, res, wd. by rewrite !H4.
  - intros Hne. destruct rounds as [|[order closed] rounds]; [done|]. apply Forall_cons in Hr as [Ho _]. simpl in Ho.
    destruct (all_text_order m order Ho) as [_ Hu]. rewrite Hm in Hu.
    assert (Hp : ∀ w', (∀ v l, metric w' v l = metric w v l) → panics (_ ← log_Print "Starting metrics server on: :80";
      _ ← dns_loop ((order, closed) :: rounds); log_Print ("Stopped metrics server: " +:+ Error onstop)) w').
    { intros w1 H1. apply (panics_then _ _ _ (λ _ w2, typed w2)).
      { os_step. intros [] w2 _ H2 _. eapply typed_same; [|exact Ht]. metrics_now. }
      intros [] w2 T2. apply panics_first, panics_first. unfold monitor_round. apply (panics_then _ _ _ (λ _ w3, typed w3)).
      { os_step. intros t w3 _ H3 _. by eapply typed_same. }
      intros t w3 T3. by apply panics_first, dns_cycle_panics. }
    by apply (panics_register_all [internalCheck; internalCheckTiming; monRecency] (λ _, _)); [|rewrite Hw; set_solver|].
Qed.
End cycle.

(** ** An example *)

Module SampleDns.
Export ToyProm.
Abbreviation Hosts := (gmap string (list IP)).
#[export] Program Instance hosts_resolver : Resolver (Store * Hosts) := {|
  LookupIPAddr host := gets (λ w : World (Store * Hosts), match (comp w).2 !! host with
    | Some l => Ok l | None => Err (StdError ("lookup " +:+ host +:+ ": no such host")) end)
|}.
Next Obligation. intros ? w. by eexists. Qed.
Next Obligation. done. Qed.
Next Obligation. intros ? w. unfold later. simpl. done. Qed.

Definition dns_args : list string := ["dns-monitor"; "a.example=10.0.0.1"; "b.example=10.0.0.2"].
Definition dns_expectations : list (string * IP) := [("a.example", IPv4 10 0 0 1); ("b.example", IPv4 10 0 0 2)].
Definition dns_world : World (Store * Hosts) :=
  toy_world (list_to_map [("a.example", [[10; 0; 0; 1]]); ("b.example", [[10; 0; 0; 9]])]).

Example dns_ex :
  let w := (dns_cycle dns_expectations dns_world).2 in
  (metric w internalCheck (host_labels "a.example"), metric w internalCheck (host_labels "b.example"),
   metric w internalCheckTiming (host_labels "b.example"), metric w monRecency ∅)
  = (Some (Value one), Some (Value zero), Some (Observations 0), Some (Value (tenths 15))).
Proof. vm_compute. reflexivity. Qed.

Example parse_args_ex :
  (parseArgs dns_args, is_ok (parseArgs ["dns-monitor"]), is_ok (parseArgs ["dns-monitor"; "a=1.2.3.4"; "a=1.2.3.4"]),
   is_ok (parseArgs ["dns-monitor"; "a=1.2.3.4=5"]))
  = (Ok (list_to_map dns_expectations), false, false, false).
Proof. vm_compute. reflexivity. Qed.

Lemma dns_cycle_spec_witness : ∃ w', dns_cycle dns_expectations dns_world = (Return tt, w') ∧
  typed w' ∧ ∃ w0, time_Now dns_world = (Return (now (os w0)), w0) ∧
    metric w' monRecency ∅ = Some (Value (Seconds (time_Sub (now (os w0)) 0))).
Proof.
  destruct (dns_cycle_spec dns_expectations dns_world) as ([] & w' & E & Ht & w0 & L & Hm & _).
  - apply toy_typed.
  - apply (bool_decide_unpack _). vm_compute. exact I.
  - apply (bool_decide_unpack _). vm_compute. exact I.
  - exists w'. split; [exact E|]. split; [exact Ht|]. exists w0. split; [exact L|exact Hm].
Defined.

Lemma dns_main_typed_witness :
  let rounds := [(dns_expectations, false); (reverse dns_expectations, true)] in
  runs (dns_main dns_args rounds (StdError "closed")) dns_world (λ _ w', typed w' ∧ ∃ wc,
    shown_since wc w' "a.example" (IPv4 10 0 0 1) ∧ shown_since wc w' "b.example" (IPv4 10 0 0 2)) ∧
  panics (dns_main ["dns-monitor"; String "255" "=10.0.0.1"] [([(String "255" "", IPv4 10 0 0 1)], true)] (StdError "closed"))
    dns_world.
Proof.
  assert (Hp : dns_expectations ≡ₚ map_to_list (list_to_map (M:=gmap string IP) dns_expectations))
    by (symmetry; apply map_to_list_to_map, (bool_decide_unpack _); vm_compute; exact I).
  split.
  - set (rounds := [_; _]). pose proof (dns_main_typed dns_args rounds (StdError "closed") dns_world eq_refl (toy_typed _ _)) as H.
    assert (Ea : parseArgs dns_args = Ok (list_to_map dns_expectations)) by (vm_compute; reflexivity).
    rewrite Ea in H. assert (Et : all_text (list_to_map dns_expectations) = true) by (vm_compute; reflexivity).
    rewrite Et in H. eapply runs_mono.
    { apply H. apply Forall_cons. split; [exact Hp|]. apply Forall_singleton. rewrite <- Hp. apply reverse_Permutation. }
    intros [] w' [Ht Hs]. split; [exact Ht|]. destruct (Hs [(dns_expectations, false)] _ eq_refl) as (w0 & wp & wc & _ & _ & Hh).
    exists wc. split; apply Hh; vm_compute; reflexivity.
  - pose proof (dns_main_typed ["dns-monitor"; String "255" "=10.0.0.1"] [([(String "255" "", IPv4 10 0 0 1)], true)] (StdError "closed")
      dns_world eq_refl (toy_typed _ _)) as H.
    assert (Ea : parseArgs ["dns-monitor"; String "255" "=10.0.0.1"] = Ok {[String "255" "" := IPv4 10 0 0 1]}) by (vm_compute; reflexivity).
    rewrite Ea in H. assert (Et : all_text {[String "255" "" := IPv4 10 0 0 1]} = false) by (vm_compute; reflexivity).
    rewrite Et in H. apply H; [|discriminate]. apply Forall_singleton. by rewrite map_to_list_singleton.
Defined.
End SampleDns.
