(* ===== verification/Flannel.v ===== *)
(** * The flannel monitors: the pods that they look at, and the reflector

    [flannel-monitor/common]: the running pods of an application, matched to the nodes of the
    cluster. [flannel-monitor/reflector]: the server that every node answers pings with, once
    it has found that its address is its own. *)

From S2P Require Import Prelude GoStrings GoNet GoOS Exits GoErrors GoHTTP.
#[local] Open Scope Z_scope.
#[export] Set Default Goal Selector "!".

(** ** The API of kubernetes *)

Record NodeAddress := mkAddress { addr_Type : string; addr_Address : string }.
Record Node := mkNode { node_Name : string; Addresses : list NodeAddress }.
Record Pod := mkPod { pod_Name : string; Phase : string; HostIP : string; PodIP : string }.
Definition NodeInternalIP : string := "InternalIP".

(** [k8s.io/client-go] and the cluster behind it, as far as it is read. *)
Class KubeReader (X : Type) := {
  rest_Config : Type;
  Clientset : Type;
  InClusterConfig : M (World X) (result rest_Config);
  NewForConfigOrDie : rest_Config → outcome Clientset;
  Nodes_List : Clientset → M (World X) (result (list Node));
  Pods_List : Clientset → string → string → M (World X) (result (list Pod));
  Pods_Get : Clientset → string → string → M (World X) (result Pod)
}.

(** ** common *)

(** The loop over the addresses of a node. *)
Fixpoint node_ip (name nodeIP : string) (addrs : list NodeAddress) : result string :=
  match addrs with
  | [] => if bool_decide (nodeIP = "") then Err (ErrorString ("could not get IP for node: " +:+ name)) else Ok nodeIP
  | addr :: addrs =>
      if bool_decide (addr_Type addr = NodeInternalIP) then
        if bool_decide (nodeIP ≠ "" ∧ nodeIP ≠ addr_Address addr)
        then Err (ErrorString ("got multiple IPs for node: " +:+ name))
        else node_ip name (addr_Address addr) addrs
      else node_ip name nodeIP addrs
  end.
Definition item_ips (items : list Node) : result (list string) :=
  fold_result (λ ip_list item, ip ← node_ip (node_Name item) "" (Addresses item); Ok (ip_list ++ [ip])) [] items.

(** The pods that run, by their addresses. *)
Definition add_pod (m : gmap string string) (item : Pod) : result (gmap string string) :=
  if bool_decide (Phase item ≠ "Running") then Ok m
  else match m !! PodIP item with
       | Some _ => Err (ErrorString ("duplicate pod for podIP: " +:+ pod_Name item +:+ " for " +:+ PodIP item))
       | None => Ok (<[PodIP item := HostIP item]> m)
       end.
Definition running_pods (items : list Pod) : result (gmap string string) := fold_result add_pod ∅ items.

(** The hosts of the pods, over the map in the order of a [range]. *)
Definition add_host (acc : bool * gmap string string) (p : string * string) : bool * gmap string string :=
  let '(dup, m) := acc in
  (if bool_decide (is_Some (m !! p.2)) then true else dup, <[p.2 := p.1]> m).
Definition match_hosts (pods : list (string * string)) : bool * gmap string string := foldl add_host (false, ∅) pods.
Definition missing_nodes (m : gmap string string) (node_ips : list string) : list string :=
  filter (λ ip, m !! ip = None) node_ips.

(** The order of a [range] over a map from strings to strings. *)
Definition range_order : Type := gmap string string → list (string * string).
Definition ranges (order : range_order) : Prop := ∀ m, order m ≡ₚ map_to_list m.

Section common.
Context {X : Type} {kube : KubeReader X}.
Abbreviation MW := (M (World X)).

Definition ListNodeIPs (cs : Clientset) : MW (result (list string)) :=
  items ←? Nodes_List cs;
  mret (item_ips items).

Definition ListRunningAppPods (cs : Clientset) (namespace app : string) : MW (result (gmap string string)) :=
  items ←? Pods_List cs namespace ("app=" +:+ app);
  mret (running_pods items).

Definition ListAndMatchRunningAppPodsToNodes (order : range_order) (cs : Clientset) (namespace app : string)
    : MW (result (list string * bool * gmap string string)) :=
  node_ips ←? ListNodeIPs cs;
  mapPodIPToHostIP ←? ListRunningAppPods cs namespace app;
  let '(has_any_duplicates, mapHostIPToPodIP) := match_hosts (order mapPodIPToHostIP) in
  ok (missing_nodes mapHostIPToPodIP node_ips, has_any_duplicates, mapHostIPToPodIP).
End common.

(** ** reflector *)

(** The interfaces of the machine, with the addresses of each. *)
Class Interfaces (X : Type) := {
  net_Interfaces : M (World X) (result (list (result (list IP))))
}.

Section reflector.
Context {X : Type} {kube : KubeReader X} {ifaces : Interfaces X} {out : HasWriter X}.
Abbreviation MW := (M (World X)).

(** The addresses of an interface: at most one in the network, over all of them. *)
Fixpoint scan_addrs (network : IPNet) (found : option IP) (addrs : list IP) : result (option IP) :=
  match addrs with
  | [] => Ok found
  | ip :: addrs =>
      if Contains_IP network ip then
        match found with
        | Some first => Err (ErrorString ("multiple IPs found that match network " +:+ IPNet_String network +:+ ": " +:+
            IP_String first +:+ ", " +:+ IP_String ip))
        | None => scan_addrs network (Some ip) addrs
        end
      else scan_addrs network found addrs
  end.
Definition scan_iface (network : IPNet) (found : option IP) (iface : result (list IP)) : result (option IP) :=
  addrs ← iface; scan_addrs network found addrs.
Definition getIP (network : IPNet) : MW (result IP) :=
  interfaces ←? net_Interfaces;
  mret (found ← fold_result (scan_iface network) None interfaces;
        match found with
        | None => Err (ErrorString ("could not find matching local IP for network " +:+ IPNet_String network))
        | Some ip => Ok ip
        end).

Definition reflector_handler (request : Request) : MW unit :=
  if bool_decide (URL_Path request = "/ping") then _ ← writer_Write "PONG"; mret tt
  else http_Error "not found" 404.

(** The program: [onstop] is the error with which the server ends. The third variable is read
    but not tested: the test is that of the second one, again. *)
Definition reflector_main (onstop : error) : MW unit :=
  config ← or_fatal InClusterConfig;
  clientset ← liftO (NewForConfigOrDie config);
  namespace ← os_Getenv "POD_NAMESPACE";
  if bool_decide (namespace = "") then logger_Fatal "no namespace found in POD_NAMESPACE" else
  name ← os_Getenv "POD_NAME";
  if bool_decide (name = "") then logger_Fatal "no name found in POD_NAME" else
  network_raw ← os_Getenv "FLANNEL_NETWORK";
  if bool_decide (name = "") then logger_Fatal "no network found in FLANNEL_NETWORK" else
  cidr ← or_fatal (mret (ParseCIDR network_raw));
  let network := cidr.2 in
  pod ← Pods_Get clientset namespace name;
  match pod with
  | Err err => logger_Fatal ("cannot get info for current reflector pod: " +:+ Error err)
  | Ok pod =>
      match ParseIP (PodIP pod) with
      | None => logger_Fatal "invalid pod IP"
      | Some podIP =>
          if negb (Contains_IP network podIP) then logger_Fatal "pod IP not in expected network" else
          localIP ← getIP network;
          match localIP with
          | Err _ => logger_Fatal "could not get local IP"
          | Ok localIP =>
              if negb (IP_Equal localIP podIP) then logger_Fatal "discovered IP mismatch"
              else logger_Fatal (Error onstop)
          end
      end
  end.
End reflector.

(** ** What is matched *)

Definition running (items : list Pod) : list Pod := filter (λ p, Phase p = "Running") items.
Definition internal (n : Node) : list string :=
  addr_Address <$> filter (λ a, addr_Type a = NodeInternalIP) (Addresses n).
(** The only internal address of a node. (Empty addresses before it do not count.) *)
Definition internal_ip (n : Node) (ip : string) : Prop :=
  ip ≠ "" ∧ ∃ k j, internal n = replicate k "" ++ replicate (S j) ip.

Lemma node_ip_spec name nodeIP addrs ip :
  node_ip name nodeIP addrs = Ok ip ↔ ip ≠ "" ∧
    if bool_decide (nodeIP = "")
    then ∃ k j, addr_Address <$> filter (λ a, addr_Type a = NodeInternalIP) addrs = replicate k "" ++ replicate (S j) ip
    else ip = nodeIP ∧ ∃ j, addr_Address <$> filter (λ a, addr_Type a = NodeInternalIP) addrs = replicate j ip.
Proof.
  revert nodeIP. induction addrs as [|a addrs IH]; intros nodeIP; cbn [node_ip].
  - case_bool_decide as Hn; [|split; [intros [= ->]; split_and!; [done|done|by exists O]|by intros (_ & -> & _)]].
    split; [done|]. intros (_ & k & j & E). destruct k; done.
  - rewrite filter_cons. destruct (decide (addr_Type a = NodeInternalIP)) as [Ha|Ha].
    2: { rewrite bool_decide_false by done. apply IH. }
    rewrite (bool_decide_true _ Ha), fmap_cons. set (l := addr_Address <$> filter _ addrs) in *.
    destruct (decide (nodeIP = "")) as [->|Hn].
    + rewrite bool_decide_false by naive_solver. rewrite (bool_decide_true ("" = "")) by done. rewrite IH.
      apply and_iff_l. intros Hip. case_bool_decide as Hb.
      * rewrite Hb. split; intros (k & j & E); [exists (S k), j; by rewrite E|].
        destruct k; simpl in *; [by injection E as <- _|]. injection E as E. by exists k, j.
      * split; [intros (-> & j & ->); by exists O, j|]. intros (k & j & E). destruct k; simpl in *; injection E as E1 E; [|congruence].
        split; [by rewrite E1|]. by exists j.
    + rewrite (bool_decide_false (nodeIP = "")) by done. case_bool_decide as Hb.
      * split; [done|]. intros (_ & -> & j & E). destruct j; [done|]. injection E as E _. naive_solver.
      * assert (nodeIP = addr_Address a) as <- by (destruct (decide (nodeIP = addr_Address a)); naive_solver).
        rewrite IH, bool_decide_false by done. apply and_iff_l. intros _.
        split; intros (-> & j & E); (split; [done|]); [exists (S j); by rewrite E|]. destruct j; [done|].
        injection E as E. by exists j.
Qed.

Lemma item_ips_from nodes : ∀ acc ips,
  fold_result (λ ip_list item, ip ← node_ip (node_Name item) "" (Addresses item); Ok (ip_list ++ [ip])) acc nodes = Ok ips ↔
  ∃ l, ips = acc ++ l ∧ Forall2 internal_ip nodes l.
Proof.
  assert (Hip : ∀ n ip, node_ip (node_Name n) "" (Addresses n) = Ok ip ↔ internal_ip n ip) by (intros; apply node_ip_spec).
  induction nodes as [|n nodes IH]; intros acc ips; simpl.
  - split; [intros [= ->]; exists []; split; [by rewrite app_nil_r|constructor]|].
    intros (l & -> & Hl). inversion Hl. by rewrite app_nil_r.
  - transitivity (∃ ip, node_ip (node_Name n) "" (Addresses n) = Ok ip ∧
      fold_result (λ ip_list item, ip ← node_ip (node_Name item) "" (Addresses item); Ok (ip_list ++ [ip])) (acc ++ [ip]) nodes = Ok ips).
    { destruct (node_ip (node_Name n) "" (Addresses n)) as [ip|e]; simpl; [naive_solver|]. split; [done|]. by intros (? & ? & _). }
    setoid_rewrite Hip. setoid_rewrite IH. split.
    + intros (ip & Hn & l & -> & Hl). exists (ip :: l). rewrite <- app_assoc. split; [done|by constructor].
    + intros (l & -> & Hl). inversion Hl as [|? ip ? l' Hn Hl']; subst. exists ip. split; [done|]. exists l'.
      by rewrite <- app_assoc.
Qed.
Lemma item_ips_spec nodes ips : item_ips nodes = Ok ips ↔ Forall2 internal_ip nodes ips.
Proof. unfold item_ips. rewrite item_ips_from. simpl. split; [by intros (l & -> & ?)|by exists ips]. Qed.

Definition pod_entry (p : Pod) : string * string := (PodIP p, HostIP p).
Lemma add_pod_skips m p : Phase p ≠ "Running" → add_pod m p = Ok m.
Proof. intros Hp. unfold add_pod. by rewrite bool_decide_true. Qed.
Lemma running_from pods : ∀ m m',
  fold_result add_pod m pods = Ok m' ↔
  NoDup (PodIP <$> running pods) ∧ (∀ p, p ∈ running pods → m !! PodIP p = None) ∧
  m' = list_to_map (map pod_entry (running pods)) ∪ m.
Proof.
  induction pods as [|p pods IH]; intros m m'; [|unfold running; rewrite filter_cons; fold (running pods)].
  - unfold running. simpl. rewrite (left_id_L ∅ (∪)). split; [intros [= <-]|by intros (_ & _ & ->)].
    split_and!; [constructor|by intros ? ?%elem_of_nil|done].
  - cbn [fold_result]. destruct (decide (Phase p = "Running")) as [Hp|Hp].
    2: { rewrite (add_pod_skips m p Hp). apply IH. }
    rewrite fmap_cons. cbn [map list_to_map foldr]. unfold mbind, result_bind, add_pod at 1. rewrite bool_decide_false by tauto.
    destruct (m !! PodIP p) as [h|] eqn:Hm.
    { split; [done|]. intros (_ & Hd & _). specialize (Hd p). rewrite Hm in Hd. by discriminate Hd; left. }
    rewrite IH. split.
    + intros (Hnd & Hd & ->).
      assert (Hn : PodIP p ∉ PodIP <$> running pods).
      { intros (q & Eq & Hq)%list_elem_of_fmap. specialize (Hd q Hq). rewrite <- Eq in Hd.
        apply lookup_insert_None in Hd. naive_solver. }
      split_and!; [by apply NoDup_cons| |].
      * intros q [->|Hq]%elem_of_cons; [done|]. specialize (Hd q Hq). by apply lookup_insert_None in Hd as [? _].
      * simpl. rewrite <- insert_union_l, insert_union_r; [done|]. apply not_elem_of_list_to_map_1.
        rewrite <- list_fmap_compose. done.
    + intros ([Hn Hnd]%NoDup_cons & Hd & ->). split_and!; [done| |].
      * intros q Hq. rewrite lookup_insert_ne; [apply Hd; by right|]. intros E. apply Hn. rewrite E. by apply list_elem_of_fmap_2.
      * simpl. rewrite <- insert_union_l, insert_union_r; [done|]. apply not_elem_of_list_to_map_1.
        rewrite <- list_fmap_compose. done.
Qed.
Lemma running_pods_spec pods m :
  running_pods pods = Ok m ↔ NoDup (PodIP <$> running pods) ∧ m = list_to_map (map pod_entry (running pods)).
Proof.
  unfold running_pods. rewrite running_from, (right_id_L ∅ (∪)). split; [by intros (? & _ & ?)|].
  intros [? ->]. split_and!; [done|by intros; apply lookup_empty|done].
Qed.

Lemma match_hosts_from pods : ∀ dup m dup' m',
  foldl add_host (dup, m) pods = (dup', m') →
  (∀ h, is_Some (m' !! h) ↔ is_Some (m !! h) ∨ h ∈ pods.*2) ∧
  (∀ h p, m' !! h = Some p → m !! h = Some p ∨ (p, h) ∈ pods) ∧
  (dup' = true ↔ dup = true ∨ ¬ NoDup pods.*2 ∨ ∃ h, h ∈ pods.*2 ∧ is_Some (m !! h)).
Proof.
  induction pods as [|[p h] pods IH]; intros dup m dup' m'; simpl.
  - intros [= <- <-]. split_and!; [set_solver|auto|]. split; [auto|]. intros [?|[Hn|(h & Hh & _)]]; [done| |set_solver].
    destruct Hn. constructor.
  - intros H. apply IH in H as (H1 & H2 & H3). split_and!.
    + intros h'. rewrite H1. destruct (decide (h' = h)) as [->|Hne].
      * rewrite lookup_insert_eq. split; [|by left; eexists]. intros _. right. by left.
      * rewrite lookup_insert_ne by done. rewrite elem_of_cons. naive_solver.
    + intros h' p' Hm. apply H2 in Hm as [Hm|Hm]; [|by right; right].
      apply lookup_insert_Some in Hm as [[-> ->]|[_ Hm]]; [right; by left|by left].
    + rewrite H3, NoDup_cons. case_bool_decide as Hh.
      * split; [|auto]. intros _. right. right. exists h. split; [by left|done].
      * assert (Hk : (∃ h', h' ∈ pods.*2 ∧ is_Some (<[h:=p]> m !! h')) ↔ h ∈ pods.*2 ∨ ∃ h', h' ∈ pods.*2 ∧ is_Some (m !! h')).
        { split.
          - intros (h' & Hin & Hs). destruct (decide (h' = h)) as [->|Hne]; [by left|]. right. exists h'.
            by rewrite lookup_insert_ne in Hs.
          - intros [Hin|(h' & Hin & Hs)]; [exists h|exists h']; (split; [done|]); [by rewrite lookup_insert_eq|].
            rewrite lookup_insert_ne; [done|]. by intros <-. }
        rewrite Hk. split.
        -- intros [?|[?|[?|(h' & Hin & Hs)]]]; [by left|right; left; tauto|right; left; tauto|].
           right. right. exists h'. split; [by right|done].
        -- intros [?|[Hn|(h' & [->|Hin]%elem_of_cons & Hs)]]; [by left| |done|].
           ++ destruct (decide (h ∈ pods.*2)); [auto|]. right. left. tauto.
           ++ right. right. right. by exists h'.
Qed.

Section matched.
Context {X : Type} {kube : KubeReader X}.
Implicit Types w : World X.

(** What becomes of the nodes and the pods that the cluster has. *)
Definition matched (nodes : list Node) (pods : list Pod) (r : list string * bool * gmap string string) : Prop :=
  let '(not_found, dup, m) := r in
  ∃ ips, Forall2 internal_ip nodes ips ∧ NoDup (PodIP <$> running pods) ∧
    not_found = filter (λ ip, ip ∉ HostIP <$> running pods) ips ∧
    (dup = true ↔ ¬ NoDup (HostIP <$> running pods)) ∧
    (∀ h, is_Some (m !! h) ↔ h ∈ HostIP <$> running pods) ∧
    (∀ h p, m !! h = Some p → ∃ pod, pod ∈ running pods ∧ HostIP pod = h ∧ PodIP pod = p).

Lemma match_all order nodes pods ips m :
  ranges order → item_ips nodes = Ok ips → running_pods pods = Ok m →
  let '(dup, hosts) := match_hosts (order m) in matched nodes pods (missing_nodes hosts ips, dup, hosts).
Proof.
  intros Ho Hips%item_ips_spec [Hnd ->]%running_pods_spec. destruct (match_hosts _) as [dup hosts] eqn:E.
  assert (Hfst : (map pod_entry (running pods)).*1 = PodIP <$> running pods) by (by rewrite <- list_fmap_compose).
  assert (Hsnd : (map pod_entry (running pods)).*2 = HostIP <$> running pods) by (by rewrite <- list_fmap_compose).
  assert (Hp : order (list_to_map (map pod_entry (running pods))) ≡ₚ map pod_entry (running pods)).
  { rewrite (Ho _). apply map_to_list_to_map. by rewrite Hfst. }
  apply match_hosts_from in E as (H1 & H2 & H3). rewrite Hp, Hsnd in H3.
  assert (H1' : ∀ h, is_Some (hosts !! h) ↔ h ∈ HostIP <$> running pods).
  { intros h. rewrite H1, Hp, Hsnd, lookup_empty. split; [by intros [[]|]|by right]. }
  exists ips. split_and!; [done|done| | |done|].
  - unfold missing_nodes. apply list_filter_iff. intros ip. rewrite eq_None_not_Some, H1'. done.
  - rewrite H3. setoid_rewrite lookup_empty. split; [|by auto]. intros [?|[?|(h & _ & [])]]; done.
  - intros h p [?|Hin]%H2; [by rewrite lookup_empty in *|]. rewrite Hp in Hin.
    apply list_elem_of_fmap in Hin as (pod & Epod & Hin). injection Epod as -> ->. by exists pod.
Qed.

(** The functions that the matching is made of, when it succeeds. *)
Lemma ListAndMatch_Ok order cs namespace app w not_found dup m w' :
  ranges order →
  ListAndMatchRunningAppPodsToNodes order cs namespace app w = (Return (Ok (not_found, dup, m)), w') →
  ∃ nodes pods w1, Nodes_List cs w = (Return (Ok nodes), w1) ∧
    Pods_List cs namespace ("app=" +:+ app) w1 = (Return (Ok pods), w') ∧ matched nodes pods (not_found, dup, m).
Proof.
  intros Ho H. unfold ListAndMatchRunningAppPodsToNodes, ListNodeIPs, ListRunningAppPods in H.
  apply try_bind_Ok_inv in H as (ips & w1 & H1 & H).
  apply try_bind_Ok_inv in H1 as (nodes & w1' & En & H1). injection H1 as Ei <-.
  apply try_bind_Ok_inv in H as (pm & w2 & H2 & H).
  apply try_bind_Ok_inv in H2 as (pods & w2' & Ep & H2). injection H2 as Em <-.
  pose proof (match_all order nodes pods ips pm Ho Ei Em) as Hall.
  destruct (match_hosts (order pm)) as [dup' hosts]. injection H as <- <- <- <-. by exists nodes, pods, w1'.
Qed.

(** C25: The pods of an application matched to the nodes. It succeeds exactly when the cluster
    answers, every node has one internal address, and no two running pods have the same
    address; then, in whatever order the map is gone over, the nodes given are those without a
    running pod, duplicates are reported exactly when two running pods share a host, and every
    host of a running pod has one of its pods. *)
Theorem ListAndMatch_spec order cs namespace app w r w' :
  ranges order → ListAndMatchRunningAppPodsToNodes order cs namespace app w = (Return r, w') →
  match r with
  | Ok res => ∃ nodes pods w1, Nodes_List cs w = (Return (Ok nodes), w1) ∧
      Pods_List cs namespace ("app=" +:+ app) w1 = (Return (Ok pods), w') ∧ matched nodes pods res
  | Err err =>
      Nodes_List cs w = (Return (Err err), w') ∨
      ∃ nodes w1, Nodes_List cs w = (Return (Ok nodes), w1) ∧
        ((w' = w1 ∧ ¬ ∃ ips, Forall2 internal_ip nodes ips) ∨
         Pods_List cs namespace ("app=" +:+ app) w1 = (Return (Err err), w') ∨
         ∃ pods, Pods_List cs namespace ("app=" +:+ app) w1 = (Return (Ok pods), w') ∧ ¬ NoDup (PodIP <$> running pods))
  end.
Proof.
  intros Ho H. destruct r as [[[not_found dup] m]|err]; [by apply (ListAndMatch_Ok order cs namespace app)|].
  unfold ListAndMatchRunningAppPodsToNodes, ListNodeIPs, ListRunningAppPods in H.
  apply bind_inv in H as (ri & wi & E1 & H). apply bind_inv in E1 as (rn & w1 & En & E1).
  destruct rn as [nodes|e]; [|injection E1 as <- <-; injection H as -> <-; by left].
  injection E1 as <- <-. right. exists nodes, w1. split; [done|]. destruct (item_ips nodes) as [ips|e] eqn:Eips.
  2: { injection H as -> <-. left. split; [done|]. intros (ips & Hips%item_ips_spec). congruence. }
  right. apply bind_inv in H as (rp & wp & E2 & H). apply bind_inv in E2 as (rpods & w2 & Ep & E2).
  destruct rpods as [pods|e]; [|injection E2 as <- <-; injection H as -> <-; by left].
  injection E2 as <- <-. destruct (running_pods pods) as [m|e] eqn:Em; [by destruct (match_hosts _)|].
  injection H as -> <-. right. exists pods. split; [done|].
  intros Hnd. assert (Hm := proj2 (running_pods_spec pods _) (conj Hnd eq_refl)). congruence.
Qed.
End matched.

(** ** What the reflector answers for *)

Section reflected.
Context {X : Type} {kube : KubeReader X} {ifaces : Interfaces X} {out : HasWriter X}.
Implicit Types w : World X.

Lemma scan_addrs_Ok network addrs : ∀ found r,
  scan_addrs network found addrs = Ok r ↔
  match found with
  | Some ip => r = Some ip ∧ filter (λ a, Contains_IP network a = true) addrs = []
  | None => filter (λ a, Contains_IP network a = true) addrs = option_list r
  end.
Proof.
  induction addrs as [|a addrs IH]; intros found r; cbn [scan_addrs].
  - destruct found; [naive_solver|]. split; [by intros [= <-]|]. by destruct r.
  - rewrite filter_cons. destruct (Contains_IP network a) eqn:Ha.
    + rewrite decide_True by done. destruct found as [ip|]; [split; [done|by intros [_ ?]]|]. rewrite IH.
      destruct r as [ip|]; simpl; split; [intros [[= ->] ->]; done|by intros [= -> ->]|by intros [? ?]|done].
    + rewrite decide_False by congruence. apply IH.
Qed.
Lemma scan_ifaces_Ok network (interfaces : list (result (list IP))) : ∀ found r,
  fold_result (scan_iface network) found interfaces = Ok r ↔
  ∃ addrs, interfaces = map Ok addrs ∧
  match found with
  | Some ip => r = Some ip ∧ filter (λ a, Contains_IP network a = true) (mjoin addrs) = []
  | None => filter (λ a, Contains_IP network a = true) (mjoin addrs) = option_list r
  end.
Proof.
  induction interfaces as [|iface interfaces IH]; intros found r; simpl.
  - split.
    + intros [= <-]. exists []. by destruct found.
    + intros ([|] & E & H); [|done]. destruct found; [by destruct H as [-> _]|]. by destruct r.
  - transitivity (∃ found', scan_iface network found iface = Ok found' ∧ fold_result (scan_iface network) found' interfaces = Ok r).
    { destruct (scan_iface network found iface) as [f|e]; simpl; [naive_solver|]. split; [done|]. by intros (? & ? & _). }
    setoid_rewrite IH. unfold scan_iface. destruct iface as [addrs|e]; simpl.
    2: { split; [by intros (? & ? & _)|]. by intros ([|] & E & _). }
    setoid_rewrite scan_addrs_Ok. split.
    + intros (found' & Hf & addrs' & -> & H). exists (addrs :: addrs'). split; [done|]. simpl. rewrite filter_app.
      destruct found as [ip|].
      * destruct Hf as [-> ->]. done.
      * rewrite Hf. destruct found' as [ip|]; [destruct H as [-> ->]; done|done].
    + intros ([|addrs0 addrs'] & E & H); [done|]. injection E as <- ->. simpl in H. rewrite filter_app in H.
      destruct found as [ip|].
      * destruct H as [-> [H1 H2]%app_eq_nil]. exists (Some ip). split; [done|]. by exists addrs'.
      * destruct (filter _ addrs) as [|ip [|]] eqn:Ea; simpl in H.
        -- exists None. split; [done|]. by exists addrs'.
        -- destruct r as [ip'|]; [|done]. injection H as -> H. exists (Some ip'). split; [done|]. by exists addrs'.
        -- by destruct r as [ip'|]; [injection H|].
Qed.

(** The address found is the only one of the machine in the network. *)
Lemma getIP_Ok network ip w w' :
  getIP network w = (Return (Ok ip), w') ↔
  ∃ addrs, net_Interfaces w = (Return (Ok (map Ok addrs)), w') ∧
    filter (λ a, Contains_IP network a = true) (mjoin addrs) = [ip].
Proof.
  split.
  - intros (interfaces & w1 & E & H)%try_bind_Ok_inv. injection H as H <-.
    destruct (fold_result _ _ _) as [[ip'|]|] eqn:Ef; simpl in H; [|done..]. injection H as ->.
    apply scan_ifaces_Ok in Ef as (addrs & -> & Hf). by exists addrs.
  - intros (addrs & E & Hf). unfold getIP. rewrite (try_bind_Ok _ _ _ _ _ E). unfold mret, M_ret.
    assert (Ef := proj2 (scan_ifaces_Ok network (map Ok addrs) None (Some ip)) (ex_intro _ addrs (conj eq_refl Hf))).
    by rewrite Ef.
Qed.
End reflected.
