(* ===== verification/FlannelMonitor.v ===== *)
(** * The flannel monitors: the collector and the pings

    [flannel-monitor/monitor]: on every node, a loop that pings the reflectors of the nodes.
    [flannel-monitor/collector]: a loop that collects what these monitors measured, and says
    which of them it could reach. *)

From S2P Require Import Prelude GoStrings GoOS Exits GoErrors GoJSON JsonDecode CertUtil GoTime Prom Flannel.
#[local] Open Scope Z_scope.
#[export] Set Default Goal Selector "!".

(** The cluster and the network do not touch the metrics, and always answer in the end: the
    clients have timeouts. What the API gives is UTF-8, as protocol buffers are. *)
Class QuietNet (X : Type) `{HasMetrics X} `{!KubeReader X} `{!HttpGet X} := {
  Nodes_List_quiet cs : quiet (Nodes_List cs);
  Pods_List_quiet cs namespace selector : quiet (Pods_List cs namespace selector);
  Pods_Get_quiet cs namespace name : quiet (Pods_Get cs namespace name);
  http_Get_quiet url : quiet (http_Get url);
  Nodes_List_utf8 cs w nodes w' : Nodes_List cs w = (Return (Ok nodes), w') →
    Forall (λ n, Forall (λ a, valid_utf8 (addr_Address a) = true) (Addresses n)) nodes;
  Pods_List_utf8 cs namespace selector w pods w' : Pods_List cs namespace selector w = (Return (Ok pods), w') →
    Forall (λ p, valid_utf8 (HostIP p) = true) pods
}.

(** ** collector *)

(** A component that keeps the metrics collected from elsewhere. *)
Class HasAdditional (X : Type) `{HasMetrics X} := {
  additional_metrics : X → list MetricFamily;
  set_additional : list MetricFamily → X → X;
  additional_set l x : additional_metrics (set_additional l x) = l;
  metrics_set_additional l x : metrics (set_additional l x) = metrics x;
  additional_set_metrics m x : additional_metrics (set_metrics m x) = additional_metrics x
}.

Section collector.
Context {prom : Prometheus} {X : Type} {mets : HasMetrics X} {kube : KubeReader X} {net : HttpGet X}
  {parser : TextParser} {more : HasAdditional X}.
Abbreviation MW := (M (World X)).

Definition collectCheck : Metric := mkMetric "flannel" "collect_enum_check"
  "Check for whether the flannel-monitor collector can enumerate the monitor containers" None [].
Definition collector_dupCheck : Metric := mkMetric "flannel" "collect_enum_dup_check"
  "Check for whether the flannel-monitor collector successfully found no duplicate reflectors" None [].
Definition scrapeCheck : Metric := mkMetric "flannel" "collect_check"
  "Check for whether the flannel-monitor collector can scrape the monitor containers" None ["monitor_hostip"].
Definition hostip_labels (ip : string) : Labels := {[ "monitor_hostip" := ip ]}.

(** The order of a [range] over the families parsed. *)
Definition family_order : Type := gmap string MetricFamily → list (string * MetricFamily).
(** The orders of the ranges of one cycle. *)
Record collector_orders := mkOrders { over_pods : range_order; over_hosts : range_order; over_families : family_order }.

(** A round of the loop over the hosts: the families collected so far, and with those of the host. *)
Definition scrape (order : family_order) (collected : list MetricFamily) (p : string * string) : MW (list MetricFamily) :=
  let '(hostIP, podIP) := p in
  resp ← http_Get ("http://" +:+ podIP +:+ "/metrics");
  r ← match resp with
      | Err err => _ ← log_Print ("failed to fetch metrics from " +:+ podIP +:+ ": " +:+ Error err); mret (zero, collected)
      | Ok body =>
          match TextToMetricFamilies body with
          | Err err => _ ← log_Print ("failed to parse metrics from " +:+ podIP +:+ ": " +:+ Error err); mret (zero, collected)
          | Ok families => mret (one, collected ++ (order families).*2)
          end
      end;
  c ← With scrapeCheck (hostip_labels hostIP);
  _ ← Set_ c r.1;
  mret r.2.

Definition put_additional (l : list MetricFamily) : MW unit := modify (on_comp (set_additional l)).

Definition collector_cycle (cs : Clientset) (namespace : string) (orders : collector_orders) : MW unit :=
  r ← ListAndMatchRunningAppPodsToNodes (over_pods orders) cs namespace "flannel-monitor";
  match r with
  | Err err =>
      _ ← Reset scrapeCheck;
      _ ← put_additional [];
      _ ← Gauge_Set collectCheck zero;
      _ ← Gauge_Set collector_dupCheck zero;
      log_Print ("could not fetch list of flannel-monitor apps: " +:+ Error err)
  | Ok (podlessNodeIPs, anyDuplicateNodes, mapHostIPToPodIP) =>
      _ ← Gauge_Set collector_dupCheck (if (anyDuplicateNodes : bool) then zero else one);
      _ ← for_all (λ nodeIP, c ← With scrapeCheck (hostip_labels nodeIP); Set_ c zero) podlessNodeIPs;
      collected ← fold_all (scrape (over_families orders)) [] (over_hosts orders mapHostIPToPodIP);
      _ ← Gauge_Set collectCheck one;
      put_additional collected
  end.

(** [loop], for its first rounds. *)
Definition collector_loop (cs : Clientset) (namespace : string) (rounds : list (collector_orders * bool)) : MW unit :=
  monitor_loop (collector_cycle cs namespace) rounds.

(** What is served: the metrics of the collector, and those collected. *)
Definition collector_gather : MW (result (list MetricFamily)) :=
  adl ← gets (λ w : World X, additional_metrics (comp w));
  gathered ←? Gather;
  ok (gathered ++ adl).

(** The start of the two programs. *)
Definition cluster_client : MW Clientset :=
  config ← or_fatal InClusterConfig;
  liftO (NewForConfigOrDie config).
Definition required_env (key : string) : MW string :=
  v ← os_Getenv key;
  if bool_decide (v = "")
  then logger_Fatal ("no " +:+ (if bool_decide (key = "POD_NAME") then "name" else "namespace") +:+ " found in " +:+ key)
  else mret v.

Definition collector_main (rounds : list (collector_orders * bool)) (onstop : error) : MW unit :=
  cs ← cluster_client;
  namespace ← required_env "POD_NAMESPACE";
  _ ← MustRegister collectCheck;
  _ ← MustRegister collector_dupCheck;
  _ ← MustRegister scrapeCheck;
  _ ← log_Print "Starting metrics server on: :80";
  _ ← collector_loop cs namespace rounds;
  log_Print ("Stopped metrics server: " +:+ Error onstop).
End collector.

(** ** monitor *)

Section monitor.
Context {prom : Prometheus} {X : Type} {mets : HasMetrics X} {kube : KubeReader X} {net : HttpGet X}.
Abbreviation MW := (M (World X)).

Definition talkCheck : Metric := mkMetric "flannel" "talk_check"
  "Check for whether flannel supports container communication" None ["ping_from_host"; "ping_to_host"].
Definition flannel_monRecency : Metric := mkMetric "flannel" "monitor_recency"
  "Timestamp for the oldest currently reported metric" None ["ping_from_host"].
Definition talkTiming : Metric := mkMetric "flannel" "talk_timing" "Timing for flannel communication"
  (Some [tenths 1; tenths 2; tenths 5; float64_of 1; float64_of 2; float64_of 5; float64_of 10])
  ["ping_from_host"; "ping_to_host"].
Definition monCheck : Metric := mkMetric "flannel" "monitor_check"
  "Whether flannel was able to be monitored from this host (and, therefore, the other metrics are valid)"
  None ["ping_from_host"].
Definition monitor_dupCheck : Metric := mkMetric "flannel" "duplicate_check"
  "Whether flannel monitoring successfully found no duplicate reflectors" None ["ping_from_host"].
Definition from_labels (source : string) : Labels := {[ "ping_from_host" := source ]}.
Definition ping_labels (source target : string) : Labels :=
  <["ping_from_host" := source]> {[ "ping_to_host" := target ]}.

Definition ping (source : string) (p : string * string) : MW unit :=
  let '(hostIP, podIP) := p in
  start ← time_Now;
  resp ← http_Get ("http://" +:+ podIP +:+ "/ping");
  end_ ← time_Now;
  pass ← match resp with
         | Err err => _ ← log_Print ("failed to HTTP-ping " +:+ podIP +:+ ": " +:+ Error err); mret zero
         | Ok resp =>
             match ReadAll resp with
             | Err err =>
                 _ ← log_Print ("failed to read HTTP-ping response to " +:+ podIP +:+ ": " +:+ Error err); mret zero
             | Ok body =>
                 if bool_decide (body ≠ "PONG") then
                   _ ← log_Print ("invalid HTTP-ping response to " +:+ podIP +:+ ": '" +:+ body +:+ "'"); mret zero
                 else
                   h ← With talkTiming (ping_labels source hostIP);
                   _ ← Observe h (Seconds (time_Sub end_ start));
                   mret one
             end
         end;
  c ← With talkCheck (ping_labels source hostIP);
  Set_ c pass.

Definition monitor_cycle (cs : Clientset) (namespace source : string) (orders : range_order * range_order) : MW unit :=
  valid ← With monCheck (from_labels source);
  dupOkay ← With monitor_dupCheck (from_labels source);
  monRecencySpec ← With flannel_monRecency (from_labels source);
  r ← ListAndMatchRunningAppPodsToNodes orders.1 cs namespace "flannel-monitor-reflector";
  match r with
  | Err err =>
      _ ← Reset talkCheck;
      _ ← Reset talkTiming;
      _ ← Set_ valid zero;
      _ ← Set_ dupOkay zero;
      log_Print ("could not fetch list of flannel-monitor-reflector apps: " +:+ Error err)
  | Ok (podlessNodeIPs, anyDuplicateNodes, mapHostIPToPodIP) =>
      _ ← for_all (λ nodeIP, c ← With talkCheck (ping_labels source nodeIP); Set_ c zero) podlessNodeIPs;
      _ ← Set_ dupOkay (if (anyDuplicateNodes : bool) then zero else one);
      _ ← Set_ valid one;
      recency_timestamp ← time_Now;
      _ ← for_all (ping source) (orders.2 mapHostIPToPodIP);
      Set_ monRecencySpec (Seconds (time_Sub recency_timestamp 0))
  end.

(** [loop], for its first rounds. *)
Definition ping_loop (cs : Clientset) (namespace source : string) (rounds : list ((range_order * range_order) * bool)) : MW unit :=
  monitor_loop (monitor_cycle cs namespace source) rounds.

Definition monitor_main (rounds : list ((range_order * range_order) * bool)) (onstop : error) : MW unit :=
  cs ← cluster_client;
  namespace ← required_env "POD_NAMESPACE";
  name ← required_env "POD_NAME";
  selfpod ← Pods_Get cs namespace name;
  match selfpod with
  | Err err => logger_Fatal ("cannot get info for current reflector pod: " +:+ Error err)
  | Ok selfpod =>
      _ ← MustRegister talkCheck;
      _ ← MustRegister talkTiming;
      _ ← MustRegister monCheck;
      _ ← MustRegister flannel_monRecency;
      _ ← MustRegister monitor_dupCheck;
      _ ← log_Print "Starting metrics server on: :80";
      _ ← ping_loop cs namespace (HostIP selfpod) rounds;
      log_Print ("Stopped metrics server: " +:+ Error onstop)
  end.
End monitor.

(** ** What a cycle of the collector leaves *)

Section collected.
Context {prom : Prometheus} {X : Type} {mets : HasMetrics X} {kube : KubeReader X} {net : HttpGet X}
  {parser : TextParser} {more : HasAdditional X} {calm : QuietNet X}.
Implicit Types w : World X.

Lemma ListAndMatch_quiet order cs namespace app :
  quiet (ListAndMatchRunningAppPodsToNodes (X:=X) order cs namespace app).
Proof.
  unfold ListAndMatchRunningAppPodsToNodes, ListNodeIPs, ListRunningAppPods.
  repeat (apply quiet_try; [|intros ?]).
  - apply Nodes_List_quiet.
  - apply quiet_ret.
  - apply Pods_List_quiet.
  - apply quiet_ret.
  - destruct (match_hosts _). apply quiet_ret.
Qed.

(** What is matched are texts, and no node is both with and without a pod. *)
Lemma ListAndMatch_texts order cs namespace app w not_found dup m w' :
  ranges order →
  ListAndMatchRunningAppPodsToNodes order cs namespace app w = (Return (Ok (not_found, dup, m)), w') →
  Forall (λ h, valid_utf8 h = true) not_found ∧ map_Forall (λ h _, valid_utf8 h = true) m ∧
  ∀ h, h ∈ not_found → m !! h = None.
Proof.
  intros Ho (nodes & pods & w1 & En & Ep & ips & Hips & _ & -> & _ & Hdom & _)%ListAndMatch_Ok; [|done].
  pose proof (Nodes_List_utf8 _ _ _ _ En) as Hn. pose proof (Pods_List_utf8 _ _ _ _ _ _ Ep) as Hp. split_and!.
  - apply Forall_forall. intros h [_ Hin]%list_elem_of_filter. apply list_elem_of_lookup in Hin as [i Hi].
    destruct (Forall2_lookup_r _ _ _ _ _ Hips Hi) as (n & Hni & _ & k & j & E).
    assert (Hh : h ∈ internal n) by (rewrite E; apply elem_of_app; right; by left).
    apply list_elem_of_fmap in Hh as (a & -> & [_ Ha]%list_elem_of_filter).
    rewrite Forall_forall in Hn. apply list_elem_of_lookup_2 in Hni. specialize (Hn _ Hni). simpl in Hn.
    rewrite Forall_forall in Hn. by apply Hn.
  - intros h p Hh. assert (Hin : h ∈ HostIP <$> running pods) by (apply Hdom; by eexists).
    apply list_elem_of_fmap in Hin as (pod & -> & [_ Hpod]%list_elem_of_filter). rewrite Forall_forall in Hp. by apply Hp.
  - intros h [Hh _]%list_elem_of_filter. apply eq_None_not_Some. by rewrite Hdom.
Qed.

Definition reachable (resp : result Body) : bool :=
  match resp with Ok body => is_ok (TextToMetricFamilies body) | Err _ => false end.
Definition scrape_url (pod : string) : string := "http://" +:+ pod +:+ "/metrics".
(** The monitor of a host was asked in the state [wa], and its gauge in [w'] is one exactly when
    there was an answer that could be read. *)
Definition scraped (p : string * string) wa w' : Prop :=
  ∃ resp w2, http_Get (scrape_url p.2) wa = (Return resp, w2) ∧
    metric w' scrapeCheck (hostip_labels p.1) = Some (Value (if reachable resp then one else zero)).
(** A family that one of the hosts answered with, when the loop that began in [w0] came to it. *)
Definition answered (order : family_order) w0 (hosts : list (string * string)) (f : MetricFamily) : Prop :=
  ∃ pre p post collected wa w2 body families name, hosts = pre ++ p :: post ∧
    fold_all (scrape order) [] pre w0 = (Return collected, wa) ∧ http_Get (scrape_url p.2) wa = (Return (Ok body), w2) ∧
    TextToMetricFamilies body = Ok families ∧ families !! name = Some f.

Lemma hostip_inj h h' : hostip_labels h = hostip_labels h' → h = h'.
Proof.
  intros E. pose proof (f_equal (lookup "monitor_hostip") E) as E'. unfold hostip_labels in E'.
  rewrite !lookup_singleton_eq in E'. by injection E'.
Qed.
Lemma hostip_labelled h : valid_utf8 h = true → well_labelled scrapeCheck (hostip_labels h).
Proof. intros Hu. split; [unfold hostip_labels; rewrite dom_singleton_L; set_solver|]. by apply map_Forall_singleton. Qed.
Lemma hostip_not_empty h : hostip_labels h ≠ ∅.
Proof. intros E. pose proof (f_equal (lookup "monitor_hostip") E) as E'. unfold hostip_labels in E'. by rewrite lookup_singleton_eq in E'. Qed.

Lemma scraped_lasting : lasting (λ p : string * string, hostip_labels p.1) scraped.
Proof. intros p wa w w' (resp & w2 & E & Hm) L H. exists resp, w2. by rewrite H. Qed.

Definition families_ok (order : family_order) : Prop := ∀ m, order m ≡ₚ map_to_list m.

Lemma scrape_runs order w0 pre collected p w :
  families_ok order → fold_all (scrape order) [] pre w0 = (Return collected, w) →
  typed w → valid_utf8 p.1 = true → Forall (answered order w0 pre) collected →
  runs (scrape order collected p) w (λ l w', typed w' ∧ later w w' ∧ scraped p w w' ∧
    (∀ v l, v ∉ [scrapeCheck] ∨ l ≠ hostip_labels p.1 → metric w' v l = metric w v l) ∧
    Forall (answered order w0 (pre ++ [p])) l).
Proof.
  intros Ho E0 Ht Hu Hc. unfold scrape. destruct p as [h pod]. simpl in *.
  apply runs_bind, runs_silent; [apply http_Get_quiet|]. intros resp w1 E1 H1 L1.
  assert (Hc' : Forall (answered order w0 (pre ++ [(h, pod)])) collected).
  { eapply Forall_impl; [exact Hc|]. intros f (pre' & p & post & c & wa & w2 & body & fams & n & -> & Hf).
    exists pre', p, (post ++ [(h, pod)]), c, wa, w2, body, fams, n. split; [by rewrite <- app_assoc|done]. }
  assert (Hend : ∀ r w2, (∀ v l, metric w2 v l = metric w1 v l) → later w1 w2 →
    r.1 = (if reachable resp then one else zero) → Forall (answered order w0 (pre ++ [(h, pod)])) r.2 →
    runs (c ← With scrapeCheck (hostip_labels h); _ ← Set_ c r.1; mret r.2) w2 (λ l w', typed w' ∧ later w w' ∧
      scraped (h, pod) w w' ∧ (∀ v l, v ∉ [scrapeCheck] ∨ l ≠ hostip_labels h → metric w' v l = metric w v l) ∧
      Forall (answered order w0 (pre ++ [(h, pod)])) l)).
  { intros r w2 H2 L2 Hr Hf. assert (T2 : typed w2) by (eapply typed_same; [|exact Ht]; metrics_now).
    apply runs_bind, runs_With_typed; [by apply hostip_labelled|done|]. intros w3 O3 H3 T3.
    apply runs_bind, runs_Set_typed; [done|by apply hostip_labelled|right; by rewrite (shows_at _ _ _ _ _ H3)|done|].
    intros w4 O4 H4 T4. apply runs_ret.
    assert (L24 : later w2 w4) by (apply later_os; congruence).
    split_and!; [done|by do 2 (etrans; [eassumption|])| | |done].
    - exists resp, w1. split; [done|]. simpl. rewrite (shows_at _ _ _ _ _ H4). by rewrite Hr.
    - intros v l Hvl. assert (v ≠ scrapeCheck ∨ l ≠ hostip_labels h) by set_solver.
      by rewrite (shows_ne _ _ _ _ _ _ _ H4), (shows_ne _ _ _ _ _ _ _ H3), H2. }
  apply runs_bind. destruct resp as [body|err].
  - destruct (TextToMetricFamilies body) as [families|err] eqn:Ep.
    + apply runs_ret. apply Hend; [done|reflexivity|by simpl; rewrite Ep|]. apply Forall_app. split; [done|].
      apply Forall_forall. intros f ([n f'] & -> & Hin)%list_elem_of_fmap. rewrite (Ho families) in Hin.
      apply elem_of_map_to_list in Hin. by exists pre, (h, pod), [], collected, w, w1, body, families, n.
    + os_step. intros [] w2 _ H2 L2. apply runs_ret, Hend; [done|done|by simpl; rewrite Ep|done].
  - os_step. intros [] w2 _ H2 L2. by apply runs_ret, Hend.
Qed.

Lemma put_additional_runs l w (Q : unit → World X → Prop) :
  (∀ w', os w' = os w → (∀ v l, metric w' v l = metric w v l) → additional_metrics (comp w') = l → Q tt w') →
  runs (put_additional l) w Q.
Proof.
  intros HQ. eexists _, _. split; [done|]. apply HQ; [done| |simpl; apply additional_set].
  intros v l'. unfold metric. simpl. by rewrite metrics_set_additional.
Qed.
Lemma additional_update (f : Metrics → Metrics) : keeps (same (λ w, additional_metrics (comp w))) (update_metrics (X:=X) f).
Proof. intros w. unfold same. simpl. by rewrite additional_set_metrics. Qed.
(** The end of a cycle without a list. *)
Lemma collector_fails msg w :
  typed w →
  runs (_ ← Reset scrapeCheck; _ ← put_additional []; _ ← Gauge_Set collectCheck zero;
        _ ← Gauge_Set collector_dupCheck zero; log_Print msg) w (λ _ w', typed w' ∧
    metric w' collectCheck ∅ = Some (Value zero) ∧ metric w' collector_dupCheck ∅ = Some (Value zero) ∧
    (∀ l, metric w' scrapeCheck l = None) ∧ additional_metrics (comp w') = []).
Proof.
  intros Ht. apply runs_bind, runs_Reset. intros w1 O1 H1. apply runs_bind, put_additional_runs. intros w2 O2 H2 A2.
  assert (T2 : typed w2).
  { intros v l s. rewrite H2, H1. case_decide; [done|]. apply Ht. }
  eapply runs_mono.
  - apply (runs_and_keeps (same (λ w, additional_metrics (comp w)))
      (_ ← Gauge_Set collectCheck zero; _ ← Gauge_Set collector_dupCheck zero; log_Print msg) w2
      (λ _ w', typed w' ∧ metric w' collectCheck ∅ = Some (Value zero) ∧
         metric w' collector_dupCheck ∅ = Some (Value zero) ∧ ∀ l, metric w' scrapeCheck l = None)).
    + apply runs_bind, runs_Gauge_Set; [done|done|done|]. intros w3 O3 H3 T3.
      apply runs_bind, runs_Gauge_Set; [done|done|done|]. intros w4 O4 H4 T4. os_step. intros [] w5 _ H5 _.
      split_and!; [by eapply typed_same|metrics_now..].
    + repeat (apply keeps_bind; [exact _|apply additional_update|intros _]).
      intros w3. specialize (log_Print_os_only msg w3). unfold os_only, same. by intros ->.
  - intros [] w' [(T' & Hc & Hd & Hs) A']. split_and!; [done..|]. unfold same in A'. congruence.
Qed.

(** C19: A cycle of the collector always ends. Without a list of the monitors, nothing is said of
    any of them. Otherwise the gauge of a node is one exactly when the monitor on it was
    reached when its turn came in this cycle, and zero on the nodes without one; the families
    kept are what these monitors then answered, and the gauges say whether a host has two. What was said of a node that is
    no longer in the cluster is not taken back. *)
Theorem collector_cycle_spec cs namespace orders w :
  ranges (over_pods orders) → ranges (over_hosts orders) → families_ok (over_families orders) → typed w →
  runs (collector_cycle cs namespace orders) w (λ _ w', typed w' ∧ ∃ r w1,
    ListAndMatchRunningAppPodsToNodes (over_pods orders) cs namespace "flannel-monitor" w = (Return r, w1) ∧
    match r with
    | Err _ => metric w' collectCheck ∅ = Some (Value zero) ∧ metric w' collector_dupCheck ∅ = Some (Value zero) ∧
        (∀ l, metric w' scrapeCheck l = None) ∧ additional_metrics (comp w') = []
    | Ok (not_found, dup, m) => metric w' collectCheck ∅ = Some (Value one) ∧
        metric w' collector_dupCheck ∅ = Some (Value (if (dup : bool) then zero else one)) ∧
        (∀ h, h ∈ not_found → metric w' scrapeCheck (hostip_labels h) = Some (Value zero)) ∧
        (∃ w2 w3, Gauge_Set collector_dupCheck (if (dup : bool) then zero else one) w1 = (Return tt, w2) ∧
           for_all (λ nodeIP, c ← With scrapeCheck (hostip_labels nodeIP); Set_ c zero) not_found w2 = (Return tt, w3) ∧
           (∀ pre h pod post, over_hosts orders m = pre ++ (h, pod) :: post → ∃ collected wa,
              fold_all (scrape (over_families orders)) [] pre w3 = (Return collected, wa) ∧ scraped (h, pod) wa w') ∧
           Forall (answered (over_families orders) w3 (over_hosts orders m)) (additional_metrics (comp w'))) ∧
        ∀ l, l ∉ map hostip_labels (not_found ++ (over_hosts orders m).*1) →
          metric w' scrapeCheck l = metric w scrapeCheck l
    end).
Proof.
  intros Ho1 Ho2 Ho3 Ht. unfold collector_cycle. apply runs_bind, runs_silent; [apply ListAndMatch_quiet|].
  intros r w1 E1 H1 L1. assert (T1 : typed w1) by (by eapply typed_same).
  destruct r as [[[not_found dup] m]|err].
  2: { eapply runs_mono; [by apply collector_fails|]. intros [] w' [T' Hw']. split; [done|]. by exists (Err err), w1. }
  destruct (ListAndMatch_texts _ _ _ _ _ _ _ _ _ Ho1 E1) as (Hn & Hm & Hd).
  apply runs_bind, runs_Gauge_Set_eq; [done|done|done|]. intros w2 E2 O2 H2 T2.
  apply runs_bind. eapply runs_mono; [apply runs_recall, (runs_set_all hostip_labels); [done| |done]|].
  { eapply Forall_impl; [exact Hn|]. apply hostip_labelled. }
  intros [] w3 [(T3 & O3 & H3) E3].
  apply runs_bind. eapply runs_mono.
  { apply (runs_sweep (λ p : string * string, hostip_labels p.1) [scrapeCheck] (λ p, valid_utf8 p.1 = true) scraped
      (λ pre l, Forall (answered (over_families orders) w3 pre) l)); [apply scraped_lasting| |done| | |constructor].
    - intros pre p l w0 E0 T0 G0 K0. by apply scrape_runs.
    - rewrite <- (map_map fst hostip_labels). apply NoDup_fmap_2; [intros ??; apply hostip_inj|].
      change (map fst ?l) with l.*1. rewrite (Ho2 m). apply NoDup_fst_map_to_list.
    - rewrite (Ho2 m). apply Forall_forall. intros [h p] Hin%elem_of_map_to_list. by apply (Hm h p). }
  intros collected w4 [(T4 & L4 & S4 & F4) A4]. apply runs_bind, runs_Gauge_Set; [done|done|done|]. intros w5 O5 H5 T5.
  apply put_additional_runs. intros w6 O6 H6 A6.
  split; [by eapply typed_same|]. exists (Ok (not_found, dup, m)), w1. split; [done|].
  assert (Hfst : map (λ p : string * string, hostip_labels p.1) (over_hosts orders m) = map hostip_labels (over_hosts orders m).*1)
    by (by rewrite <- (map_map fst hostip_labels)).
  assert (Hs : ∀ l, metric w6 scrapeCheck l = metric w4 scrapeCheck l).
  { intros l. by rewrite H6, (shows_ne _ _ _ _ _ _ _ H5) by (by left). }
  split_and!.
  - rewrite H6. by apply (shows_at _ _ _ _ _ H5).
  - rewrite H6, (shows_ne _ _ _ _ _ _ _ H5), F4 by (left; set_solver). rewrite H3, decide_False by (by intros [? _]).
    by apply (shows_at _ _ _ _ _ H2).
  - intros h Hh. rewrite Hs, F4.
    + rewrite H3, decide_True; [done|]. split; [done|]. by apply list_elem_of_fmap_2.
    + right. rewrite Hfst. intros (h' & ->%hostip_inj & Hh')%list_elem_of_fmap.
      apply list_elem_of_fmap in Hh' as ([h'' p] & -> & Hin). rewrite (Ho2 m), elem_of_map_to_list in Hin.
      specialize (Hd _ Hh). simpl in Hd. congruence.
  - exists w2, w3. split_and!; [done|done| |by rewrite A6].
    intros pre h pod post El. destruct (S4 pre (h, pod) post El) as (c & wa & Ea & La & _ & Hc). exists c, wa. split; [done|].
    apply (scraped_lasting (h, pod) wa w4 w6 Hc); [apply later_os; congruence|].
    simpl. intros v. by rewrite H6, (shows_ne _ _ _ _ _ _ _ H5) by (right; apply hostip_not_empty).
  - intros l Hl. rewrite map_app in Hl. rewrite Hs, F4 by (right; rewrite Hfst; set_solver).
    rewrite H3, decide_False by set_solver. by rewrite (shows_ne _ _ _ _ _ _ _ H2), H1 by (by left).
Qed.
End collected.

(** ** What a cycle of pings leaves *)

Section pinged.
Context {prom : Prometheus} {X : Type} {mets : HasMetrics X} {kube : KubeReader X} {net : HttpGet X}
  {quietnet : QuietNet X}.
Implicit Types w : World X.

Definition pong (resp : result Body) : bool :=
  match resp with
  | Ok resp => match ReadAll resp with Ok body => bool_decide (body = "PONG") | Err _ => false end
  | Err _ => false
  end.
Definition ping_url (pod : string) : string := "http://" +:+ pod +:+ "/ping".
(** The reflector was asked in the state [wa], after the clock was read; its gauge in [w'] is one
    exactly when it answered as it should, and only then it was timed. *)
Definition pinged (source : string) (p : string * string) wa w' : Prop :=
  ∃ start w1 resp w2, time_Now wa = (Return start, w1) ∧ http_Get (ping_url p.2) w1 = (Return resp, w2) ∧
    metric w' talkCheck (ping_labels source p.1) = Some (Value (if pong resp then one else zero)) ∧
    metric w' talkTiming (ping_labels source p.1) =
      (if pong resp then Some (Observations (count (metric wa talkTiming (ping_labels source p.1)) + 1))
       else metric wa talkTiming (ping_labels source p.1)).

Lemma ping_labels_inj source h h' : ping_labels source h = ping_labels source h' → h = h'.
Proof.
  intros E. pose proof (f_equal (lookup "ping_to_host") E) as E'. unfold ping_labels in E'.
  rewrite !lookup_insert_ne, !lookup_singleton_eq in E' by done. by injection E'.
Qed.
Lemma ping_labelled v source h :
  labelNames v = ["ping_from_host"; "ping_to_host"] → valid_utf8 source = true → valid_utf8 h = true →
  well_labelled v (ping_labels source h).
Proof.
  intros Hv Hs Hh. split; [rewrite Hv; unfold ping_labels; rewrite dom_insert_L, dom_singleton_L; set_solver|].
  apply map_Forall_insert_2; [done|]. by apply map_Forall_singleton.
Qed.
Lemma from_labelled v source : labelNames v = ["ping_from_host"] → valid_utf8 source = true → well_labelled v (from_labels source).
Proof.
  intros Hv Hs. split; [rewrite Hv; unfold from_labels; rewrite dom_singleton_L; set_solver|]. by apply map_Forall_singleton.
Qed.
Lemma from_not_ping source h : from_labels source ≠ ping_labels source h.
Proof.
  intros E. pose proof (f_equal (lookup "ping_to_host") E) as E'. unfold from_labels, ping_labels in E'.
  by rewrite lookup_insert_ne, lookup_singleton_eq, lookup_singleton_ne in E' by done.
Qed.

Lemma pinged_lasting source : lasting (λ p : string * string, ping_labels source p.1) (pinged source).
Proof.
  intros p wa w w' (start & w1 & resp & w2 & E0 & E & Hm & Ht) L H. exists start, w1, resp, w2. by rewrite !H.
Qed.

Lemma ping_runs source p w :
  valid_utf8 source = true → typed w → valid_utf8 p.1 = true →
  runs (ping source p) w (λ _ w', typed w' ∧ later w w' ∧ pinged source p w w' ∧
    ∀ v l, v ∉ [talkCheck; talkTiming] ∨ l ≠ ping_labels source p.1 → metric w' v l = metric w v l).
Proof.
  intros Hs Ht Hu. unfold ping. destruct p as [h pod]. simpl in *.
  pose proof (ping_labelled talkCheck source h eq_refl Hs Hu) as Hl1.
  pose proof (ping_labelled talkTiming source h eq_refl Hs Hu) as Hl2.
  assert (Hne : talkCheck ≠ talkTiming) by done.
  os_step. intros start w1 E1 H1 L1. apply runs_bind, runs_silent; [apply http_Get_quiet|]. intros resp w2 E2 H2 L2.
  os_step. intros end_ w3 _ H3 L3. assert (T3 : typed w3) by (eapply typed_same; [|exact Ht]; metrics_now).
  assert (Hend : ∀ pass w4, typed w4 → later w3 w4 → pass = (if pong resp then one else zero) →
    (∀ v l, v ≠ talkTiming ∨ l ≠ ping_labels source h → metric w4 v l = metric w v l) →
    metric w4 talkTiming (ping_labels source h) =
      (if pong resp then Some (Observations (count (metric w talkTiming (ping_labels source h)) + 1))
       else metric w talkTiming (ping_labels source h)) →
    runs (c ← With talkCheck (ping_labels source h); Set_ c pass) w4 (λ _ w', typed w' ∧ later w w' ∧
      pinged source (h, pod) w w' ∧
      ∀ v l, v ∉ [talkCheck; talkTiming] ∨ l ≠ ping_labels source h → metric w' v l = metric w v l)).
  { intros pass w4 T4 L4 -> H4 Htime. apply runs_With_Set; [done|done|done|]. intros w5 O5 H5 T5.
    assert (L5 : later w3 w5) by (etrans; [exact L4|by apply later_os]).
    split_and!; [done|by do 3 (etrans; [eassumption|])| |].
    - exists start, w1, resp, w2. simpl. split_and!; [done|done|by apply (shows_at _ _ _ _ _ H5)|].
      by rewrite (shows_ne _ _ _ _ _ _ _ H5) by auto.
    - intros v l Hvl. assert (v ≠ talkCheck ∧ v ≠ talkTiming ∨ l ≠ ping_labels source h) by set_solver.
      rewrite (shows_ne _ _ _ _ _ _ _ H5) by naive_solver. apply H4. naive_solver. }
  assert (Hfail : ∀ msg, pong resp = false →
    runs (_ ← log_Print msg; mret zero) w3 (λ pass w4, runs (c ← With talkCheck (ping_labels source h); Set_ c pass) w4
      (λ _ w', typed w' ∧ later w w' ∧ pinged source (h, pod) w w' ∧
       ∀ v l, v ∉ [talkCheck; talkTiming] ∨ l ≠ ping_labels source h → metric w' v l = metric w v l))).
  { intros msg Hp. os_step. intros [] w4 _ H4 L4. apply runs_ret, Hend; [by eapply typed_same|done|by rewrite Hp| |].
    - metrics_now.
    - rewrite Hp. metrics_now. }
  apply runs_bind. destruct resp as [body|err]; [|by apply Hfail].
  destruct (ReadAll body) as [b|err] eqn:Eb; [|apply Hfail; unfold pong; by rewrite Eb].
  case_bool_decide as Hb; [apply Hfail; unfold pong; rewrite Eb; apply bool_decide_eq_false; naive_solver|].
  assert (Hp : pong (Ok body) = true) by (unfold pong; rewrite Eb; apply bool_decide_eq_true; destruct (decide (b = "PONG")); tauto).
  apply runs_bind, runs_With_typed; [done|done|]. intros w4 O4 H4 T4.
  apply runs_bind, runs_Observe_typed; [by eexists|done|by rewrite (shows_at _ _ _ _ _ H4)|done|].
  intros w5 n Hn O5 H5 T5. apply runs_ret, Hend; [done|apply later_os; congruence|by rewrite Hp| |].
  - intros v l Hvl. rewrite (shows_ne _ _ _ _ _ _ _ H5), (shows_ne _ _ _ _ _ _ _ H4) by done. metrics_now.
  - rewrite Hp, (shows_at _ _ _ _ _ H5). rewrite (shows_at _ _ _ _ _ H4), H3, H2, H1 in Hn.
    destruct (metric w talkTiming (ping_labels source h)) as [s|] eqn:Es; simpl in Hn; [|by injection Hn as <-].
    destruct (Ht _ _ _ Es) as [_ Hk]. destruct s; [done|]. by injection Hn as ->.
Qed.
(** The three gauges of the host of the monitor. *)
Definition host_gauges : list Metric := [monCheck; monitor_dupCheck; flannel_monRecency].

Lemma monitor_fails source msg w :
  valid_utf8 source = true → typed w → (∀ v, v ∈ host_gauges → is_Some (metric w v (from_labels source))) →
  runs (_ ← Reset talkCheck; _ ← Reset talkTiming; _ ← Set_ (monCheck, from_labels source) zero;
        _ ← Set_ (monitor_dupCheck, from_labels source) zero; log_Print msg) w (λ _ w', typed w' ∧
    metric w' monCheck (from_labels source) = Some (Value zero) ∧
    metric w' monitor_dupCheck (from_labels source) = Some (Value zero) ∧
    ∀ l, metric w' talkCheck l = None ∧ metric w' talkTiming l = None).
Proof.
  intros Hs Ht Hg. apply runs_bind, runs_Reset. intros w1 O1 H1. apply runs_bind, runs_Reset. intros w2 O2 H2.
  assert (T2 : typed w2).
  { intros v l s. rewrite H2, H1. repeat case_decide; [done|done|]. apply Ht. }
  assert (Hg2 : ∀ v, v ∈ host_gauges → is_Some (metric w2 v (from_labels source))).
  { intros v Hv. rewrite H2, H1. unfold host_gauges in *. rewrite !decide_False by set_solver. by apply Hg. }
  apply runs_bind, runs_Set_typed; [done|by apply from_labelled|right; apply Hg2; set_solver|done|]. intros w3 O3 H3 T3.
  apply runs_bind, runs_Set_typed; [done|by apply from_labelled| |done|].
  { right. rewrite (shows_ne _ _ _ _ _ _ _ H3) by (by left). apply Hg2. set_solver. }
  intros w4 O4 H4 T4. os_step. intros [] w5 _ H5 _. split_and!; [by eapply typed_same|metrics_now..|].
  intros l. rewrite !H5, !(shows_ne _ _ _ _ _ _ _ H4), !(shows_ne _ _ _ _ _ _ _ H3), !H2, !H1 by (by left).
  by rewrite (decide_True (P:=talkTiming = talkTiming)), (decide_True (P:=talkCheck = talkCheck)), decide_False by done.
Qed.

(** The children of the host that a cycle begins with. *)
Lemma host_children {A} source (k : child → child → child → M (World X) A) w (Q : A → World X → Prop) :
  valid_utf8 source = true → typed w →
  (∀ w', os w' = os w → typed w' → (∀ v, v ∈ host_gauges → is_Some (metric w' v (from_labels source))) →
    (∀ v l, v ∉ host_gauges → metric w' v l = metric w v l) →
    runs (k (monCheck, from_labels source) (monitor_dupCheck, from_labels source)
      (flannel_monRecency, from_labels source)) w' Q) →
  runs (a ← With monCheck (from_labels source); b ← With monitor_dupCheck (from_labels source);
        c ← With flannel_monRecency (from_labels source); k a b c) w Q.
Proof.
  intros Hs Ht HQ.
  apply runs_bind, runs_With_typed; [by apply from_labelled|done|]. intros w1 O1 H1 T1.
  apply runs_bind, runs_With_typed; [by apply from_labelled|done|]. intros w2 O2 H2 T2.
  apply runs_bind, runs_With_typed; [by apply from_labelled|done|]. intros w3 O3 H3 T3.
  apply HQ; [congruence|done| |].
  - intros v Hv. rewrite H3. case_decide as D3; [by eexists|]. rewrite H2. case_decide as D2; [by eexists|].
    rewrite H1. case_decide as D1; [by eexists|]. unfold host_gauges in Hv. set_solver.
  - intros v l Hv. unfold host_gauges in Hv.
    by rewrite (shows_ne _ _ _ _ _ _ _ H3), (shows_ne _ _ _ _ _ _ _ H2), (shows_ne _ _ _ _ _ _ _ H1) by set_solver.
Qed.

(** A cycle of pings always ends. Without a list of the reflectors, no measure is left and the
    gauges say so. Otherwise every host that has a reflector was pinged after the time shown,
    and its gauge is one exactly when it answered; the nodes without one have a zero. *)
Theorem monitor_cycle_spec cs namespace source orders w :
  ranges orders.1 → ranges orders.2 → valid_utf8 source = true → typed w →
  runs (monitor_cycle cs namespace source orders) w (λ _ w', typed w' ∧ ∃ w1 r w2, os w1 = os w ∧
    ListAndMatchRunningAppPodsToNodes orders.1 cs namespace "flannel-monitor-reflector" w1 = (Return r, w2) ∧
    match r with
    | Err _ => metric w' monCheck (from_labels source) = Some (Value zero) ∧
        metric w' monitor_dupCheck (from_labels source) = Some (Value zero) ∧
        ∀ l, metric w' talkCheck l = None ∧ metric w' talkTiming l = None
    | Ok (not_found, dup, m) => metric w' monCheck (from_labels source) = Some (Value one) ∧
        metric w' monitor_dupCheck (from_labels source) = Some (Value (if (dup : bool) then zero else one)) ∧
        (∀ h, h ∈ not_found → metric w' talkCheck (ping_labels source h) = Some (Value zero)) ∧
        ∃ w3, later w2 w3 ∧
          metric w' flannel_monRecency (from_labels source) = Some (Value (Seconds (time_Sub (now (os w3)) 0))) ∧
          ∀ pre h pod post, orders.2 m = pre ++ (h, pod) :: post → ∃ wa,
            for_all (ping source) pre w3 = (Return tt, wa) ∧ later w3 wa ∧ pinged source (h, pod) wa w'
    end).
Proof.
  intros Ho1 Ho2 Hs Ht. unfold monitor_cycle. apply host_children; [done|done|]. intros w1 O1 T1 G1 F1.
  apply runs_bind, runs_silent; [apply ListAndMatch_quiet|]. intros r w2 E2 H2 L2.
  assert (T2 : typed w2) by (by eapply typed_same).
  assert (G2 : ∀ v, v ∈ host_gauges → is_Some (metric w2 v (from_labels source))) by (intros v Hv; rewrite H2; auto).
  destruct r as [[[not_found dup] m]|err].
  2: { eapply runs_mono; [by apply monitor_fails|]. intros [] w' [T' Hw']. split; [done|]. by exists w1, (Err err), w2. }
  destruct (ListAndMatch_texts _ _ _ _ _ _ _ _ _ Ho1 E2) as (Hn & Hm & Hd).
  apply runs_bind. eapply runs_mono; [apply (runs_set_all (ping_labels source)); [done| |done]|].
  { eapply Forall_impl; [exact Hn|]. intros h Hh. by apply ping_labelled. }
  intros [] w3 (T3 & O3 & H3).
  assert (G3 : ∀ v, v ∈ host_gauges → is_Some (metric w3 v (from_labels source))).
  { intros v Hv. rewrite H3, decide_False; [auto|]. intros [-> _]. unfold host_gauges in Hv. set_solver. }
  apply runs_bind, runs_Set_typed; [done|by apply from_labelled|right; apply G3; unfold host_gauges; set_solver|done|].
  intros w4 O4 H4 T4. apply runs_bind, runs_Set_typed; [done|by apply from_labelled| |done|].
  { right. rewrite (shows_ne _ _ _ _ _ _ _ H4) by (by left). apply G3. unfold host_gauges. set_solver. }
  intros w5 O5 H5 T5. os_step. intros t w6 E6 H6 L6.
  assert (Et : t = now (os w6)) by (by injection E6 as <- <-). subst t.
  apply runs_bind. eapply runs_mono.
  { apply (runs_sweep_all (λ p : string * string, ping_labels source p.1) [talkCheck; talkTiming] (λ p, valid_utf8 p.1 = true)
      (pinged source)); [apply pinged_lasting| |by eapply typed_same| |].
    - intros p w0 T0 G0. by apply ping_runs.
    - rewrite <- (map_map fst (ping_labels source)). apply NoDup_fmap_2; [intros ??; apply ping_labels_inj|].
      change (map fst ?l) with l.*1. rewrite (Ho2 m). apply NoDup_fst_map_to_list.
    - rewrite (Ho2 m). apply Forall_forall. intros [h p] Hin%elem_of_map_to_list. by apply (Hm h p). }
  intros [] w7 (T7 & L7 & S7 & F7). apply runs_Set_typed; [done|by apply from_labelled| |done|].
  { right. rewrite F7 by (left; set_solver). rewrite H6, (shows_ne _ _ _ _ _ _ _ H5), (shows_ne _ _ _ _ _ _ _ H4) by (by left).
    apply G3. unfold host_gauges. set_solver. }
  intros w8 O8 H8 T8. split; [done|]. exists w1, (Ok (not_found, dup, m)), w2. split_and!; [done|done| | | |].
  - by rewrite (shows_ne _ _ _ _ _ _ _ H8), F7, H6, (shows_at _ _ _ _ _ H5) by (left; set_solver).
  - by rewrite (shows_ne _ _ _ _ _ _ _ H8), F7, H6, (shows_ne _ _ _ _ _ _ _ H5), (shows_at _ _ _ _ _ H4) by (left; set_solver).
  - intros h Hh. rewrite (shows_ne _ _ _ _ _ _ _ H8), F7.
    + rewrite H6, (shows_ne _ _ _ _ _ _ _ H5), (shows_ne _ _ _ _ _ _ _ H4) by (by left).
      rewrite H3, decide_True; [done|]. split; [done|]. by apply list_elem_of_fmap_2.
    + right. intros ([h' p] & Eh%ping_labels_inj & Hin)%list_elem_of_fmap. simpl in Eh. subst h'.
      rewrite (Ho2 m), elem_of_map_to_list in Hin. specialize (Hd _ Hh). congruence.
    + by left.
  - exists w6. split_and!; [|by apply (shows_at _ _ _ _ _ H8)|].
    { etrans; [|exact L6]. apply later_os. congruence. }
    intros pre h pod post El. destruct (S7 pre (h, pod) post El) as (wa & Ea & La & _ & Hp). exists wa. split_and!; [done|done|].
    apply (pinged_lasting source (h, pod) wa w7 w8 Hp); [by apply later_os|].
    simpl. intros v. rewrite (shows_ne _ _ _ _ _ _ _ H8); [done|]. right. intros E. by destruct (from_not_ping source h).
Qed.
End pinged.

(** ** An example *)

Module SampleFlannel.
Export ToyProm.
Record Cluster := mkCluster {
  nodes : result (list Node); pods : result (list Pod); pages : gmap string string; extra : list string
}.
Abbreviation SW := (World (Store * Cluster)).
Definition texts_only {A} (P : A → bool) (r : result (list A)) : result (list A) :=
  match r with Ok l => if forallb P l then Ok l else Err (StdError "not UTF-8") | Err e => Err e end.
Definition node_text (n : Node) : bool := forallb (λ a, valid_utf8 (addr_Address a)) (Addresses n).
Definition cluster_get (url : string) : M SW (result Body) :=
  gets (λ w : SW, match pages (comp w).2 !! url with Some body => Ok (mkBody body None) | None => Err (StdError "refused") end).

#[export] Instance cluster_reader : KubeReader (Store * Cluster) := {|
  rest_Config := unit;
  Clientset := unit;
  InClusterConfig := ok tt;
  NewForConfigOrDie _ := Return tt;
  Nodes_List _ := gets (λ w : SW, texts_only node_text (nodes (comp w).2));
  Pods_List _ _ _ := gets (λ w : SW, texts_only (λ p, valid_utf8 (HostIP p)) (pods (comp w).2));
  Pods_Get _ _ name := ok (mkPod name "Running" "10.0.0.1" "172.18.0.1")
|}.
#[export] Instance cluster_pages : HttpGet (Store * Cluster) := {| http_Get := cluster_get |}.
#[export] Instance lines_parser : TextParser := {|
  TextToMetricFamilies body := body ← ReadAll body; Ok {[ body := body ]}
|}.
#[export] Program Instance cluster_extra : HasAdditional (Store * Cluster) := {|
  additional_metrics x := extra x.2;
  set_additional l x := (x.1, mkCluster (nodes x.2) (pods x.2) (pages x.2) l)
|}.
Next Obligation. done. Qed.
Next Obligation. done. Qed.
Next Obligation. done. Qed.

Lemma texts_only_Ok {A} (P : A → bool) r l : texts_only P r = Ok l → Forall (λ a, P a = true) l.
Proof.
  unfold texts_only. destruct r as [l'|]; [|done]. destruct (forallb P l') eqn:E; [|done]. intros [= <-].
  rewrite forallb_forall in E. by apply List.Forall_forall.
Qed.
Lemma gets_quiet {A} (f : SW → A) : quiet (gets f).
Proof. apply quiet_os; [apply returns_gets|apply keeps_gets, _|apply keeps_gets, _]. Qed.
#[export] Program Instance cluster_quiet : QuietNet (Store * Cluster).
Next Obligation. intros. apply gets_quiet. Qed.
Next Obligation. intros. apply gets_quiet. Qed.
Next Obligation. intros. apply quiet_ret. Qed.
Next Obligation. intros. apply gets_quiet. Qed.
Next Obligation.
  simpl. intros _ w l w' [= H%texts_only_Ok <-]. eapply Forall_impl; [exact H|]. intros n Hn. simpl in Hn.
  unfold node_text in Hn. rewrite forallb_forall in Hn. by apply List.Forall_forall.
Qed.
Next Obligation. simpl. intros _ _ _ w l w' [= H%texts_only_Ok <-]. exact H. Qed.

Definition internal_node (name ip : string) : Node := mkNode name [mkAddress "Hostname" name; mkAddress NodeInternalIP ip].
Definition three_nodes : list Node := [internal_node "a" "10.0.0.1"; internal_node "b" "10.0.0.2"; internal_node "c" "10.0.0.3"].
Definition three_pods : list Pod :=
  [mkPod "m1" "Running" "10.0.0.1" "172.18.0.1"; mkPod "m2" "Pending" "10.0.0.2" "172.18.0.2";
   mkPod "m3" "Running" "10.0.0.3" "172.18.0.3"].
Definition flannel_world : SW := toy_world
  (mkCluster (Ok three_nodes) (Ok three_pods) {[ scrape_url "172.18.0.1" := "up" ]} []).
Definition orders0 : collector_orders := mkOrders map_to_list map_to_list map_to_list.

Example match_ex :
  (ListAndMatchRunningAppPodsToNodes map_to_list tt "ns" "flannel-monitor" flannel_world).1
  = Return (Ok (["10.0.0.2"], false, list_to_map [("10.0.0.1", "172.18.0.1"); ("10.0.0.3", "172.18.0.3")])).
Proof. vm_compute. reflexivity. Qed.
Example collector_ex :
  let w := (collector_cycle tt "ns" orders0 flannel_world).2 in
  (map (λ h, metric w scrapeCheck (hostip_labels h)) ["10.0.0.1"; "10.0.0.2"; "10.0.0.3"], extra (comp w).2)
  = ([Some (Value one); Some (Value zero); Some (Value zero)], ["up"]).
Proof. vm_compute. reflexivity. Qed.
(** A node that left the cluster keeps the gauge that it had. *)
Example collector_stale :
  let w := (collector_cycle tt "ns" orders0 flannel_world).2 in
  let w' := on_comp (λ x, (x.1, mkCluster (Ok []) (Ok []) ∅ [])) w in
  metric (collector_cycle tt "ns" orders0 w').2 scrapeCheck (hostip_labels "10.0.0.1") = Some (Value one).
Proof. vm_compute. reflexivity. Qed.
Example ping_ex :
  let w := on_comp (λ x, (x.1, mkCluster (Ok three_nodes) (Ok three_pods) {[ ping_url "172.18.0.3" := "PONG" ]} [])) flannel_world in
  let w := (monitor_cycle tt "ns" "10.0.0.1" (map_to_list, map_to_list) w).2 in
  (map (λ h, metric w talkCheck (ping_labels "10.0.0.1" h)) ["10.0.0.1"; "10.0.0.2"; "10.0.0.3"],
   metric w talkTiming (ping_labels "10.0.0.1" "10.0.0.3"))
  = ([Some (Value zero); Some (Value zero); Some (Value one)], Some (Observations 1)).
Proof. vm_compute. reflexivity. Qed.

Lemma ListAndMatch_spec_witness : ∃ w', 
  ListAndMatchRunningAppPodsToNodes map_to_list tt "ns" "flannel-monitor" flannel_world = (Return (Ok
    (["10.0.0.2"], false, list_to_map [("10.0.0.1", "172.18.0.1"); ("10.0.0.3", "172.18.0.3")])), w') ∧
  ∃ l, Pods_List tt "ns" "app=flannel-monitor" flannel_world = (Return (Ok l), w') ∧ running l ≠ [].
Proof.
  exists flannel_world.
  assert (E : ListAndMatchRunningAppPodsToNodes map_to_list tt "ns" "flannel-monitor" flannel_world = (Return (Ok
    (["10.0.0.2"], false, list_to_map [("10.0.0.1", "172.18.0.1"); ("10.0.0.3", "172.18.0.3")])), flannel_world))
    by (vm_compute; reflexivity).
  split; [exact E|].
  destruct (ListAndMatch_spec (kube:=cluster_reader) map_to_list tt "ns" "flannel-monitor" flannel_world _ _ (λ m, Permutation_refl _) E)
    as (nodes & pods & w1 & En & Ep & ips & _ & _ & _ & _ & Hdom & _).
  exists pods. split; [|intros Hp].
  - injection En as _ <-. exact Ep.
  - rewrite Hp in Hdom. simpl in Hdom. specialize (Hdom "10.0.0.1"). destruct Hdom as [Hdom _].
    apply (not_elem_of_nil "10.0.0.1"), Hdom. eexists. vm_compute. reflexivity.
Defined.

Lemma collector_cycle_spec_witness : ∃ w', collector_cycle tt "ns" orders0 flannel_world = (Return tt, w') ∧ typed w'.
Proof.
  destruct (collector_cycle_spec (kube:=cluster_reader) tt "ns" orders0 flannel_world) as ([] & w' & E & Ht & _).
  - intros m. apply Permutation_refl.
  - intros m. apply Permutation_refl.
  - intros m. apply Permutation_refl.
  - apply toy_typed.
  - exists w'. split; [exact E|exact Ht].
Defined.
End SampleFlannel.
