(* ===== verification/EtcdExporter.v ===== *)
(** * The exporter of etcd's metrics

    [etcd-metrics-exporter/etcd-metrics-exporter.go]: it serves the metrics of etcd, which it
    asks for with a client certificate, together with the version of etcd, which it asks for
    every fifteen seconds. *)

From S2P Require Import Prelude GoStrings GoOS Exits FileUtil GoErrors GoCodec GoJSON JsonDecode GoCrypto CertUtil GoTime Prom.
#[local] Open Scope Z_scope.
#[export] Set Default Goal Selector "!".

(** [etcdVersion] *)
Record EtcdVersion := mkVersion { BinaryVersion : string; ClusterVersion : string }.
Definition version_member (v : EtcdVersion) (kv : string * json) : result EtcdVersion :=
  if field_is "etcdserver" kv.1 then s ← to_field (BinaryVersion v) kv.2; Ok (mkVersion s (ClusterVersion v))
  else if field_is "etcdcluster" kv.1 then s ← to_field (ClusterVersion v) kv.2; Ok (mkVersion (BinaryVersion v) s)
  else Ok v.
Definition decode_version (body : Body) : result EtcdVersion :=
  Decode body ≫= to_struct (mkVersion "" "") version_member.

Section exporter.
Context {prom : Prometheus} {X : Type} {mets : HasMetrics X} {net : HttpGet X} {parser : TextParser}.
Abbreviation MW := (M (World X)).

Definition etcdVersion : Metric := mkMetric "etcd" "version_info" "Etcd server's binary version" None ["binary_version"].
Definition version_labels (v : string) : Labels := {[ "binary_version" := v ]}.

(** [base] is the first argument of the program. *)
Definition requestToEtcd (base endpoint : string) : MW (result Body) :=
  if negb (HasPrefix endpoint "/") then fail (ErrorString "no '/' prefix on endpoint")
  else
    resp ← http_Get (base +:+ endpoint);
    match resp with
    | Err err => fail (ErrorString ("failed to receive GET response from etcd: " +:+ Error err))
    | Ok body => ok body
    end.

(** The version seen last is a variable of the loop: it is given, and given back. *)
Definition getVersion (base lastSeenBinaryVersion : string) : MW (string * result unit) :=
  body ← requestToEtcd base "/version";
  match body with
  | Err err => mret (lastSeenBinaryVersion, Err err)
  | Ok body =>
      match decode_version body with
      | Err err =>
          mret (lastSeenBinaryVersion, Err (ErrorString ("Failed to decode etcd version JSON: " +:+ Error err)))
      | Ok version =>
          if bool_decide (lastSeenBinaryVersion = BinaryVersion version) then mret (lastSeenBinaryVersion, Ok tt)
          else
            deleted ← (if bool_decide (lastSeenBinaryVersion ≠ "")
                       then Delete etcdVersion (version_labels lastSeenBinaryVersion) else mret true);
            if negb (deleted : bool)
            then mret (lastSeenBinaryVersion, Err (ErrorString "Failed to delete previous version's metric"))
            else
              c ← With etcdVersion (version_labels (BinaryVersion version));
              _ ← Set_ c one;
              mret (BinaryVersion version, Ok tt)
      end
  end.

(** A round of the loop; [closed] as for the other monitors. *)
Definition version_round (base : string) (lastSeenBinaryVersion : string) (closed : bool) : MW string :=
  r ← getVersion base lastSeenBinaryVersion;
  _ ← match r.2 with Err err => log_Print ("Failed to fetch etcd version: " +:+ Error err) | Ok _ => mret tt end;
  _ ← select_stop closed (15 * Second);
  mret r.1.
(** The first rounds of the loop, and the version seen last after them. *)
Definition getVersionPeriodically (base : string) (closed : list bool) : MW string :=
  fold_all (version_round base) "" closed.

Definition scrapeMetrics (base : string) : MW (result (gmap string MetricFamily)) :=
  body ←? requestToEtcd base "/metrics";
  mret (TextToMetricFamilies body).

(** What is served: the metrics of etcd, in the order of a [range], and the version. *)
Definition monitor_Gather (base : string) (order : gmap string MetricFamily → list (string * MetricFamily))
    : MW (result (list MetricFamily)) :=
  etcdMetrics ←? scrapeMetrics base;
  custom ←? Gather;
  ok ((order etcdMetrics).*2 ++ custom).
End exporter.

Section program.
Context {errs : PkgErrors} {packages : Crypto} {prom : Prometheus} {X : Type} {mets : HasMetrics X} {net : HttpGet X}.
Abbreviation MW := (M (World X)).

(** [AppendCertsFromPEM]: the certificates of the blocks that are certificates. Every block is
    longer than nothing, so the length of the text is fuel enough. *)
Fixpoint append_certs (fuel : nat) (pemCerts : string) : list Certificate :=
  match fuel with
  | O => []
  | S fuel =>
      match pem_Decode pemCerts with
      | None => []
      | Some (block, rest) =>
          (if bool_decide (pem_Type block = "CERTIFICATE") then
             match x509_ParseCertificate (pem_Bytes block) with Ok c => [c] | Err _ => [] end
           else []) ++ append_certs fuel rest
      end
  end.
Definition AppendCertsFromPEM (pemCerts : string) : list Certificate := append_certs (String.length pemCerts) pemCerts.

(** The program, for the rounds given, until the server of the metrics ends with [onstop]. The
    certificates that it loads are those of its client. (The collector that it unregisters was
    never registered.) *)
Definition exporter_main (args : list string) (closed : list bool) (onstop : error) : MW unit :=
  match args with
  | [_; base; authority; keyfile; certfile] =>
      authorities ← or_fatal (ReadFile authority);
      if bool_decide (AppendCertsFromPEM authorities = []) then logger_Fatal "could not parse PEM cert for CA" else
      _ ← or_fatal (tls_LoadX509KeyPair certfile keyfile);
      _ ← MustRegister etcdVersion;
      _ ← log_Print "Listening on: :9101";
      _ ← getVersionPeriodically base closed;
      log_Print ("Stopped listening/serving metrics: " +:+ Error onstop)
  | _ => logger_Fatal "expected four arguments: baseurl, authority, keyfile, certfile"
  end.
End program.

(** ** The version shown *)

Section versions.
Context {prom : Prometheus} {X : Type} {mets : HasMetrics X} {net : HttpGet X}.
Context (http_Get_quiet : ∀ url, quiet (http_Get (X:=X) url)).
Implicit Types w : World X.

(** The version seen last is shown when it is not empty, and when [stale] the empty one, both
    with the value one; nothing else is. *)
Definition version_shown (last : string) (stale : Prop) w : Prop :=
  typed w ∧ ∀ l s, metric w etcdVersion l = Some s ↔
    s = Value one ∧ (last ≠ "" ∧ l = version_labels last ∨ stale ∧ l = version_labels "").

Lemma version_labels_inj v v' : version_labels v = version_labels v' → v = v'.
Proof.
  intros E. pose proof (f_equal (lookup "binary_version") E) as E'. unfold version_labels in E'.
  rewrite !lookup_singleton_eq in E'. by injection E'.
Qed.
Lemma version_shown_same last stale w w' :
  (∀ v l, metric w' v l = metric w v l) → version_shown last stale w → version_shown last stale w'.
Proof. intros Hm [Ht Hv]. split; [by eapply typed_same|]. intros l s. rewrite Hm. apply Hv. Qed.
Lemma version_shown_iff last P Q w : (P ↔ Q) → version_shown last P w → version_shown last Q w.
Proof. intros H [Ht Hv]. split; [done|]. intros l s. rewrite Hv. tauto. Qed.

Lemma to_field_text b j s : valid_utf8 b = true → json_texts j = true → to_field b j = Ok s → valid_utf8 s = true.
Proof. destruct j; simpl; intros ?? [= <-]; done. Qed.
Lemma decode_version_text body v : decode_version body = Ok v → valid_utf8 (BinaryVersion v) = true.
Proof.
  unfold decode_version. destruct (Decode body) as [j|] eqn:E; [|done]. apply Decode_texts in E. simpl.
  destruct j as [| | | | |l]; simpl; try done; [by intros [= <-]|]. simpl in E. revert E.
  set (v0 := mkVersion "" ""). assert (H0 : valid_utf8 (BinaryVersion v0) = true) by done. revert H0. generalize v0.
  induction l as [|[k j] l IH]; intros u Hu; simpl; [by intros _ [= <-]|]. rewrite !andb_true_iff.
  intros [[_ Hj] Hl] H. unfold version_member in H. simpl in H.
  destruct (field_is "etcdserver" k), (field_is "etcdcluster" k);
    try (destruct (to_field _ j) as [s|] eqn:Ef; [|done]); simpl in H; (eapply IH; [|exact Hl|exact H]); simpl;
    first [by eapply to_field_text|done].
Qed.
(** The old version is taken back: that succeeds. *)
Lemma forget_runs {A} last stale (k : bool → M (World X) A) w (Q : A → World X → Prop) :
  version_shown last stale w →
  (∀ w', os w' = os w → version_shown "" stale w' → runs (k true) w' Q) →
  runs (deleted ← (if bool_decide (last ≠ "") then Delete etcdVersion (version_labels last) else mret true); k deleted) w Q.
Proof.
  intros [Ht Hv] HQ. apply runs_bind. case_bool_decide as Hne.
  - apply runs_Delete. intros w' Ho Hs. rewrite bool_decide_true by (exists (Value one); apply Hv; auto). apply HQ; [done|]. split.
    + intros v l s. rewrite Hs. case_decide; [done|]. apply Ht.
    + intros l s. rewrite Hs. case_decide as Hd; [|rewrite Hv; tauto].
      split; [done|]. intros (_ & [[? _]|[_ Hl]]); [done|]. destruct Hd as [_ Hd]. rewrite Hl in Hd. by apply version_labels_inj in Hd as <-.
  - apply runs_ret, HQ; [done|]. by assert (last = "") as -> by (destruct (decide (last = "")); tauto).
Qed.

(** The version in an answer, if there is one. *)
Definition answer_version (resp : result Body) : option string :=
  match resp with
  | Ok body => match decode_version body with Ok v => Some (BinaryVersion v) | Err _ => None end
  | Err _ => None
  end.
Definition version_url (base : string) : string := base +:+ "/version".

(** An answer without a version, after one with a version, makes the empty one be shown. *)
Definition stale_after (last : string) (stale : Prop) (o : option string) : Prop := stale ∨ (o = Some "" ∧ last ≠ "").

Lemma getVersion_runs base last stale w :
  version_shown last stale w →
  runs (getVersion base last) w (λ r w', ∃ resp wb, http_Get (version_url base) w = (Return resp, wb) ∧
    r.1 = default last (answer_version resp) ∧ version_shown r.1 (stale_after last stale (answer_version resp)) w').
Proof.
  intros Hw. unfold getVersion, requestToEtcd. cbn [HasPrefix negb]. apply runs_bind, runs_bind, runs_silent; [done|].
  intros resp w1 E1 H1 _. pose proof (version_shown_same last stale w w1 H1 Hw) as Hw1.
  assert (Hnone : version_shown last (stale_after last stale None) w1)
    by (eapply version_shown_iff; [|exact Hw1]; unfold stale_after; naive_solver).
  destruct resp as [body|err]; apply runs_ret; [|by apply runs_ret; exists (Err err), w1].
  destruct (decode_version body) as [v|err] eqn:Ev.
  2: { apply runs_ret. exists (Ok body), w1. simpl. by rewrite Ev. }
  assert (Hof : ∀ w', version_shown (BinaryVersion v) (stale_after last stale (Some (BinaryVersion v))) w' →
    ∃ resp wb, http_Get (version_url base) w = (Return resp, wb) ∧ BinaryVersion v = default last (answer_version resp) ∧
      version_shown (BinaryVersion v) (stale_after last stale (answer_version resp)) w').
  { intros w' H. exists (Ok body), w1. simpl. by rewrite Ev. }
  case_bool_decide as Hsame.
  { apply runs_ret. simpl. subst last. apply Hof. eapply version_shown_iff; [|exact Hw1]. unfold stale_after. naive_solver. }
  apply (forget_runs last stale); [done|]. intros w2 O2 [T2 F2]. cbn [negb].
  assert (Hu : well_labelled etcdVersion (version_labels (BinaryVersion v))).
  { split; [unfold version_labels; rewrite dom_singleton_L; set_solver|]. apply map_Forall_singleton. by eapply decode_version_text. }
  apply runs_bind, runs_With_typed; [done|done|]. intros w3 O3 H3 T3.
  apply runs_bind, runs_Set_typed; [done|done|right; by rewrite (shows_at _ _ _ _ _ H3)|done|]. intros w4 O4 H4 T4.
  apply runs_ret, Hof. split; [done|]. intros l s. rewrite H4. unfold stale_after. case_decide as Hd.
  - destruct Hd as [_ ->]. split; [|by intros [-> _]]. intros [= <-]. split; [done|].
    destruct (decide (BinaryVersion v = "")) as [Hv|]; [|by left]. rewrite Hv in *. right. split; [|done]. by right.
  - rewrite H3, decide_False by done. rewrite F2. assert (l ≠ version_labels (BinaryVersion v)) by (intros ->; by apply Hd).
    split; intros [-> Hs]; (split; [done|]).
    + destruct Hs as [[? _]|[? ->]]; [done|]. right. split; [by left|done].
    + destruct Hs as [[_ ?]|[[?|[[= Hv] _]] Hl]]; [done|by right|]. by rewrite <- Hv in Hl.
Qed.
Lemma version_round_runs base last stale c w :
  version_shown last stale w →
  runs (version_round base last c) w (λ v w', ∃ resp wb, http_Get (version_url base) w = (Return resp, wb) ∧
    v = default last (answer_version resp) ∧ version_shown v (stale_after last stale (answer_version resp)) w').
Proof.
  intros Hw. unfold version_round. apply runs_bind. eapply runs_mono; [by apply getVersion_runs|].
  intros [v r] w2 (resp & wb & Hg & Hv & Hw2). cbn [fst] in *.
  apply runs_bind. eapply (runs_mono _ _ (λ _ w3, version_shown v (stale_after last stale (answer_version resp)) w3)).
  { destruct r; cbn [snd]; [by apply runs_ret|]. os_step. intros ? w3 _ H3 _. by eapply version_shown_same. }
  intros _ w3 Hw3. apply runs_bind. eapply (runs_mono _ _ (λ _ w4, version_shown v (stale_after last stale (answer_version resp)) w4)).
  { unfold select_stop. destruct c; [by apply runs_ret|]. os_step. intros ? w4 _ H4 _. by eapply version_shown_same. }
  intros _ w4 Hw4. apply runs_ret. by exists resp, wb.
Qed.

(** Among the answers there is one without a version after one with a version. *)
Definition emptied (versions : list (option string)) : Prop :=
  ∃ pre v mid post, versions = pre ++ Some v :: mid ++ Some "" :: post ∧ v ≠ "".
(** The last version that was answered. *)
Definition last_version (versions : list (option string)) : string := foldl default "" versions.
Lemma emptied_or_last versions v : Some v ∈ versions → v ≠ "" → emptied versions ∨ last_version versions ≠ "".
Proof.
  unfold last_version. induction versions as [|o versions IH] using rev_ind; [by intros ?%elem_of_nil|].
  rewrite foldl_snoc. intros [Hin|Hin]%elem_of_app Hv.
  - destruct (IH Hin Hv) as [(p & u & m & q & -> & Hu)|Hl].
    + left. exists p, u, m, (q ++ [o]). split; [|done]. by rewrite <- !app_assoc, <- !app_comm_cons, <- !app_assoc.
    + destruct o as [u|]; [|by right]. destruct (decide (u = "")) as [->|]; [|by right].
      left. apply list_elem_of_split in Hin as (l1 & l2 & ->). exists l1, v, l2, []. split; [|done]. by rewrite <- app_assoc.
  - apply list_elem_of_singleton in Hin as <-. by right.
Qed.
Lemma emptied_snoc versions o : emptied (versions ++ [o]) ↔ stale_after (last_version versions) (emptied versions) o.
Proof.
  unfold stale_after. split.
  - intros (p & v & m & q & E & Hv). destruct q as [|y q _] using rev_ind.
    + rewrite app_comm_cons, app_assoc in E. apply app_inj_tail in E as [-> ->].
      destruct (emptied_or_last (p ++ Some v :: m) v) as [H|H]; [set_solver|done|by left|by right].
    + left. rewrite !app_comm_cons, !app_assoc in E. apply app_inj_tail in E as [-> _]. exists p, v, m, q.
      split; [|done]. by rewrite <- app_assoc.
  - intros [(p & v & m & q & -> & Hv)|[-> Hl]].
    + exists p, v, m, (q ++ [o]). split; [|done]. by rewrite <- !app_assoc, <- !app_comm_cons, <- !app_assoc.
    + assert (∃ v, Some v ∈ versions ∧ v ≠ "") as (v & Hin & Hv).
      { clear -Hl. unfold last_version in Hl. induction versions as [|o versions IH] using rev_ind; [done|].
        rewrite foldl_snoc in Hl. destruct o as [v|]; [exists v; set_solver|]. destruct (IH Hl) as (v & ? & ?). exists v. set_solver. }
      apply list_elem_of_split in Hin as (l1 & l2 & ->). exists l1, v, l2, []. split; [|done]. by rewrite <- app_assoc.
Qed.

(** The versions in the answers of the rounds, each asked for in the state that the loop had
    come to. *)
Definition answered_versions (base : string) w (closed : list bool) (versions : list (option string)) : Prop :=
  length versions = length closed ∧
  ∀ pre c post, closed = pre ++ c :: post → ∃ last wa resp wb,
    fold_all (version_round base) "" pre w = (Return last, wa) ∧ http_Get (version_url base) wa = (Return resp, wb) ∧
    versions !! length pre = Some (answer_version resp).

(** C23: For as long as the exporter runs, and whatever etcd answers, nothing panics, and what it
    shows is exactly this, each with the value one: the version in the last answer that had
    one, unless it is empty; and the empty version, from the first answer without a version
    that came after one with a version on. The empty version is never taken back, even when
    etcd answers with a version again: two versions are shown then (a bug of the code, which
    takes the empty version for the one that it starts from). *)
Theorem getVersionPeriodically_spec base closed w :
  typed w → (∀ l, metric w etcdVersion l = None) →
  runs (getVersionPeriodically base closed) w (λ last w', ∃ versions,
    answered_versions base w closed versions ∧ last = last_version versions ∧ version_shown last (emptied versions) w').
Proof.
  intros Ht Hn. apply (runs_fold_all_from _ _ (λ pre last w', ∃ versions,
    answered_versions base w pre versions ∧ last = last_version versions ∧ version_shown last (emptied versions) w')).
  { exists []. split; [split; [done|by intros []]|]. split; [done|]. split; [done|]. intros l s. rewrite Hn.
    split; [done|]. intros (_ & [[? _]|[(? & ? & ? & ? & E & _) _]]); [done|]. by destruct (app_cons_not_nil _ _ _ E). }
  intros pre c post last w1 _ E (versions & [Hl Hv] & -> & Hw1).
  eapply runs_mono; [by apply version_round_runs|]. intros v w2 (resp & wb & Eg & -> & Hw2).
  exists (versions ++ [answer_version resp]). split; [|split; [by unfold last_version; rewrite foldl_snoc|]].
  2: { eapply version_shown_iff; [symmetry; apply emptied_snoc|done]. }
  split; [rewrite !length_app; simpl; lia|].
  intros pre' c' post' El. destruct post' as [|d post' _] using rev_ind.
  - apply app_inj_tail in El as [-> ->]. exists (last_version versions), w1, resp, wb. split_and!; [done|done|].
    rewrite lookup_app_r by lia. by replace (length pre' - length versions)%nat with 0%nat by lia.
  - rewrite app_comm_cons, app_assoc in El. apply app_inj_tail in El as [-> ->].
    destruct (Hv _ _ _ eq_refl) as (l & wa & r & wc & E1 & E2 & E3). exists l, wa, r, wc. split_and!; [done|done|].
    by apply lookup_app_l_Some.
Qed.
End versions.

(** ** An example *)

Module SampleEtcd.
Export ToyProm.
Abbreviation EW := (World (Store * list string)).
(** What etcd answers, one after the other, and then the last one again. *)
#[export] Instance etcd_answers : HttpGet (Store * list string) := {|
  http_Get _ w :=
    (Return (match (comp w).2 with [] => Err (StdError "refused") | b :: _ => Ok (mkBody b None) end),
     on_comp (λ x, (x.1, tail x.2)) w)
|}.
Lemma etcd_quiet url : quiet (http_Get (X:=Store * list string) url).
Proof. split_and!; intros w; [by eexists|done|unfold later; done]. Qed.

Definition answer (v : string) : string :=
  Marshal_struct [("etcdserver", v); ("etcdcluster", "3.3")].
Definition etcd_world (answers : list string) : EW := toy_world answers.

(** The last version is shown; one that was lost in between is taken back. *)
Example etcd_ex :
  let w := (getVersionPeriodically "https://etcd" [false; false; false] (etcd_world [answer "3.2"; "oops"; answer "3.3"])).2 in
  (metric w etcdVersion (version_labels "3.2"), metric w etcdVersion (version_labels "3.3"))
  = (None, Some (Value one)).
Proof. vm_compute. reflexivity. Qed.
(** After an answer without a version, the empty version stays. *)
Example etcd_empty :
  let w := (getVersionPeriodically "https://etcd" [false; false; false] (etcd_world [answer "3.2"; "{}"; answer "3.3"])).2 in
  (metric w etcdVersion (version_labels "3.2"), metric w etcdVersion (version_labels ""),
   metric w etcdVersion (version_labels "3.3"))
  = (None, Some (Value one), Some (Value one)).
Proof. vm_compute. reflexivity. Qed.

Lemma getVersionPeriodically_spec_witness :
  ∃ last w' versions, getVersionPeriodically "https://etcd" [false; true] (etcd_world [answer "3.2"; answer "3.3"]) = (Return last, w') ∧
    length versions = 2%nat ∧ version_shown last (emptied versions) w'.
Proof.
  destruct (getVersionPeriodically_spec etcd_quiet "https://etcd" [false; true] (etcd_world [answer "3.2"; answer "3.3"]))
    as (last & w' & E & versions & [Hl _] & _ & Hw).
  - apply toy_typed.
  - intros l. reflexivity.
  - exists last, w', versions. split; [exact E|]. split; [exact Hl|exact Hw].
Defined.
End SampleEtcd.
