(* ===== verification/PullMonitor.v ===== *)
(** * The monitor of image pulls

    [pull-monitor/pull-monitor]: a loop that deletes an image and pulls it again, and runs a
    container of it that has to echo a token; both by way of the [crictl] command. *)

From S2P Require Import Prelude GoStrings GoNet GoOS Exits FileUtil GoErrors GoCodec GoJSON JsonDecode CertUtil GoTime GoTemp Prom.
#[local] Open Scope Z_scope.
#[export] Set Default Goal Selector "!".

(** [hashicorp/go-multierror]: the error that collects two others. *)
Class MultiError := { multierror_Append : option error → option error → error }.
Definition as_error {A} (r : result A) : option error := match r with Ok _ => None | Err e => Some e end.

(** [math/rand]: a generator of numbers of 64 bits. *)
Class MathRand (X : Type) := {
  rand_Uint64 : M (World X) Z;
  rand_Uint64_returns : returns rand_Uint64;
  rand_Uint64_os_only : keeps os_only rand_Uint64;
  rand_Uint64_later : keeps later rand_Uint64;
  rand_Uint64_fs : keeps same_fs rand_Uint64;
  rand_Uint64_commands : keeps same_commands rand_Uint64
}.
#[export] Hint Resolve rand_Uint64_returns rand_Uint64_os_only rand_Uint64_later rand_Uint64_fs rand_Uint64_commands : go.

(** [hex.EncodeToString] *)
Definition hex_EncodeToString (s : string) : string :=
  Join (map (λ b, hex_lower (b / 16) +:+ hex_lower (b mod 16)) (bytes_of s)) "".

(** ** What crictl is given *)

(** An object with members already encoded. *)
Definition Marshal_object (fields : list (string * string)) : string :=
  "{" +:+ Join (map (λ kv, Marshal_string kv.1 +:+ ":" +:+ kv.2) fields) "," +:+ "}".

Record PodSandboxMetadata := mkSandboxMetadata { pm_Name : string; Uid : string; pm_Namespace : string; Attempt : Z }.
Record PodSandboxConfig := mkSandboxConfig { pc_Metadata : PodSandboxMetadata; LogDirectory : string }.
Record ContainerConfig := mkContainerConfig {
  cc_Name : string;            (* Metadata.Name *)
  cc_Image : string;           (* Image.Image *)
  Command : list string;
  Args : option (list string);
  LogPath : string
}.
Definition encode_sandbox (c : PodSandboxConfig) : string :=
  let m := pc_Metadata c in
  Marshal_object
    [("metadata", Marshal_object [("name", Marshal_string (pm_Name m)); ("uid", Marshal_string (Uid m));
        ("namespace", Marshal_string (pm_Namespace m)); ("attempt", FormatInt (Attempt m))]);
     ("log_directory", Marshal_string (LogDirectory c))].
Definition encode_container (c : ContainerConfig) : string :=
  Marshal_object
    [("metadata", Marshal_object [("name", Marshal_string (cc_Name c))]);
     ("image", Marshal_object [("image", Marshal_string (cc_Image c))]);
     ("command", Marshal_strings (Command c));
     ("args", match Args c with None => "null" | Some l => Marshal_strings l end);
     ("log_path", Marshal_string (LogPath c))].

(** [Inspection] of [ContainerStatus]: the state of the container, when there is a status. *)
Definition status_member (state : string) (kv : string * json) : result string :=
  if field_is "state" kv.1 then to_field state kv.2 else Ok state.
Definition inspection_member (status : option string) (kv : string * json) : result (option string) :=
  if field_is "status" kv.1 then
    match kv.2 with
    | JNull => Ok None
    | j => s ← to_struct (default "" status) status_member j; Ok (Some s)
    end
  else Ok status.
Definition Unmarshal_inspection (s : string) : result (option string) :=
  json_parse s ≫= to_struct None inspection_member.

(** ** interact.go *)

Section interact.
Context {errs : PkgErrors} {multi : MultiError} {X : Type} {names : TempNames X} {rand : MathRand X}.
Abbreviation MW := (M (World X)).

Definition doesImageExist (image : string) : MW bool :=
  r ← exec_Run ["crictl"; "inspecti"; image]; mret (is_ok r).
Definition deleteImage (image : string) : MW (result unit) := exec_Run ["crictl"; "rmi"; image].
Definition pullImage (image : string) : MW (result unit) := exec_Run ["crictl"; "pull"; image].

Definition refetch (image : string) : MW (result float64) :=
  there ← doesImageExist image;
  (if (there : bool)
   then err ← deleteImage image;
        match err with Err err => fail (wrap err "failed to remove previous image") | Ok _ => ok tt end
   else ok tt) ;?
  time_start ← time_Now;
  err ← pullImage image;
  time_end ← time_Now;
  match err with
  | Err err => fail (wrap err "failed to fetch new image")
  | Ok _ =>
      there ← doesImageExist image;
      if negb (there : bool) then fail (errors_New "pulled image, yet it does not exist")
      else ok (Seconds (time_Sub time_end time_start))
  end.

Definition generateUID : MW (result string) :=
  randomID ←? rand_Read 16;
  ok (hex_EncodeToString randomID).

(** The close of the file is deferred; when it fails, the file stays behind. *)
Definition createJSONTempfile (contents : string) : MW (result string) :=
  file ←[λ e, wrap e "creating tempfile"] TempFile "pullcheck-manifest-";
  written ← file_Write file (contents +:+ newline);
  r ← match written with
      | Err err =>
          removed ← os_Remove file;
          fail (wrap (multierror_Append (Some err) (as_error removed)) "writing JSON")
      | Ok _ => ok file
      end;
  closed ← file_Close;
  match closed with
  | Err err2 => fail (multierror_Append (as_error r) (Some err2))
  | Ok _ => mret r
  end.

Definition crictl (args : list string) : MW (result string) := exec_Output ("crictl" :: args).

Definition sandbox_config (uid : string) : PodSandboxConfig :=
  mkSandboxConfig (mkSandboxMetadata "pullcheck-sandbox" ("pullcheck-" +:+ uid) "pullcheck" 1)
    ("/tmp/pullcheck-logs/" +:+ uid +:+ "/").
Definition invalid_id (idstr : string) : error :=
  errors_New ("not a valid ID; not 64 characters long: " +:+ idstr).
Definition startPodSandbox : MW (result (string * string)) :=
  uid ←[λ e, wrap e "generating UID"] generateUID;
  configpath ←[λ e, wrap e "creating pod config"] createJSONTempfile (encode_sandbox (sandbox_config uid));
  result ← crictl ["runp"; configpath];
  match result with
  | Err err =>
      removed ← os_Remove configpath;
      fail (wrap (multierror_Append (Some err) (as_error removed)) "invoking runp")
  | Ok result =>
      let idstr := TrimSpace result in
      if bool_decide (len idstr ≠ 64)
      then _ ← os_Remove configpath; fail (invalid_id idstr)
      else ok (idstr, configpath)
  end.

Definition deletePodSandbox (podid : string) : MW (result unit) :=
  _ ←? crictl ["stopp"; podid];
  _ ←? crictl ["rmp"; podid];
  ok tt.

Definition container_config (image : string) (args : list string) : ContainerConfig :=
  mkContainerConfig "pullcheck" image args None "container.log".
Definition createContainer (image podconfigpath podid : string) (args : list string) : MW (result string) :=
  configpath ←[λ e, wrap e "creating container config"]
    createJSONTempfile (encode_container (container_config image args));
  p ← defer
    (result ←[λ e, wrap e "invoking create"] crictl ["create"; podid; configpath; podconfigpath];
     let idstr := TrimSpace result in
     if bool_decide (len idstr ≠ 64) then fail (invalid_id idstr) else ok idstr)
    (os_Remove configpath);
  match p.2 with
  | Err err2 => fail (multierror_Append (as_error p.1) (Some err2))
  | Ok _ => mret p.1
  end.

Definition startContainer (containerid : string) : MW (result unit) :=
  _ ←? crictl ["start"; containerid]; ok tt.

(** A response without a status makes it panic. *)
Definition isContainerRunning (containerid : string) : MW (result bool) :=
  result ←[λ e, wrap e "inspecting container"] crictl ["inspect"; containerid];
  match Unmarshal_inspection result with
  | Err err => fail (wrap err "reading inspection response")
  | Ok None => panic "invalid memory address or nil pointer dereference"
  | Ok (Some state) =>
      if bool_decide (state = "CONTAINER_RUNNING") then ok true
      else if bool_decide (state = "CONTAINER_EXITED") then ok false
      else fail (errors_New ("unknown state: '" +:+ state +:+ "'"))
  end.

Definition getContainerLogs (containerid : string) : MW (result string) := crictl ["logs"; containerid].

(** The loop that waits for the end of the container. It has no bound: [polls] is the number of
    its rounds that are looked at, and [None] says that the container is still waited for. *)
Fixpoint wait_exit (polls : nat) (containerid : string) : MW (option (result unit)) :=
  match polls with
  | O => mret None
  | S polls =>
      r ← isContainerRunning containerid;
      match r with
      | Err err => mret (Some (Err (wrap err "monitoring container")))
      | Ok true => wait_exit polls containerid
      | Ok false => mret (Some (Ok tt))
      end
  end.

Definition runContainer (polls : nat) (image podconfigpath podid : string) (args : list string)
    : MW (result (option string)) :=
  containerid ←[λ e, wrap e "creating container"] createContainer image podconfigpath podid args;
  _ ←[λ e, wrap e "starting container"] startContainer containerid;
  exited ← wait_exit polls containerid;
  match exited with
  | None => ok None
  | Some (Err err) => fail err
  | Some (Ok _) =>
      logs ←[λ e, wrap e "read logs from container"] getContainerLogs containerid;
      ok (Some logs)
  end.

(** What follows the container, with what it gave. *)
Definition end_pod (podid out : string) (err : option error) : MW (option (string * option error)) :=
  err2 ← deletePodSandbox podid;
  let err := match err2 with
             | Err err2 => Some (multierror_Append err (Some (wrap err2 "deleting pod sandbox")))
             | Ok _ => err
             end in
  mret (Some (out, err)).
(** The named results of [runPod]: what is returned may come with an error. *)
Definition runPod (polls : nat) (image : string) (args : list string) : MW (option (string * option error)) :=
  sandbox ← startPodSandbox;
  match sandbox with
  | Err err => mret (Some ("", Some (wrap err "starting pod sandbox")))
  | Ok (podid, podconfig) =>
      p ← defer_ended
        (r ← runContainer polls image podconfig podid args;
         match r with
         | Ok None => mret None
         | Ok (Some out) => end_pod podid out None
         | Err err => end_pod podid "" (Some (wrap err "running container"))
         end)
        (os_Remove podconfig);
      match p with
      | None => mret None
      | Some (res, Err err2) =>
          mret (Some (res.1, Some (multierror_Append res.2 (Some (wrap err2 "removing pod configuration")))))
      | Some (res, Ok _) => mret (Some res)
      end
  end.

Definition attemptEcho (polls : nat) (image : string) : MW (option (result float64)) :=
  n ← rand_Uint64;
  let echo_data := "!" +:+ FormatInt n +:+ "!" in
  time_start ← time_Now;
  r ← runPod polls image ["/usr/bin/pullcheck"; echo_data];
  match r with
  | None => mret None
  | Some (output, err) =>
      time_end ← time_Now;
      mret (Some match err with
      | Some err => Err (wrap err "failed to exec new image")
      | None =>
          if bool_decide (Trim output newline ≠ "hello container world [" +:+ echo_data +:+ "]")
          then Err (errors_New ("mismatched output from container: '" +:+ output +:+ "' instead of '" +:+ echo_data +:+ "'"))
          else Ok (Seconds (time_Sub time_end time_start))
      end)
  end.
End interact.

(** ** pull-monitor.go *)

Section monitor.
Context {errs : PkgErrors} {multi : MultiError} {prom : Prometheus} {X : Type} {mets : HasMetrics X}
  {names : TempNames X} {rand : MathRand X}.
Abbreviation MW := (M (World X)).

Definition ociCheck : Metric := mkMetric "oci" "pull_check" "Check for whether OCIs can be pulled" None ["image"].
Definition execCheck : Metric := mkMetric "oci" "exec_check" "Check for whether OCIs can be launched" None ["image"].
Definition ociTiming : Metric := mkMetric "oci" "pull_timing_seconds" "Timing for pulling OCIs"
  (Some (map float64_of [8; 10; 11; 12; 13; 14; 15; 16; 18; 20; 30; 40])) ["image"].
Definition execTiming : Metric := mkMetric "oci" "exec_timing_seconds" "Timing for launching OCIs"
  (Some (map float64_of [5; 6; 7; 8; 9; 10; 15; 30; 60])) ["image"].
Definition image_labels (image : string) : Labels := {[ "image" := image ]}.

(** [cycle]; [None] when its container is still waited for. *)
Definition pull_cycle (polls : nat) (image : string) : MW (option unit) :=
  ociGauge ← With ociCheck (image_labels image);
  ociHisto ← With ociTiming (image_labels image);
  execGauge ← With execCheck (image_labels image);
  execHisto ← With execTiming (image_labels image);
  taken ← refetch image;
  match taken with
  | Err err =>
      _ ← log_Print (Error err);
      _ ← Set_ ociGauge zero;
      _ ← Set_ execGauge zero;
      mret (Some tt)
  | Ok time_taken =>
      _ ← Set_ ociGauge one;
      _ ← Observe ociHisto time_taken;
      taken ← attemptEcho polls image;
      match taken with
      | None => mret None
      | Some (Err err) =>
          _ ← log_Print (Error err);
          _ ← Set_ execGauge zero;
          mret (Some tt)
      | Some (Ok time_taken_for_exec) =>
          _ ← Set_ execGauge one;
          _ ← Observe execHisto time_taken_for_exec;
          mret (Some tt)
      end
  end.

(** [loop], for its first rounds, each with the number of polls that are looked at; it does not
    get past a round whose container is still waited for. *)
Fixpoint pull_loop (image : string) (rounds : list (nat * bool)) : MW (option unit) :=
  match rounds with
  | [] => mret (Some tt)
  | (polls, closed) :: rounds =>
      t ← time_Now;
      let next_cycle_at := t + 15 * Second in
      r ← pull_cycle polls image;
      match r with
      | None => mret None
      | Some _ =>
          t ← time_Now;
          _ ← select_stop closed (next_delta next_cycle_at t);
          pull_loop image rounds
      end
  end.

Definition pull_main (args : list string) (rounds : list (nat * bool)) (onstop : error) : MW unit :=
  match args with
  | [_; image] =>
      _ ← MustRegister ociCheck;
      _ ← MustRegister execCheck;
      _ ← MustRegister ociTiming;
      _ ← MustRegister execTiming;
      _ ← log_Print "Starting metrics server on: :9103";
      _ ← pull_loop image rounds;
      log_Print ("Stopped metrics server: " +:+ Error onstop)
  | _ => logger_Fatal "expected exactly one argument: <image-to-pull>"
  end.
End monitor.

(** ** What is said to crictl *)

Definition reply_result (r : reply) : result string :=
  match r with Succeeded output => Ok output | ExitError msg _ => Err (ForeignError msg) | NotStarted err => Err err end.
Definition crictl_command (args : list string) : command := mkCommand ("crictl" :: args) None "".

Section talk.
Context {X : Type}.
Implicit Types w : World X.

(** The reply to the [i]-th command from now on. *)
Definition reply_at w (i : nat) : reply := replies (os w) i.
(** Between two states crictl was run with these arguments, one after the other, and no other
    command was. *)
Definition talks w (cmds : list (list string)) w' : Prop :=
  GoOS.ran (os w') = rev (map crictl_command cmds) ++ GoOS.ran (os w) ∧
  ∀ i, replies (os w') i = replies (os w) (length cmds + i)%nat.

Lemma talks_quiet w w' : same_commands w w' → talks w [] w'.
Proof. unfold same_commands, same, talks. by intros [= -> ->]. Qed.
Lemma talks_app w l1 w1 l2 w2 : talks w l1 w1 → talks w1 l2 w2 → talks w (l1 ++ l2) w2.
Proof.
  intros [R1 P1] [R2 P2]. split.
  - by rewrite R2, R1, map_app, rev_app_distr, app_assoc.
  - intros i. by rewrite P2, P1, length_app, Nat.add_assoc.
Qed.
Lemma reply_talks w l w' i : talks w l w' → reply_at w' i = reply_at w (length l + i).
Proof. intros [_ HP]. unfold reply_at. by rewrite HP. Qed.

Lemma crictl_run args w :
  ∃ w', crictl args w = (Return (reply_result (reply_at w 0)), w') ∧ talks w [args] w' ∧ os_only w w' ∧ same_fs w w'.
Proof.
  exists (on_os (λ o, with_commands (later_replies (replies o)) (crictl_command args :: GoOS.ran o) o) w).
  split; [|by split_and!]. unfold crictl, exec_Output, exec_Command, mbind, M_bind, reply_at. simpl.
  by destruct (replies (os w) 0%nat).
Qed.
Lemma crictl_inv args w r w' :
  crictl args w = (Return r, w') → r = reply_result (reply_at w 0) ∧ talks w [args] w' ∧ same_fs w w'.
Proof. intros E. destruct (crictl_run args w) as (w1 & E1 & Ht & _ & Hf). rewrite E in E1. by injection E1 as -> ->. Qed.
End talk.

Section files.
Context {errs : PkgErrors} {multi : MultiError} {X : Type} {names : TempNames X} {rand : MathRand X}.
Implicit Types w : World X.

Lemma createJSON_commands contents : keeps same_commands (createJSONTempfile (X:=X) contents).
Proof. unfold createJSONTempfile. os_frame. Qed.
(** A file is made, that was not there. *)
Lemma createJSON_Ok contents w path w' :
  createJSONTempfile contents w = (Return (Ok path), w') →
  node_at w path = None ∧ ∃ t, fs (os w') = <[path_Clean path := File (contents +:+ newline) 384 t]> (fs (os w)).
Proof.
  unfold createJSONTempfile. intros (file & w1 & Et & H)%try_bind_with_Ok_inv. apply TempFile_inv in Et as [Hn [t Ht]].
  apply bind_inv in H as (written & w2 & Ew & H). apply bind_inv in H as (r & w3 & Er & H).
  apply bind_inv in H as (closed & w4 & Ec & H). destruct closed; [|done]. injection H as -> <-.
  destruct written as [u|e]; [|by apply bind_inv in Er as (? & ? & _ & ?)]. injection Er as -> <-.
  split; [done|]. pose proof (file_Close_fs w2) as Hc. rewrite Ec in Hc. unfold same_fs, same in Hc. simpl in Hc.
  assert (Hw1 : node_at w1 path = Some (File "" 384 t)).
  { unfold node_at in *. case_bool_decide; [done|]. by rewrite Ht, lookup_insert_eq. }
  rewrite <- Hc, (file_Write_Ok _ _ _ _ _ _ _ _ Hw1 Ew), Ht, insert_insert_eq. eauto.
Qed.
(** Taking it away again leaves the tree as it was. *)
Lemma made_and_removed w w1 w2 path n r w' :
  node_at w path = None → fs (os w1) = <[path_Clean path := n]> (fs (os w)) → fs (os w2) = fs (os w1) →
  os_Remove path w2 = (Return (Ok r), w') → fs (os w') = fs (os w).
Proof.
  intros Hn H1 H2 Hr. apply os_Remove_inv in Hr as [Hr _]. rewrite (Hr eq_refl), H2, H1, delete_insert_eq.
  apply delete_id. rewrite <- Hn. apply node_at_fs. by right.
Qed.

Lemma generateUID_frame : keeps same_commands (generateUID (X:=X)) ∧ keeps same_fs (generateUID (X:=X)).
Proof. split; unfold generateUID; os_frame. Qed.
End files.

Section pods.
Context {errs : PkgErrors} {multi : MultiError} {X : Type} {names : TempNames X} {rand : MathRand X}.
Implicit Types w : World X.

(** What crictl said to the [i]-th command from now on. *)
Definition said w (i : nat) (output : string) : Prop := reply_at w i = Succeeded output.
Definition said_id w (i : nat) (id : string) : Prop := ∃ output, said w i output ∧ TrimSpace output = id ∧ len id = 64.
Definition said_state w (i : nat) (state : string) : Prop :=
  ∃ output, said w i output ∧ Unmarshal_inspection output = Ok (Some state).

Lemma crictl_Ok args w output w' :
  crictl args w = (Return (Ok output), w') → said w 0 output ∧ talks w [args] w' ∧ same_fs w w'.
Proof.
  intros (Hr & Ht & Hf)%crictl_inv. split_and!; [|done|done]. unfold said, reply_result in *. by destruct (reply_at w 0); simplify_eq.
Qed.
Lemma said_talks w l w' i output : talks w l w' → said w' i output → said w (length l + i) output.
Proof. intros Ht. unfold said. by rewrite (reply_talks _ _ _ _ Ht). Qed.
Lemma said_id_talks w l w' i id : talks w l w' → said_id w' i id → said_id w (length l + i) id.
Proof. intros Ht (o & Ho & Hi). exists o. split; [by eapply said_talks|done]. Qed.
Lemma said_state_talks w l w' i s : talks w l w' → said_state w' i s → said_state w (length l + i) s.
Proof. intros Ht (o & Ho & Hi). exists o. split; [by eapply said_talks|done]. Qed.
Lemma same_fs_eq w w' : same_fs w w' → fs (os w') = fs (os w).
Proof. unfold same_fs, same. done. Qed.

(** After the commands [before], [cmd] was run when the file at [path] held [contents]. *)
Definition ran_with w (before : list (list string)) (cmd : list string) (path contents : string) : Prop :=
  ∃ wc output wc' t, talks w before wc ∧ crictl cmd wc = (Return (Ok output), wc') ∧
    node_at wc path = Some (File (contents +:+ newline) 384 t).
Lemma ran_with_talks w l w1 before cmd path contents :
  talks w l w1 → ran_with w1 before cmd path contents → ran_with w (l ++ before) cmd path contents.
Proof. intros Ht (wc & o & wc' & t & Hb & E). exists wc, o, wc', t. split; [by eapply talks_app|done]. Qed.
Lemma made_file w w1 path n : node_at w path = None → fs (os w1) = <[path_Clean path := n]> (fs (os w)) → node_at w1 path = Some n.
Proof. intros Hn Hf. unfold node_at in *. case_bool_decide; [done|]. by rewrite Hf, lookup_insert_eq. Qed.

Lemma startPodSandbox_Ok w podid config w' :
  startPodSandbox w = (Return (Ok (podid, config)), w') →
  talks w [["runp"; config]] w' ∧ said_id w 0 podid ∧
  node_at w config = None ∧ (∃ n, fs (os w') = <[path_Clean config := n]> (fs (os w))) ∧
  ∃ uid, ran_with w [] ["runp"; config] config (encode_sandbox (sandbox_config uid)).
Proof.
  unfold startPodSandbox. intros (uid & w1 & Eu & H)%try_bind_with_Ok_inv.
  destruct (generateUID_frame (X:=X)) as [Hgc Hgf]. specialize (Hgc w). specialize (Hgf w). rewrite Eu in Hgc, Hgf. simpl in Hgc, Hgf.
  apply try_bind_with_Ok_inv in H as (path & w2 & Ej & H). pose proof (createJSON_commands (encode_sandbox (sandbox_config uid)) w1) as Hjc.
  rewrite Ej in Hjc. simpl in Hjc. apply createJSON_Ok in Ej as (Hn & t & Hf).
  apply bind_inv in H as (r & w3 & Er & H). destruct r as [output|e]; [|by apply bind_inv in H as (? & ? & _ & ?)].
  assert (Er' := Er). apply crictl_Ok in Er as (Hs & Ht & Hf3). case_bool_decide as Hlen; [by apply bind_inv in H as (? & ? & _ & ?)|].
  injection H as <- <- <-. assert (Hq : talks w [] w2) by (apply talks_quiet; by etrans).
  split_and!.
  - apply (talks_app _ [] _ _ _ Hq Ht).
  - exists output. split_and!; [by apply (said_talks _ [] w2)|done|lia].
  - unfold node_at in *. by rewrite <- (same_fs_eq _ _ Hgf).
  - rewrite (same_fs_eq _ _ Hf3), Hf, (same_fs_eq _ _ Hgf). eauto.
  - exists uid, w2, output, w3, t. split_and!; [done|done|by eapply made_file].
Qed.

Lemma createContainer_Ok image config podid args w id w' :
  createContainer image config podid args w = (Return (Ok id), w') →
  ∃ manifest, talks w [["create"; podid; manifest; config]] w' ∧ said_id w 0 id ∧ fs (os w') = fs (os w) ∧
    ran_with w [] ["create"; podid; manifest; config] manifest (encode_container (container_config image args)).
Proof.
  unfold createContainer. intros (path & w1 & Ej & H)%try_bind_with_Ok_inv.
  pose proof (createJSON_commands (encode_container (container_config image args)) w) as Hjc. rewrite Ej in Hjc. simpl in Hjc.
  apply createJSON_Ok in Ej as (Hn & t & Hf).
  apply bind_inv in H as (p & w2 & Ed & H). apply defer_inv in Ed as (w3 & Em & Er). destruct p as [p r]. simpl in *.
  destruct r as [u|e]; [|done]. injection H as -> <-.
  apply try_bind_with_Ok_inv in Em as (output & w4 & Ec & Em). assert (Ec' := Ec). apply crictl_Ok in Ec as (Hs & Ht & Hf4).
  case_bool_decide as Hlen; [done|]. injection Em as <- <-.
  exists path. assert (Hq : talks w [] w1) by (by apply talks_quiet). split_and!.
  - pose proof (os_Remove_commands path w4) as Hrc. rewrite Er in Hrc. simpl in Hrc.
    apply (talks_app _ [] _ _ _ Hq). rewrite <- (app_nil_r [_]). by eapply talks_app; [|apply talks_quiet].
  - exists output. split_and!; [by apply (said_talks _ [] w1)|done|lia].
  - eapply (made_and_removed w w1 w4 path); [done|done|by apply same_fs_eq|done].
  - exists w1, output, w4, t. split_and!; [done|done|by eapply made_file].
Qed.

Lemma startContainer_Ok id w u w' :
  startContainer id w = (Return (Ok u), w') → talks w [["start"; id]] w' ∧ same_fs w w'.
Proof. intros (o & w1 & Ec & H)%try_bind_Ok_inv. apply crictl_Ok in Ec as (_ & Ht & Hf). by injection H as _ <-. Qed.
Lemma deletePodSandbox_Ok podid w u w' :
  deletePodSandbox podid w = (Return (Ok u), w') → talks w [["stopp"; podid]; ["rmp"; podid]] w' ∧ same_fs w w'.
Proof.
  intros (o & w1 & Ec & H)%try_bind_Ok_inv. apply crictl_Ok in Ec as (_ & Ht & Hf).
  apply try_bind_Ok_inv in H as (o2 & w2 & Ec2 & H). apply crictl_Ok in Ec2 as (_ & Ht2 & Hf2). injection H as _ <-.
  split; [exact (talks_app _ _ _ _ _ Ht Ht2)|by etrans].
Qed.

Definition state_of (running : bool) : string := if running then "CONTAINER_RUNNING" else "CONTAINER_EXITED".
Lemma isContainerRunning_inv id w r w' :
  isContainerRunning id w = (Return r, w') →
  talks w [["inspect"; id]] w' ∧ same_fs w w' ∧ ∀ b, r = Ok b → said_state w 0 (state_of b).
Proof.
  unfold isContainerRunning. intros (o & w1 & Ec & H)%bind_inv. destruct o as [output|e].
  2: { apply crictl_inv in Ec as (_ & Ht & Hf). injection H as <- <-. split_and!; [done|done|by intros]. }
  apply crictl_Ok in Ec as (Hs & Ht & Hf). destruct (Unmarshal_inspection output) as [[state|]|e] eqn:Eu; [|done|].
  2: { injection H as <- <-. split_and!; [done|done|by intros]. }
  repeat case_bool_decide; injection H as <- <-; (split_and!; [done|done|]); intros b [= <-]; exists output; subst state; done.
Qed.

Lemma wait_exit_Ok fuel id : ∀ w w',
  wait_exit fuel id w = (Return (Some (Ok tt)), w') →
  ∃ n, talks w (replicate (S n) ["inspect"; id]) w' ∧ same_fs w w' ∧
    (∀ i, (i < n)%nat → said_state w i "CONTAINER_RUNNING") ∧ said_state w n "CONTAINER_EXITED".
Proof.
  induction fuel as [|fuel IH]; intros w w'; [done|]. cbn [wait_exit]. intros (r & w1 & Er & H)%bind_inv.
  apply isContainerRunning_inv in Er as (Ht & Hf & Hs). destruct r as [[]|e]; [| |done].
  - apply IH in H as (n & Ht2 & Hf2 & Hrun & Hex). exists (S n). split_and!; [|by etrans| |].
    + apply (talks_app _ [_] _ _ _ Ht Ht2).
    + intros [|i] Hi; [by apply (Hs true)|]. apply (said_state_talks _ _ _ _ _ Ht). apply Hrun. lia.
    + apply (said_state_talks _ _ _ _ _ Ht Hex).
  - injection H as <-. exists O. split_and!; [done|done|lia|by apply (Hs false)].
Qed.

(** As long as it is waited for, the container was said to be running. *)
Lemma wait_exit_None polls id : ∀ w w',
  wait_exit polls id w = (Return None, w') →
  talks w (replicate polls ["inspect"; id]) w' ∧ ∀ i, (i < polls)%nat → said_state w i "CONTAINER_RUNNING".
Proof.
  induction polls as [|polls IH]; intros w w'.
  { intros [= <-]. split; [by apply talks_quiet|lia]. }
  cbn [wait_exit]. intros (r & w1 & (Ht & _ & Hs)%isContainerRunning_inv & H)%bind_inv.
  destruct r as [[]|e]; [|done..]. apply IH in H as [Ht2 Hrun]. split; [exact (talks_app _ [_] _ _ _ Ht Ht2)|].
  intros [|i] Hi; [by apply (Hs true)|]. apply (said_state_talks _ _ _ _ _ Ht). apply Hrun. lia.
Qed.
(** When it is said so for ever, it is waited for for ever. *)
Lemma isContainerRunning_said id w :
  said_state w 0 "CONTAINER_RUNNING" →
  ∃ w', isContainerRunning id w = (Return (Ok true), w') ∧ talks w [["inspect"; id]] w'.
Proof.
  intros (output & Ho & Hu). destruct (crictl_run ["inspect"; id] w) as (w' & E & Ht & _ & _).
  unfold said in Ho. rewrite Ho in E. exists w'. split; [|done].
  unfold isContainerRunning. by rewrite (try_bind_with_Ok _ _ _ _ _ _ E), Hu.
Qed.
Lemma wait_exit_running polls id : ∀ w,
  (∀ i, said_state w i "CONTAINER_RUNNING") → ∃ w', wait_exit polls id w = (Return None, w').
Proof.
  induction polls as [|polls IH]; intros w Hs; [by exists w|].
  destruct (isContainerRunning_said id w (Hs 0%nat)) as (w1 & E & Ht).
  destruct (IH w1) as (w' & E').
  - intros i. destruct (Hs (S i)) as (output & Ho & Hu). exists output. split; [|done].
    unfold said in *. by rewrite (reply_talks _ _ _ _ Ht).
  - exists w'. cbn [wait_exit]. by rewrite (bind_Return _ _ _ _ _ E).
Qed.

(** The commands of a container that was run to its end, after [k] others, and what was said. *)
Definition container_commands (image_config podid manifest id : string) (n : nat) : list (list string) :=
  [["create"; podid; manifest; image_config]; ["start"; id]] ++ replicate (S n) ["inspect"; id] ++ [["logs"; id]].
Definition ran_to_end w (k : nat) (id : string) (n : nat) (output : string) : Prop :=
  said_id w k id ∧ (∀ i, (i < n)%nat → said_state w (k + 2 + i) "CONTAINER_RUNNING") ∧
  said_state w (k + 2 + n) "CONTAINER_EXITED" ∧ said w (k + 3 + n) output.

Lemma runContainer_Ok polls image config podid args w output w' :
  runContainer polls image config podid args w = (Return (Ok (Some output)), w') →
  ∃ manifest id n, talks w (container_commands config podid manifest id n) w' ∧ ran_to_end w 0 id n output ∧
    fs (os w') = fs (os w) ∧
    ran_with w [] ["create"; podid; manifest; config] manifest (encode_container (container_config image args)).
Proof.
  unfold runContainer. intros (id & w1 & Ec & H)%try_bind_with_Ok_inv. apply createContainer_Ok in Ec as (m & T1 & S1 & F1 & C1).
  apply try_bind_with_Ok_inv in H as (u & w2 & Es & H). apply startContainer_Ok in Es as [T2 F2].
  apply bind_inv in H as (ex & w3 & Ew & H). destruct ex as [[[]|e]|]; [|done..].
  apply wait_exit_Ok in Ew as (n & T3 & F3 & Hrun & Hex).
  apply try_bind_with_Ok_inv in H as (logs & w4 & El & H). apply crictl_Ok in El as (S4 & T4 & F4). injection H as <- <-.
  assert (T12 := talks_app _ _ _ _ _ T1 T2). assert (T13 := talks_app _ _ _ _ _ T12 T3).
  exists m, id, n. split_and!.
  - unfold container_commands. rewrite app_assoc. by eapply talks_app.
  - split_and!; [done| | |].
    + intros i Hi. apply (said_state_talks _ _ _ _ _ T12). by apply Hrun.
    + apply (said_state_talks _ _ _ _ _ T12 Hex).
    + apply (said_talks _ _ _ _ _ T13) in S4. rewrite length_app, length_replicate in S4. simpl in S4.
      by replace (0 + 3 + n)%nat with (S (S (S n + 0))) by lia.
  - by rewrite (same_fs_eq _ _ F4), (same_fs_eq _ _ F3), (same_fs_eq _ _ F2), F1.
  - done.
Qed.
Lemma ran_to_end_talks w l w' k id n output :
  talks w l w' → ran_to_end w' k id n output → ran_to_end w (length l + k) id n output.
Proof.
  intros Ht (H1 & H2 & H3 & H4). unfold ran_to_end. rewrite <- !Nat.add_assoc. split_and!.
  - by eapply said_id_talks.
  - intros i Hi. rewrite <- !Nat.add_assoc. eapply said_state_talks; [done|]. rewrite !Nat.add_assoc. by apply H2.
  - eapply said_state_talks; [done|]. by rewrite !Nat.add_assoc.
  - eapply said_talks; [done|]. by rewrite !Nat.add_assoc.
Qed.

Lemma end_pod_inv podid out err w out' w' :
  end_pod podid out err w = (Return (Some (out', None)), w') →
  err = None ∧ out' = out ∧ deletePodSandbox podid w = (Return (Ok tt), w').
Proof. unfold end_pod. intros ([[]|e] & w1 & E & H)%bind_inv; [|done]. by injection H as <- -> <-. Qed.

(** C20: When a container was run without an error, exactly these commands were run: a sandbox, a
    container in it that is started, asked for until it has exited, and whose logs are what is
    returned; then the sandbox is stopped and removed. The sandbox was made from a file with its
    configuration, and the container from one with the image and the command asked for. No file
    is left behind. *)
Theorem runPod_spec polls image args w output w' :
  runPod polls image args w = (Return (Some (output, None)), w') →
  ∃ podid config manifest id n uid,
    talks w ([["runp"; config]] ++ container_commands config podid manifest id n ++ [["stopp"; podid]; ["rmp"; podid]]) w' ∧
    said_id w 0 podid ∧ ran_to_end w 1 id n output ∧ fs (os w') = fs (os w) ∧
    ran_with w [] ["runp"; config] config (encode_sandbox (sandbox_config uid)) ∧
    ran_with w [["runp"; config]] ["create"; podid; manifest; config] manifest (encode_container (container_config image args)).
Proof.
  unfold runPod. intros (sb & w1 & Es & H)%bind_inv. destruct sb as [[podid config]|e]; [|done].
  apply startPodSandbox_Ok in Es as (T1 & S1 & Hn & [node F1] & uid & C1).
  apply bind_inv in H as (p & w2 & Ed & H). destruct p as [p|]; [|done]. apply defer_ended_inv in Ed as (w3 & Em & Er).
  destruct p as [[out err] r]. simpl in *. destruct r as [u|e]; [|done]. injection H as -> -> <-.
  apply bind_inv in Em as (r & w4 & Ec & Em). destruct r as [[out'|]|e]; [|done|by apply end_pod_inv in Em as (? & _)].
  apply end_pod_inv in Em as (_ & -> & Ep). apply deletePodSandbox_Ok in Ep as [T5 F5].
  apply runContainer_Ok in Ec as (m & id & n & T4 & R4 & F4 & C4).
  exists podid, config, m, id, n, uid. split_and!.
  - pose proof (os_Remove_commands config w3) as Hrc. rewrite Er in Hrc. simpl in Hrc.
    exact (talks_app _ _ _ _ _ T1 (talks_app _ _ _ _ _ T4 (talks_app _ _ _ [] _ T5 (talks_quiet _ _ Hrc)))).
  - done.
  - exact (ran_to_end_talks w [["runp"; config]] w1 0 id n _ T1 R4).
  - eapply (made_and_removed w w1 w3 config); [done|done| |done]. by rewrite (same_fs_eq _ _ F5), F4.
  - done.
  - by apply (ran_with_talks w [["runp"; config]] w1 []).
Qed.

(** *** Every end *)

Definition nil_pointer : string := "invalid memory address or nil pointer dereference".

(** Relative to the files of [w0]: none of them is touched, and what is returned satisfies [Q];
    there is no panic but that of a response without a status. *)
Definition guarded w0 {A} (m : M (World X) A) (Q : A → Prop) : Prop := ∀ w,
  fs_only (λ q, fs (os w0) !! q = None) w0 w →
  fs_only (λ q, fs (os w0) !! q = None) w0 (m w).2 ∧
  match (m w).1 with Return a => Q a | Panic why => why = nil_pointer | Exit _ => False end.

Lemma guarded_bind w0 {A B} (m : M (World X) A) (f : A → M (World X) B) (P : A → Prop) Q :
  guarded w0 m P → (∀ a, P a → guarded w0 (f a) Q) → guarded w0 (m ≫= f) Q.
Proof.
  intros Hm Hf w Hw. specialize (Hm w Hw). unfold mbind, M_bind. destruct (m w) as [[a|?|?] w1]; simpl in *; [|done..].
  destruct Hm as [Hw1 Ha]. by apply (Hf a Ha w1).
Qed.
Lemma guarded_ret w0 {A} (a : A) (Q : A → Prop) : Q a → guarded w0 (mret (M:=M (World X)) a) Q.
Proof. by intros. Qed.
Lemma guarded_quiet w0 {A} (m : M (World X) A) : returns m → keeps same_fs m → guarded w0 m (λ _, True).
Proof.
  intros Hr Hf w Hw. specialize (Hf w). destruct (Hr w) as [a ->]. split; [|done].
  intros q Hq. rewrite <- (Hw q Hq). unfold same_fs, same in Hf. by rewrite Hf.
Qed.
Lemma guarded_file w0 p {A} (m : M (World X) A) :
  fs (os w0) !! path_Clean p = None → returns m → keeps (fs_only (eq (path_Clean p))) m → guarded w0 m (λ _, True).
Proof.
  intros Hp Hr Hf w Hw. specialize (Hf w). destruct (Hr w) as [a ->]. split; [|done].
  intros q Hq. rewrite Hf, (Hw q Hq); [done|]. by intros <-.
Qed.
Lemma guarded_defer w0 {A B} (m : M (World X) A) (cleanup : M (World X) B) (Q : A → Prop) :
  guarded w0 m Q → guarded w0 cleanup (λ _, True) → returns cleanup → guarded w0 (defer m cleanup) (λ p, Q p.1).
Proof.
  intros Hm Hc Hr w Hw. specialize (Hm w Hw). unfold defer, mbind, M_bind. destruct (m w) as [[a|why|c] w1]; simpl in *; [..|done].
  - destruct Hm as [Hw1 Ha]. destruct (Hc w1 Hw1) as [Hw2 _]. destruct (Hr w1) as [b Hb]. destruct (cleanup w1) as [o w2].
    simpl in *. by subst o.
  - destruct Hm as [Hw1 Ha]. destruct (Hc w1 Hw1) as [Hw2 _]. destruct (Hr w1) as [b Hb]. destruct (cleanup w1) as [o w2].
    simpl in *. by subst o.
Qed.
Lemma guarded_defer_ended w0 {A B} (m : M (World X) (option A)) (cleanup : M (World X) B) :
  guarded w0 m (λ _, True) → guarded w0 cleanup (λ _, True) → returns cleanup →
  guarded w0 (defer_ended m cleanup) (λ _, True).
Proof.
  intros Hm Hc Hr w Hw. specialize (Hm w Hw). unfold defer_ended, mbind, M_bind. destruct (m w) as [[[a|]|why|c] w1]; simpl in *; [..|done].
  2: done.
  all: destruct Hm as [Hw1 Ha]; destruct (Hc w1 Hw1) as [Hw2 _]; destruct (Hr w1) as [b Hb]; destruct (cleanup w1) as [o w2];
    simpl in *; by subst o.
Qed.
Lemma guarded_try w0 {A B} (m : M (World X) (result A)) (f : A → M (World X) (result B)) (P : A → Prop) (Q : result B → Prop) :
  guarded w0 m (λ r, ∀ a, r = Ok a → P a) → (∀ a, P a → guarded w0 (f a) Q) → (∀ e, Q (Err e)) → guarded w0 (try_bind f m) Q.
Proof. intros Hm Hf Hq. eapply guarded_bind; [exact Hm|]. intros [a|e] Ha; [by apply Hf, Ha|by apply guarded_ret]. Qed.
Lemma guarded_try_with w0 x {A B} (m : M (World X) (result A)) (f : A → M (World X) (result B)) (P : A → Prop) (Q : result B → Prop) :
  guarded w0 m (λ r, ∀ a, r = Ok a → P a) → (∀ a, P a → guarded w0 (f a) Q) → (∀ e, Q (Err e)) →
  guarded w0 (try_bind_with x f m) Q.
Proof. intros Hm Hf Hq. eapply guarded_bind; [exact Hm|]. intros [a|e] Ha; [by apply Hf, Ha|by apply guarded_ret]. Qed.
Lemma guarded_mono w0 {A} (m : M (World X) A) (P Q : A → Prop) : (∀ a, P a → Q a) → guarded w0 m P → guarded w0 m Q.
Proof. intros HPQ Hm w Hw. destruct (Hm w Hw) as [H1 H2]. split; [done|]. destruct (m w).1; auto. Qed.
Lemma guarded_returns w0 {A} (m : M (World X) A) (Q : A → Prop) :
  guarded w0 m (λ _, True) → (∀ w a w', m w = (Return a, w') → Q a) → guarded w0 m Q.
Proof. intros Hm Hq w Hw. destruct (Hm w Hw) as [H1 H2]. specialize (Hq w). destruct (m w) as [[a|?|?] w']; simpl in *; eauto. Qed.

Section guard.
Context (w0 : World X).
Abbreviation fresh p := (fs (os w0) !! path_Clean p = None).

Lemma guarded_crictl args : guarded w0 (crictl args) (λ _, True).
Proof. apply guarded_quiet; unfold crictl; eauto with go. Qed.
Lemma guarded_Remove p : fresh p → guarded w0 (os_Remove p) (λ _, True).
Proof. intros Hp. apply (guarded_file w0 p); [done|apply os_Remove_returns|apply os_Remove_fs]. Qed.
Lemma guarded_TempFile prefix : guarded w0 (TempFile prefix) (λ r, ∀ p, r = Ok p → fresh p).
Proof.
  intros w Hw. destruct (TempFile_returns prefix w) as [r Hr]. destruct (TempFile prefix w) as [o w'] eqn:E. simpl in *.
  subst o. apply TempFile_inv in E. destruct r as [name|e].
  - destruct E as [Hn [t Ht]]. assert (Hc : fresh name).
    { destruct (fs (os w0) !! path_Clean name) eqn:Ew; [|done]. rewrite <- (Hw _) in Ew; [|congruence].
      unfold node_at in Hn. case_bool_decide; [done|congruence]. }
    split; [|by intros p [= <-]]. intros q Hq. rewrite Ht, lookup_insert_ne; [by apply Hw|congruence].
  - split; [|done]. intros q Hq. rewrite E. by apply Hw.
Qed.
Lemma guarded_createJSON contents : guarded w0 (createJSONTempfile contents) (λ r, ∀ p, r = Ok p → fresh p).
Proof.
  unfold createJSONTempfile. eapply guarded_try_with; [apply guarded_TempFile| |done]. intros file Hf.
  eapply guarded_bind; [apply (guarded_file w0 file); [done|apply file_Write_returns|apply file_Write_fs]|]. intros written _.
  eapply (guarded_bind w0 _ _ (λ r, ∀ p, r = Ok p → fresh p)).
  - destruct written; [by apply guarded_ret; intros p [= <-]|].
    eapply guarded_bind; [by apply guarded_Remove|]. intros removed _. by apply guarded_ret.
  - intros r Hr. eapply guarded_bind; [apply guarded_quiet; eauto with go|]. intros [u|e] _; by apply guarded_ret.
Qed.
Lemma guarded_startPodSandbox :
  guarded w0 startPodSandbox (λ r, ∀ podid config, r = Ok (podid, config) → fresh config).
Proof.
  unfold startPodSandbox. eapply (guarded_try_with w0 _ _ _ (λ _, True)); [|intros uid _|done].
  { eapply guarded_mono; [|apply guarded_quiet; unfold generateUID; os_frame]. done. }
  eapply guarded_try_with; [apply guarded_createJSON| |done]. intros config Hc.
  eapply guarded_bind; [apply guarded_crictl|]. intros [output|e] _.
  - case_bool_decide; [|by apply guarded_ret; intros ?? [= <- <-]].
    eapply guarded_bind; [by apply guarded_Remove|]. intros _ _. by apply guarded_ret.
  - eapply guarded_bind; [by apply guarded_Remove|]. intros removed _. by apply guarded_ret.
Qed.
Lemma guarded_createContainer image config podid args : guarded w0 (createContainer image config podid args) (λ _, True).
Proof.
  unfold createContainer. eapply guarded_try_with; [apply guarded_createJSON| |done]. intros manifest Hm.
  eapply (guarded_bind w0 _ _ (λ _, True)); [|by intros [r [u|e]] _; apply guarded_ret].
  eapply guarded_mono; [|apply (guarded_defer w0 _ _ (λ _, True))]; [done| |by apply guarded_Remove|apply os_Remove_returns].
  eapply (guarded_try_with w0 _ _ _ (λ _, True)); [eapply guarded_mono; [|apply guarded_crictl]; done| |done].
  intros output _. by case_bool_decide; apply guarded_ret.
Qed.
Lemma guarded_isContainerRunning id : guarded w0 (isContainerRunning id) (λ _, True).
Proof.
  unfold isContainerRunning. eapply (guarded_try_with w0 _ _ _ (λ _, True)); [eapply guarded_mono; [|apply guarded_crictl]; done| |done].
  intros output _. destruct (Unmarshal_inspection output) as [[state|]|e]; [|done|by apply guarded_ret].
  by repeat case_bool_decide; apply guarded_ret.
Qed.
Lemma guarded_wait_exit fuel id : guarded w0 (wait_exit fuel id) (λ _, True).
Proof.
  induction fuel as [|fuel IH]; [by apply guarded_ret|]. cbn [wait_exit].
  eapply guarded_bind; [apply guarded_isContainerRunning|]. by intros [[]|e] _; [|apply guarded_ret..].
Qed.
Lemma guarded_runContainer polls image config podid args :
  guarded w0 (runContainer polls image config podid args) (λ _, True).
Proof.
  unfold runContainer.
  eapply (guarded_try_with w0 _ _ _ (λ _, True)); [eapply guarded_mono; [|apply guarded_createContainer]; done|intros id _|done].
  eapply (guarded_try_with w0 _ _ _ (λ _, True)); [|intros _ _|done].
  { eapply guarded_mono; [|apply guarded_quiet; unfold startContainer, crictl; os_frame]. done. }
  eapply guarded_bind; [apply guarded_wait_exit|]. intros [[[]|e]|] _; [|by apply guarded_ret..].
  eapply (guarded_try_with w0 _ _ _ (λ _, True)); [eapply guarded_mono; [|apply guarded_crictl]; done|intros logs _|done].
  by apply guarded_ret.
Qed.
Lemma guarded_end_pod podid out err : guarded w0 (end_pod podid out err) (λ _, True).
Proof.
  unfold end_pod. eapply guarded_bind; [apply guarded_quiet; unfold deletePodSandbox, crictl; os_frame|].
  intros d _. by apply guarded_ret.
Qed.
End guard.

Lemma guarded_runPod polls image args w : guarded w (runPod polls image args) (λ _, True).
Proof.
  unfold runPod. eapply guarded_bind; [apply guarded_startPodSandbox|]. intros [[podid config]|e] Hs; [|by apply guarded_ret].
  specialize (Hs _ _ eq_refl). eapply (guarded_bind w _ _ (λ _, True)); [|by intros [[? [u|e]]|] _; apply guarded_ret].
  apply guarded_defer_ended; [|by apply guarded_Remove|apply os_Remove_returns].
  eapply guarded_bind; [apply guarded_runContainer|]. intros [[out|]|e] _; [|by apply guarded_ret|]; apply guarded_end_pod.
Qed.

(** [w'] is the state in which the container [id] of this call was just started. *)
Definition container_started image args w id w' : Prop :=
  ∃ podid config w1 w2, startPodSandbox w = (Return (Ok (podid, config)), w1) ∧
    createContainer image config podid args w1 = (Return (Ok id), w2) ∧ startContainer id w2 = (Return (Ok tt), w').

(** The call is not over exactly when its container was started and is waited for. *)
Lemma runPod_None polls image args w w' :
  runPod polls image args w = (Return None, w') ↔
  ∃ id w3, container_started image args w id w3 ∧ wait_exit polls id w3 = (Return None, w').
Proof.
  unfold runPod, container_started. split.
  - intros (sb & w1 & Es & H)%bind_inv. destruct sb as [[podid config]|e]; [|done].
    apply bind_inv in H as (p & wd & Ed & H). destruct p as [[res [u|e]]|]; [done..|]. injection H as <-.
    apply defer_ended_None, bind_inv in Ed as (r & wr & Er & H).
    destruct r as [[out|]|e]; [by apply bind_inv in H as (? & ? & _ & ?)| |by apply bind_inv in H as (? & ? & _ & ?)].
    injection H as <-. apply try_bind_with_Ok_inv in Er as (id & w2 & Ec & Er).
    apply try_bind_with_Ok_inv in Er as ([] & w3 & Et & Er). apply bind_inv in Er as (ex & w4 & Ew & Er).
    destruct ex as [[[]|e]|]; [by apply try_bind_with_Ok_inv in Er as (? & ? & _ & ?)|done|]. injection Er as <-.
    exists id, w3. split; [|done]. by exists podid, config, w1, w2.
  - intros (id & w3 & (podid & config & w1 & w2 & Es & Ec & Et) & Ew). rewrite (bind_Return _ _ _ _ _ Es).
    rewrite (bind_Return _ _ _ None w'); [done|]. apply defer_ended_None.
    rewrite (bind_Return _ _ _ (Ok None) w'); [done|]. unfold runContainer.
    rewrite (try_bind_with_Ok _ _ _ _ _ _ Ec), (try_bind_with_Ok _ _ _ _ _ _ Et). by rewrite (bind_Return _ _ _ _ _ Ew).
Qed.
Lemma container_started_talks image args w id w' :
  container_started image args w id w' → ∃ l, length l = 3%nat ∧ talks w l w'.
Proof.
  intros (podid & config & w1 & w2 & Es & Ec & Et).
  apply startPodSandbox_Ok in Es as (T1 & _). apply createContainer_Ok in Ec as (m & T2 & _). apply startContainer_Ok in Et as [T3 _].
  eexists. split; [|exact (talks_app _ _ _ _ _ T1 (talks_app _ _ _ _ _ T2 T3))]. done.
Qed.

(** C21: When running a container ends. If some answer to the questions about it (which come
    after the commands that make its sandbox, make it and start it) does not say that it is
    running, the call ends no later than there, with a result or with the panic of an answer
    without a status. If all of them say that it is running, a call that started its container
    never ends: after any number of questions it is about to ask the next one, and the sandbox
    is not taken down; there is no timeout. In every case, no file that was there is changed. *)
Theorem runPod_ends image args w :
  (∀ polls q n, fs (os w) !! q = Some n → fs (os (runPod polls image args w).2) !! q = Some n) ∧
  (∀ n polls, ¬ said_state w (3 + n) "CONTAINER_RUNNING" → (n < polls)%nat →
     (∃ r, (runPod polls image args w).1 = Return (Some r)) ∨ (runPod polls image args w).1 = Panic nil_pointer) ∧
  (∀ id w3, container_started image args w id w3 → (∀ n, said_state w (3 + n) "CONTAINER_RUNNING") →
     ∀ polls, ∃ w', runPod polls image args w = (Return None, w') ∧ talks w3 (replicate polls ["inspect"; id]) w').
Proof.
  split_and!.
  - intros polls q n Hq. destruct (guarded_runPod polls image args w w) as [H1 _]; [done|]. rewrite H1; [done|]. congruence.
  - intros n polls Hn Hlt. destruct (guarded_runPod polls image args w w) as [_ H2]; [done|].
    destruct (runPod polls image args w) as [[[r|]|why|c] w'] eqn:E; simpl in *; [left; eauto| |right; by f_equal|done].
    apply runPod_None in E as (id & w3 & (l & Hl & Ht)%container_started_talks & [_ Hrun]%wait_exit_None).
    destruct Hn. apply (Hrun n), (said_state_talks _ _ _ _ _ Ht) in Hlt. by rewrite Hl in Hlt.
  - intros id w3 Hs Hrun polls. pose proof Hs as (l & Hl & Ht)%container_started_talks.
    destruct (wait_exit_running polls id w3) as (w' & Ew).
    { intros i. destruct (Hrun i) as (output & Ho & Hu). exists output. split; [|done]. unfold said in *.
      by rewrite (reply_talks _ _ _ _ Ht), Hl. }
    exists w'. split; [by apply runPod_None; exists id, w3|]. by apply wait_exit_None in Ew as [Ht' _].
Qed.
End pods.

Module SamplePull.
#[export] Existing Instance PkgErrorsImpl.impl.
#[export] Instance pairs : MultiError := {|
  multierror_Append a b := errors_New (from_option Error "" a +:+ "; " +:+ from_option Error "" b)
|}.
(** Names and numbers are made of the number of commands that were run. *)
Definition commands_run (w : World unit) : Z := Z.of_nat (length (GoOS.ran (os w))).
#[export] Program Instance counted_names : TempNames unit := {| nextRandom := gets (λ w, FormatInt (commands_run w)) |}.
Solve Obligations with (apply returns_gets || (apply keeps_gets, _)).
#[export] Program Instance counted_numbers : MathRand unit := {| rand_Uint64 := gets commands_run |}.
Solve Obligations with (apply returns_gets || (apply keeps_gets, _)).

Definition sandbox_id : string := Join (replicate 8 "5a5a5a5a") "".
Definition container_id : string := Join (replicate 8 "c0c0c0c0") "".
Definition inspected (state : string) : reply :=
  Succeeded (Marshal_object [("status", Marshal_object [("state", Marshal_string state)])]).
Definition pull_world_with (r : nat → reply) : World unit :=
  mkWorld (with_commands r [] (with_fs {[ "/tmp" := Dir ]} (with_entropy ["0123456789abcdef"] (os0 0)))) tt.
Definition start_replies : list reply :=
  [Succeeded (sandbox_id +:+ newline); Succeeded (container_id +:+ newline); Succeeded ""].
Definition pull_world (inspections : list reply) : World unit := pull_world_with (answering (start_replies ++ inspections)).
Definition echo_args : list string := ["/usr/bin/pullcheck"; "!1!"].
Definition good_world : World unit := pull_world
  [inspected "CONTAINER_RUNNING"; inspected "CONTAINER_EXITED"; Succeeded "hello"; Succeeded ""; Succeeded ""].

Example run_ex : (runPod 2 "img" echo_args good_world).1 = Return (Some ("hello", None)).
Proof. vm_compute. reflexivity. Qed.
(** A response without a status: a panic, and the sandbox is left running. *)
Example no_status :
  let r := runPod 1 "img" echo_args (pull_world [Succeeded "{}"]) in
  r.1 = Panic nil_pointer ∧ map (λ c, nth 1 (cmd_args c) "") (GoOS.ran (os r.2)) = ["inspect"; "start"; "create"; "runp"].
Proof. vm_compute. done. Qed.
(** So it is when what [runp] printed is not an id. *)
Example no_id :
  let r := runPod 0 "img" echo_args (pull_world_with (answering [Succeeded "5a"])) in
  is_Some (match r.1 with Return (Some (_, e)) => e | _ => None end) ∧
  map (λ c, nth 1 (cmd_args c) "") (GoOS.ran (os r.2)) = ["runp"].
Proof. vm_compute. split; [eauto|done]. Qed.

Lemma runPod_spec_witness :
  match runPod 2 "img" echo_args good_world with
  | (Return (Some (output, None)), w') => fs (os w') = fs (os good_world) ∧ output = "hello"
  | _ => False
  end.
Proof.
  assert (H := run_ex). destruct (runPod 2 "img" echo_args good_world) as [o w'] eqn:E. simpl in H. subst o.
  apply (runPod_spec 2 "img" echo_args good_world "hello" w') in E. destruct E as (? & ? & ? & ? & ? & ? & _ & _ & _ & Hf & _). done.
Defined.

(** A container that never exits. *)
Definition hung_world : World unit :=
  pull_world_with (λ i, default (inspected "CONTAINER_RUNNING") (start_replies !! i)).
Lemma hung_started : ∃ w3, container_started "img" echo_args hung_world container_id w3.
Proof.
  set (s1 := startPodSandbox hung_world). set (config := match s1.1 with Return (Ok p) => p.2 | _ => "" end).
  set (s2 := createContainer "img" config sandbox_id echo_args s1.2). set (s3 := startContainer container_id s2.2).
  assert (E1 : s1.1 = Return (Ok (sandbox_id, config))) by (vm_compute; reflexivity).
  assert (E2 : s2.1 = Return (Ok container_id)) by (vm_compute; reflexivity).
  assert (E3 : s3.1 = Return (Ok tt)) by (vm_compute; reflexivity).
  exists s3.2, sandbox_id, config, s1.2, s2.2. rewrite <- E1, <- E2, <- E3. unfold s1, s2, s3.
  split_and!; apply surjective_pairing.
Qed.
Lemma hung_running n : said_state hung_world (3 + n) "CONTAINER_RUNNING".
Proof. eexists. split; [reflexivity|]. vm_compute. reflexivity. Qed.

Lemma runPod_ends_witness :
  (∃ r, (runPod 2 "img" echo_args good_world).1 = Return (Some r)) ∧
  ∀ polls, ∃ w', runPod polls "img" echo_args hung_world = (Return None, w').
Proof.
  split.
  - destruct (proj1 (proj2 (runPod_ends "img" echo_args good_world)) 1%nat 2%nat) as [H|H]; [|lia|exact H|].
    + intros (output & [= <-] & Hu). vm_compute in Hu. discriminate Hu.
    + rewrite run_ex in H. discriminate H.
  - intros polls. destruct hung_started as (w3 & Hs).
    destruct (proj2 (proj2 (runPod_ends "img" echo_args hung_world)) container_id w3 Hs hung_running polls) as (w' & E & _).
    exists w'. exact E.
Defined.
End SamplePull.
