(* ===== verification/AuthMonitor.v ===== *)
(** * The monitor of the key system

    [auth-monitor]: a loop that fetches from the key server what a node fetches, goes through
    the key gateway with a Kerberos ticket, has an SSH certificate granted, and logs in to
    every server of the setup with it. SSH, [kinit] and the key server are outside. *)

From S2P Require Import Prelude GoStrings GoNet GoOS Exits Paths StrUtil GoErrors GoCrypto CertUtil Samples Authorities Api KsState WorldConfig Keygen GoTime GoJSON GoTemp Prom.
#[local] Open Scope Z_scope.
#[export] Set Default Goal Selector "!".

(** ** golang.org/x/crypto/ssh, and kinit *)

Abbreviation HostKeyCheck := (string → string → ssh_PublicKey → result unit).
Record ssh_ClientConfig := mkSSHConfig {
  ssh_Timeout : Z;
  ssh_User : string;
  HostKeyAlgorithms : list string;
  HostKeyCallback : HostKeyCheck;     (* the host name, the remote address, and the key *)
  ssh_Auth : list ssh_Signer
}.
Definition CertAlgoRSAv01 : string := "ssh-rsa-cert-v01@openssh.com".

(** A connection shows the host key that it was made with, which its callback accepted. The
    checker of certificates, when it has only [IsHostAuthority], accepts nothing else than
    certificates of hosts, by an authority that [IsHostAuthority] knows. *)
Class SSHClient (X : Type) := {
  ssh_Client : Type;
  ssh_Session : Type;
  ssh_NewSignerFromKey : rsa_PrivateKey → result ssh_Signer;
  ssh_NewCertSigner : ssh_PublicKey * ssh_CertBody → ssh_Signer → result ssh_Signer;
  SignatureKey : ssh_CertBody → ssh_PublicKey;
  CheckHostKey : (ssh_PublicKey → string → bool) → HostKeyCheck;
  ssh_Dial : string → string → ssh_ClientConfig → M (World X) (result ssh_Client);
  host_key : ssh_Client → ssh_PublicKey;
  NewSession : ssh_Client → M (World X) (result ssh_Session);
  session_Output : ssh_Session → string → M (World X) (result string);
  session_Close : ssh_Session → M (World X) (result unit);
  client_Close : ssh_Client → M (World X) (result unit);
  Dial_checked network addr conf w c w' : ssh_Dial network addr conf w = (Return (Ok c), w') →
    ∃ remote, HostKeyCallback conf addr remote (host_key c) = Ok tt;
  CheckHostKey_sound authority addr remote key : CheckHostKey authority addr remote key = Ok tt →
    ∃ k body, key = SSHCertificate k body ∧ ssh_CertType body = HostCert ∧ authority (SignatureKey body) addr = true
}.
(** The program kinit, which writes a cache of tickets: its arguments, and its environment. *)
Class Kinit (X : Type) := { kinit_Run : list string → list string → M (World X) (result unit) }.

Section auth_monitor.
Context {errs : PkgErrors} {packages : Crypto} {keys : NewKeys} {yaml : Yaml} {prom : Prometheus} {X : Type}
  {mets : HasMetrics X} {net : Network X} {names : TempNames X} {ssh : SSHClient X} {krb : Kinit X}.
Abbreviation MW := (M (World X)).

Definition fetchCheck : Metric := mkMetric "keysystem" "fetch_static_check"
  "Check for whether static files can be fetched" None [].
Definition keyCheck : Metric := mkMetric "keysystem" "fetch_authority_check"
  "Check for whether authority pubkeys can be fetched" None [].
Definition authCheck : Metric := mkMetric "keysystem" "gateway_auth_check"
  "Check for whether the keygateway accepts authentication" None [].
Definition grantCheck : Metric := mkMetric "keysystem" "ssh_grant_check"
  "Check for whether ssh certs can be granted" None [].
Definition sshCheck : Metric := mkMetric "keysystem" "ssh_access_check"
  "Check for whether servers can be accessed over ssh" None ["server"].
Definition server_labels (dns : string) : Labels := {[ "server" := dns ]}.

(** The authority that [attemptSSHAccess] makes its checker of host keys with. *)
Definition is_host_ca (host_ca auth : ssh_PublicKey) (address : string) : bool :=
  bool_decide (ssh_Type auth = ssh_Type host_ca) && bool_decide (ssh_Marshal auth = ssh_Marshal host_ca).
Definition attemptSSHAccess (pkey : rsa_PrivateKey) (cert : ssh_PublicKey * ssh_CertBody) (host_ca : ssh_PublicKey)
    (machine : string) : MW (result unit) :=
  rawSigner ←? mret (ssh_NewSignerFromKey pkey);
  signer ←? mret (ssh_NewCertSigner cert rawSigner);
  client ←? ssh_Dial "tcp" (machine +:+ ":22")
    (mkSSHConfig (Second * 10) "root" [CertAlgoRSAv01] (CheckHostKey (is_host_ca host_ca)) [signer]);
  p ← defer
    (session ←? NewSession client;
     q ← defer
       (result ←? session_Output session "echo 'bidirectionality test'";
        if bool_decide (result ≠ "bidirectionality test" +:+ newline)
        then fail (ErrorString ("incorrect ssh echo result: '" +:+ result +:+ "'"))
        else ok tt)
       (session_Close session);
     mret q.1)
    (client_Close client);
  mret p.1.

(** The error of [ParseAuthorizedKey] is not looked at, but then there is no certificate. *)
Definition attemptSSHAcquire (keyserver : ServerEndpoint) : MW (result (rsa_PrivateKey * (ssh_PublicKey * ssh_CertBody))) :=
  keypair ←? tls_LoadX509KeyPair GrantingCertPath GrantingKeyPath;
  r ← rand_chunk;
  privkey ←? mret (rsa_GenerateKey r 2048);
  pubkey ←? mret (ssh_NewPublicKey (RSAPublicKey (rsa_N privkey)));
  rt ←? mret (AuthenticateWithCert keyserver keypair);
  rt ←? Impersonate rt ImpersonateKerberosAPI "metrics@NONEXISTENT.REALM.INVALID";
  resp ←? SendRequest rt AccessSSHAPI (ssh_MarshalAuthorizedKey pubkey);
  if bool_decide (resp = "") then fail (ErrorString "empty ssh cert")
  else
    match ssh_ParseAuthorizedKey resp with
    | Ok (SSHCertificate key body, _) => ok (privkey, (key, body))
    | _ => fail (ErrorString "not a ssh cert")
    end.

Definition attemptKAuth (keyserver : ServerEndpoint) : MW (result unit) :=
  f ←? TempFile "krb5cc_keygateway_checker_";
  p ← defer
    (file_Close ;?
     hostport ←? GetKeyserver;
     host ← match Split hostport ":" with h :: _ => mret h | [] => panic "index out of range" end;
     env ← os_Environ;
     kinit_Run ["kinit"; "-l2m"; "-k"; "host/" +:+ host] (ModifiedEnviron env "KRB5CCNAME" f) ;?
     contents ←? ReadFile f;
     if bool_decide (len contents = 0) then fail (ErrorString "expected ticket cache to be populated")
     else
       rt ←? mret (AuthenticateWithKerberosTicketsInCache keyserver f);
       _ ←? SendRequests rt [];
       ok tt)
    (os_Remove f);
  mret p.1.

(** The first checks of a cycle. *)
Definition check_static (keyserver : ServerEndpoint) : MW unit :=
  clusterconf ← GetStatic keyserver ClusterConfStatic;
  match clusterconf with
  | Err err =>
      _ ← Gauge_Set fetchCheck zero;
      log_Print ("failed fetch of keyserver static: " +:+ Error err)
  | Ok clusterconf =>
      expected ← ReadFile ClusterConfigPath;
      match expected with
      | Err err =>
          _ ← Gauge_Set fetchCheck zero;
          log_Print ("failed to load config for static comparison: " +:+ Error err)
      | Ok expected =>
          if bool_decide (clusterconf ≠ expected) then
            _ ← Gauge_Set fetchCheck zero;
            log_Print ("mismatch between static cluster config (" +:+ FormatInt (len clusterconf) +:+
              " bytes) and expected cluster config (" +:+ FormatInt (len expected) +:+ " bytes)")
          else Gauge_Set fetchCheck one
      end
  end.
Definition check_kerberos (keyserver : ServerEndpoint) : MW unit :=
  err ← attemptKAuth keyserver;
  match err with
  | Err err =>
      _ ← Gauge_Set authCheck zero;
      log_Print ("failed verification of keygateway connection: " +:+ Error err)
  | Ok _ => Gauge_Set authCheck one
  end.

(** The name of a machine of the setup. *)
Definition machine_DNS (machine : option SpireNode) : outcome string := n ← node_deref machine; DNS n.
Definition unreachable (machine : option SpireNode) : MW unit :=
  dns ← liftO (machine_DNS machine);
  gauge ← With sshCheck (server_labels dns);
  Set_ gauge zero.
Definition check_access (pkey : rsa_PrivateKey) (cert : ssh_PublicKey * ssh_CertBody) (host_ca : ssh_PublicKey)
    (machine : option SpireNode) : MW unit :=
  dns ← liftO (machine_DNS machine);
  err ← attemptSSHAccess pkey cert host_ca dns;
  gauge ← With sshCheck (server_labels dns);
  match err with
  | Err err =>
      _ ← log_Print ("failed SSH access check for " +:+ dns +:+ ": " +:+ Error err);
      Set_ gauge zero
  | Ok _ => Set_ gauge one
  end.
(** The checks of SSH, with the machines of the setup. *)
Definition check_ssh (keyserver : ServerEndpoint) (host_ca_pub : string) (setupconfig : SpireSetup) : MW unit :=
  acquired ← attemptSSHAcquire keyserver;
  match acquired with
  | Err err =>
      _ ← Gauge_Set grantCheck zero;
      _ ← for_all unreachable (Nodes setupconfig);
      log_Print ("failed SSH grant check: " +:+ Error err)
  | Ok (pkey, cert) =>
      _ ← Gauge_Set grantCheck one;
      match ssh_ParseAuthorizedKey host_ca_pub with
      | Err _ =>
          _ ← for_all unreachable (Nodes setupconfig);
          log_Print "failed to decode host_ca pubkey"
      | Ok (host_ca, _) => for_all (check_access pkey cert host_ca) (Nodes setupconfig)
      end
  end.

Definition auth_cycle (keyserver : ServerEndpoint) : MW unit :=
  host_ca_pub ← GetPubkey keyserver SSHHostAuthority;
  match host_ca_pub with
  | Err err =>
      _ ← Gauge_Set keyCheck zero;
      _ ← Gauge_Set fetchCheck zero;
      _ ← Gauge_Set authCheck zero;
      _ ← Gauge_Set grantCheck zero;
      _ ← Reset sshCheck;
      log_Print ("failed fetch of keyserver authority: " +:+ Error err)
  | Ok host_ca_pub =>
      _ ← Gauge_Set keyCheck one;
      _ ← check_static keyserver;
      _ ← check_kerberos keyserver;
      setupconfig ← LoadSpireSetup SpireSetupPath;
      match setupconfig with
      | Err err =>
          _ ← Gauge_Set grantCheck zero;
          _ ← Reset sshCheck;
          log_Print ("failed to parse list of nodes: " +:+ Error err)
      | Ok setupconfig => check_ssh keyserver host_ca_pub setupconfig
      end
  end.

(** [loop], for its first rounds. *)
Definition auth_loop (keyserver : ServerEndpoint) (closed : list bool) : MW unit :=
  monitor_loop (λ _ : unit, auth_cycle keyserver) (map (pair tt) closed).

Definition auth_main (closed : list bool) (onstop : error) : MW unit :=
  ks ← or_fatal LoadDefaultKeyserver;
  _ ← MustRegister fetchCheck;
  _ ← MustRegister keyCheck;
  _ ← MustRegister authCheck;
  _ ← MustRegister grantCheck;
  _ ← MustRegister sshCheck;
  _ ← log_Print "Starting metrics server on: :9102";
  _ ← auth_loop ks closed;
  log_Print ("Stopped metrics server: " +:+ Error onstop).
End auth_monitor.

(** What lies outside does not touch the metrics, and always answers in the end. *)
Class CalmAuth (X : Type) `{HasMetrics X} `{!Network X} `{!SSHClient X} `{!Kinit X} := {
  client_Do_quiet cl rq : quiet (client_Do cl rq);
  kinit_quiet args env : quiet (kinit_Run args env);
  ssh_Dial_quiet network addr conf : quiet (ssh_Dial network addr conf);
  NewSession_quiet c : quiet (NewSession c);
  session_Output_quiet s cmd : quiet (session_Output s cmd);
  session_Close_quiet s : quiet (session_Close s);
  client_Close_quiet c : quiet (client_Close c)
}.

(** ** The machines that are let in *)

Section access.
Context {prom : Prometheus} {X : Type} {ssh : SSHClient X} {packages : Crypto}.
Implicit Types w : World X.

(** A machine passes only with a host key that is a certificate of a host, by a key of the
    same type and contents as the authority fetched from the key server: whatever answers at
    its address in its place does not make the check succeed. *)
Theorem attemptSSHAccess_certified pkey cert host_ca machine w w' :
  attemptSSHAccess pkey cert host_ca machine w = (Return (Ok tt), w') →
  ∃ c k body, host_key c = SSHCertificate k body ∧ ssh_CertType body = HostCert ∧
    ssh_Type (SignatureKey body) = ssh_Type host_ca ∧ ssh_Marshal (SignatureKey body) = ssh_Marshal host_ca ∧
    ∃ s w1 w2, session_Output s "echo 'bidirectionality test'" w1 = (Return (Ok ("bidirectionality test" +:+ newline)), w2) ∧
      ∃ w0, NewSession c w0 = (Return (Ok s), w1).
Proof.
  unfold attemptSSHAccess. intros (raw & w1 & E1 & H)%try_bind_Ok_inv. injection E1 as E1 <-.
  apply try_bind_Ok_inv in H as (signer & w2 & E2 & H). injection E2 as E2 <-.
  apply try_bind_Ok_inv in H as (c & w3 & Ed & H). apply Dial_checked in Ed as [remote Hk]. simpl in Hk.
  apply CheckHostKey_sound in Hk as (k & body & Hk & Ht & Ha). apply andb_true_iff in Ha as [H1 H2].
  apply bool_decide_eq_true in H1, H2.
  apply bind_inv in H as (p & w4 & Ep & H). injection H as Hp <-. apply defer_inv in Ep as (w5 & Em & _). rewrite Hp in Em.
  apply try_bind_Ok_inv in Em as (s & w6 & Es & Em). apply bind_inv in Em as (q & w7 & Eq & Em). injection Em as Hq <-.
  apply defer_inv in Eq as (w8 & Eo & _). rewrite Hq in Eo. apply try_bind_Ok_inv in Eo as (result & w9 & Eo & Er).
  case_bool_decide as Hr; [done|]. subst result.
  exists c, k, body. split_and!; [done..|]. exists s, w6, w9. split; [done|]. by exists w3.
Qed.
End access.

(** ** What comes back *)

Section calm.
Context {errs : PkgErrors} {packages : Crypto} {keys : NewKeys} {yaml : Yaml} {prom : Prometheus} {X : Type}
  {mets : HasMetrics X} {net : Network X} {names : TempNames X} {ssh : SSHClient X} {krb : Kinit X} {calm : CalmAuth X}.
Implicit Types w : World X.

Lemma quiet_defer {A B} (m : M (World X) A) (cleanup : M (World X) B) : quiet m → quiet cleanup → quiet (defer m cleanup).
Proof.
  intros (R1 & K1 & L1) (R2 & K2 & L2). split_and!; [|apply keeps_defer; [exact _|done..]|apply keeps_defer; [exact _|done..]].
  intros w. unfold defer. destruct (R1 w) as [a Ha]. destruct (m w) as [o w1]. simpl in Ha. subst o.
  destruct (R2 w1) as [b Hb]. unfold mbind, M_bind. destruct (cleanup w1) as [o w2]. simpl in *. subst o. by eexists.
Qed.
Lemma fetches_quiet k n : is_Some (client k) → quiet (GetStatic (X:=X) k n) ∧ quiet (GetPubkey (X:=X) k n).
Proof.
  intros Hk. split; (split_and!; [apply GetStatic_returns || apply GetPubkey_returns; [apply client_Do_quiet|done]|..]);
    (apply GetStatic_keeps || apply GetPubkey_keeps); (exact _ || apply client_Do_quiet).
Qed.
Lemma authenticated_quiet e reqs : is_Some (client e) → quiet (SendRequests (authenticated (X:=X) e) reqs).
Proof.
  intros He. split_and!; [apply authenticated_returns; [apply client_Do_quiet|done]|..];
    apply authenticated_keeps; (exact _ || apply client_Do_quiet).
Qed.
Lemma impersonated_quiet (rt : RequestTarget X) api user :
  (∀ reqs, quiet (SendRequests rt reqs)) → ∀ reqs, quiet (SendRequests (impersonatedTarget rt api user) reqs).
Proof. intros Hrt reqs. simpl. apply quiet_try; [apply Hrt|]. intros resps. case_bool_decide; apply quiet_ret. Qed.
Lemma SendRequest_quiet (rt : RequestTarget X) api body : (∀ reqs, quiet (SendRequests rt reqs)) → quiet (SendRequest rt api body).
Proof.
  intros Hrt. split_and!; [apply SendRequest_returns; intros; apply Hrt|..];
    (apply SendRequest_keeps; [exact _|]); intros; apply Hrt.
Qed.

(** What follows a result only has to be quiet for the results that there are. *)
Lemma quiet_bind_inv {A B} (m : M (World X) A) (f : A → M (World X) B) :
  quiet m → (∀ w a w', m w = (Return a, w') → quiet (f a)) → quiet (m ≫= f).
Proof.
  intros (R & K & L) Hf. split_and!; intros w; unfold mbind, M_bind; destruct (R w) as [a Ha]; specialize (K w); specialize (L w);
    destruct (m w) as [o w1] eqn:E; simpl in Ha; subst o; destruct (Hf w a w1 E) as (R' & K' & L').
  - apply R'.
  - etrans; [exact K|apply K'].
  - etrans; [exact L|apply L'].
Qed.
Lemma quiet_try_inv {A B} (m : M (World X) (result A)) (f : A → M (World X) (result B)) :
  quiet m → (∀ w a w', m w = (Return (Ok a), w') → quiet (f a)) → quiet (try_bind f m).
Proof. intros Hm Hf. apply quiet_bind_inv; [done|]. intros w [a|e] w' E; [by eapply Hf|apply quiet_ret]. Qed.

(** A step of the machine is quiet. *)
Ltac quiet_machine := apply quiet_os; solve [os_frame].

Lemma Impersonate_quiet (rt : RequestTarget X) api user :
  (∀ reqs, quiet (SendRequests rt reqs)) → quiet (Impersonate rt api user).
Proof.
  intros Hrt. unfold Impersonate. repeat (case_bool_decide; [apply quiet_ret|]).
  apply quiet_bind; [by apply impersonated_quiet|]. intros [r|e]; apply quiet_ret.
Qed.
Lemma attemptSSHAcquire_quiet k : quiet (attemptSSHAcquire (X:=X) k).
Proof.
  unfold attemptSSHAcquire. apply quiet_try; [unfold tls_LoadX509KeyPair; quiet_machine|intros keypair].
  apply quiet_bind; [quiet_machine|intros r]. do 2 (apply quiet_try; [apply quiet_ret|intros ?]).
  assert (Hc : ∀ reqs, quiet (SendRequests (authenticated (X:=X) (WithCertificate k keypair)) reqs))
    by (intros; apply authenticated_quiet; by eexists).
  apply quiet_try_inv; [apply quiet_ret|intros w rt w' [= <- _]].
  apply quiet_try_inv; [by apply Impersonate_quiet|]. intros w1 rt w1' E. unfold Impersonate in E.
  repeat (case_bool_decide; [done|]). apply try_bind_with_Ok_inv in E as (_ & w2 & _ & E). injection E as <- _.
  apply quiet_try; [by apply SendRequest_quiet, impersonated_quiet|]. intros resp. case_bool_decide; [apply quiet_ret|].
  destruct (ssh_ParseAuthorizedKey resp) as [[[] ?]|]; apply quiet_ret.
Qed.
Lemma attemptKAuth_quiet k : quiet (attemptKAuth (X:=X) k).
Proof.
  unfold attemptKAuth. apply quiet_try; [quiet_machine|intros f]. apply quiet_bind; [|intros; apply quiet_ret].
  apply quiet_defer; [|quiet_machine]. apply quiet_try; [quiet_machine|intros _].
  apply quiet_try; [unfold GetKeyserver; quiet_machine|intros hostport].
  apply quiet_bind; [destruct (Split_cons hostport ":") as (h & t & ->); apply quiet_ret|intros host].
  apply quiet_bind; [quiet_machine|intros env]. apply quiet_try; [apply kinit_quiet|intros _].
  apply quiet_try; [quiet_machine|intros contents]. case_bool_decide; [apply quiet_ret|].
  apply quiet_try_inv; [apply quiet_ret|intros w rt w' E]. unfold AuthenticateWithKerberosTicketsInCache in E.
  destruct (url_Hostname _); [|done]. injection E as <- _. apply quiet_try; [|intros; apply quiet_ret].
  simpl. unfold kncRequest. quiet_machine.
Qed.
Lemma attemptSSHAccess_quiet pkey cert host_ca machine : quiet (attemptSSHAccess (X:=X) pkey cert host_ca machine).
Proof.
  unfold attemptSSHAccess. do 2 (apply quiet_try; [apply quiet_ret|intros ?]). apply quiet_try; [apply ssh_Dial_quiet|intros c].
  apply quiet_bind; [|intros; apply quiet_ret]. apply quiet_defer; [|apply client_Close_quiet].
  apply quiet_try; [apply NewSession_quiet|intros s]. apply quiet_bind; [|intros; apply quiet_ret].
  apply quiet_defer; [|apply session_Close_quiet]. apply quiet_try; [apply session_Output_quiet|intros r].
  case_bool_decide; apply quiet_ret.
Qed.
End calm.

(** ** What a cycle leaves *)

Section cycle.
Context {errs : PkgErrors} {packages : Crypto} {keys : NewKeys} {yaml : Yaml} {prom : Prometheus} {X : Type}
  {mets : HasMetrics X} {net : Network X} {names : TempNames X} {ssh : SSHClient X} {krb : Kinit X} {calm : CalmAuth X}.
Implicit Types w : World X.

Definition bit (b : bool) : option sample := Some (Value (if b then one else zero)).
(** The static file that was fetched is the one on the disk. *)
Definition static_ok (fetched : result string) w : bool :=
  match fetched, (ReadFile ClusterConfigPath w).1 with
  | Ok clusterconf, Return (Ok expected) => bool_decide (clusterconf = expected)
  | _, _ => false
  end.

Lemma logged_gauge v x msg w w0 (b : bool) :
  Buckets v = None → labelNames v = [] → typed w → (∀ v l, metric w v l = metric w0 v l) → bit b = Some (Value x) →
  runs (_ ← Gauge_Set v x; log_Print msg) w (λ _ w', typed w' ∧ shows w0 w' v ∅ (bit b)).
Proof.
  intros Hb Hl Ht H0 ->. apply runs_bind, runs_Gauge_Set; [done|done|done|]. intros w1 O1 H1 T1. os_step. intros [] w2 _ H2 _.
  split; [by eapply typed_same|].
  intros v' l'. rewrite H2, H1, H0. done.
Qed.
Lemma just_gauge v x w w0 (b : bool) :
  Buckets v = None → labelNames v = [] → typed w → (∀ v l, metric w v l = metric w0 v l) → bit b = Some (Value x) →
  runs (Gauge_Set v x) w (λ _ w', typed w' ∧ shows w0 w' v ∅ (bit b)).
Proof.
  intros Hb Hl Ht H0 ->. apply runs_Gauge_Set; [done|done|done|]. intros w1 O1 H1 T1.
  split; [done|]. intros v' l'. by rewrite H1, H0.
Qed.

Lemma check_static_runs k w :
  is_Some (client k) → typed w →
  runs (check_static k) w (λ _ w', ∃ fetched w1, GetStatic k ClusterConfStatic w = (Return fetched, w1) ∧
    typed w' ∧ shows w w' fetchCheck ∅ (bit (static_ok fetched w1))).
Proof.
  intros Hk Ht. unfold check_static. apply runs_bind, runs_silent; [by apply fetches_quiet|]. intros fetched w1 E1 H1 L1.
  assert (T1 : typed w1) by (by eapply typed_same).
  destruct fetched as [clusterconf|err].
  2: { eapply runs_mono; [by eapply (logged_gauge _ _ _ _ w false)|]. intros [] w' Hw'. by exists (Err err), w1. }
  os_step. intros expected w2 E2 H2 L2.
  assert (T2 : typed w2) by (by eapply typed_same).
  assert (H02 : ∀ v l, metric w2 v l = metric w v l) by metrics_now.
  assert (Hs : static_ok (Ok clusterconf) w1 = match expected with Ok e => bool_decide (clusterconf = e) | Err _ => false end)
    by (unfold static_ok; rewrite E2; by destruct expected).
  destruct expected as [expected|err]; [destruct (decide (clusterconf = expected)) as [He|He]|].
  - rewrite bool_decide_false by (intros []; done).
    eapply runs_mono; [by eapply (just_gauge _ _ _ w true)|]. intros [] w' Hw'. exists (Ok clusterconf), w1.
    by rewrite Hs, bool_decide_true.
  - rewrite bool_decide_true by done.
    eapply runs_mono; [by eapply (logged_gauge _ _ _ _ w false)|]. intros [] w' Hw'. exists (Ok clusterconf), w1.
    by rewrite Hs, bool_decide_false.
  - eapply runs_mono; [by eapply (logged_gauge _ _ _ _ w false)|]. intros [] w' Hw'. exists (Ok clusterconf), w1. by rewrite Hs.
Qed.
Lemma check_kerberos_runs k w :
  typed w →
  runs (check_kerberos k) w (λ _ w', ∃ r w1, attemptKAuth k w = (Return r, w1) ∧
    typed w' ∧ shows w w' authCheck ∅ (bit (is_ok r))).
Proof.
  intros Ht. unfold check_kerberos. apply runs_bind, runs_silent; [apply attemptKAuth_quiet|]. intros r w1 E1 H1 L1.
  assert (T1 : typed w1) by (by eapply typed_same). destruct r as [u|err].
  - eapply runs_mono; [by eapply (just_gauge _ _ _ w true)|]. intros [] w' Hw'. by exists (Ok u), w1.
  - eapply runs_mono; [by eapply (logged_gauge _ _ _ _ w false)|]. intros [] w' Hw'. by exists (Err err), w1.
Qed.

(** *** The machines *)

Lemma server_labelled dns : valid_utf8 dns = true → well_labelled sshCheck (server_labels dns).
Proof. intros Hu. split; [unfold server_labels; rewrite dom_singleton_L; set_solver|]. by apply map_Forall_singleton. Qed.

(** A loop over the machines whose body makes [P] hold of the name of each; a name may come twice. *)
Lemma machines_loop (body : option SpireNode → M (World X) unit) (P : string → World X → Prop) nodes w :
  (∀ dns w2 w3, P dns w2 → metric w3 sshCheck (server_labels dns) = metric w2 sshCheck (server_labels dns) → P dns w3) →
  (∀ pre n post dns w2, nodes = pre ++ n :: post → for_all body pre w = (Return tt, w2) →
     machine_DNS n = Return dns → valid_utf8 dns = true → typed w2 →
     runs (body n) w2 (λ _ w3, typed w3 ∧ P dns w3 ∧
       ∀ v l, v ≠ sshCheck ∨ l ≠ server_labels dns → metric w3 v l = metric w2 v l)) →
  (∀ n, n ∈ nodes → ∃ dns, machine_DNS n = Return dns ∧ valid_utf8 dns = true) → typed w →
  runs (for_all body nodes) w (λ _ w', typed w' ∧
    (∀ n dns, n ∈ nodes → machine_DNS n = Return dns → P dns w') ∧
    ∀ v l, v ≠ sshCheck → metric w' v l = metric w v l).
Proof.
  intros Hst Hbody Hn Ht.
  apply (runs_for_all_from _ _ (λ pre w', typed w' ∧ (∀ n dns, n ∈ pre → machine_DNS n = Return dns → P dns w') ∧
    ∀ v l, v ≠ sshCheck → metric w' v l = metric w v l)).
  { split_and!; [done|by intros ?? ?%elem_of_nil|done]. }
  intros pre n post w1 El E (T1 & P1 & F1). destruct (Hn n) as (dns & Hd & Hu); [rewrite El; set_solver|].
  eapply runs_mono; [by apply (Hbody pre n post dns)|]. intros [] w2 (T2 & P2 & F2). split_and!; [done| |].
  - intros n' dns' Hin Hd'. destruct (decide (dns' = dns)) as [->|Hne]; [done|].
    apply elem_of_app in Hin as [Hin|Hin%list_elem_of_singleton]; [|congruence].
    apply (Hst _ w1); [by eapply P1|]. apply F2. right. intros Ed. apply Hne.
    pose proof (f_equal (lookup "server") Ed) as E'. unfold server_labels in E'. rewrite !lookup_singleton_eq in E'. by injection E'.
  - intros v l Hv. rewrite F2 by (by left). by apply F1.
Qed.

(** The machine was tried when its turn came, in the loop that began in [w0]. *)
Definition accessed pkey cert host_ca (nodes : list (option SpireNode)) w0 dns w' : Prop :=
  ∃ pre n post wa r wb, nodes = pre ++ n :: post ∧ machine_DNS n = Return dns ∧
    for_all (check_access pkey cert host_ca) pre w0 = (Return tt, wa) ∧
    attemptSSHAccess pkey cert host_ca dns wa = (Return r, wb) ∧
    metric w' sshCheck (server_labels dns) = bit (is_ok r).
(** What is said of a machine, given what was acquired: whether it could be accessed. *)
Definition ssh_shown (acquired : result (rsa_PrivateKey * (ssh_PublicKey * ssh_CertBody))) (host_ca_pub : string)
    (nodes : list (option SpireNode)) w0 dns w' : Prop :=
  match acquired, ssh_ParseAuthorizedKey host_ca_pub with
  | Ok (pkey, cert), Ok (host_ca, _) => accessed pkey cert host_ca nodes w0 dns w'
  | _, _ => metric w' sshCheck (server_labels dns) = bit false
  end.
Lemma ssh_shown_same acquired pub nodes w0 dns w2 w3 :
  ssh_shown acquired pub nodes w0 dns w2 →
  metric w3 sshCheck (server_labels dns) = metric w2 sshCheck (server_labels dns) → ssh_shown acquired pub nodes w0 dns w3.
Proof.
  unfold ssh_shown, accessed. intros H E. rewrite E. by destruct acquired as [[pkey cert]|].
Qed.

Lemma unreachable_runs n dns w :
  machine_DNS n = Return dns → valid_utf8 dns = true → typed w →
  runs (unreachable n) w (λ _ w', typed w' ∧ metric w' sshCheck (server_labels dns) = bit false ∧
    ∀ v l, v ≠ sshCheck ∨ l ≠ server_labels dns → metric w' v l = metric w v l).
Proof.
  intros Hd Hu Ht. unfold unreachable. rewrite Hd. apply runs_With_Set; [done|by apply server_labelled|done|].
  intros w' O' H' T'. split_and!; [done|by apply (shows_at _ _ _ _ _ H')|].
  intros v l Hvl. by apply (shows_ne _ _ _ _ _ _ _ H').
Qed.
Lemma check_access_runs pkey cert host_ca n dns w :
  machine_DNS n = Return dns → valid_utf8 dns = true → typed w →
  runs (check_access pkey cert host_ca n) w (λ _ w', typed w' ∧
    (∃ r wb, attemptSSHAccess pkey cert host_ca dns w = (Return r, wb) ∧
       metric w' sshCheck (server_labels dns) = bit (is_ok r)) ∧
    ∀ v l, v ≠ sshCheck ∨ l ≠ server_labels dns → metric w' v l = metric w v l).
Proof.
  intros Hd Hu Ht. unfold check_access. rewrite Hd. change (liftO (Return dns)) with (mret (M:=M (World X)) dns).
  apply runs_bind, runs_ret, runs_bind, runs_silent; [apply attemptSSHAccess_quiet|]. intros r w1 E1 H1 _.
  apply runs_bind, runs_With_typed; [by apply server_labelled|by eapply typed_same|]. intros w2 O2 H2 T2.
  assert (Hgo : ∀ x w3, bit (is_ok r) = Some (Value x) → (∀ v l, metric w3 v l = metric w2 v l) →
    runs (Set_ (sshCheck, server_labels dns) x) w3 (λ _ w', typed w' ∧
      (∃ r wb, attemptSSHAccess pkey cert host_ca dns w = (Return r, wb) ∧
         metric w' sshCheck (server_labels dns) = bit (is_ok r)) ∧
      ∀ v l, v ≠ sshCheck ∨ l ≠ server_labels dns → metric w' v l = metric w v l)).
  { intros x w3 Hx H3. apply runs_Set_typed; [done|by apply server_labelled| |by eapply typed_same|].
    { right. rewrite H3, (shows_at _ _ _ _ _ H2). by eexists. }
    intros w4 O4 H4 T4. split_and!; [done| |].
    - exists r, w1. split; [done|]. rewrite Hx. by apply (shows_at _ _ _ _ _ H4).
    - intros v l Hvl. by rewrite (shows_ne _ _ _ _ _ _ _ H4), H3, (shows_ne _ _ _ _ _ _ _ H2), H1. }
  destruct r as [u|err]; [by apply Hgo|]. os_step. intros [] w3 _ H3 _. by apply Hgo.
Qed.

(** *** The checks of SSH, after the setup was loaded *)

(** The gauge of the grant says whether there was one, and those of the machines follow. *)
Definition ssh_checked (k : ServerEndpoint) (pub : string) (conf : SpireSetup) w w' : Prop :=
  typed w' ∧ ∃ acquired w1 w2, attemptSSHAcquire k w = (Return acquired, w1) ∧
    Gauge_Set grantCheck (if is_ok acquired then one else zero) w1 = (Return tt, w2) ∧
    metric w' grantCheck ∅ = bit (is_ok acquired) ∧
    (∀ n dns, n ∈ Nodes conf → machine_DNS n = Return dns → ssh_shown acquired pub (Nodes conf) w2 dns w') ∧
    ∀ v l, v ≠ grantCheck → v ≠ sshCheck → metric w' v l = metric w v l.
Definition named (conf : SpireSetup) : Prop :=
  ∀ n, n ∈ Nodes conf → ∃ dns, machine_DNS n = Return dns ∧ valid_utf8 dns = true.

Lemma ssh_checked_same k pub conf w w2 w' :
  ssh_checked k pub conf w w2 → (∀ v l, metric w' v l = metric w2 v l) → ssh_checked k pub conf w w'.
Proof.
  intros (T & acq & w1 & wg & E & Eg & Hg & Hs & Hf) H. split; [by eapply typed_same|]. exists acq, w1, wg. rewrite H.
  split_and!; [done|done|done| |].
  - intros n dns Hin Hd. eapply ssh_shown_same; [by eapply Hs|apply H].
  - intros v l Hv Hv'. rewrite H. by apply Hf.
Qed.

Section acquired.
Context (k : ServerEndpoint) (pub : string) (conf : SpireSetup) (w w1 w2 : World X).
Context (acquired : result (rsa_PrivateKey * (ssh_PublicKey * ssh_CertBody))).
Context (E1 : attemptSSHAcquire k w = (Return acquired, w1)) (H1 : ∀ v l, metric w1 v l = metric w v l).
Context (E2 : Gauge_Set grantCheck (if is_ok acquired then one else zero) w1 = (Return tt, w2)).
Context (H2 : shows w1 w2 grantCheck ∅ (bit (is_ok acquired))) (T2 : typed w2) (Hconf : named conf).

(** Whatever the loop is, if it makes this hold of each machine. *)
Lemma acquired_loop (body : option SpireNode → M (World X) unit) :
  (∀ pre n post dns w3, Nodes conf = pre ++ n :: post → for_all body pre w2 = (Return tt, w3) →
     machine_DNS n = Return dns → valid_utf8 dns = true → typed w3 →
     runs (body n) w3 (λ _ w4, typed w4 ∧ ssh_shown acquired pub (Nodes conf) w2 dns w4 ∧
       ∀ v l, v ≠ sshCheck ∨ l ≠ server_labels dns → metric w4 v l = metric w3 v l)) →
  runs (for_all body (Nodes conf)) w2 (λ _ w', ssh_checked k pub conf w w').
Proof using All.
  intros Hbody. eapply runs_mono.
  - apply (machines_loop _ (λ dns w', ssh_shown acquired pub (Nodes conf) w2 dns w')); [|exact Hbody|done|done].
    intros dns w3 w4 H3 E34. by eapply ssh_shown_same.
  - intros [] w' (T' & P' & F'). split; [done|]. exists acquired, w1, w2.
    split_and!; [done|done|by rewrite F', (shows_at _ _ _ _ _ H2)|done|].
    intros v l Hv Hs. by rewrite F', (shows_ne _ _ _ _ _ _ _ H2), H1 by auto.
Qed.
(** When none can be reached. *)
Lemma acquired_dead msg :
  (∀ dns w', metric w' sshCheck (server_labels dns) = bit false → ssh_shown acquired pub (Nodes conf) w2 dns w') →
  runs (_ ← for_all unreachable (Nodes conf); log_Print msg) w2 (λ _ w', ssh_checked k pub conf w w').
Proof using All.
  intros Hz. apply runs_bind. eapply runs_mono.
  - apply acquired_loop. intros pre n post dns w3 _ _ Hd Hu T3.
    eapply runs_mono; [by apply (unreachable_runs n dns)|]. intros [] w4 (? & ? & ?). by auto.
  - intros [] w3 H3. os_step. intros [] w4 _ H4 _. by eapply ssh_checked_same.
Qed.
End acquired.

Lemma check_ssh_runs k pub conf w :
  named conf → typed w → runs (check_ssh k pub conf) w (λ _ w', ssh_checked k pub conf w w').
Proof.
  intros Hn Ht. unfold check_ssh. apply runs_bind, runs_silent; [apply attemptSSHAcquire_quiet|]. intros acquired w1 E1 H1 _.
  assert (T1 : typed w1) by (by eapply typed_same).
  destruct acquired as [[pkey cert]|err]; apply runs_bind, runs_Gauge_Set_eq; [done|done|done| |done|done|done|];
    intros w2 E2 _ H2 T2.
  - destruct (ssh_ParseAuthorizedKey pub) as [[host_ca rest]|err] eqn:Ep.
    + eapply acquired_loop; [exact E1|exact H1|exact E2|exact H2|done|done|]. intros pre n post dns w3 El E3 Hd Hu T3.
      eapply runs_mono; [by apply (check_access_runs pkey cert host_ca n dns)|].
      intros [] w4 (T4 & (r & wb & Er & Hm) & F4). split_and!; [done| |done].
      unfold ssh_shown. rewrite Ep. by exists pre, n, post, w3, r, wb.
    + eapply acquired_dead; [exact E1|exact H1|exact E2|exact H2|done|done|]. intros dns w' Hm. unfold ssh_shown. by rewrite Ep.
  - eapply acquired_dead; [exact E1|exact H1|exact E2|exact H2|done|done|done].
Qed.

(** *** The whole cycle *)

Definition reset_all w' : Prop :=
  metric w' keyCheck ∅ = bit false ∧ metric w' fetchCheck ∅ = bit false ∧ metric w' authCheck ∅ = bit false ∧
  metric w' grantCheck ∅ = bit false ∧ ∀ l, metric w' sshCheck l = None.
(** The end of a cycle without the setup, and of one without the authority. *)
Lemma no_setup_runs msg w :
  typed w →
  runs (_ ← Gauge_Set grantCheck zero; _ ← Reset sshCheck; log_Print msg) w (λ _ w', typed w' ∧
    metric w' grantCheck ∅ = bit false ∧ (∀ l, metric w' sshCheck l = None) ∧
    ∀ v l, v ≠ grantCheck → v ≠ sshCheck → metric w' v l = metric w v l).
Proof.
  intros Ht. apply runs_bind, runs_Gauge_Set; [done|done|done|]. intros w1 O1 H1 T1.
  apply runs_bind, runs_Reset. intros w2 O2 H2. os_step. intros [] w3 _ H3 _. split_and!.
  - intros v l s. rewrite H3, H2. case_decide; [done|]. apply T1.
  - by rewrite H3, H2, decide_False, (shows_at _ _ _ _ _ H1) by done.
  - intros l. by rewrite H3, H2, decide_True.
  - intros v l Hv Hs. by rewrite H3, H2, decide_False, (shows_ne _ _ _ _ _ _ _ H1) by auto.
Qed.
Lemma no_authority_runs msg w :
  typed w →
  runs (_ ← Gauge_Set keyCheck zero; _ ← Gauge_Set fetchCheck zero; _ ← Gauge_Set authCheck zero;
        _ ← Gauge_Set grantCheck zero; _ ← Reset sshCheck; log_Print msg) w (λ _ w', typed w' ∧ reset_all w').
Proof.
  intros Ht. apply runs_bind, runs_Gauge_Set; [done|done|done|]. intros w1 O1 H1 T1.
  apply runs_bind, runs_Gauge_Set; [done|done|done|]. intros w2 O2 H2 T2.
  apply runs_bind, runs_Gauge_Set; [done|done|done|]. intros w3 O3 H3 T3.
  eapply runs_mono; [by apply no_setup_runs|]. intros [] w' (T' & Hg & Hs & Hf). split; [done|].
  unfold reset_all. rewrite !Hf by done. split_and!; [..|done|done].
  - by rewrite (shows_ne _ _ _ _ _ _ _ H3), (shows_ne _ _ _ _ _ _ _ H2), (shows_at _ _ _ _ _ H1) by (by left).
  - by rewrite (shows_ne _ _ _ _ _ _ _ H3), (shows_at _ _ _ _ _ H2) by (by left).
  - by apply (shows_at _ _ _ _ _ H3).
Qed.

(** What the gauges say after the authority was fetched: each of the check that was made in the
    state to which the cycle had come. *)
Definition with_authority (k : ServerEndpoint) (pub : string) w1 w' : Prop :=
  ∃ w2 w3 w4 setup w5, Gauge_Set keyCheck one w1 = (Return tt, w2) ∧ check_static k w2 = (Return tt, w3) ∧
    check_kerberos k w3 = (Return tt, w4) ∧ LoadSpireSetup SpireSetupPath w4 = (Return setup, w5) ∧
    metric w' keyCheck ∅ = bit true ∧
    (∃ static wb, GetStatic k ClusterConfStatic w2 = (Return static, wb) ∧ metric w' fetchCheck ∅ = bit (static_ok static wb)) ∧
    (∃ r wb, attemptKAuth k w3 = (Return r, wb) ∧ metric w' authCheck ∅ = bit (is_ok r)) ∧
    match setup with
    | Err _ => metric w' grantCheck ∅ = bit false ∧ ∀ l, metric w' sshCheck l = None
    | Ok conf => ssh_checked k pub conf w5 w'
    end.

(** A machine whose name is not text: it is tried, if at all, and then there is no gauge for it. *)
Definition bad_name (n : option SpireNode) : Prop := ∃ dns, machine_DNS n = Return dns ∧ valid_utf8 dns = false.
#[local] Instance bad_name_dec n : Decision (bad_name n).
Proof.
  unfold bad_name. destruct (machine_DNS n) as [dns| |]; [destruct (valid_utf8 dns) eqn:E| |];
    [right|left; by eauto|right|right]; intros (d & [= <-] & ?); congruence.
Defined.
(** The nodes of a setup that was loaded have names, and each is text or not. *)
Lemma loaded_names path w conf w' :
  LoadSpireSetup path w = (Return (Ok conf), w') → ∀ n, n ∈ Nodes conf → ∃ dns, machine_DNS n = Return dns.
Proof.
  intros E n Hn. apply LoadSpireSetup_valid_setup, valid_nodes in E. rewrite Forall_forall in E.
  destruct (E n Hn) as (x & -> & _ & Hs & _). unfold machine_DNS, node_deref. simpl. unfold DNS. rewrite Hs. by eexists.
Qed.
Lemma named_or_not conf :
  (∀ n, n ∈ Nodes conf → ∃ dns, machine_DNS n = Return dns) → named conf ∨ List.Exists bad_name (Nodes conf).
Proof.
  intros Hn. destruct (Exists_dec bad_name (Nodes conf)) as [Hx|Hx]; [by right|left].
  intros n Hin. destruct (Hn n Hin) as [dns Hd]. exists dns. split; [done|]. destruct (valid_utf8 dns) eqn:E; [done|].
  destruct Hx. apply Exists_exists. exists n. split; [done|by exists dns].
Qed.
Lemma check_ssh_panics k pub conf w :
  (∀ n, n ∈ Nodes conf → ∃ dns, machine_DNS n = Return dns) → List.Exists bad_name (Nodes conf) → typed w →
  panics (check_ssh k pub conf) w.
Proof.
  intros Hn Hx Ht. unfold check_ssh. eapply (panics_then _ _ _ (λ _ w', typed w')).
  { apply runs_silent; [apply attemptSSHAcquire_quiet|]. intros acquired w1 _ H1 _. by eapply typed_same. }
  intros acquired w1 T1.
  assert (Hgood : ∀ n, ¬ bad_name n → n ∈ Nodes conf → ∃ dns, machine_DNS n = Return dns ∧ valid_utf8 dns = true).
  { intros n Hb Hin. destruct (Hn n Hin) as [dns Hd]. exists dns. split; [done|]. destruct (valid_utf8 dns) eqn:E; [done|].
    destruct Hb. by exists dns. }
  assert (Hloop : ∀ body, (∀ n w, ¬ bad_name n → n ∈ Nodes conf → typed w → runs (body n) w (λ _ w', typed w')) →
    (∀ n dns w, machine_DNS n = Return dns → valid_utf8 dns = false → panics (body n) w) →
    ∀ x w, typed w → panics (_ ← Gauge_Set grantCheck x; for_all body (Nodes conf)) w).
  { intros body Hg Hb x w2 T2. apply (panics_then _ _ _ (λ _ w', typed w')).
    - apply runs_Gauge_Set; [done|done|done|]. by intros w3 _ _ T3.
    - intros [] w3 T3. apply (panics_for_all _ typed bad_name); [done| |done|done].
      intros n w4 (dns & Hd & Hu) _ _. by eapply Hb. }
  assert (Hdead : ∀ x msg w, typed w → panics (_ ← Gauge_Set grantCheck x; _ ← for_all unreachable (Nodes conf); log_Print msg) w).
  { intros x msg w2 T2. destruct (Hloop unreachable) with (x := x) (w := w2) as (why & w3 & E); [| |done|].
    - intros n w3 Hb Hin T3. destruct (Hgood n Hb Hin) as (dns & Hd & Hu).
      eapply runs_mono; [by apply (unreachable_runs n dns)|]. by intros [] w4 [T4 _].
    - intros n dns w3 Hd Hu. unfold unreachable. rewrite Hd. apply (panics_then _ _ _ (λ d _, d = dns)); [by exists dns, w3|].
      intros _ w4 ->. by apply panics_first, panics_With.
    - exists why, w3. revert E. unfold mbind, M_bind. destruct (Gauge_Set grantCheck x w2) as [[] w4]; [|done..].
      by intros ->. }
  destruct acquired as [[pkey cert]|err]; [|apply Hdead, T1].
  destruct (ssh_ParseAuthorizedKey pub) as [[host_ca rest]|err]; [|apply Hdead, T1].
  apply Hloop; [| |done].
  - intros n w3 Hb Hin T3. destruct (Hgood n Hb Hin) as (dns & Hd & Hu).
    eapply runs_mono; [by apply (check_access_runs pkey cert host_ca n dns)|]. by intros [] w4 [T4 _].
  - intros n dns w3 Hd Hu. unfold check_access. rewrite Hd. apply (panics_then _ _ _ (λ d _, d = dns)); [by exists dns, w3|].
    intros _ w4 ->. apply (panics_then _ _ _ (λ _ _, True)); [by apply runs_silent; [apply attemptSSHAccess_quiet|]|].
    intros r w5 _. by apply panics_first, panics_With.
Qed.

(** The cycle that began in [w1], the authority at hand, comes to a setup that it cannot show: one
    with a null node, behind acceptable ones, or with a name that is not valid UTF-8. *)
Definition unshowable (k : ServerEndpoint) w1 : Prop :=
  ∃ w2 w3 w4, Gauge_Set keyCheck one w1 = (Return tt, w2) ∧ check_static k w2 = (Return tt, w3) ∧
    check_kerberos k w3 = (Return tt, w4) ∧
    ((∃ setup why w5, LoadSpireSetup SpireSetupPath w4 = (Panic why, w5) ∧
        setup_in w4 SpireSetupPath setup ∧ null_reached (Nodes setup) = true) ∨
     ∃ conf w5, LoadSpireSetup SpireSetupPath w4 = (Return (Ok conf), w5) ∧ List.Exists bad_name (Nodes conf)).

(** The checks that come before the setup is loaded, and what is shown of them, until it is changed. *)
Lemma auth_checks_runs k w1 :
  is_Some (client k) → typed w1 →
  ∃ w2 w3 w4, Gauge_Set keyCheck one w1 = (Return tt, w2) ∧ check_static k w2 = (Return tt, w3) ∧
    check_kerberos k w3 = (Return tt, w4) ∧ typed w4 ∧
    ∀ w', (∀ v l, v ≠ grantCheck → v ≠ sshCheck → metric w' v l = metric w4 v l) →
      metric w' keyCheck ∅ = bit true ∧
      (∃ static wb, GetStatic k ClusterConfStatic w2 = (Return static, wb) ∧ metric w' fetchCheck ∅ = bit (static_ok static wb)) ∧
      (∃ r wb, attemptKAuth k w3 = (Return r, wb) ∧ metric w' authCheck ∅ = bit (is_ok r)).
Proof.
  intros Hk T1.
  assert (Hset : runs (Gauge_Set keyCheck one) w1 (λ _ w2, shows w1 w2 keyCheck ∅ (bit true) ∧ typed w2))
    by (apply runs_Gauge_Set; done).
  destruct Hset as ([] & w2 & E2 & H2 & T2).
  destruct (check_static_runs k w2 Hk T2) as ([] & w3 & E3 & static & wb & Es & T3 & H3).
  destruct (check_kerberos_runs k w3 T3) as ([] & w4 & E4 & r & wc & Er & T4 & H4).
  exists w2, w3, w4. split_and!; [done..|]. intros w' Hf. rewrite !Hf by done. split_and!.
  - by rewrite (shows_ne _ _ _ _ _ _ _ H4), (shows_ne _ _ _ _ _ _ _ H3), (shows_at _ _ _ _ _ H2) by (by left).
  - exists static, wb. by rewrite (shows_ne _ _ _ _ _ _ _ H4), (shows_at _ _ _ _ _ H3) by (by left).
  - exists r, wc. by rewrite (shows_at _ _ _ _ _ H4).
Qed.
(** What comes after them. *)
Definition setup_checks (k : ServerEndpoint) (pub : string) : M (World X) unit :=
  setupconfig ← LoadSpireSetup SpireSetupPath;
  match setupconfig with
  | Err err =>
      _ ← Gauge_Set grantCheck zero;
      _ ← Reset sshCheck;
      log_Print ("failed to parse list of nodes: " +:+ Error err)
  | Ok setupconfig => check_ssh k pub setupconfig
  end.
Definition setup_shown (k : ServerEndpoint) (pub : string) (setup : result SpireSetup) w5 w' : Prop :=
  match setup with
  | Err _ => metric w' grantCheck ∅ = bit false ∧ ∀ l, metric w' sshCheck l = None
  | Ok conf => ssh_checked k pub conf w5 w'
  end.
Lemma setup_checks_cases k pub w4 :
  typed w4 →
  (∃ setup w5, LoadSpireSetup SpireSetupPath w4 = (Return setup, w5) ∧ (∀ v l, metric w5 v l = metric w4 v l) ∧
     runs (setup_checks k pub) w4 (λ _ w', typed w' ∧
       (∀ v l, v ≠ grantCheck → v ≠ sshCheck → metric w' v l = metric w5 v l) ∧ setup_shown k pub setup w5 w') ∧
     match setup with Ok conf => named conf | Err _ => True end) ∨
  (panics (setup_checks k pub) w4 ∧
    ((∃ setup why w5, LoadSpireSetup SpireSetupPath w4 = (Panic why, w5) ∧
        setup_in w4 SpireSetupPath setup ∧ null_reached (Nodes setup) = true) ∨
     ∃ conf w5, LoadSpireSetup SpireSetupPath w4 = (Return (Ok conf), w5) ∧ List.Exists bad_name (Nodes conf))).
Proof.
  intros T4. pose proof (LoadSpireSetup_cases SpireSetupPath w4) as Hcases.
  pose proof (LoadSpireSetup_os_only SpireSetupPath w4) as Hos. destruct (LoadSpireSetup SpireSetupPath w4) as [o w5] eqn:E5.
  unfold os_only, same in Hos. simpl in *.
  assert (H5 : ∀ v l, metric w5 v l = metric w4 v l) by (intros v l; unfold metric; by rewrite Hos).
  pose proof (typed_same _ _ H5 T4) as T5. destruct o as [[conf|err]|why|st]; [| | |done].
  - destruct (named_or_not conf (loaded_names _ _ _ _ E5)) as [Hn|Hx].
    + left. exists (Ok conf), w5. split_and!; [done|done| |done]. unfold setup_checks. apply runs_bind. exists (Ok conf), w5. split; [done|].
      eapply runs_mono; [by apply check_ssh_runs|]. intros [] w' Hs. assert (Hs' := Hs).
      destruct Hs' as (T' & acq & wd & we & _ & _ & _ & _ & Hf). by split_and!.
    + right. split; [|right; by exists conf, w5]. unfold setup_checks. apply (panics_then _ _ _ (λ r w, r = Ok conf ∧ w = w5)); [by exists (Ok conf), w5|].
      intros _ _ [-> ->]. apply check_ssh_panics; [by eapply loaded_names|done|done].
  - left. exists (Err err), w5. split_and!; [done|done| |done]. unfold setup_checks. apply runs_bind. exists (Err err), w5. split; [done|].
    eapply runs_mono; [by apply no_setup_runs|]. intros [] w' (T' & Hg & Hs & Hf). by split_and!.
  - right. destruct Hcases as (setup & Hset & Hz). split; [|left; by exists setup, why, w5].
    unfold setup_checks. apply panics_first. by exists why, w5.
Qed.

(** C18: Every gauge says what became of its check in this cycle: without the authority of host
    keys nothing is said to work; the static file has to be the one on the disk; the gateway is
    tried with a ticket; without a setup nothing is said of the machines; otherwise each machine
    of it is shown, and is up only if it was accessed in this cycle. So a cycle ends, unless it
    finds a setup with a null node or with a name that is not valid UTF-8: exactly then it
    panics. *)
Theorem auth_cycle_spec k w :
  is_Some (client k) → typed w →
  ∃ fetched w1, GetPubkey k SSHHostAuthority w = (Return fetched, w1) ∧
  match fetched with
  | Err _ => runs (auth_cycle k) w (λ _ w', typed w' ∧ reset_all w')
  | Ok host_ca_pub =>
      runs (auth_cycle k) w (λ _ w', typed w' ∧ with_authority k host_ca_pub w1 w') ∧ ¬ unshowable k w1 ∨
      panics (auth_cycle k) w ∧ unshowable k w1
  end.
Proof.
  intros Hk Ht. destruct (fetches_quiet k SSHHostAuthority Hk) as [_ Hq].
  assert (Hkey : runs (GetPubkey k SSHHostAuthority) w (λ fetched w1, GetPubkey k SSHHostAuthority w = (Return fetched, w1) ∧ typed w1)).
  { apply runs_silent; [done|]. intros fetched w1 E1 H1 _. split; [done|]. by eapply typed_same. }
  destruct Hkey as (fetched & w1 & E1 & _ & T1). exists fetched, w1. split; [done|]. unfold auth_cycle.
  destruct fetched as [pub|err].
  2: { apply runs_bind. exists (Err err), w1. split; [done|]. eapply runs_mono; [by apply no_authority_runs|]. done. }
  destruct (auth_checks_runs k w1 Hk T1) as (w2 & w3 & w4 & E2 & E3 & E4 & T4 & Hshown).
  assert (Hrun : ∀ (Q : unit → World X → Prop), (runs (setup_checks k pub) w4 Q → runs (auth_cycle k) w Q) ∧
    (panics (setup_checks k pub) w4 → panics (auth_cycle k) w)).
  { intros Q. assert (E : auth_cycle k w = setup_checks k pub w4).
    { unfold auth_cycle. rewrite (bind_Return _ _ _ _ _ E1), (bind_Return _ _ _ _ _ E2), (bind_Return _ _ _ _ _ E3).
      by rewrite (bind_Return _ _ _ _ _ E4). }
    unfold runs, panics. by rewrite E. }
  destruct (setup_checks_cases k pub w4 T4) as [(setup & w5 & E5 & H5 & Hs & Hn)|(Hp & Hbad)].
  - left. split.
    + apply Hrun. eapply runs_mono; [exact Hs|]. intros [] w' (T' & Hf & Hw'). split; [done|].
      destruct (Hshown w') as (? & ? & ?); [intros v l Hv Hv'; by rewrite Hf, H5|].
      exists w2, w3, w4, setup, w5. by split_and!.
    + intros (w2' & w3' & w4' & E2' & E3' & E4' & Hb). rewrite E2 in E2'. injection E2' as <-.
      rewrite E3 in E3'. injection E3' as <-. rewrite E4 in E4'. injection E4' as <-.
      destruct Hb as [(s & why & w6 & Ep & _)|(conf & w6 & Ec & Hx)]; [congruence|]. rewrite E5 in Ec. injection Ec as -> _.
      apply Exists_exists in Hx as (n & Hin & dns & Hd & Hu). destruct (Hn n Hin) as (dns' & Hd' & Hu'). congruence.
  - right. split; [by apply (Hrun (λ _ _, True))|]. by exists w2, w3, w4.
Qed.
End cycle.

(** ** An example *)

Module SampleAuth.
Export ToyProm.
Abbreviation Answers := (list (result (Z * result string))).
Abbreviation AW := (World (Store * Answers)).

(** The key server gives these answers; the servers have host certificates of [ca], but for one. *)
#[export] Instance auth_answers : Network (Store * Answers) := {|
  url_Hostname u := Ok (nth 2 (Split u "/") "");
  client_Do _ _ := λ w,
    (Return (default (Err (StdError "connection refused")) (head (comp w).2)), on_comp (λ x, (x.1, tail x.2)) w)
|}.
#[export] Program Instance one_name : TempNames (Store * Answers) := {| nextRandom := mret "000000001" |}.
Solve Obligations with (apply returns_ret || (apply keeps_ret, _)).

Definition host_certificate (ca : string) : ssh_PublicKey :=
  SSHCertificate (SSHKey "ssh-rsa" "host") (mkSSHBody "" 1 HostCert "host" [] 0 0 [] ca).
Definition accept_host (authority : ssh_PublicKey → string → bool) (addr remote : string) (key : ssh_PublicKey) : result unit :=
  match key with
  | SSHCertificate _ body =>
      if bool_decide (ssh_CertType body = HostCert) && authority (SSHKey "ssh-rsa" (ssh_Signature body)) addr then Ok tt
      else Err (StdError "ssh: no authorities for hostname")
  | SSHKey _ _ => Err (StdError "ssh: non-certificate host key")
  end.
#[export] Program Instance toy_ssh : SSHClient (Store * Answers) := {|
  ssh_Client := ssh_PublicKey;
  ssh_Session := unit;
  ssh_NewSignerFromKey k := Ok (mkSigner (SSHKey "ssh-rsa" "") "");
  ssh_NewCertSigner c s := Ok s;
  SignatureKey body := SSHKey "ssh-rsa" (ssh_Signature body);
  CheckHostKey := accept_host;
  ssh_Dial network addr conf :=
    let key := host_certificate (if bool_decide (addr = "w.ext:22") then "other" else "ca") in
    mret (_ ← HostKeyCallback conf addr "" key; Ok key);
  host_key c := c;
  NewSession _ := ok tt;
  session_Output _ _ := ok ("bidirectionality test" +:+ newline);
  session_Close _ := ok tt;
  client_Close _ := ok tt
|}.
Next Obligation.
  intros network addr conf w c w'. cbn. set (key := host_certificate _). destruct (HostKeyCallback conf addr "" key) as [[]|e] eqn:E; [|done].
  intros [= <- _]. by exists "".
Qed.
Next Obligation.
  intros authority addr remote [|k body]; simpl; [done|]. destruct (_ && _) eqn:E; [|done]. intros _.
  apply andb_true_iff in E as [Ht Ha]. apply bool_decide_eq_true in Ht. by exists k, body.
Qed.
(** kinit writes a ticket to the cache that its environment names. *)
#[export] Instance toy_kinit : Kinit (Store * Answers) := {|
  kinit_Run _ env := match List.find (λ e, HasPrefix e "KRB5CCNAME=") env with
    | Some e => _ ← set_node (drop_s 11 e) (File "ticket" 384 0); ok tt
    | None => fail (StdError "no cache")
    end
|}.

Definition auth_grant : string := marshalSSHCert (SSHKey "ssh-rsa" "n") (mkSSHBody "" 1 UserCert "root" ["root"] 0 0 [] "").
Definition auth_files : gmap string node :=
  list_to_map [("/tmp", Dir); (SpireSetupPath, File "setup" 0 0); (ClusterConfigPath, File "conf" 0 0);
    ("/etc/homeworld/config/keyserver.domain", File "ks" 0 0);
    (GrantingCertPath, File (pem_cert (sample_der node_key "n" 0 1)) 0 0); (GrantingKeyPath, File (pem_key node_key) 0 0)].
Definition auth_answers0 : Answers :=
  map (λ s, Ok (200, Ok s)) [ssh_MarshalAuthorizedKey (SSHKey "ssh-rsa" "ca"); "conf";
    Marshal_strings [""]; Marshal_strings [""; auth_grant]].
Definition auth_world : AW :=
  mkWorld (with_commands (answering [Succeeded "[]"]) [] (with_fs auth_files (with_entropy ["r"] (os0 0)))) (store0, auth_answers0).

Example auth_ex :
  let w := (auth_cycle sample_endpoint auth_world).2 in
  (map (λ v, metric w v ∅) [keyCheck; fetchCheck; authCheck; grantCheck],
   map (λ dns, metric w sshCheck (server_labels dns)) ["sup.ext"; "m.ext"; "w.ext"], fs (os w) !! "/tmp/krb5cc_keygateway_checker_000000001")
  = ([bit true; bit true; bit true; bit true], [bit true; bit true; bit false], None).
Proof. vm_compute. reflexivity. Qed.

#[export] Program Instance auth_calm : CalmAuth (Store * Answers).
Next Obligation. intros. split_and!; intros w; [by eexists|done|unfold later; done]. Qed.
Next Obligation.
  intros args env. simpl. destruct (List.find _ env); [|apply quiet_ret]. apply quiet_os; os_frame.
Qed.
Next Obligation. intros. apply quiet_ret. Qed.
Next Obligation. intros. apply quiet_ret. Qed.
Next Obligation. intros. apply quiet_ret. Qed.
Next Obligation. intros. apply quiet_ret. Qed.
Next Obligation. intros. apply quiet_ret. Qed.

(** The cycle of [auth_ex] comes to its end. *)
Lemma auth_cycle_spec_witness : ∃ w', auth_cycle sample_endpoint auth_world = (Return tt, w') ∧ typed w'.
Proof.
  destruct (auth_cycle_spec sample_endpoint auth_world) as (fetched & w1 & E & Hend); [by eexists|apply toy_typed|].
  assert (Hf : (GetPubkey sample_endpoint SSHHostAuthority auth_world).1 = Return (Ok (ssh_MarshalAuthorizedKey (SSHKey "ssh-rsa" "ca"))))
    by (vm_compute; reflexivity).
  rewrite E in Hf. injection Hf as ->. destruct Hend as [[([] & w' & Er & Ht & _) _]|[(why & w' & Ep) _]]; [exists w'; split; [exact Er|exact Ht]|].
  assert (Hr : (auth_cycle sample_endpoint auth_world).1 = Return tt) by (vm_compute; reflexivity).
  rewrite Ep in Hr. discriminate Hr.
Defined.

Lemma attemptSSHAccess_certified_witness :
  ∃ c k body, host_key c = SSHCertificate k body ∧ ssh_CertType body = HostCert ∧
    ssh_Marshal (SignatureKey body) = ssh_Marshal (SSHKey "ssh-rsa" "ca").
Proof.
  destruct (attemptSSHAccess_certified node_key (SSHKey "ssh-rsa" "n", mkSSHBody "" 1 UserCert "root" ["root"] 0 0 [] "")
    (SSHKey "ssh-rsa" "ca") "m.ext" auth_world auth_world) as (c & k & body & Hk & Ht & _ & Hm & _).
  - vm_compute. reflexivity.
  - exists c, k, body. split; [exact Hk|]. split; [exact Ht|]. exact Hm.
Defined.
End SampleAuth.
